(* ===== verification/_CoqProject ===== *)
-Q . S2P
Prelude.v
Unicode.v
GoStrings.v
FilePath.v
RouteMap.v
Circuit.v
Worker.v
Pool.v
PoolManager.v
Ipc.v
Json.v
GoWorker.v
Dashboard.v
Ecommerce.v
Landpage.v
Drainer.v
RateLimiter.v
Gateway.v
Dispatcher.v
DispatchFacts.v
Metrics.v
Arrow.v
Shm.v
ClientIP.v
Server.v
Outcome.v
Examples.v
Runtime.v
Provision.v
Lifecycle.v
Rolling.v
Uds.v
Concurrent.v
Pipe.v
ConnPool.v
Jwt.v
WebSocket.v
Stream.v
Heartbeat.v
Monitor.v
Config.v
Regexp.v
Scanner.v
Generated.v
Process.v
WinProcess.v
Logs.v
Main.v
Startup.v
Watcher.v
Output.v
Schema.v
Tui.v
Wiring.v
Stack.v
Cli.v
Recovery.v
Project.v
