(* ===== verification/Prelude.v ===== *)
(** * vyx: a verification library of the core orchestrator

    vyx is an application server: one Go process (the core) accepts HTTP
    requests, checks them, and hands them over a local socket to worker
    processes in other languages, which it starts, watches and stops.  This
    library translates the logic of the core ([core/] of the repository), of
    the annotation scanner ([scanner/]), of the command-line tools ([cmd/])
    and of the Go workers among the examples ([examples/]) into Rocq
    definitions and proves theorems about them.

    ** The parts and how they interact

    Before the server runs, the scanner ([Scanner], over the regular
    expressions of [Regexp]) reads route annotations out of source files,
    checks them and writes the route map, for the tools a developer runs
    ([Cli]); [Generated] puts that map under the dispatcher.  The main program
    loads the configuration ([Config]) and builds everything from it
    ([Wiring]), starts the workers, waits for their handshakes, serves, and on
    a signal shuts everything down ([Main]); [Watcher] restarts workers when
    their files change, and [Startup] joins these to the lifecycle service.

    A request comes in through the server ([Server]), is counted by the rate
    limiter ([RateLimiter]) under the address that [ClientIP] resolves, and
    reaches the dispatcher ([Dispatcher]); a WebSocket session goes through
    [WebSocket] instead.  The dispatcher looks the route up in the trie
    ([RouteMap]), asks the route's breaker ([Circuit]), the drainer
    ([Drainer]), the token validator ([Jwt]) and the schema validator
    ([Schema]), picks a worker from its pool ([Pool]) and exchanges one message
    with it over the transport ([Uds]), which frames messages on a socket
    ([Ipc]); [ConnPool] is the client side's pool of connections.  On the other
    side the lifecycle service ([Lifecycle]) starts and stops the workers
    ([Worker]) through the process manager ([Process]), alone or in pools
    ([PoolManager]), after the runtime they need is provisioned ([Runtime],
    [Provision]);
    the heartbeat loops and the handshake ([Heartbeat]) report to it, and the
    monitor ([Monitor]) restarts.  [Stream] holds the codec selection and the
    streaming of large payloads, [Arrow] a codec for them and [Shm] the shared
    memory they may travel in; the Windows build has the transport of [Pipe] and
    starts and stops processes as in [WinProcess].
    [Metrics] counts what the dispatcher does.  What workers print goes line by line to the
    log multiplexer ([Logs], [Output]) and from there to the terminal
    dashboard ([Tui]); a goroutine that panics is logged ([Recovery]).

    At the other end of the socket are the workers: [GoWorker] is the
    program of a Go worker with its protocol loop, [Dashboard], [Ecommerce]
    and [Landpage] are three applications on it, over the JSON values of
    [Json], and [Examples] puts a worker behind the gateway.

    ** The files

    Paths are under [src/core/] unless they say otherwise.

    - [Prelude] (this file): hint database, tactics, 64-bit integers and
      times, Go errors ([errors.Is], [errors.As], wrapping), how a context
      ends, panics ([outcome]), runs of a component, list lemmas, bytes.
    - [Unicode], [GoStrings], [FilePath]: runes and UTF-8, the functions of
      Go's [strings], [net.SplitHostPort] and [path/filepath].
    - [RouteMap]: [domain/gateway/route.go].
    - [Circuit]: [domain/circuit/breaker.go], breaker and registry.
    - [Worker]: [domain/worker], the heap of workers, and
      [infrastructure/repository/memory_worker_repository.go].
    - [Pool], [PoolManager]: [domain/pool/pool.go] and [manager.go]; the class
      [WorkerManager] is the [worker.Manager] interface.
    - [Ipc]: [domain/ipc/message.go] and [infrastructure/ipc/framing].
    - [Drainer]: [application/lifecycle/drainer.go].
    - [RateLimiter]: [application/gateway/ratelimiter.go].
    - [Gateway]: [domain/gateway/types.go], [errors.go], and the listeners and
      hooks of [application/gateway].
    - [Dispatcher]: [application/gateway/dispatcher.go]; [DispatchFacts] its
      theorems and a concrete gateway that the witnesses share.
    - [ClientIP]: [application/gateway/clientip.go].
    - [Server]: [infrastructure/gateway/server.go] and [cors.go]; [Outcome]:
      what it answers, as a function without the pipeline.
    - [Jwt], [Schema], [WebSocket]: [jwt.go], [schema.go] and [websocket.go] of
      [infrastructure/gateway].
    - [Runtime], [Provision]: [infrastructure/runtime/runtime.go], the
      choices and the installers.
    - [Metrics]: [domain/metrics], [infrastructure/metrics/prometheus.go] and
      the dispatcher's use of them.
    - [Arrow]: [infrastructure/ipc/codec/arrow.go]; [Shm]:
      [infrastructure/ipc/shm]; [Pipe]: [uds/named_pipe_windows.go] of
      [infrastructure/ipc].
    - [Lifecycle]: [application/lifecycle/service.go].
    - [Process], [WinProcess]: [infrastructure/process/manager.go] with
      [manager_unix.go] and with [manager_windows.go], under the lifecycle
      service.
    - [Rolling]: lifecycle service and dispatcher together, and the reload
      that SIGUSR1 starts.
    - [Uds]: [infrastructure/ipc/uds/listener.go], and the transport under the
      dispatcher, and [client.go]; [ConnPool]: [infrastructure/ipc/uds/pool.go].
    - [Concurrent]: the dispatcher as turns of requests that interleave with
      each other and with the stopping of workers.
    - [Stream]: [infrastructure/ipc/codec/selector.go] and [stream.go].
    - [Heartbeat]: [application/heartbeat] and [application/handshake].
    - [Monitor]: [application/monitor/monitor.go], with the heartbeat loop
      and the lifecycle service.
    - [Config]: [domain/config/config.go] and [infrastructure/config/loader.go].
    - [Regexp]: the regular expressions of the scanner and their leftmost
      match; [Scanner]: [src/scanner/], parsers, validator and generator;
      [Generated]: the map it generates under the dispatcher.
    - [Logs]: [infrastructure/log] (ring, subscribers, sources, redaction);
      [Output]: process manager, multiplexer and viewer together.
    - [Main], [Startup], [Watcher]: [cmd/vyx/main.go], the start, the shutdown
      and the hot reload.
    - [Wiring]: [runServer] and the setup functions of [cmd/vyx/main.go],
      [Config] and [New] of [infrastructure/gateway/server.go].
    - [Stack]: the HTTP stack of the gateway that [Wiring] builds; [Project]:
      the annotation tool and that gateway one after the other.
    - [Tui]: [cmd/tui], the model of the log viewer.
    - [Cli]: [src/cmd/vyx], [src/cmd/annotate] and the subcommands of
      [cmd/vyx/main.go].
    - [Recovery]: [infrastructure/recovery], [infrastructure/logger].
    - [GoWorker], [Dashboard], [Ecommerce], [Landpage], [Examples]: the Go
      workers of [src/examples]; [Json]: the values of [encoding/json] they
      use, and base64.

    A definition has the name of the Go function, type or field it stands for;
    a part of a function that is a definition of its own (a loop body, a
    branch) says so in its comment.

    ** How the code is modelled

    State is passed explicitly.  A struct is a record, a map a [gmap], a slice
    a list; where pointers are shared and it matters - workers, breakers, wait
    groups, connections, heartbeat loops - there is a heap or store and the
    maps hold addresses.  [int], [int64] and durations are [Z] with their
    wrap-around ([+64], [-64]); lengths that cannot come near the bound are
    left exact.  Times are [Z] in nanoseconds and a call takes the clock's
    readings as an argument.  Errors are values of [error]; a nil dereference,
    a negative wait group or an index out of range is [Panic].  The order in
    which a map is ranged over is an argument.

    A mutex-protected method is one atomic step.  What other goroutines do
    while a call waits is an argument as well: what happens during a [Drain] -
    drainer calls, turns of the goroutine in [wg.Wait] and of the [select], the
    end of the context - the agenda of a [Receive], which may end its context
    too, the rounds of a loop; the theorems hold for all of them.  A context
    that outlives the call - the one a heartbeat loop runs under - is a name
    ([Context]), and a theorem says which contexts have ended.  Where a method releases its lock half-way
    ([ConnPool]) its parts are steps of a relation.  [Dispatch] is one step in
    [Dispatcher]; [Concurrent] splits it at its calls on shared parts, proves
    that the pieces run in a row are [Dispatch], and lets them interleave.

    Interfaces of the code are type classes ([WorkerManager], [Transport],
    [Endpoints], [ReceiverStarter], [LifecycleService], [ClientConn]); so are
    the operating system and libraries with a state ([SocketOS], [ProcOS] with
    its two platforms [UnixOS] and [WindowsOS], [Installer], [SchemaLib],
    [Shell], [CliOS], [ShmOS], [PipeOS], [Prometheus], [ArrowLib]), with what
    is documented of them in a second class of laws ([ShmLaws]; [CliLaws], of
    files inside a directory without links; [ArrowLaws], of columns of the
    right type and length; [PlainFile] in [Project], of one regular file).
    Go's standard library is written out where the code calls it (runes and
    UTF-8 in [Unicode], the mux and the bodies of net/http in [Server] and
    [Stack]).  Other code that is not in the repository -
    JSON, YAML, JWT parsing, IP parsing, media types - is a parameter; each
    theorem that relies on its behaviour says on what, and its witness
    instantiates it.

    ** The theorems

    - The whole program: from an annotation in the sources to an HTTP request
      ([Project.annotations_protect_end_to_end]), and what the client gets on every
      branch ([Outcome], [Stack.client_gets_answer]).
    - What a request goes through: a worker hears only of checked requests, the
      counters balance on every path, each exchange is recorded once in the
      breaker of its own route, the server admits exactly what its gates say,
      errors and headers do not leak ([DispatchFacts], [Server]); a WebSocket
      session is admitted under the same conditions ([WebSocket]), a token
      under those of [Jwt]; and a gateway that got through its setup does all
      that with a secret worth the name ([Wiring]).
    - What is left of this when requests interleave: nothing unchecked gets
      through and the counters still count ([Concurrent]); but answers go by
      order, a drain misses requests past its check, and a clean-up can make
      requests panic.
    - What components promise: look-up equals a reference semantics without a
      trie, a finite map refines the repository, framing round-trips under any
      fragmentation, the demultiplexer is first in first out by class, the
      breaker trips at its threshold, the limiter admits at most twice its
      limit in a window, selection is fair or least loaded, pools stay within
      their size, a drain waits and returns, the last event of a worker tells its state,
      a reload is all or nothing, a connection is never in use twice, a
      regular expression finds its leftmost match, the schema cache is
      transparent, redaction terminates and leaves no secret value, rows
      read back from Arrow as the codec stored them, a store of shared memory
      tracks only what is mapped ([Shm]).
    - What the workers do: a Go worker answers every message once and in order
      ([GoWorker]), the dashboard keeps strangers out, leaks no password and
      loses no account ([Dashboard]), a cart counts ([Ecommerce]).
    - What the program does as a whole: what is generated is what is served
      ([Generated]), the start waits a bounded time for the workers and the
      server opens only afterwards, what a shutdown does to requests under
      way ([Startup]), which files restart which worker ([Watcher]), and that
      the viewer shows the last lines printed ([Output], [Tui]).
    - What goes wrong: how unauthenticated requests wedge a breaker, why a
      restarted worker serves nothing, why a crashed worker is never restarted
      and one that exited cannot be on Unix, though on Windows it can,
      how a restart leaves two heartbeat loops or, by SIGUSR1, none ([Main]),
      how a request that comes too soon spoils a drain ([Drainer]), why the first of several replicas is unreachable,
      what becomes of a worker's answer behind the gateway ([Examples]), that
      SIGHUP reloads nothing ([Wiring]), what the build announces and what it
      writes ([Cli]), that no runtime is ever provisioned ([Cli],
      [Provision]), how gauges drift ([Metrics]) and handles are closed twice
      ([Pipe]), and more; these are proved like the others, for every state and input
      they speak of.

    ** Bounds and fuel

    [PoolManager.itoa] runs with fuel 19: an [int] has at most 19 digits.
    [Stream.chunk_loop] runs with the payload's length: each round takes at
    least one byte.  [Logs.redact_loop] runs with the length of the line plus
    one, which [Logs.redact_loop_terminates] proves enough.
    [Scanner.unquote_loop] runs with the length of the literal: each round
    takes at least one byte.  The rounds of the handshake wait are bounded by
    the timeout and the pause ([Startup.handshake_wait_bounded]).  The loop of a
    worker ([GoWorker.loop]) ends when its fuel exceeds the bytes of the
    connection: each round reads at least one, and
    [GoWorker.worker_answers_in_order] has its result for any such fuel.  All other
    recursion is structural.

    ** Not modelled, and the plan

    Left out for good: network and process I/O, rendering in the terminal,
    the encoders of log lines, the usage text of the flag package, the
    MessagePack codec (two calls of its library), [ListenAndServe] and the
    TLS setup of net/http.  Log lines inside modelled
    functions are left out, since nothing depends on them; metrics are in
    [Metrics].  Copies have no definitions of their own: [ipc/shm_root_origin]
    and the [dial_windows.go] of three examples.  The workers in other
    languages than Go, the bindings and the frontends are not modelled.

    What may still be added: the sessions of [WebSocket] run against the
    requests of [Stack]. *)
From stdpp Require Export base tactics option list gmap sets strings relations pretty.
From Stdlib Require Export ZArith Lia.
From Stdlib Require Export Ascii.


(** ** Hint database and tactics *)

Create HintDb vyx discriminated.
Create Rewrite HintDb vyx.
#[export] Hint Extern 2 (_ <= _)%Z => lia : vyx.
#[export] Hint Extern 2 (_ < _)%Z => lia : vyx.

(** Case analysis on the boolean of the first [if] or [match] found. *)
Ltac case_if :=
  match goal with
  | |- context [if ?b then _ else _] => destruct b eqn:?
  | H : context [if ?b then _ else _] |- _ => destruct b eqn:?
  end.

(** Turn boolean comparisons in the context into propositions. *)
Ltac bool_to_prop :=
  repeat match goal with
  | H : (_ && _) = true |- _ => apply andb_true_iff in H as [? ?]
  | H : (_ || _) = false |- _ => apply orb_false_iff in H as [? ?]
  | H : negb _ = true |- _ => apply negb_true_iff in H
  | H : negb _ = false |- _ => apply negb_false_iff in H
  | H : (_ <? _)%Z = true |- _ => apply Z.ltb_lt in H
  | H : (_ <? _)%Z = false |- _ => apply Z.ltb_ge in H
  | H : (_ <=? _)%Z = true |- _ => apply Z.leb_le in H
  | H : (_ <=? _)%Z = false |- _ => apply Z.leb_gt in H
  | H : (_ =? _)%Z = true |- _ => apply Z.eqb_eq in H
  | H : (_ =? _)%Z = false |- _ => apply Z.eqb_neq in H
  | H : String.eqb _ _ = true |- _ => apply String.eqb_eq in H
  | H : String.eqb _ _ = false |- _ => apply String.eqb_neq in H
  | H : bool_decide _ = true |- _ => apply bool_decide_eq_true_1 in H
  | H : bool_decide _ = false |- _ => apply bool_decide_eq_false_1 in H
  end.

(** Split every [if] of the goal and context, then try arithmetic. *)
Ltac split_ifs := repeat (case_if; bool_to_prop; simplify_eq/=).

(** Prove a decidable proposition by evaluating its decision procedure. *)
Ltac by_compute := apply (bool_decide_unpack _); vm_compute; exact I.

(** ** Go integers: [int], [int64] and [time.Duration] are 64 bits wide *)

Declare Scope go_scope.
Delimit Scope go_scope with go.

Definition wrap64 (z : Z) : Z := (z + 2 ^ 63) mod 2 ^ 64 - 2 ^ 63.
Definition int64 (z : Z) : Prop := (- 2 ^ 63 <= z < 2 ^ 63)%Z.

(** Go's [+] and [-] on 64-bit integers wrap around. *)
Notation "x +64 y" := (wrap64 (x + y)) (at level 50, left associativity) : go_scope.
Notation "x -64 y" := (wrap64 (x - y)) (at level 50, left associativity) : go_scope.

Lemma wrap64_range z : int64 (wrap64 z).
Proof.
  unfold wrap64, int64.
  pose proof (Z.mod_pos_bound (z + 2 ^ 63) (2 ^ 64) ltac:(lia)). lia.
Qed.

Lemma wrap64_id z : int64 z -> wrap64 z = z.
Proof. unfold wrap64, int64. intros. rewrite Z.mod_small; lia. Qed.

#[export] Hint Resolve wrap64_range : vyx.
#[export] Hint Rewrite wrap64_id using (unfold int64; lia) : vyx.

(** [time.Time.Sub] saturates at the ends of [time.Duration]; times and
    durations are nanoseconds. *)
Definition time_sub (a b : Z) : Z := Z.max (- 2 ^ 63) (Z.min (2 ^ 63 - 1) (a - b)).
Definition second : Z := 10 ^ 9.

Lemma time_sub_lt a b d : (0 <= d < 2 ^ 63)%Z -> (time_sub a b < d <-> a - b < d)%Z.
Proof. unfold time_sub. lia. Qed.
Lemma time_sub_ge a b d : (0 <= d < 2 ^ 63)%Z -> (d <= time_sub a b <-> d <= a - b)%Z.
Proof. unfold time_sub. lia. Qed.

(** ** Go errors

    [Sentinel] is a package-level [errors.New] value, compared by identity
    (its qualified name); [NewErr] is an error made where it is returned;
    [WrapErr] is [fmt.Errorf] with one [%w]; [Validation] is a
    [*gateway.ValidationError] with its (field, message) details. *)
Inductive error :=
  | Sentinel (name text : string)
  | NewErr (text : string)
  | WrapErr (pre : string) (inner : error) (post : string)
  | Validation (details : list (string * string)).

#[export] Instance error_eq_dec : EqDecision error.
Proof. solve_decision. Defined.

Definition ErrSchemaValidation :=
  Sentinel "gateway.ErrSchemaValidation" "validation failed".

(** [ValidationError.Error]. *)
Definition detail_text (d : string * string) : string :=
  if String.eqb d.1 "" then d.2 else String.append d.1 (String.append ": " d.2).
Definition validation_text (details : list (string * string)) : string :=
  String.append "validation failed: " (String.concat "; " (detail_text <$> details)).

Fixpoint err_text (e : error) : string :=
  match e with
  | Sentinel _ t | NewErr t => t
  | WrapErr pre e' post => String.append pre (String.append (err_text e') post)
  | Validation details => validation_text details
  end.

(** ** Contexts

    A [context.Context] by its identity, and the two ways it ends: somebody
    cancels it or its deadline passes.  [Err] tells which; a context derived
    from another one ends with it, for the same reason. *)
Definition Context := nat.
Inductive context_end := ContextCanceled | ContextDeadline.
#[export] Instance context_end_eq_dec : EqDecision context_end.
Proof. solve_decision. Defined.

Definition Canceled := Sentinel "context.Canceled" "context canceled".
Definition DeadlineExceeded := Sentinel "context.DeadlineExceeded" "context deadline exceeded".
Definition ctx_Err (e : context_end) : error :=
  match e with ContextCanceled => Canceled | ContextDeadline => DeadlineExceeded end.

(** [errors.Is(e, target)] for a sentinel target; a [ValidationError] has an
    [Is] method that answers for [ErrSchemaValidation]. *)
Fixpoint errors_is (e target : error) : bool :=
  bool_decide (e = target) ||
  match e with
  | WrapErr _ e' _ => errors_is e' target
  | Validation _ => bool_decide (target = ErrSchemaValidation)
  | _ => false
  end.

(** [errors.As(e, &ve)] for a [*ValidationError] variable. *)
Fixpoint errors_as_validation (e : error) : option (list (string * string)) :=
  match e with
  | Validation details => Some details
  | WrapErr _ e' _ => errors_as_validation e'
  | _ => None
  end.

(** A call of a Go function either returns or panics. *)
Inductive outcome (A : Type) :=
  | Ret (a : A)
  | Panic (reason : string).
Arguments Ret {A} a.
Arguments Panic {A} reason.

Definition outcome_bind {A B} (f : A -> outcome B) (o : outcome A) : outcome B :=
  match o with Ret a => f a | Panic r => Panic r end.
#[export] Instance outcome_mbind : MBind outcome := @outcome_bind.
#[export] Instance outcome_mret : MRet outcome := @Ret.
#[export] Instance outcome_fmap : FMap outcome := fun A B f => outcome_bind (fun a => Ret (f a)).

Lemma fmap_Ret {A B} (f : A -> B) (o : outcome A) b :
  f <$> o = Ret b -> exists a, o = Ret a /\ b = f a.
Proof. destruct o; [|done]. intros [= <-]. by eexists. Qed.

(** [(value, error)] results whose value is meaningless when the error is set. *)
Inductive result (A : Type) :=
  | Ok (a : A)
  | Err (e : error).
Arguments Ok {A} a.
Arguments Err {A} e.

(** ** Runs of a component: a list of operations folded over its state *)
Section Runs.
Context {S Op : Type} (step : S -> Op -> S).

Definition run (ops : list Op) (s : S) : S := foldl step s ops.

Lemma run_app ops1 ops2 s : run (ops1 ++ ops2) s = run ops2 (run ops1 s).
Proof. unfold run. apply foldl_app. Qed.

Lemma run_invariant (I : S -> Prop) :
  (forall s op, I s -> I (step s op)) -> forall ops s, I s -> I (run ops s).
Proof. intros Hstep ops. induction ops; simpl; auto. Qed.
End Runs.

(** ** Generic facts on lists *)

Lemma NoDup_snoc {A} (l : list A) x : NoDup l -> x ∉ l -> NoDup (l ++ [x]).
Proof.
  intros Hl Hx. apply NoDup_app. split_and!; [done| |apply NoDup_singleton].
  intros y Hy ->%list_elem_of_singleton. done.
Qed.

Lemma last_snoc_eq {A} (l : list A) x : last (l ++ [x]) = Some x.
Proof. by rewrite last_snoc. Qed.

#[export] Hint Rewrite @last_snoc_eq : vyx.

(** The first element on which a partial function is defined, with its value. *)
Fixpoint first_some {A B} (f : A -> option B) (l : list A) : option B :=
  match l with
  | [] => None
  | x :: l' => match f x with Some y => Some y | None => first_some f l' end
  end.

Section FirstSome.
Context {A B : Type}.
Implicit Types (f g : A -> option B) (l : list A).

Lemma first_some_app f l1 l2 :
  first_some f (l1 ++ l2) =
  match first_some f l1 with Some y => Some y | None => first_some f l2 end.
Proof. induction l1 as [|x l1 IH]; simpl; [done|]. by destruct (f x). Qed.

Lemma first_some_fmap {C} (h : C -> A) f (l : list C) :
  first_some f (h <$> l) = first_some (fun x => f (h x)) l.
Proof. induction l as [|x l IH]; [done|]. rewrite fmap_cons. simpl. by rewrite IH. Qed.

Lemma first_some_ext f g l : (forall x, f x = g x) -> first_some f l = first_some g l.
Proof. intros H. induction l as [|x l IH]; simpl; [done|]. by rewrite H, IH. Qed.

Lemma first_some_none f l : (forall x, f x = None) -> first_some f l = None.
Proof. intros H. induction l as [|x l IH]; simpl; [done|]. by rewrite H, IH. Qed.

Lemma first_some_Some f l y :
  first_some f l = Some y -> exists x, x ∈ l /\ f x = Some y.
Proof.
  induction l as [|x l IH]; simpl; [done|]. destruct (f x) eqn:E; intros H.
  - simplify_eq. exists x. split; [by left|done].
  - destruct (IH H) as (x' & ? & ?). exists x'. split; [by right|done].
Qed.
End FirstSome.

Lemma take_of_length_take {A} (l : list A) j : take (length (take j l)) l = take j l.
Proof. revert j. induction l as [|x l IH]; intros [|j]; simpl; [done..|]. by rewrite IH. Qed.

(** ** Bytes: [byte_of] is the conversion [byte(z)] *)

Local Open Scope Z_scope.

Definition byte_of (z : Z) : Ascii.ascii := Ascii.ascii_of_N (Z.to_N (Z.land z 255)).
Definition to_Z (b : Ascii.ascii) : Z := Z.of_N (Ascii.N_of_ascii b).

Lemma to_Z_range b : 0 <= to_Z b < 256.
Proof. unfold to_Z. pose proof (N_ascii_bounded b). lia. Qed.

Lemma to_Z_byte_of z : to_Z (byte_of z) = z mod 256.
Proof.
  unfold to_Z, byte_of. change 255 with (Z.ones 8). rewrite Z.land_ones by lia.
  change (2 ^ 8) with 256. pose proof (Z.mod_pos_bound z 256).
  rewrite N_ascii_embedding by lia. lia.
Qed.

Lemma byte_of_to_Z b : byte_of (to_Z b) = b.
Proof.
  unfold byte_of, to_Z. change 255 with (Z.ones 8). rewrite Z.land_ones by lia.
  pose proof (to_Z_range b) as Hb. unfold to_Z in Hb. rewrite Z.mod_small by lia.
  by rewrite N2Z.id, ascii_N_embedding.
Qed.
