(* ===== verification/Unicode.v ===== *)
(** * Runes: [unicode/utf8] and the parts of [unicode] that vyx's calls of
    [strings] rest on

    A string is a list of bytes; ranging over it decodes them, an invalid byte
    as U+FFFD.  Case mapping is [unicode.To] over the simple mappings of the
    Unicode data, white space is [unicode.IsSpace]. *)
From S2P Require Import Prelude.
Local Open Scope string_scope.
Local Open Scope list_scope.
Local Open Scope Z_scope.

(** The [i]-th byte, 256 behind the end. *)
Definition byte_at (i : nat) (s : string) : Z :=
  match String.get i s with Some a => to_Z a | None => 256 end.
Definition byte_str (z : Z) : string := String (byte_of z) "".
Definition between (lo b hi : Z) : bool := (lo <=? b) && (b <=? hi).
Definition cont (b : Z) : bool := between 128 b 191.

Fixpoint is_ascii (s : string) : bool :=
  match s with "" => true | String a s' => (to_Z a <? 128) && is_ascii s' end.

(** ** UTF-8 *)

Definition RuneError : Z := 65533.
Definition valid_rune (r : Z) : bool := between 0 r 55295 || between 57344 r 1114111.

(** [utf8.DecodeRuneInString] of a string that is not empty: the rune at its
    head and its width. *)
Definition DecodeRune (s : string) : Z * nat :=
  let a := byte_at 0 s in
  let b := byte_at 1 s in
  let c := byte_at 2 s in
  let d := byte_at 3 s in
  if a <? 128 then (a, 1%nat)
  else if between 194 a 223 && cont b then ((a - 192) * 64 + (b - 128), 2%nat)
  else if between 224 a 239 && between (if a =? 224 then 160 else 128) b (if a =? 237 then 159 else 191) && cont c
  then ((a - 224) * 4096 + (b - 128) * 64 + (c - 128), 3%nat)
  else if between 240 a 244 && between (if a =? 240 then 144 else 128) b (if a =? 244 then 143 else 191)
          && cont c && cont d
  then ((a - 240) * 262144 + (b - 128) * 4096 + (c - 128) * 64 + (d - 128), 4%nat)
  else (RuneError, 1%nat).

(** The runes of [range s]; [skip] bytes belong to the last one. *)
Fixpoint runes_from (skip : nat) (s : string) : list Z :=
  match s with
  | "" => []
  | String _ s' =>
      match skip with
      | S k => runes_from k s'
      | O => let '(r, w) := DecodeRune s in r :: runes_from (pred w) s'
      end
  end.
Definition runes : string -> list Z := runes_from 0.

(** [utf8.AppendRune] of a valid rune. *)
Definition utf8 (r : Z) : string :=
  if r <? 128 then byte_str r
  else if r <? 2048 then byte_str (192 + r / 64) +:+ byte_str (128 + r mod 64)
  else if r <? 65536 then
    byte_str (224 + r / 4096) +:+ byte_str (128 + r / 64 mod 64) +:+ byte_str (128 + r mod 64)
  else byte_str (240 + r / 262144) +:+ byte_str (128 + r / 4096 mod 64) +:+ byte_str (128 + r / 64 mod 64)
         +:+ byte_str (128 + r mod 64).
Fixpoint of_runes (rs : list Z) : string :=
  match rs with [] => "" | r :: rs' => utf8 r +:+ of_runes rs' end.

(** ** White space: [unicode.IsSpace] *)

Definition IsSpace (r : Z) : bool :=
  between 9 r 13 || (r =? 32) || (r =? 133) || (r =? 160) || (r =? 5760) || between 8192 r 8202
  || (r =? 8232) || (r =? 8233) || (r =? 8239) || (r =? 8287) || (r =? 12288).
(** The width of the white-space rune at the head of a string that is not
    empty, 0 when there is none. *)
Definition space_width (s : string) : nat :=
  let '(r, w) := DecodeRune s in if IsSpace r then w else 0%nat.

(** ** Case

    The mapping adds the last number to the runes from the first number to
    the second in steps of the third; these are the simple mappings of the
    Unicode data beyond ASCII. *)
Definition maps (r : Z) (e : Z * Z * Z * Z) : bool :=
  let '(lo, hi, step, _) := e in between lo r hi && ((r - lo) mod step =? 0).
Fixpoint To (ranges : list (Z * Z * Z * Z)) (r : Z) : Z :=
  match ranges with
  | [] => r
  | e :: ranges' => if maps r e then r + e.2 else To ranges' r
  end.

Definition UpperRanges : list (Z * Z * Z * Z) :=
  [
    (181, 181, 1, 743); (224, 246, 1, -32); (248, 254, 1, -32); (255, 255, 1, 121); (257, 303, 2, -1);
    (305, 305, 1, -232); (307, 311, 2, -1); (314, 328, 2, -1); (331, 375, 2, -1); (378, 382, 2, -1);
    (383, 383, 1, -300); (384, 384, 1, 195); (387, 389, 2, -1); (392, 392, 1, -1); (396, 396, 1, -1);
    (402, 402, 1, -1); (405, 405, 1, 97); (409, 409, 1, -1); (410, 410, 1, 163); (414, 414, 1, 130);
    (417, 421, 2, -1); (424, 424, 1, -1); (429, 429, 1, -1); (432, 432, 1, -1); (436, 438, 2, -1); (441, 441, 1, -1);
    (445, 445, 1, -1); (447, 447, 1, 56); (453, 453, 1, -1); (454, 454, 1, -2); (456, 456, 1, -1); (457, 457, 1, -2);
    (459, 459, 1, -1); (460, 460, 1, -2); (462, 476, 2, -1); (477, 477, 1, -79); (479, 495, 2, -1); (498, 498, 1, -1);
    (499, 499, 1, -2); (501, 501, 1, -1); (505, 543, 2, -1); (547, 563, 2, -1); (572, 572, 1, -1);
    (575, 576, 1, 10815); (578, 578, 1, -1); (583, 591, 2, -1); (592, 592, 1, 10783); (593, 593, 1, 10780);
    (594, 594, 1, 10782); (595, 595, 1, -210); (596, 596, 1, -206); (598, 599, 1, -205); (601, 601, 1, -202);
    (603, 603, 1, -203); (604, 604, 1, 42319); (608, 608, 1, -205); (609, 609, 1, 42315); (611, 611, 1, -207);
    (613, 613, 1, 42280); (614, 614, 1, 42308); (616, 616, 1, -209); (617, 617, 1, -211); (618, 618, 1, 42308);
    (619, 619, 1, 10743); (620, 620, 1, 42305); (623, 623, 1, -211); (625, 625, 1, 10749); (626, 626, 1, -213);
    (629, 629, 1, -214); (637, 637, 1, 10727); (640, 640, 1, -218); (642, 642, 1, 42307); (643, 643, 1, -218);
    (647, 647, 1, 42282); (648, 648, 1, -218); (649, 649, 1, -69); (650, 651, 1, -217); (652, 652, 1, -71);
    (658, 658, 1, -219); (669, 669, 1, 42261); (670, 670, 1, 42258); (837, 837, 1, 84); (881, 883, 2, -1);
    (887, 887, 1, -1); (891, 893, 1, 130); (940, 940, 1, -38); (941, 943, 1, -37); (945, 961, 1, -32);
    (962, 962, 1, -31); (963, 971, 1, -32); (972, 972, 1, - 64); (973, 974, 1, -63); (976, 976, 1, -62);
    (977, 977, 1, -57); (981, 981, 1, -47); (982, 982, 1, -54); (983, 983, 1, -8); (985, 1007, 2, -1);
    (1008, 1008, 1, -86); (1009, 1009, 1, -80); (1010, 1010, 1, 7); (1011, 1011, 1, -116); (1013, 1013, 1, -96);
    (1016, 1016, 1, -1); (1019, 1019, 1, -1); (1072, 1103, 1, -32); (1104, 1119, 1, -80); (1121, 1153, 2, -1);
    (1163, 1215, 2, -1); (1218, 1230, 2, -1); (1231, 1231, 1, -15); (1233, 1327, 2, -1); (1377, 1414, 1, -48);
    (4304, 4346, 1, 3008); (4349, 4351, 1, 3008); (5112, 5117, 1, -8); (7296, 7296, 1, -6254); (7297, 7297, 1, -6253);
    (7298, 7298, 1, -6244); (7299, 7300, 1, -6242); (7301, 7301, 1, -6243); (7302, 7302, 1, -6236);
    (7303, 7303, 1, -6181); (7304, 7304, 1, 35266); (7545, 7545, 1, 35332); (7549, 7549, 1, 3814);
    (7566, 7566, 1, 35384); (7681, 7829, 2, -1); (7835, 7835, 1, -59); (7841, 7935, 2, -1); (7936, 7943, 1, 8);
    (7952, 7957, 1, 8); (7968, 7975, 1, 8); (7984, 7991, 1, 8); (8000, 8005, 1, 8); (8017, 8023, 2, 8);
    (8032, 8039, 1, 8); (8048, 8049, 1, 74); (8050, 8053, 1, 86); (8054, 8055, 1, 100); (8056, 8057, 1, 128);
    (8058, 8059, 1, 112); (8060, 8061, 1, 126); (8064, 8071, 1, 8); (8080, 8087, 1, 8); (8096, 8103, 1, 8);
    (8112, 8113, 1, 8); (8115, 8115, 1, 9); (8126, 8126, 1, -7205); (8131, 8131, 1, 9); (8144, 8145, 1, 8);
    (8160, 8161, 1, 8); (8165, 8165, 1, 7); (8179, 8179, 1, 9); (8526, 8526, 1, -28); (8560, 8575, 1, -16);
    (8580, 8580, 1, -1); (9424, 9449, 1, -26); (11312, 11359, 1, -48); (11361, 11361, 1, -1);
    (11365, 11365, 1, -10795); (11366, 11366, 1, -10792); (11368, 11372, 2, -1); (11379, 11379, 1, -1);
    (11382, 11382, 1, -1); (11393, 11491, 2, -1); (11500, 11502, 2, -1); (11507, 11507, 1, -1);
    (11520, 11557, 1, -7264); (11559, 11559, 1, -7264); (11565, 11565, 1, -7264); (42561, 42605, 2, -1);
    (42625, 42651, 2, -1); (42787, 42799, 2, -1); (42803, 42863, 2, -1); (42874, 42876, 2, -1); (42879, 42887, 2, -1);
    (42892, 42892, 1, -1); (42897, 42899, 2, -1); (42900, 42900, 1, 48); (42903, 42921, 2, -1); (42933, 42947, 2, -1);
    (42952, 42954, 2, -1); (42961, 42961, 1, -1); (42967, 42969, 2, -1); (42998, 42998, 1, -1);
    (43859, 43859, 1, -928); (43888, 43967, 1, -38864); (65345, 65370, 1, -32); (66600, 66639, 1, -40);
    (66776, 66811, 1, -40); (66967, 66977, 1, -39); (66979, 66993, 1, -39); (66995, 67001, 1, -39);
    (67003, 67004, 1, -39); (68800, 68850, 1, - 64); (71872, 71903, 1, -32); (93792, 93823, 1, -32);
    (125218, 125251, 1, -34)
  ].

Definition LowerRanges : list (Z * Z * Z * Z) :=
  [
    (192, 214, 1, 32); (216, 222, 1, 32); (256, 302, 2, 1); (304, 304, 1, -199); (306, 310, 2, 1); (313, 327, 2, 1);
    (330, 374, 2, 1); (376, 376, 1, -121); (377, 381, 2, 1); (385, 385, 1, 210); (386, 388, 2, 1); (390, 390, 1, 206);
    (391, 391, 1, 1); (393, 394, 1, 205); (395, 395, 1, 1); (398, 398, 1, 79); (399, 399, 1, 202); (400, 400, 1, 203);
    (401, 401, 1, 1); (403, 403, 1, 205); (404, 404, 1, 207); (406, 406, 1, 211); (407, 407, 1, 209);
    (408, 408, 1, 1); (412, 412, 1, 211); (413, 413, 1, 213); (415, 415, 1, 214); (416, 420, 2, 1);
    (422, 422, 1, 218); (423, 423, 1, 1); (425, 425, 1, 218); (428, 428, 1, 1); (430, 430, 1, 218); (431, 431, 1, 1);
    (433, 434, 1, 217); (435, 437, 2, 1); (439, 439, 1, 219); (440, 440, 1, 1); (444, 444, 1, 1); (452, 452, 1, 2);
    (453, 453, 1, 1); (455, 455, 1, 2); (456, 456, 1, 1); (458, 458, 1, 2); (459, 475, 2, 1); (478, 494, 2, 1);
    (497, 497, 1, 2); (498, 500, 2, 1); (502, 502, 1, -97); (503, 503, 1, -56); (504, 542, 2, 1); (544, 544, 1, -130);
    (546, 562, 2, 1); (570, 570, 1, 10795); (571, 571, 1, 1); (573, 573, 1, -163); (574, 574, 1, 10792);
    (577, 577, 1, 1); (579, 579, 1, -195); (580, 580, 1, 69); (581, 581, 1, 71); (582, 590, 2, 1); (880, 882, 2, 1);
    (886, 886, 1, 1); (895, 895, 1, 116); (902, 902, 1, 38); (904, 906, 1, 37); (908, 908, 1, 64); (910, 911, 1, 63);
    (913, 929, 1, 32); (931, 939, 1, 32); (975, 975, 1, 8); (984, 1006, 2, 1); (1012, 1012, 1, -60);
    (1015, 1015, 1, 1); (1017, 1017, 1, -7); (1018, 1018, 1, 1); (1021, 1023, 1, -130); (1024, 1039, 1, 80);
    (1040, 1071, 1, 32); (1120, 1152, 2, 1); (1162, 1214, 2, 1); (1216, 1216, 1, 15); (1217, 1229, 2, 1);
    (1232, 1326, 2, 1); (1329, 1366, 1, 48); (4256, 4293, 1, 7264); (4295, 4295, 1, 7264); (4301, 4301, 1, 7264);
    (5024, 5103, 1, 38864); (5104, 5109, 1, 8); (7312, 7354, 1, -3008); (7357, 7359, 1, -3008); (7680, 7828, 2, 1);
    (7838, 7838, 1, -7615); (7840, 7934, 2, 1); (7944, 7951, 1, -8); (7960, 7965, 1, -8); (7976, 7983, 1, -8);
    (7992, 7999, 1, -8); (8008, 8013, 1, -8); (8025, 8031, 2, -8); (8040, 8047, 1, -8); (8072, 8079, 1, -8);
    (8088, 8095, 1, -8); (8104, 8111, 1, -8); (8120, 8121, 1, -8); (8122, 8123, 1, -74); (8124, 8124, 1, -9);
    (8136, 8139, 1, -86); (8140, 8140, 1, -9); (8152, 8153, 1, -8); (8154, 8155, 1, -100); (8168, 8169, 1, -8);
    (8170, 8171, 1, -112); (8172, 8172, 1, -7); (8184, 8185, 1, -128); (8186, 8187, 1, -126); (8188, 8188, 1, -9);
    (8486, 8486, 1, -7517); (8490, 8490, 1, -8383); (8491, 8491, 1, -8262); (8498, 8498, 1, 28); (8544, 8559, 1, 16);
    (8579, 8579, 1, 1); (9398, 9423, 1, 26); (11264, 11311, 1, 48); (11360, 11360, 1, 1); (11362, 11362, 1, -10743);
    (11363, 11363, 1, -3814); (11364, 11364, 1, -10727); (11367, 11371, 2, 1); (11373, 11373, 1, -10780);
    (11374, 11374, 1, -10749); (11375, 11375, 1, -10783); (11376, 11376, 1, -10782); (11378, 11378, 1, 1);
    (11381, 11381, 1, 1); (11390, 11391, 1, -10815); (11392, 11490, 2, 1); (11499, 11501, 2, 1); (11506, 11506, 1, 1);
    (42560, 42604, 2, 1); (42624, 42650, 2, 1); (42786, 42798, 2, 1); (42802, 42862, 2, 1); (42873, 42875, 2, 1);
    (42877, 42877, 1, -35332); (42878, 42886, 2, 1); (42891, 42891, 1, 1); (42893, 42893, 1, -42280);
    (42896, 42898, 2, 1); (42902, 42920, 2, 1); (42922, 42922, 1, -42308); (42923, 42923, 1, -42319);
    (42924, 42924, 1, -42315); (42925, 42925, 1, -42305); (42926, 42926, 1, -42308); (42928, 42928, 1, -42258);
    (42929, 42929, 1, -42282); (42930, 42930, 1, -42261); (42931, 42931, 1, 928); (42932, 42946, 2, 1);
    (42948, 42948, 1, -48); (42949, 42949, 1, -42307); (42950, 42950, 1, -35384); (42951, 42953, 2, 1);
    (42960, 42960, 1, 1); (42966, 42968, 2, 1); (42997, 42997, 1, 1); (65313, 65338, 1, 32); (66560, 66599, 1, 40);
    (66736, 66771, 1, 40); (66928, 66938, 1, 39); (66940, 66954, 1, 39); (66956, 66962, 1, 39); (66964, 66965, 1, 39);
    (68736, 68786, 1, 64); (71840, 71871, 1, 32); (93760, 93791, 1, 32); (125184, 125217, 1, 34)
  ].

(** [unicode.ToUpper] and [unicode.ToLower]. *)
Definition ToUpper (r : Z) : Z :=
  if r <? 128 then if between 97 r 122 then r - 32 else r else To UpperRanges r.
Definition ToLower (r : Z) : Z :=
  if r <? 128 then if between 65 r 90 then r + 32 else r else To LowerRanges r.

(** ** Facts *)

Lemma byte_at_0 a s : byte_at 0 (String a s) = to_Z a.
Proof. done. Qed.
Lemma byte_at_S i a s : byte_at (S i) (String a s) = byte_at i s.
Proof. done. Qed.
Lemma byte_str_app z s : 0 <= z < 256 -> exists a, byte_str z +:+ s = String a s /\ to_Z a = z.
Proof.
  intros Hz. eexists. split; [reflexivity|]. by rewrite to_Z_byte_of, Z.mod_small.
Qed.
Lemma string_cat_assoc (s t u : string) : (s +:+ t) +:+ u = s +:+ (t +:+ u).
Proof. induction s as [|a s IH]; [done|]. change (String a ((s +:+ t) +:+ u) = String a (s +:+ (t +:+ u))). by rewrite IH. Qed.

Ltac decide_bool :=
  repeat match goal with
  | |- context [?a <? ?b] => first [rewrite (proj2 (Z.ltb_lt a b)) by lia | rewrite (proj2 (Z.ltb_ge a b)) by lia]
  | |- context [?a <=? ?b] => first [rewrite (proj2 (Z.leb_le a b)) by lia | rewrite (proj2 (Z.leb_gt a b)) by lia]
  | |- context [?a =? ?b] => first [rewrite (proj2 (Z.eqb_eq a b)) by lia | rewrite (proj2 (Z.eqb_neq a b)) by lia]
  end; cbn [andb orb].

Lemma is_valid r : valid_rune r = true <-> 0 <= r <= 55295 \/ 57344 <= r <= 1114111.
Proof. unfold valid_rune, between. rewrite orb_true_iff, !andb_true_iff, !Z.leb_le. done. Qed.

Lemma digit_spec n k : 0 < k -> 0 <= n / k mod 64 < 64 /\ n / k = 64 * (n / (k * 64)) + n / k mod 64.
Proof.
  intros Hk. split; [by apply Z.mod_pos_bound|]. rewrite <-Z.div_div by lia. by apply Z.div_mod.
Qed.

Ltac take_byte a Ha :=
  match goal with |- context [byte_str ?z +:+ ?s] =>
    first [ match s with context [byte_str _] => fail 1 end
          | destruct (byte_str_app z s) as (a & -> & Ha); [lia|] ]
  end.
Ltac digits r :=
  let H0 := fresh in let E0 := fresh in let H1 := fresh in let E1 := fresh in let H2 := fresh in let E2 := fresh in
  pose proof (digit_spec r 1 ltac:(lia)) as [H0 E0]; rewrite Z.div_1_r in H0, E0; change (1 * 64) with 64 in E0;
  pose proof (digit_spec r 64 ltac:(lia)) as [H1 E1]; change (64 * 64) with 4096 in E1;
  pose proof (digit_spec r 4096 ltac:(lia)) as [H2 E2]; change (4096 * 64) with 262144 in E2.
Ltac decode_bytes :=
  unfold DecodeRune, between, cont, between; rewrite ?byte_at_S, ?byte_at_0.

(** What is encoded decodes to itself, whatever follows. *)
Lemma DecodeRune_utf8 r s :
  valid_rune r = true -> DecodeRune (utf8 r +:+ s) = (r, String.length (utf8 r)).
Proof.
  intros Hr%is_valid. unfold utf8.
  digits r.
  destruct (r <? 128) eqn:E; [|destruct (r <? 2048) eqn:E'; [|destruct (r <? 65536) eqn:E'']]; bool_to_prop;
    rewrite ?string_cat_assoc.
  - take_byte a Ha. decode_bytes. rewrite Ha. by decide_bool.
  - take_byte b Hb. take_byte a Ha. decode_bytes. rewrite Ha, Hb. decide_bool. f_equal. lia.
  - take_byte c Hc. take_byte b Hb. take_byte a Ha. decode_bytes. rewrite Ha, Hb, Hc.
    destruct (_ =? 224) eqn:?, (_ =? 237) eqn:?; bool_to_prop; decide_bool; f_equal; lia.
  - take_byte d Hd. take_byte c Hc. take_byte b Hb. take_byte a Ha. decode_bytes. rewrite Ha, Hb, Hc, Hd.
    destruct (_ =? 240) eqn:?, (_ =? 244) eqn:?; bool_to_prop; decide_bool; f_equal; lia.
Qed.

Lemma runes_skip t s : runes_from (String.length t) (t +:+ s) = runes s.
Proof. induction t as [|a t IH]; [done|]. exact IH. Qed.

Lemma utf8_cons r : exists a t, utf8 r = String a t.
Proof. unfold utf8. repeat case_match; by repeat eexists. Qed.

Lemma runes_utf8 r s : valid_rune r = true -> runes (utf8 r +:+ s) = r :: runes s.
Proof.
  intros Hr. pose proof (DecodeRune_utf8 r s Hr) as HD. destruct (utf8_cons r) as (a & t & E). rewrite E in *.
  change (String a t +:+ s) with (String a (t +:+ s)) in *. unfold runes. cbn [runes_from]. rewrite HD.
  cbn [String.length pred]. by rewrite runes_skip.
Qed.

Lemma runes_of_runes rs : Forall (fun r => valid_rune r = true) rs -> runes (of_runes rs) = rs.
Proof. induction 1 as [|r rs Hr _ IH]; [done|]. cbn [of_runes]. by rewrite runes_utf8, IH. Qed.

Lemma byte_at_range i s : 0 <= byte_at i s <= 256.
Proof.
  unfold byte_at. destruct (String.get i s) as [a|]; [|lia]. pose proof (to_Z_range a). lia.
Qed.

Lemma DecodeRune_valid s : valid_rune (DecodeRune s).1 = true.
Proof.
  apply is_valid. unfold DecodeRune, cont, between. pose proof (byte_at_range 0 s).
  destruct (_ =? 224) eqn:?, (_ =? 237) eqn:?, (_ =? 240) eqn:?, (_ =? 244) eqn:?.
  all: repeat match goal with |- context [if ?b then _ else _] => destruct b eqn:?; cbn [fst]; bool_to_prop end;
    unfold RuneError; lia.
Qed.

Lemma runes_valid s : Forall (fun r => valid_rune r = true) (runes s).
Proof.
  unfold runes. generalize 0%nat. induction s as [|a s IH]; intros k; cbn [runes_from]; [constructor|].
  destruct k as [|k]; [|apply IH]. pose proof (DecodeRune_valid (String a s)) as Hv.
  destruct (DecodeRune _) as [r w]. by constructor.
Qed.

(** The runes of an ASCII string are its bytes, and only of those. *)
Lemma utf8_ascii r s : valid_rune r = true -> is_ascii (utf8 r +:+ s) = (r <? 128) && is_ascii s.
Proof.
  intros Hr%is_valid. unfold utf8. destruct (r <? 128) eqn:E; bool_to_prop.
  - destruct (byte_str_app r s) as (a & -> & Ha); [lia|]. cbn [is_ascii]. rewrite Ha. by decide_bool.
  - digits r.
    destruct (r <? 2048) eqn:E'; [|destruct (r <? 65536) eqn:E'']; bool_to_prop; rewrite !string_cat_assoc.
    all: match goal with |- is_ascii (byte_str ?z +:+ ?t) = _ =>
           destruct (byte_str_app z t) as (a & -> & Ha); [lia|] end.
    all: cbn [is_ascii]; rewrite Ha; by decide_bool.
Qed.

(** *** Case mapping maps runes to runes, and twice is once *)

Definition spread (e : Z * Z * Z * Z) : list Z :=
  let '(lo, hi, step, _) := e in (fun k => lo + step * k) <$> seqZ 0 ((hi - lo) / step + 1).
(** The runs of a table have a step, and every rune of theirs is mapped to a
    rune that the mapping leaves alone. *)
Definition settled (f : Z -> Z) (e : Z * Z * Z * Z) : bool :=
  (0 <? e.1.2) && forallb (fun r => valid_rune (r + e.2) && (f (r + e.2) =? r + e.2)) (spread e).

Lemma maps_spread r e : 0 < e.1.2 -> maps r e = true -> r ∈ spread e.
Proof.
  destruct e as [[[lo hi] step] d]. cbn [fst snd]. intros Hs [Hb Hm%Z.eqb_eq]%andb_true_iff.
  apply andb_true_iff in Hb as [Hlo%Z.leb_le Hhi%Z.leb_le]. apply list_elem_of_fmap.
  exists ((r - lo) / step). pose proof (Z.div_mod (r - lo) step ltac:(lia)). split; [lia|].
  apply elem_of_seqZ. pose proof (Z.div_pos (r - lo) step ltac:(lia) Hs).
  pose proof (Z.div_le_mono (r - lo) (hi - lo) step Hs ltac:(lia)). lia.
Qed.

Lemma To_settles f rs r :
  forallb (settled f) rs = true -> To rs r = r \/ (valid_rune (To rs r) = true /\ f (To rs r) = To rs r).
Proof.
  induction rs as [|e rs IH]; cbn [To forallb]; [by left|]. intros [He Hrs]%andb_true_iff.
  destruct (maps r e) eqn:Em; [|by apply IH]. right.
  apply andb_true_iff in He as [Hs%Z.ltb_lt Hall]. rewrite forallb_forall in Hall.
  pose proof (maps_spread _ _ Hs Em) as Hin%list_elem_of_In. apply Hall in Hin.
  apply andb_true_iff in Hin as [Hv Hf%Z.eqb_eq]. done.
Qed.

Lemma UpperRanges_settled : forallb (settled ToUpper) UpperRanges = true.
Proof. vm_compute. reflexivity. Qed.

Lemma ToUpper_settles r : valid_rune r = true -> valid_rune (ToUpper r) = true /\ ToUpper (ToUpper r) = ToUpper r.
Proof.
  intros Hr. destruct (r <? 128) eqn:E.
  - unfold ToUpper. rewrite E. destruct (between 97 r 122) eqn:Eb; [|by rewrite E, Eb].
    unfold between in *. bool_to_prop. split; [apply is_valid; lia|]. by decide_bool.
  - assert (ToUpper r = To UpperRanges r) as -> by (unfold ToUpper; by rewrite E).
    destruct (To_settles ToUpper UpperRanges r UpperRanges_settled) as [Hr'|]; [|done].
    rewrite Hr'. unfold ToUpper. by rewrite E, Hr'.
Qed.

(** Encoded runes are ASCII bytes if they are ASCII. *)
Lemma of_runes_ascii rs :
  Forall (fun r => valid_rune r = true) rs -> is_ascii (of_runes rs) = forallb (fun r => r <? 128) rs.
Proof. induction 1 as [|r rs Hr _ IH]; [done|]. cbn [of_runes forallb]. by rewrite utf8_ascii, IH. Qed.
