(* ===== verification/GoStrings.v ===== *)
(** * The functions of Go's [strings] package that vyx calls

    Strings are byte strings; case mapping and trimming of white space go over
    their runes. *)
From S2P Require Import Prelude Unicode.
Local Open Scope string_scope.
Local Open Scope list_scope.

#[global] Arguments Ascii.eqb : simpl never.

Definition is_empty (s : string) : bool :=
  match s with EmptyString => true | String _ _ => false end.

(** [strings.ToUpper] and [strings.ToLower]: byte by byte on ASCII strings,
    else [strings.Map], which turns invalid bytes into U+FFFD. *)
Definition upper_ascii (a : ascii) : ascii :=
  let n := Ascii.nat_of_ascii a in
  if (97 <=? n)%nat && (n <=? 122)%nat then Ascii.ascii_of_nat (n - 32) else a.
Definition lower_ascii (a : ascii) : ascii :=
  let n := Ascii.nat_of_ascii a in
  if (65 <=? n)%nat && (n <=? 90)%nat then Ascii.ascii_of_nat (n + 32) else a.

Fixpoint smap (f : ascii -> ascii) (s : string) : string :=
  match s with EmptyString => "" | String a s' => String (f a) (smap f s') end.

Definition to_upper (s : string) : string :=
  if is_ascii s then smap upper_ascii s else of_runes (ToUpper <$> runes s).
Definition to_lower (s : string) : string :=
  if is_ascii s then smap lower_ascii s else of_runes (ToLower <$> runes s).

(** [strings.Split(s, sep)] for a one-byte separator *)
Fixpoint split_on (c : ascii) (s : string) : list string :=
  match s with
  | EmptyString => [""]
  | String a s' =>
      if Ascii.eqb a c then "" :: split_on c s'
      else match split_on c s' with
           | [] => [String a ""]
           | w :: ws => String a w :: ws
           end
  end.

(** [strings.Count(s, c)] for a one-byte [c] *)
Definition count_char (c : ascii) (s : string) : nat := (length (split_on c s) - 1)%nat.

(** [strings.Trim(s, cutset)] for a set of bytes *)
Fixpoint trim_left (p : ascii -> bool) (s : string) : string :=
  match s with
  | EmptyString => ""
  | String a s' => if p a then trim_left p s' else s
  end.
Fixpoint trim_right (p : ascii -> bool) (s : string) : string :=
  match s with
  | EmptyString => ""
  | String a s' =>
      let t := trim_right p s' in
      if is_empty t && p a then "" else String a t
  end.
Definition trim (p : ascii -> bool) (s : string) : string :=
  trim_right p (trim_left p s).

(** [strings.TrimSpace]: the white-space runes at the front, [skip] counting
    the bytes left of one, and those at the end. *)
Fixpoint trim_left_space (skip : nat) (s : string) : string :=
  match s with
  | EmptyString => ""
  | String _ s' =>
      match skip with
      | S k => trim_left_space k s'
      | O => match space_width s with O => s | S k => trim_left_space k s' end
      end
  end.
Definition lone_space (s : string) : bool := (space_width s =? String.length s)%nat.
Fixpoint trim_right_space (s : string) : string :=
  match s with
  | EmptyString => ""
  | String a s' => let t := String a (trim_right_space s') in if lone_space t then "" else t
  end.
Definition trim_space (s : string) : string := trim_right_space (trim_left_space 0 s).

(** [strings.HasPrefix], [strings.HasSuffix], [strings.TrimPrefix],
    [strings.TrimSuffix] *)
Definition has_prefix (s pre : string) : bool := String.prefix pre s.
Fixpoint drop_str (n : nat) (s : string) : string :=
  match n, s with
  | O, _ => s
  | _, EmptyString => ""
  | S n', String _ s' => drop_str n' s'
  end.
Fixpoint take_str (n : nat) (s : string) : string :=
  match n, s with
  | O, _ => ""
  | _, EmptyString => ""
  | S n', String a s' => String a (take_str n' s')
  end.
Definition trim_prefix (s pre : string) : string :=
  if has_prefix s pre then drop_str (String.length pre) s else s.

Fixpoint has_suffix (s suf : string) : bool :=
  String.eqb s suf || match s with EmptyString => false | String _ s' => has_suffix s' suf end.
Definition trim_suffix (s suf : string) : string :=
  if has_suffix s suf then take_str (String.length s - String.length suf) s else s.

(** [strings.Contains] *)
Fixpoint contains (s sub : string) : bool :=
  String.prefix sub s ||
  match s with EmptyString => false | String _ s' => contains s' sub end.

(** [strings.Join] *)
Fixpoint join (sep : string) (l : list string) : string :=
  match l with
  | [] => ""
  | [s] => s
  | s :: l' => s +:+ sep +:+ join sep l'
  end.

Definition has_char (c : ascii) (s : string) : bool := contains s (String c "").

(** ** Facts *)

Lemma smap_smap f g s : smap f (smap g s) = smap (fun a => f (g a)) s.
Proof. induction s; simpl; congruence. Qed.

Lemma smap_ext f g s : (forall a, f a = g a) -> smap f s = smap g s.
Proof. intros H. induction s; simpl; congruence. Qed.

Lemma upper_ascii_idemp a : upper_ascii (upper_ascii a) = upper_ascii a.
Proof. destruct a as [[] [] [] [] [] [] [] []]; reflexivity. Qed.

Lemma ToUpper_fixes_ascii a : (to_Z a < 128)%Z -> ToUpper (to_Z a) = to_Z a -> upper_ascii a = a.
Proof. destruct a as [[] [] [] [] [] [] [] []]; vm_compute; done. Qed.

Lemma smap_ascii s : is_ascii s = true -> is_ascii (smap upper_ascii s) = true.
Proof.
  induction s as [|a s IH]; cbn [is_ascii smap]; [done|]. intros [Ha Hs]%andb_true_iff. rewrite IH by done.
  by destruct a as [[] [] [] [] [] [] [] []].
Qed.

(** A string of runes that are their own upper case. *)
Lemma to_upper_of_runes rs :
  Forall (fun r => valid_rune r = true /\ ToUpper r = r) rs -> to_upper (of_runes rs) = of_runes rs.
Proof.
  intros Hrs. assert (Forall (fun r => valid_rune r = true) rs) as Hv by (eapply Forall_impl; [exact Hrs|by intros ? []]).
  unfold to_upper. rewrite runes_of_runes by done. destruct (is_ascii (of_runes rs)) eqn:Ea.
  - rewrite of_runes_ascii in Ea by done. clear Hv. induction Hrs as [|r rs [Hr Hu] _ IH]; [done|].
    cbn [forallb] in Ea. apply andb_true_iff in Ea as [Ha Ea]. cbn [of_runes]. unfold utf8. rewrite Ha.
    apply is_valid in Hr. bool_to_prop.
    destruct (byte_str_app r (of_runes rs)) as (a & -> & Hz); [lia|]. cbn [smap].
    rewrite IH by done. by rewrite ToUpper_fixes_ascii by (rewrite Hz; done).
  - clear Hv Ea. f_equal. induction Hrs as [|r rs [_ Hu] _ IH]; [done|]. by rewrite fmap_cons, Hu, IH.
Qed.

Lemma to_upper_idemp s : to_upper (to_upper s) = to_upper s.
Proof.
  unfold to_upper at 2 3. destruct (is_ascii s) eqn:E.
  - unfold to_upper. rewrite smap_ascii by done. rewrite smap_smap. apply smap_ext, upper_ascii_idemp.
  - apply to_upper_of_runes, Forall_fmap. eapply Forall_impl; [apply runes_valid|].
    intros r Hr. cbn. by apply ToUpper_settles.
Qed.

(** The Kelvin sign is a "k" in lower case, the long s an "S" in upper case. *)
Example beyond_ascii :
  (to_lower ("websoc" +:+ utf8 8490 +:+ "et"), to_upper ("po" +:+ utf8 383 +:+ "t"), trim_space (utf8 160 +:+ "x" +:+ utf8 12288))
  = ("websocket", "POST", "x").
Proof. vm_compute. reflexivity. Qed.

Lemma string_app_cons a s t : String a s +:+ t = String a (s +:+ t).
Proof. done. Qed.

Lemma string_app_nil_r s : s +:+ "" = s.
Proof. induction s; simpl; [done|]. by rewrite string_app_cons, IHs. Qed.

Lemma length_app_str s t : String.length (s +:+ t) = (String.length s + String.length t)%nat.
Proof. induction s as [|a s IH]; simpl; [done|]. by rewrite IH. Qed.
Lemma string_app_assoc s t u : (s +:+ t) +:+ u = s +:+ (t +:+ u).
Proof. induction s as [|a s IH]; [done|]. rewrite !string_app_cons. by rewrite IH. Qed.

Lemma split_on_nonempty c s : split_on c s <> [].
Proof. destruct s as [|a s]; simpl; [done|]. case_if; [done|]. by destruct (split_on c s). Qed.

Lemma split_on_app_sep c s t :
  split_on c (s +:+ String c t) = split_on c s ++ split_on c t.
Proof.
  induction s as [|a s IH].
  - change ("" +:+ String c t) with (String c t). simpl. by rewrite Ascii.eqb_refl.
  - rewrite string_app_cons. cbn [split_on]. case_if; [by rewrite IH|].
    rewrite IH. destruct (split_on c s) eqn:E; [by apply split_on_nonempty in E|done].
Qed.

Fixpoint free_of (c : ascii) (s : string) : bool :=
  match s with EmptyString => true | String a s' => negb (Ascii.eqb a c) && free_of c s' end.

Lemma split_on_free c s : free_of c s = true -> split_on c s = [s].
Proof.
  induction s as [|a s IH]; simpl; [done|]. intros [Ha Hs]%andb_true_iff.
  apply negb_true_iff in Ha. rewrite Ha, IH; done.
Qed.

Lemma split_on_parts_free c s : Forall (fun w => free_of c w = true) (split_on c s).
Proof.
  induction s as [|a s IH]; simpl; [by repeat constructor|].
  destruct (Ascii.eqb a c) eqn:E; [by constructor|].
  destruct (split_on c s) as [|w ws]; [by repeat constructor; simpl; rewrite E|].
  inversion IH; subst. constructor; [|done]. simpl. by rewrite E.
Qed.

#[export] Hint Rewrite string_app_nil_r to_upper_idemp : vyx.

(** ** Index of a byte, [net.SplitHostPort] *)

Fixpoint index_of (c : ascii) (s : string) : option nat :=
  match s with
  | "" => None
  | String a s' => if Ascii.eqb a c then Some 0%nat else S <$> index_of c s'
  end.
Fixpoint last_index_of (c : ascii) (s : string) : option nat :=
  match s with
  | "" => None
  | String a s' =>
      match last_index_of c s' with
      | Some i => Some (S i)
      | None => if Ascii.eqb a c then Some 0%nat else None
      end
  end.

Definition addr_err (text addr : string) : error := NewErr ("address " +:+ addr +:+ ": " +:+ text).

(** [net.SplitHostPort] of the standard library. *)
Definition SplitHostPort (hostport : string) : result (string * string) :=
  let missingPort := "missing port in address" in
  let tooManyColons := "too many colons in address" in
  let finish host i j k :=
    if has_char "[" (drop_str j hostport) then Err (addr_err "unexpected '[' in address" hostport)
    else if has_char "]" (drop_str k hostport) then Err (addr_err "unexpected ']' in address" hostport)
    else Ok (host, drop_str (S i) hostport) in
  match last_index_of ":" hostport with
  | None => Err (addr_err missingPort hostport)
  | Some i =>
      match String.get 0 hostport with
      | Some "["%char =>
          match index_of "]" hostport with
          | None => Err (addr_err "missing ']' in address" hostport)
          | Some e =>
              if Nat.eqb (S e) (String.length hostport) then Err (addr_err missingPort hostport)
              else if Nat.eqb (S e) i then
                finish (take_str (e - 1) (drop_str 1 hostport)) i 1%nat (S e)
              else match String.get (S e) hostport with
                   | Some ":"%char => Err (addr_err tooManyColons hostport)
                   | _ => Err (addr_err missingPort hostport)
                   end
          end
      | _ =>
          let host := take_str i hostport in
          if has_char ":" host then Err (addr_err tooManyColons hostport)
          else finish host i 0%nat 0%nat
      end
  end.

Example split_v4 : SplitHostPort "10.0.0.1:8080" = Ok ("10.0.0.1", "8080").
Proof. reflexivity. Qed.
Example split_v6 : SplitHostPort "[::1]:80" = Ok ("::1", "80").
Proof. reflexivity. Qed.
Example split_bare_v6 :
  SplitHostPort "::1" = Err (addr_err "too many colons in address" "::1").
Proof. reflexivity. Qed.

Lemma split_on_join c l :
  l <> [] -> Forall (fun w => free_of c w = true) l -> split_on c (join (String c "") l) = l.
Proof.
  intros Hne Hl. induction Hl as [|w l Hw Hl IH]; [done|].
  destruct l as [|w' l']; [by apply split_on_free|].
  change (join (String c "") (w :: w' :: l')) with (w +:+ String c (join (String c "") (w' :: l'))).
  by rewrite split_on_app_sep, split_on_free, IH by done.
Qed.
