(* ===== verification/FilePath.v ===== *)
(** * Go's [path/filepath] on Unix, as far as vyx calls it

    [Clean], [Join], [Dir], [Base], [Ext], [IsAbs] and [Abs]; the working
    directory [os.Getwd] gives is an argument of [Abs]. *)
From S2P Require Import Prelude GoStrings.
Local Open Scope string_scope.
Local Open Scope list_scope.

Definition IsAbs (path : string) : bool := has_prefix path "/".

(** One element of a path; [out] is what has been kept, last element first. *)
Definition clean_elem (rooted : bool) (out : list string) (c : string) : list string :=
  if String.eqb c "" || String.eqb c "." then out
  else if String.eqb c ".." then
    match out with
    | top :: out' => if String.eqb top ".." then ".." :: out else out'
    | [] => if rooted then [] else [".."]
    end
  else c :: out.
Definition clean_elems (rooted : bool) (path : string) : list string :=
  rev (foldl (clean_elem rooted) [] (split_on "/" path)).
Definition Clean (path : string) : string :=
  let body := join "/" (clean_elems (IsAbs path) path) in
  let s := if IsAbs path then "/" +:+ body else body in
  if String.eqb s "" then "." else s.

(** The elements from the first that is not empty. *)
Fixpoint Join (elem : list string) : string :=
  match elem with
  | [] => ""
  | e :: elem' => if String.eqb e "" then Join elem' else Clean (join "/" elem)
  end.

Definition Dir (path : string) : string :=
  Clean (match last_index_of "/" path with Some i => take_str (S i) path | None => "" end).

Definition Abs (Getwd : result string) (path : string) : result string :=
  if IsAbs path then Ok (Clean path)
  else match Getwd with
       | Err e => Err e
       | Ok wd => Ok (Join [wd; path])
       end.

(** The part from the last dot of the last element. *)
Fixpoint ext_of (s : string) : string :=
  match s with
  | "" => ""
  | String a s' =>
      let e := ext_of s' in
      if negb (String.eqb e "") then e
      else if Ascii.eqb a "." && negb (has_char "/" s') then s else ""
  end.
Definition Ext (path : string) : string := ext_of path.

Example clean_examples :
  Clean "" = "." /\ Clean "/a/../../b/./c//d/" = "/b/c/d" /\ Clean "../a/../.." = "../.." /\ Clean "/" = "/" /\
  Join ["/srv"; "../x"] = "/x" /\ Join [""; ""] = "" /\ Dir "conf/vyx.yaml" = "conf" /\ Dir "vyx.yaml" = "." /\
  Dir "/vyx.yaml" = "/" /\ Ext "a.b/c" = "" /\ Ext "a/b.tar.gz" = ".gz" /\ Ext "x." = ".".
Proof. vm_compute. by split_and!. Qed.

(** An element that stands for itself. *)
Definition plain (c : string) : Prop := free_of "/" c = true /\ c <> "" /\ c <> "." /\ c <> "..".

Lemma clean_elem_plain rooted out c : plain c -> clean_elem rooted out c = c :: out.
Proof.
  intros (_ & H1 & H2 & H3). unfold clean_elem.
  by rewrite (proj2 (String.eqb_neq _ _) H1), (proj2 (String.eqb_neq _ _) H2), (proj2 (String.eqb_neq _ _) H3).
Qed.

Lemma prefix_app_first a s t : String.prefix (String a "") (s +:+ t) = true <->
  String.prefix (String a "") s = true \/ s = "" /\ String.prefix (String a "") t = true.
Proof.
  destruct s as [|b s].
  - change ("" +:+ t) with t. simpl. split; [auto|by intros [?|[_ ?]]].
  - rewrite string_app_cons. simpl. destruct (ascii_dec a b).
    + split; [intros _; left; by destruct s|intros _; by destruct (s +:+ t)].
    + split; [done|by intros [?|[? ?]]].
Qed.

Lemma join_snoc c l w : l <> [] -> join (String c "") (l ++ [w]) = join (String c "") l +:+ String c w.
Proof.
  intros Hl. induction l as [|x [|y l] IH]; [done| |].
  - done.
  - change (join (String c "") ((x :: y :: l) ++ [w])) with (x +:+ String c "" +:+ join (String c "") ((y :: l) ++ [w])).
    rewrite IH by done. change (join (String c "") (x :: y :: l)) with (x +:+ String c "" +:+ join (String c "") (y :: l)).
    by rewrite <-!string_app_assoc.
Qed.

(** A file in a clean directory has a clean name. *)
Lemma Clean_child dir f :
  IsAbs dir = true -> dir <> "/" -> Clean dir = dir -> plain f -> Clean (dir +:+ String "/" f) = dir +:+ String "/" f.
Proof.
  intros Habs Hne Hc Hf. assert (IsAbs (dir +:+ String "/" f) = true) as Habs'.
  { unfold IsAbs, has_prefix in *. apply prefix_app_first. by left. }
  unfold Clean in *. rewrite Habs' in *. rewrite Habs in Hc. unfold clean_elems in *.
  rewrite split_on_app_sep, foldl_app, (split_on_free _ f) by apply Hf. cbn [foldl].
  rewrite (clean_elem_plain _ _ _ Hf). cbn [rev].
  set (out := rev (foldl _ [] (split_on "/" dir))) in *.
  change ("/" +:+ join "/" out) with (String "/" (join "/" out)) in Hc. simpl in Hc.
  assert (out <> []) as Hout by (intros E; rewrite E in Hc; by apply Hne).
  rewrite join_snoc by done. change ("/" +:+ ?x) with (String "/" x). simpl.
  clearbody out. rewrite <-Hc. by rewrite string_app_cons.
Qed.
