(* ===== verification/RouteMap.v ===== *)
(** * The route index of the gateway ([core/domain/gateway/route.go])

    A trie of path segments with literal children and at most one parameter
    child per node.  [buildTrie] inserts the routes in order; [Lookup] walks
    the trie, literal children first.  The nodes are owned by their parent,
    so a node is a value here; [RouteMap] is the atomic pointer to the root. *)
From S2P Require Import Prelude GoStrings.
Local Open Scope string_scope.
Local Open Scope list_scope.

(** ** Data *)

Record RouteEntry := mkRouteEntry {
  re_path : string;
  re_method : string;
  re_workerID : string;
  re_authRoles : list string;
  re_validate : string;
  re_type : string;
}.

#[local] Unset Elimination Schemes.
Inductive routeNode := mkRouteNode {
  children : gmap string routeNode;
  paramChild : option routeNode;
  paramName : string;
  entries : gmap string RouteEntry;
}.
#[local] Set Elimination Schemes.

Definition newRouteNode : routeNode := mkRouteNode ∅ None "" ∅.

(** [root] is nil only in a zero [RouteMap]. *)
Record RouteMap := mkRouteMap { root : option routeNode }.

(** [Params] is nil for routes without parameters. *)
Record LookupResult := mkLookupResult {
  lr_entry : RouteEntry;
  lr_params : option (gmap string string);
}.

(** ** Operations *)

Definition splitPath (path : string) : list string :=
  base.filter (fun p => is_empty p = false)
    (split_on "/"%char (trim (fun a => Ascii.eqb a "/"%char) path)).

Definition copyParams (src : option (gmap string string)) : gmap string string :=
  default ∅ src.

Fixpoint traverse (node : routeNode) (segments : list string)
    (params : option (gmap string string)) : option (routeNode * option (gmap string string)) :=
  match segments with
  | [] => Some (node, params)
  | seg :: rest =>
      let static :=
        match children node !! seg with
        | Some child => traverse child rest params
        | None => None
        end in
      match static with
      | Some r => Some r
      | None =>
          match paramChild node with
          | Some pc => traverse pc rest (Some (<[paramName pc := seg]> (copyParams params)))
          | None => None
          end
      end
  end.

(** One round of the loop of [buildTrie]: the walk over the segments of the
    path, creating the missing nodes, and the write into [entries]. *)
Fixpoint insertRoute (segs : list string) (method : string) (e : RouteEntry)
    (node : routeNode) : routeNode :=
  match segs with
  | [] =>
      mkRouteNode (children node) (paramChild node) (paramName node)
        (<[method := e]> (entries node))
  | seg :: rest =>
      if has_prefix seg ":" then
        let pc := match paramChild node with
                  | None => mkRouteNode ∅ None (drop_str 1 seg) ∅
                  | Some pc => pc
                  end in
        mkRouteNode (children node) (Some (insertRoute rest method e pc))
          (paramName node) (entries node)
      else
        let child := match children node !! seg with
                     | None => newRouteNode
                     | Some c => c
                     end in
        mkRouteNode (<[seg := insertRoute rest method e child]> (children node))
          (paramChild node) (paramName node) (entries node)
  end.

Definition buildTrie (es : list RouteEntry) : routeNode :=
  foldl (fun root e => insertRoute (splitPath (re_path e)) (to_upper (re_method e)) e root)
    newRouteNode es.

Definition NewRouteMap (es : list RouteEntry) : RouteMap := mkRouteMap (Some (buildTrie es)).
Definition Swap (rm : RouteMap) (es : list RouteEntry) : RouteMap :=
  mkRouteMap (Some (buildTrie es)).

Definition Lookup (rm : RouteMap) (method path : string) : option LookupResult :=
  match root rm with
  | None => None
  | Some r =>
      match traverse r (splitPath path) None with
      | None => None
      | Some (node, params) =>
          match entries node !! to_upper method with
          | None => None
          | Some e => Some (mkLookupResult e params)
          end
      end
  end.

(** ** Reference semantics, on the list of routes and without a trie *)

Inductive shape := SLit (s : string) | SParam.
#[export] Instance shape_eq_dec : EqDecision shape.
Proof. solve_decision. Defined.

Definition shape_of_seg (seg : string) : shape :=
  if has_prefix seg ":" then SParam else SLit seg.
Definition pattern_shape (segs : list string) : list shape := shape_of_seg <$> segs.
Definition route_shape (e : RouteEntry) : list shape := pattern_shape (splitPath (re_path e)).

(** Parameter names of a pattern, in order. *)
Definition pattern_names (segs : list string) : list string :=
  omap (fun seg => if has_prefix seg ":" then Some (drop_str 1 seg) else None) segs.

(** All shapes a request path can match, literal segments first. *)
Fixpoint shapes (segs : list string) : list (list shape) :=
  match segs with
  | [] => [[]]
  | s :: rest => (cons (SLit s) <$> shapes rest) ++ (cons SParam <$> shapes rest)
  end.

(** The request segments that stand at the parameters of a shape. *)
Fixpoint captured (sh : list shape) (segs : list string) : list string :=
  match sh, segs with
  | SLit _ :: sh', _ :: segs' => captured sh' segs'
  | SParam :: sh', s :: segs' => s :: captured sh' segs'
  | _, _ => []
  end.

Fixpoint bind_params (names vals : list string) (ps : option (gmap string string)) :
    option (gmap string string) :=
  match names, vals with
  | n :: names', v :: vals' => bind_params names' vals' (Some (<[n := v]> (copyParams ps)))
  | _, _ => ps
  end.

(** The route map has a node for [sh] when some route goes through it. *)
Definition on_some_route (es : list RouteEntry) (sh : list shape) : Prop :=
  sh = [] \/ Exists (fun e => sh `prefix_of` route_shape e) es.
#[export] Instance on_some_route_dec es sh : Decision (on_some_route es sh).
Proof. unfold on_some_route. apply _. Defined.

(** The last route declared with this shape and method wins. *)
Definition stored (es : list RouteEntry) (sh : list shape) (m : string) : option RouteEntry :=
  last (base.filter (fun e => route_shape e = sh /\ to_upper (re_method e) = m) es).

(** What [Lookup] computes: the first shape, literals first, that lies on
    some route, and the route stored exactly there. *)
Definition lookup_spec (es : list RouteEntry) (method path : string) : option RouteEntry :=
  sh ← first_some (fun sh => if decide (on_some_route es sh) then Some sh else None)
         (shapes (splitPath path));
  stored es sh (to_upper method).

(** ** The trie as a map from shapes to nodes *)

(** The node at a shape, with the parameter names met on the way. *)
Fixpoint resolve (sh : list shape) (n : routeNode) : option (routeNode * list string) :=
  match sh with
  | [] => Some (n, [])
  | SLit s :: sh' => child ← children n !! s; resolve sh' child
  | SParam :: sh' =>
      pc ← paramChild n;
      '(n', names) ← resolve sh' pc;
      Some (n', paramName pc :: names)
  end.

Definition node_at sh n : option routeNode := fst <$> resolve sh n.
Definition names_at sh n : option (list string) := snd <$> resolve sh n.
Definition entry_at sh m n : option RouteEntry := n' ← node_at sh n; entries n' !! m.

(** What the walk returns if it ends at shape [sh]. *)
Definition visit (segs : list string) (ps : option (gmap string string))
    (n : routeNode) (sh : list shape) : option (routeNode * option (gmap string string)) :=
  '(n', names) ← resolve sh n; Some (n', bind_params names (captured sh segs) ps).

Lemma visit_lit s segs ps n sh :
  visit (s :: segs) ps n (SLit s :: sh) =
  match children n !! s with Some c => visit segs ps c sh | None => None end.
Proof. unfold visit. simpl. by destruct (children n !! s). Qed.

Lemma visit_param s segs ps n sh :
  visit (s :: segs) ps n (SParam :: sh) =
  match paramChild n with
  | Some pc => visit segs (Some (<[paramName pc := s]> (copyParams ps))) pc sh
  | None => None
  end.
Proof.
  unfold visit. simpl. destruct (paramChild n) as [pc|]; simpl; [|done].
  by destruct (resolve sh pc) as [[? ?]|].
Qed.

(** The depth-first walk of [traverse] finds the first shape present. *)
Lemma traverse_first segs n ps : traverse n segs ps = first_some (visit segs ps n) (shapes segs).
Proof.
  revert n ps. induction segs as [|s segs IH]; intros n ps; [done|].
  simpl. rewrite first_some_app, !first_some_fmap.
  rewrite (first_some_ext _ _ _ (visit_lit s segs ps n)).
  rewrite (first_some_ext _ _ _ (visit_param s segs ps n)).
  destruct (children n !! s) as [c|], (paramChild n) as [pc|];
    rewrite ?IH, ?(first_some_none (fun _ => None)) by done;
    repeat case_match; done.
Qed.

(** *** Insertion *)

Lemma pattern_shape_cons seg segs :
  pattern_shape (seg :: segs) = shape_of_seg seg :: pattern_shape segs.
Proof. done. Qed.

Lemma entry_at_nil m n : entry_at [] m n = entries n !! m.
Proof. done. Qed.
Lemma entry_at_lit s sh m n : entry_at (SLit s :: sh) m n = children n !! s ≫= entry_at sh m.
Proof. unfold entry_at, node_at. simpl. by destruct (children n !! s). Qed.
Lemma entry_at_param sh m n : entry_at (SParam :: sh) m n = paramChild n ≫= entry_at sh m.
Proof.
  unfold entry_at, node_at. simpl. destruct (paramChild n) as [pc|]; simpl; [|done].
  by destruct (resolve sh pc) as [[? ?]|].
Qed.
Create Rewrite HintDb entry_at.
#[local] Hint Rewrite entry_at_nil entry_at_lit entry_at_param : entry_at.

Lemma entry_at_empty sh m s : entry_at sh m (mkRouteNode ∅ None s ∅) = None.
Proof. by destruct sh as [|[] ?]. Qed.

Lemma insertRoute_entry_at segs m e n sh m' :
  entry_at sh m' (insertRoute segs m e n) =
  if decide (sh = pattern_shape segs /\ m' = m) then Some e else entry_at sh m' n.
Proof.
  revert n sh. induction segs as [|seg segs IH]; intros n sh.
  - destruct sh as [|[s|] sh].
    + rewrite !entry_at_nil. simpl. rewrite lookup_insert.
      case_decide; case_decide; naive_solver.
    + by rewrite decide_False by naive_solver.
    + by rewrite decide_False by naive_solver.
  - rewrite pattern_shape_cons. cbn [insertRoute]. unfold shape_of_seg. destruct (has_prefix seg ":"); destruct sh as [|[s|] sh];
      autorewrite with entry_at; simpl;
      try (case_decide; destruct_and?; simplify_eq/=; done).
    + rewrite IH. destruct (decide (sh = pattern_shape segs /\ m' = m)).
      * by rewrite decide_True by naive_solver.
      * rewrite decide_False by naive_solver.
        destruct (paramChild n); simpl; [done|apply entry_at_empty].
    + destruct (decide (s = seg)) as [->|Hne].
      * rewrite lookup_insert_eq. simpl. rewrite IH.
        destruct (decide (sh = pattern_shape segs /\ m' = m)).
        -- by rewrite decide_True by naive_solver.
        -- rewrite decide_False by naive_solver.
           destruct (children n !! seg); simpl; [done|apply entry_at_empty].
      * rewrite lookup_insert_ne by done.
        by rewrite decide_False by naive_solver.
Qed.

(** The routes stored in the trie are the last ones declared. *)
Lemma stored_snoc es e sh m :
  stored (es ++ [e]) sh m =
  if decide (sh = route_shape e /\ m = to_upper (re_method e)) then Some e else stored es sh m.
Proof.
  unfold stored. rewrite filter_app, filter_cons, filter_nil.
  case_decide; case_decide; destruct_and?; simplify_eq; try naive_solver.
  - by rewrite last_snoc.
  - by rewrite app_nil_r.
Qed.

Lemma buildTrie_snoc es e :
  buildTrie (es ++ [e]) =
  insertRoute (splitPath (re_path e)) (to_upper (re_method e)) e (buildTrie es).
Proof. unfold buildTrie. by rewrite foldl_app. Qed.

Lemma buildTrie_entry_at es sh m : entry_at sh m (buildTrie es) = stored es sh m.
Proof.
  induction es as [|e es IH] using rev_ind; [apply entry_at_empty|].
  by rewrite buildTrie_snoc, insertRoute_entry_at, stored_snoc, IH.
Qed.

(** *** Which nodes exist *)

Definition present sh n : Prop := is_Some (resolve sh n).

Lemma present_nil n : present [] n <-> True.
Proof. unfold present. simpl. naive_solver. Qed.
Lemma present_lit s sh n :
  present (SLit s :: sh) n <-> exists c, children n !! s = Some c /\ present sh c.
Proof. unfold present. simpl. destruct (children n !! s); naive_solver. Qed.
Lemma present_param sh n :
  present (SParam :: sh) n <-> exists pc, paramChild n = Some pc /\ present sh pc.
Proof.
  unfold present. simpl. destruct (paramChild n) as [pc|]; simpl; [|naive_solver].
  split.
  - intros [x Hx]. exists pc. by destruct (resolve sh pc) as [[? ?]|].
  - intros (? & [= <-] & [[? ?] ->]). by eexists.
Qed.

Lemma present_empty sh s : present sh (mkRouteNode ∅ None s ∅) -> sh = [].
Proof.
  destruct sh as [|[] ?]; [done| |].
  - intros (c & Hc & _)%present_lit. done.
  - intros (c & Hc & _)%present_param. done.
Qed.

Lemma not_prefix_head (x y : shape) l k : x <> y -> ~ (x :: l) `prefix_of` (y :: k).
Proof. intros Hxy Hp. by apply prefix_cons_inv_1 in Hp. Qed.

Lemma insertRoute_present segs m e n sh :
  present sh (insertRoute segs m e n) <-> sh `prefix_of` pattern_shape segs \/ present sh n.
Proof.
  revert n sh. induction segs as [|seg segs IH]; intros n sh.
  - destruct sh as [|[s|] sh].
    + rewrite !present_nil. naive_solver.
    + rewrite !present_lit. simpl. split; [by right|].
      intros [Hp%prefix_nil_inv|?]; done.
    + rewrite !present_param. simpl. split; [by right|].
      intros [Hp%prefix_nil_inv|?]; done.
  - rewrite pattern_shape_cons. cbn [insertRoute]. unfold shape_of_seg.
    destruct (has_prefix seg ":"); destruct sh as [|[s|] sh];
      rewrite ?present_nil, ?present_lit, ?present_param; simpl;
      try (pose proof (prefix_nil (A := shape)); naive_solver);
      try (split; [by right|]; intros [Hp%not_prefix_head|?]; done).
    + split.
      * intros (pc & [= <-] & [Hp|Hp]%IH); [left; by apply prefix_cons|].
        destruct (paramChild n) as [pc|]; [right; eauto|].
        apply present_empty in Hp as ->. left. apply prefix_cons, prefix_nil.
      * intros [Hp|(pc & Hpc & Hp)]; eexists; (split; [done|]); apply IH.
        -- left. by apply prefix_cons_inv_2 in Hp.
        -- right. by rewrite Hpc.
    + split.
      * intros (c & Hc & Hp). destruct (decide (s = seg)) as [->|Hne].
        -- rewrite lookup_insert_eq in Hc. simplify_eq.
           apply IH in Hp as [Hp|Hp]; [left; by apply prefix_cons|].
           destruct (children n !! seg) as [c|] eqn:E; [right; eauto|].
           apply present_empty in Hp as ->. left. apply prefix_cons, prefix_nil.
        -- rewrite lookup_insert_ne in Hc by done. right. eauto.
      * intros [Hp|(c & Hc & Hp)].
        -- pose proof (prefix_cons_inv_1 _ _ _ _ Hp) as [= ->].
           apply prefix_cons_inv_2 in Hp.
           eexists. rewrite lookup_insert_eq. split; [done|]. apply IH. by left.
        -- destruct (decide (s = seg)) as [->|Hne].
           ++ eexists. rewrite lookup_insert_eq. split; [done|]. apply IH. right. by rewrite Hc.
           ++ eexists. rewrite lookup_insert_ne by done. done.
Qed.

Lemma on_some_route_snoc es e sh :
  on_some_route (es ++ [e]) sh <-> sh `prefix_of` route_shape e \/ on_some_route es sh.
Proof.
  unfold on_some_route. rewrite Exists_app, Exists_cons, Exists_nil.
  split; [naive_solver|]. intros [?|[?|?]]; auto.
Qed.

Lemma buildTrie_present es sh : present sh (buildTrie es) <-> on_some_route es sh.
Proof.
  revert sh. induction es as [|e es IH] using rev_ind; intros sh.
  - unfold on_some_route. rewrite Exists_nil. split.
    + intros ->%present_empty. by left.
    + intros [->|[]]. by rewrite present_nil.
  - by rewrite buildTrie_snoc, insertRoute_present, on_some_route_snoc, IH.
Qed.

(** *** Parameter names along a shape *)

Lemma names_at_lit s sh n : names_at (SLit s :: sh) n = children n !! s ≫= names_at sh.
Proof. unfold names_at. simpl. by destruct (children n !! s). Qed.
Lemma names_at_param sh n :
  names_at (SParam :: sh) n = pc ← paramChild n; cons (paramName pc) <$> names_at sh pc.
Proof.
  unfold names_at. simpl. destruct (paramChild n) as [pc|]; simpl; [|done].
  by destruct (resolve sh pc) as [[? ?]|].
Qed.
Lemma names_at_present sh n : is_Some (names_at sh n) <-> present sh n.
Proof. unfold names_at, present. by rewrite fmap_is_Some. Qed.

Lemma names_at_empty sh s l : names_at sh (mkRouteNode ∅ None s ∅) = Some l -> sh = [] /\ l = [].
Proof.
  intros H. assert (sh = []) as -> by (eapply present_empty, names_at_present; eauto).
  split; [done|]. by injection H as <-.
Qed.

Lemma paramName_insertRoute segs m e n : paramName (insertRoute segs m e n) = paramName n.
Proof. destruct segs; simpl; [done|]. by case_if. Qed.

Lemma insertRoute_names_mono segs m e n sh l :
  names_at sh n = Some l -> names_at sh (insertRoute segs m e n) = Some l.
Proof.
  revert n sh l. induction segs as [|seg segs IH]; intros n sh l.
  - destruct sh as [|[s|] sh]; [done| |]; rewrite ?names_at_lit, ?names_at_param; done.
  - cbn [insertRoute]. destruct (has_prefix seg ":"); destruct sh as [|[s|] sh];
      try done; rewrite ?names_at_lit, ?names_at_param; simpl; try done.
    + destruct (paramChild n) as [pc|]; simpl; [|done].
      rewrite paramName_insertRoute. intros (l' & Hl' & ->)%fmap_Some.
      by rewrite (IH _ _ _ Hl').
    + destruct (decide (s = seg)) as [->|Hne].
      * rewrite lookup_insert_eq. destruct (children n !! seg); simpl; [apply IH|done].
      * by rewrite lookup_insert_ne.
Qed.

Definition own_names (segs : list string) (n : routeNode) : Prop :=
  forall k l, names_at (take k (pattern_shape segs)) n = Some l -> l = pattern_names (take k segs).

Lemma own_names_empty segs s : own_names segs (mkRouteNode ∅ None s ∅).
Proof.
  intros k l Hl. apply names_at_empty in Hl as [Hk ->].
  by destruct k, segs.
Qed.

Lemma pattern_names_cons seg segs :
  pattern_names (seg :: segs) =
  if has_prefix seg ":" then drop_str 1 seg :: pattern_names segs else pattern_names segs.
Proof. unfold pattern_names. simpl. by destruct (has_prefix seg ":"). Qed.

Lemma own_names_cons seg segs n :
  own_names (seg :: segs) n ->
  if has_prefix seg ":" then
    forall pc, paramChild n = Some pc -> paramName pc = drop_str 1 seg /\ own_names segs pc
  else forall c, children n !! seg = Some c -> own_names segs c.
Proof.
  intros Hown.
  assert (forall j l, names_at (shape_of_seg seg :: take j (pattern_shape segs)) n = Some l ->
                      l = pattern_names (seg :: take j segs)) as Hown'.
  { intros j l. apply (Hown (S j)). }
  unfold shape_of_seg in Hown'. setoid_rewrite pattern_names_cons in Hown'.
  destruct (has_prefix seg ":").
  - setoid_rewrite names_at_param in Hown'. intros pc Hpc.
    rewrite Hpc in Hown'. cbn [mbind option_bind] in Hown'. split.
    + by injection (Hown' 0 [paramName pc] eq_refl).
    + intros j l Hl. specialize (Hown' j (paramName pc :: l)). rewrite Hl in Hown'.
      by injection (Hown' eq_refl).
  - setoid_rewrite names_at_lit in Hown'. intros c Hc.
    rewrite Hc in Hown'. exact Hown'.
Qed.

Lemma insertRoute_names segs m e n k :
  own_names segs n ->
  names_at (take k (pattern_shape segs)) (insertRoute segs m e n) =
  Some (pattern_names (take k segs)).
Proof.
  revert n k. induction segs as [|seg segs IH]; intros n k Hown; destruct k as [|k]; try done.
  apply own_names_cons in Hown. rewrite pattern_shape_cons, !firstn_cons, pattern_names_cons.
  cbn [insertRoute]. unfold shape_of_seg. destruct (has_prefix seg ":").
  - rewrite names_at_param. cbn [paramChild mbind option_bind]. rewrite paramName_insertRoute.
    destruct (paramChild n) as [pc|].
    + destruct (Hown pc eq_refl) as [-> Hpc]. by rewrite IH.
    + by rewrite IH by apply own_names_empty.
  - rewrite names_at_lit. cbn [children]. rewrite lookup_insert_eq. simpl.
    destruct (children n !! seg) as [c|]; apply IH; [by apply Hown|apply own_names_empty].
Qed.

(** No two routes name the parameter at the same place differently. *)
Definition consistent_names (es : list RouteEntry) : Prop :=
  forall e1 e2 k, e1 ∈ es -> e2 ∈ es ->
    take k (route_shape e1) = take k (route_shape e2) ->
    pattern_names (take k (splitPath (re_path e1))) =
    pattern_names (take k (splitPath (re_path e2))).

Lemma take_route_shape e k :
  take k (route_shape e) = pattern_shape (take k (splitPath (re_path e))).
Proof. unfold route_shape, pattern_shape. by rewrite fmap_take. Qed.

Lemma take_length_pattern e k :
  take (length (take k (route_shape e))) (splitPath (re_path e)) = take k (splitPath (re_path e)).
Proof.
  rewrite take_route_shape. unfold pattern_shape. rewrite length_fmap.
  apply take_of_length_take.
Qed.

Lemma buildTrie_names es e k :
  consistent_names es -> e ∈ es ->
  names_at (take k (route_shape e)) (buildTrie es) =
  Some (pattern_names (take k (splitPath (re_path e)))).
Proof.
  revert e k. induction es as [|e' es IH] using rev_ind; intros e k Hc He; [by apply not_elem_of_nil in He|].
  assert (consistent_names es) as Hc'.
  { intros e1 e2 j H1 H2. apply Hc; set_solver. }
  rewrite buildTrie_snoc. apply elem_of_app in He as [He| ->%list_elem_of_singleton].
  - by apply insertRoute_names_mono, IH.
  - apply insertRoute_names. intros j l Hl. fold (route_shape e') in Hl.
    destruct (proj1 (buildTrie_present es (take j (route_shape e')))) as [Hnil|Hex].
    { apply names_at_present. eauto. }
    + rewrite Hnil in Hl. injection Hl as <-. rewrite <-take_length_pattern, Hnil. done.
    + apply Exists_exists in Hex as (e & He & [t Ht]).
      set (sh := take j (route_shape e')) in *.
      assert (take (length sh) (route_shape e) = sh) as Hsh by (rewrite Ht; apply take_app_length).
      assert (take (length sh) (route_shape e') = sh) as Hsh' by apply take_of_length_take.
      rewrite <-Hsh, (IH e (length sh)) in Hl by (done || by apply elem_of_list_In).
      injection Hl as <-. rewrite <-(take_length_pattern e'). fold sh.
      apply Hc; [set_solver|set_solver|congruence].
Qed.

(** *** Splitting a path *)

Definition is_slash (a : ascii) : bool := Ascii.eqb a "/"%char.
Definition segments (s : string) : list string :=
  base.filter (fun p => is_empty p = false) (split_on "/"%char s).

Lemma segments_trim_left s : segments (trim_left is_slash s) = segments s.
Proof.
  induction s as [|a s IH]; [done|]. unfold segments in *. simpl.
  unfold is_slash at 1. destruct (Ascii.eqb a "/"%char) eqn:E.
  - by rewrite IH, filter_cons_False.
  - simpl. by rewrite E.
Qed.

Lemma split_trim_right s :
  exists w ws ws', split_on "/"%char s = w :: ws /\
    split_on "/"%char (trim_right is_slash s) = w :: ws' /\
    base.filter (fun p => is_empty p = false) ws = base.filter (fun p => is_empty p = false) ws'.
Proof.
  induction s as [|a s (w & ws & ws' & Hs & Ht & Hf)]; [by exists "", [], []|].
  simpl. destruct (is_slash a) eqn:E; unfold is_slash in E; rewrite E.
  - destruct (trim_right is_slash s) as [|b t] eqn:Et; simpl.
    + exists "", (w :: ws), []. rewrite Hs. split_and!; [done..|].
      injection Ht as <- <-. by rewrite filter_cons_False.
    + rewrite E. exists "", (w :: ws), (w :: ws'). rewrite Hs.
      split_and!; [done|by rewrite <-Ht|]. by rewrite !filter_cons, Hf.
  - rewrite andb_false_r. simpl. rewrite E, Hs, Ht. eauto 10.
Qed.

Lemma segments_trim_right s : segments (trim_right is_slash s) = segments s.
Proof.
  unfold segments. destruct (split_trim_right s) as (w & ws & ws' & -> & -> & Hf).
  by rewrite !filter_cons, Hf.
Qed.

Lemma splitPath_segments path : splitPath path = segments path.
Proof.
  change (segments (trim_right is_slash (trim_left is_slash path)) = segments path).
  by rewrite segments_trim_right, segments_trim_left.
Qed.

(** ** Properties *)

Lemma lookup_spec_traverse es path :
  first_some (fun sh => if decide (on_some_route es sh) then Some sh else None)
    (shapes (splitPath path)) = None <->
  traverse (buildTrie es) (splitPath path) None = None.
Proof.
  rewrite traverse_first. induction (shapes (splitPath path)) as [|sh shs IH]; simpl; [done|].
  unfold visit. pose proof (buildTrie_present es sh) as Hp. unfold present in Hp.
  case_decide as Hd.
  - apply Hp in Hd as [[n' l] ->]. done.
  - destruct (resolve sh (buildTrie es)) as [[? ?]|]; simpl; [naive_solver|done].
Qed.

(** The node and parameters found are those of the first shape present. *)
Lemma traverse_buildTrie es path r :
  traverse (buildTrie es) (splitPath path) None = Some r ->
  exists sh names,
    first_some (fun sh => if decide (on_some_route es sh) then Some sh else None)
      (shapes (splitPath path)) = Some sh /\
    resolve sh (buildTrie es) = Some (r.1, names) /\
    r.2 = bind_params names (captured sh (splitPath path)) None.
Proof.
  rewrite traverse_first. induction (shapes (splitPath path)) as [|sh shs IH]; simpl; [done|].
  unfold visit at 1. pose proof (buildTrie_present es sh) as Hp. unfold present in Hp.
  case_decide as Hd.
  - apply Hp in Hd as [[n' l] Hr]. rewrite Hr. simpl. intros [= <-]. eauto.
  - destruct (resolve sh (buildTrie es)) as [[? ?]|]; simpl; [naive_solver|exact IH].
Qed.

Lemma Lookup_lookup_spec es method path :
  lr_entry <$> Lookup (NewRouteMap es) method path = lookup_spec es method path.
Proof.
  unfold Lookup, NewRouteMap, lookup_spec. cbn [root].
  destruct (traverse _ _ _) as [[n' ps]|] eqn:Ht.
  - apply traverse_buildTrie in Ht as (sh & names & -> & Hr & _). simpl in *.
    rewrite <-buildTrie_entry_at. unfold entry_at, node_at. rewrite Hr. simpl.
    by destruct (entries n' !! to_upper method).
  - apply lookup_spec_traverse in Ht. by rewrite Ht.
Qed.

(** C18: the trie is a faithful index: for every list of routes, method and
    path, [Lookup] on the trie built by [buildTrie] returns exactly the route
    that the trie-free reference semantics selects: the first request shape,
    literal segments before parameters, that lies on a declared route, and the
    route declared last with that shape and upper-cased method. *)
Theorem Lookup_refines_spec es method path :
  lr_entry <$> Lookup (NewRouteMap es) method path = lookup_spec es method path.
Proof. apply Lookup_lookup_spec. Qed.

Lemma shapes_match segs sh :
  sh ∈ shapes segs -> Forall2 (fun s seg => s = SParam \/ s = SLit seg) sh segs.
Proof.
  revert sh. induction segs as [|seg segs IH]; intros sh; simpl.
  - intros ->%list_elem_of_singleton. constructor.
  - rewrite elem_of_app, !list_elem_of_fmap.
    intros [(sh' & -> & H)|(sh' & -> & H)]; constructor; eauto.
Qed.

Lemma stored_Some es sh m e :
  stored es sh m = Some e -> e ∈ es /\ route_shape e = sh /\ to_upper (re_method e) = m.
Proof.
  unfold stored. intros H%last_Some_elem_of. apply list_elem_of_filter in H. naive_solver.
Qed.

(** A route pattern matches a request path segment by segment. *)
Definition route_matches (e : RouteEntry) (path : string) : Prop :=
  Forall2 (fun pat seg => has_prefix pat ":" = true \/ pat = seg)
    (splitPath (re_path e)) (splitPath path).
#[export] Instance route_matches_dec e path : Decision (route_matches e path).
Proof. unfold route_matches. apply _. Defined.

Lemma shape_matches e path :
  route_shape e ∈ shapes (splitPath path) -> route_matches e path.
Proof.
  intros H%shapes_match. unfold route_shape, pattern_shape in H.
  apply Forall2_fmap_l in H. eapply Forall2_impl; [exact H|].
  unfold shape_of_seg. simpl. intros p s. destruct (has_prefix p ":"); naive_solver.
Qed.

Lemma Lookup_inv es method path r :
  Lookup (NewRouteMap es) method path = Some r ->
  exists sh names,
    sh ∈ shapes (splitPath path) /\
    stored es sh (to_upper method) = Some (lr_entry r) /\
    names_at sh (buildTrie es) = Some names /\
    lr_params r = bind_params names (captured sh (splitPath path)) None.
Proof.
  unfold Lookup, NewRouteMap. cbn [root].
  destruct (traverse _ _ _) as [[n' ps]|] eqn:Ht; [|done].
  destruct (entries n' !! to_upper method) as [e|] eqn:He; [|done]. intros [= <-].
  apply traverse_buildTrie in Ht as (sh & names & Hf & Hr & Hps). simpl in *. subst ps.
  exists sh, names. rewrite <-buildTrie_entry_at. unfold entry_at, node_at, names_at.
  rewrite Hr. split_and!; try done.
  apply first_some_Some in Hf as (sh' & ? & Hd). case_decide; naive_solver.
Qed.

(** [Lookup] is sound: the route it returns was declared, answers to the
    upper-cased method, and its pattern matches the request path segment by
    segment, a [:name] segment matching anything. *)
Theorem Lookup_sound es method path r :
  Lookup (NewRouteMap es) method path = Some r ->
  lr_entry r ∈ es /\ to_upper (re_method (lr_entry r)) = to_upper method /\
  route_matches (lr_entry r) path.
Proof.
  intros (sh & names & Hsh & Hst & _)%Lookup_inv.
  apply stored_Some in Hst as (? & <- & ?). auto using shape_matches.
Qed.

Lemma shapes_head segs : exists tl, shapes segs = (SLit <$> segs) :: tl.
Proof.
  induction segs as [|seg segs [tl IH]]; [by exists []|]. simpl. rewrite IH. by eexists.
Qed.

Lemma captured_literals segs segs' : captured (SLit <$> segs) segs' = [].
Proof. revert segs'. induction segs; intros [|]; simpl; auto. Qed.

(** static segments win: when a route is declared for exactly this path
    without parameters, [Lookup] returns it, with a nil parameter map,
    whatever other routes the map holds. *)
Theorem Lookup_static_wins es method path e :
  stored es (SLit <$> splitPath path) (to_upper method) = Some e ->
  Lookup (NewRouteMap es) method path = Some (mkLookupResult e None).
Proof.
  intros Hst. pose proof (Lookup_lookup_spec es method path) as Hspec.
  unfold lookup_spec in Hspec. destruct (shapes_head (splitPath path)) as [tl Htl].
  assert (on_some_route es (SLit <$> splitPath path)) as Hon.
  { apply stored_Some in Hst as (He & Hsh & _). right. apply Exists_exists.
    exists e. split; [done|]. by rewrite Hsh. }
  unfold Lookup, NewRouteMap in *. cbn [root] in *.
  rewrite Htl in Hspec. simpl in Hspec. rewrite decide_True in Hspec by done.
  destruct (traverse _ _ _) as [[n' ps]|] eqn:Ht; simpl in Hspec; [|congruence].
  apply traverse_buildTrie in Ht as (sh & names & Hf & _ & Hps). simpl in Hps.
  rewrite Htl in Hf. simpl in Hf. rewrite decide_True in Hf by done. injection Hf as <-.
  rewrite captured_literals in Hps. assert (ps = None) as -> by (rewrite Hps; by destruct names).
  destruct (entries n' !! to_upper method); simpl in Hspec; congruence.
Qed.

(** The parameters a pattern binds on a path, by its own names. *)
Fixpoint pattern_params (pat segs : list string) (ps : option (gmap string string)) :
    option (gmap string string) :=
  match pat, segs with
  | p :: pat', s :: segs' =>
      if has_prefix p ":" then pattern_params pat' segs' (Some (<[drop_str 1 p := s]> (copyParams ps)))
      else pattern_params pat' segs' ps
  | _, _ => ps
  end.

Lemma bind_pattern_params pat segs ps :
  bind_params (pattern_names pat) (captured (pattern_shape pat) segs) ps =
  pattern_params pat segs ps.
Proof.
  revert segs ps. induction pat as [|p pat IH]; intros segs ps; [done|].
  rewrite pattern_names_cons, pattern_shape_cons. unfold shape_of_seg.
  destruct segs as [|s segs]; simpl; destruct (has_prefix p ":"); simpl; try apply IH; try done.
  by destruct (pattern_names pat).
Qed.

(** when the routes agree on the name of each parameter position, the
    parameters [Lookup] returns are the bindings of the matched route's own
    [:name] segments, and nil when it has none. *)
Theorem Lookup_params es method path r :
  consistent_names es ->
  Lookup (NewRouteMap es) method path = Some r ->
  lr_params r = pattern_params (splitPath (re_path (lr_entry r))) (splitPath path) None.
Proof.
  intros Hc (sh & names & _ & Hst & Hnames & ->)%Lookup_inv.
  apply stored_Some in Hst as (He & <- & _).
  pose proof (buildTrie_names es (lr_entry r) (length (route_shape (lr_entry r))) Hc He) as Hn.
  rewrite firstn_all, Hnames in Hn. injection Hn as ->.
  unfold route_shape, pattern_shape. rewrite length_fmap, firstn_all.
  apply bind_pattern_params.
Qed.

(** ** Witnesses and concrete route maps *)

Definition route (m p w : string) : RouteEntry := mkRouteEntry p m w [] "" "api".

Definition shop : list RouteEntry :=
  [route "GET" "/api/products" "node:api"; route "GET" "/api/products/:id" "node:api";
   route "post" "/api/products/new" "go:api"].

Lemma Lookup_sound_witness :
  exists r, Lookup (NewRouteMap shop) "get" "/api/products/7" = Some r /\
    lr_entry r ∈ shop /\ to_upper (re_method (lr_entry r)) = to_upper "get" /\
    route_matches (lr_entry r) "/api/products/7".
Proof.
  eexists. split; [vm_compute; reflexivity|]. apply (Lookup_sound shop). reflexivity.
Defined.

Lemma Lookup_static_wins_witness :
  Lookup (NewRouteMap shop) "POST" "/api/products/new/" =
  Some (mkLookupResult (route "post" "/api/products/new" "go:api") None).
Proof. apply (Lookup_static_wins shop). reflexivity. Defined.

Lemma consistent_names_bounded es :
  Forall (fun e1 => Forall (fun e2 => Forall (fun k =>
    take k (route_shape e1) = take k (route_shape e2) ->
    pattern_names (take k (splitPath (re_path e1))) =
    pattern_names (take k (splitPath (re_path e2))))
    (seq 0 (S (length (route_shape e1) + length (route_shape e2))))) es) es ->
  consistent_names es.
Proof.
  intros H e1 e2 k H1 H2 Ht.
  rewrite Forall_forall in H. specialize (H _ H1). rewrite Forall_forall in H.
  specialize (H _ H2). rewrite Forall_forall in H.
  destruct (decide (k <= length (route_shape e1) + length (route_shape e2))) as [Hk|Hk].
  - apply H; [apply elem_of_seq; lia|done].
  - assert (forall e, length (splitPath (re_path e)) = length (route_shape e)) as Hl.
    { intros e. unfold route_shape, pattern_shape. by rewrite length_fmap. }
    specialize (H (length (route_shape e1) + length (route_shape e2))).
    rewrite !take_ge in H by (rewrite ?Hl; lia). rewrite !take_ge in Ht by lia.
    rewrite !take_ge by (rewrite Hl; lia). apply H; [apply elem_of_seq; lia|done].
Qed.

Lemma Lookup_params_witness :
  exists r, Lookup (NewRouteMap shop) "GET" "/api/products/7" = Some r /\
    lr_params r = Some {["id" := "7"]}.
Proof.
  eexists. split; [vm_compute; reflexivity|].
  rewrite (Lookup_params shop "GET" "/api/products/7").
  - reflexivity.
  - apply consistent_names_bounded. by_compute.
  - reflexivity.
Defined.

(** the walk does not backtrack out of a node that exists but holds no
    route for the method.  With [/a/b/c] and [/a/:x] declared for GET, the
    request [GET /a/b] matches the second route and no other, and [Lookup]
    reports no route; the same happens across methods, with GET [/a/b] hiding
    POST [/a/:x]. *)
Theorem Lookup_shadowed_param_route :
  let deep := route "GET" "/a/b/c" "w1" in
  let par := route "GET" "/a/:x" "w2" in
  let lit := route "GET" "/a/b" "w1" in
  let parp := route "POST" "/a/:x" "w2" in
  (route_matches par "/a/b" /\ ~ route_matches deep "/a/b" /\
   Lookup (NewRouteMap [deep; par]) "GET" "/a/b" = None /\
   Lookup (NewRouteMap [par]) "GET" "/a/b" = Some (mkLookupResult par (Some {["x" := "b"]}))) /\
  (route_matches parp "/a/b" /\
   Lookup (NewRouteMap [lit; parp]) "POST" "/a/b" = None).
Proof. cbv zeta. split_and!; first [reflexivity | by_compute]. Qed.

(** the name of a parameter position is the one of the first route that
    reaches it: a later route with another name gets its value under the
    first name, and nothing under its own. *)
Theorem Lookup_param_name_taken :
  let user := route "GET" "/users/:id" "w1" in
  let posts := route "GET" "/users/:uid/posts" "w2" in
  Lookup (NewRouteMap [user; posts]) "GET" "/users/7/posts" =
    Some (mkLookupResult posts (Some {["id" := "7"]})) /\
  pattern_params (splitPath (re_path posts)) (splitPath "/users/7/posts") None =
    Some {["uid" := "7"]}.
Proof. split; reflexivity. Qed.

Lemma free_join_segments segs :
  Forall (fun s => s <> "" /\ free_of "/"%char s = true) segs -> segments (join "/" segs) = segs.
Proof.
  unfold segments. induction 1 as [|s segs [Hne Hfree] Hall IH]; [done|].
  assert (is_empty s = false) by (by destruct s).
  destruct segs as [|s' segs].
  - simpl. rewrite split_on_free by done. by rewrite filter_cons_True.
  - change (join "/" (s :: s' :: segs)) with (s +:+ String "/"%char (join "/" (s' :: segs))).
    rewrite split_on_app_sep, split_on_free by done. simpl app.
    rewrite filter_cons_True by done. f_equal. exact IH.
Qed.

(** splitting a path is the inverse of joining its segments: for non-empty
    segments without a slash, [splitPath] of ["/" + join] gives them back,
    whatever slashes surround the path. *)
Theorem splitPath_join segs :
  Forall (fun s => s <> "" /\ free_of "/"%char s = true) segs ->
  splitPath ("/" +:+ join "/" segs) = segs /\
  splitPath (join "/" segs +:+ "/") = segs.
Proof.
  intros H. rewrite !splitPath_segments. split.
  - change ("/" +:+ join "/" segs) with (String "/"%char (join "/" segs)).
    unfold segments. cbn [split_on]. rewrite Ascii.eqb_refl, filter_cons_False by done.
    by apply free_join_segments.
  - unfold segments. rewrite split_on_app_sep, filter_app.
    fold (segments (join "/" segs)). rewrite free_join_segments by done. simpl.
    by rewrite filter_cons_False, filter_nil, app_nil_r.
Qed.

Lemma splitPath_join_witness : splitPath "/api/products/7" = ["api"; "products"; "7"].
Proof.
  apply (splitPath_join ["api"; "products"; "7"]). repeat constructor; done.
Defined.
