(* ===== verification/Circuit.v ===== *)
(** * The circuit breaker ([core/domain/circuit/breaker.go])

    [Breaker] is the mutex-protected state of one route; each method runs
    under the lock, so it is one atomic step.  A method takes the clock reading
    [now] and returns the state changes it reports to [onStateChange].
    [Registry] hands out one breaker per route key; breakers are shared by
    pointer, so the registry works on a store of breakers. *)
From S2P Require Import Prelude.
Local Open Scope string_scope.
Local Open Scope list_scope.
Local Open Scope Z_scope.
Local Open Scope go_scope.

(** ** Data *)

Inductive State := StateClosed | StateOpen | StateHalfOpen.
#[export] Instance State_eq_dec : EqDecision State.
Proof. solve_decision. Defined.

Definition State_String (s : State) : string :=
  match s with
  | StateClosed => "closed"
  | StateOpen => "open"
  | StateHalfOpen => "half-open"
  end.

Record StateChange := mkStateChange {
  sc_from : State;
  sc_to : State;
  sc_reason : string;
  sc_routeID : string;
  sc_time : Z;
}.

Record Config := mkConfig {
  cfg_failures : Z;
  cfg_cooldown : Z;
  cfg_halfOpenMax : Z;
}.

Record Breaker := mkBreaker {
  failures : Z;
  state : State;
  lastFailure : Z;
  openedAt : Z;
  halfOpenProbes : Z;
  routeID : string;
  config : Config;
  observed : bool; (* onStateChange is not nil *)
}.

(** ** Operations *)

Definition emit (b : Breaker) (from to : State) (reason : string) (now : Z) : list StateChange :=
  if observed b then [mkStateChange from to reason (routeID b) now] else [].

(** The zero [time.Time] of a fresh breaker is the instant [0]. *)
Definition New (cfg : Config) (obs : bool) : Breaker :=
  let cfg :=
    mkConfig (if cfg_failures cfg =? 0 then 5 else cfg_failures cfg)
             (if cfg_cooldown cfg =? 0 then 30 * second else cfg_cooldown cfg)
             (if cfg_halfOpenMax cfg =? 0 then 1 else cfg_halfOpenMax cfg) in
  mkBreaker 0 StateClosed 0 0 0 "" cfg obs.

Definition SetRouteID (id : string) (b : Breaker) : Breaker :=
  mkBreaker (failures b) (state b) (lastFailure b) (openedAt b) (halfOpenProbes b)
    id (config b) (observed b).

Definition RecordSuccess (now : Z) (b : Breaker) : Breaker * list StateChange :=
  match state b with
  | StateHalfOpen =>
      let b' := mkBreaker 0 StateClosed (lastFailure b) (openedAt b) 0
                  (routeID b) (config b) (observed b) in
      (b', emit b' (state b) StateClosed "probe succeeded" now)
  | StateClosed =>
      (mkBreaker 0 (state b) (lastFailure b) (openedAt b) (halfOpenProbes b)
         (routeID b) (config b) (observed b), [])
  | StateOpen => (b, [])
  end.

Definition RecordFailure (now : Z) (b : Breaker) : Breaker * list StateChange :=
  let b1 := mkBreaker (failures b +64 1) (state b) now (openedAt b) (halfOpenProbes b)
              (routeID b) (config b) (observed b) in
  match state b1 with
  | StateClosed =>
      if cfg_failures (config b1) <=? failures b1 then
        let b2 := mkBreaker (failures b1) StateOpen (lastFailure b1) now (halfOpenProbes b1)
                    (routeID b1) (config b1) (observed b1) in
        (b2, emit b2 (state b1) StateOpen "consecutive failures" now)
      else (b1, [])
  | StateHalfOpen =>
      let b2 := mkBreaker (failures b1) StateOpen (lastFailure b1) (openedAt b1) 0
                  (routeID b1) (config b1) (observed b1) in
      (b2, emit b2 (state b1) StateOpen "half-open probe failed" now)
  | StateOpen => (b1, [])
  end.

Definition Allow (now : Z) (b : Breaker) : bool * Breaker * list StateChange :=
  match state b with
  | StateClosed => (true, b, [])
  | StateOpen =>
      if cfg_cooldown (config b) <=? time_sub now (openedAt b) then
        let b' := mkBreaker (failures b) StateHalfOpen (lastFailure b) (openedAt b) 0
                    (routeID b) (config b) (observed b) in
        (true, b', emit b' (state b) StateHalfOpen "cooldown expired" now)
      else (false, b, [])
  | StateHalfOpen =>
      if halfOpenProbes b <? cfg_halfOpenMax (config b) then
        (true, mkBreaker (failures b) (state b) (lastFailure b) (openedAt b)
                 (halfOpenProbes b +64 1) (routeID b) (config b) (observed b), [])
      else (false, b, [])
  end.

(** [Stats]; [State] and [Failures] are its first two components. *)
Definition Stats (b : Breaker) : State * Z * Z := (state b, failures b, lastFailure b).

(** *** The registry

    [store] holds the breakers ever created, by address; [breakers] is the
    map of the registry from route key to address. *)
Record Registry := mkRegistry {
  store : list Breaker;
  breakers : gmap string nat;
  reg_config : Config;
  reg_log : bool;
}.

Definition NewRegistry (cfg : Config) (log : bool) : Registry := mkRegistry [] ∅ cfg log.

Definition Get (route : string) (r : Registry) : nat * Registry :=
  match breakers r !! route with
  | Some p => (p, r)
  | None =>
      let p := length (store r) in
      (p, mkRegistry (store r ++ [SetRouteID route (New (reg_config r) (reg_log r))])
            (<[route := p]> (breakers r)) (reg_config r) (reg_log r))
  end.

Definition Remove (route : string) (r : Registry) : Registry :=
  mkRegistry (store r) (delete route (breakers r)) (reg_config r) (reg_log r).

Definition Count (r : Registry) : nat := size (breakers r).

(** A method call through a pointer handed out by [Get]. *)
Definition update_at (p : nat) (b : Breaker) (r : Registry) : Registry :=
  mkRegistry (<[p := b]> (store r)) (breakers r) (reg_config r) (reg_log r).

(** ** Calls on one breaker, as operations *)

Inductive Op :=
  | OpSuccess (now : Z)
  | OpFailure (now : Z)
  | OpAllow (now : Z).

Definition step (b : Breaker) (op : Op) : Breaker :=
  match op with
  | OpSuccess now => (RecordSuccess now b).1
  | OpFailure now => (RecordFailure now b).1
  | OpAllow now => (Allow now b).1.2
  end.

(** The answers of the [Allow] calls of a run, in order. *)
Fixpoint answers (b : Breaker) (ops : list Op) : list bool :=
  match ops with
  | [] => []
  | OpAllow now :: ops' => (Allow now b).1.1 :: answers (step b (OpAllow now)) ops'
  | op :: ops' => answers (step b op) ops'
  end.

(** Failures in a row, as the calls record them. *)
Definition consecutive (ops : list Op) : Z :=
  foldl (fun n op => match op with OpFailure _ => n + 1 | OpSuccess _ => 0 | OpAllow _ => n end)
    0 ops.

(** ** The invariant of a breaker *)

(** The limits a validated configuration gives after [New] has filled in the
    zero fields: positive and within the machine's integers. *)
Definition config_ok (c : Config) : Prop :=
  0 < cfg_failures c < 2 ^ 63 /\ 0 < cfg_cooldown c < 2 ^ 63 /\ 0 < cfg_halfOpenMax c < 2 ^ 63.

Record breaker_ok (b : Breaker) : Prop := {
  ok_config : config_ok (config b);
  ok_probes : 0 <= halfOpenProbes b <= cfg_halfOpenMax (config b);
  ok_probes_idle : state b <> StateHalfOpen -> halfOpenProbes b = 0;
  ok_closed : state b = StateClosed -> 0 <= failures b < cfg_failures (config b);
}.

Lemma New_config_ok cfg obs :
  0 <= cfg_failures cfg < 2 ^ 63 -> 0 <= cfg_cooldown cfg < 2 ^ 63 ->
  0 <= cfg_halfOpenMax cfg < 2 ^ 63 -> config_ok (config (New cfg obs)).
Proof. intros. unfold config_ok, New, second. simpl. split_ifs; lia. Qed.

Lemma New_ok cfg obs :
  0 <= cfg_failures cfg < 2 ^ 63 -> 0 <= cfg_cooldown cfg < 2 ^ 63 ->
  0 <= cfg_halfOpenMax cfg < 2 ^ 63 -> breaker_ok (New cfg obs).
Proof.
  intros H1 H2 H3. pose proof (New_config_ok cfg obs H1 H2 H3) as Hc.
  split; [done| | |]; destruct Hc as (? & ? & ?); simpl in *; intros; try done; lia.
Qed.

Lemma step_config b op : config (step b op) = config b.
Proof. destruct op; simpl; unfold RecordSuccess, RecordFailure, Allow; simpl;
  destruct (state b); simpl; repeat case_if; done. Qed.

Lemma step_ok b op : breaker_ok b -> breaker_ok (step b op).
Proof.
  intros [Hc Hp Hi Hcl].
  pose proof Hc as (Hf & Hd & Hm).
  destruct op; simpl; unfold RecordSuccess, RecordFailure, Allow; simpl;
    destruct (state b) eqn:Hs; simpl; split_ifs;
    (split; [done| | |]); simpl; intros; try done;
    try specialize (Hcl eq_refl); try specialize (Hi ltac:(done));
    rewrite ?wrap64_id in * by (unfold int64; lia); try congruence; lia.
Qed.

Definition limits_ok (cfg : Config) : Prop :=
  0 <= cfg_failures cfg < 2 ^ 63 /\ 0 <= cfg_cooldown cfg < 2 ^ 63 /\
  0 <= cfg_halfOpenMax cfg < 2 ^ 63.

Lemma run_New_ok cfg obs ops : limits_ok cfg -> breaker_ok (run step ops (New cfg obs)).
Proof.
  intros (? & ? & ?). apply run_invariant; [intros; by apply step_ok|by apply New_ok].
Qed.

Lemma run_config b ops : config (run step ops b) = config b.
Proof.
  revert b. induction ops as [|op ops IH]; intros b; [done|].
  change (run step (op :: ops) b) with (run step ops (step b op)).
  by rewrite IH, step_config.
Qed.

Lemma consecutive_snoc ops op :
  consecutive (ops ++ [op]) =
  match op with
  | OpFailure _ => consecutive ops + 1
  | OpSuccess _ => 0
  | OpAllow _ => consecutive ops
  end.
Proof. unfold consecutive. rewrite foldl_app. by destruct op. Qed.

Lemma run_snoc b ops op : run step (ops ++ [op]) b = step (run step ops b) op.
Proof. by rewrite run_app. Qed.

(** One call on a closed breaker. *)
Lemma closed_step b op :
  breaker_ok b -> state b = StateClosed ->
  let n := match op with OpFailure _ => failures b + 1 | OpSuccess _ => 0 | _ => failures b end in
  if cfg_failures (config b) <=? n
  then state (step b op) = StateOpen /\ (forall t, op = OpFailure t -> openedAt (step b op) = t)
  else state (step b op) = StateClosed /\ failures (step b op) = n.
Proof.
  intros [Hc _ _ Hcl] Hs. specialize (Hcl Hs). pose proof Hc as (Hf & _ & _).
  destruct op; simpl; unfold RecordSuccess, RecordFailure, Allow; rewrite ?Hs; simpl; rewrite ?Hs;
    rewrite ?wrap64_id by (unfold int64; lia); split_ifs; try lia; split; try done; congruence.
Qed.

Definition below_until (F : Z) (ops : list Op) : Prop :=
  forall p, p `prefix_of` ops -> p <> ops -> consecutive p < F.

Lemma below_until_snoc F ops op :
  below_until F (ops ++ [op]) -> below_until F ops /\ consecutive ops < F.
Proof.
  intros H. split.
  - intros p Hp Hne. apply H; [by apply prefix_app_r|].
    intros ->. apply prefix_length in Hp. rewrite length_app in Hp. simpl in Hp. lia.
  - apply H; [by apply prefix_app_r|]. intros Heq%(f_equal length).
    rewrite length_app in Heq. simpl in Heq. lia.
Qed.

(** C36: a fresh breaker opens exactly at the configured number of consecutive
    failures.  As long as no earlier prefix of the calls reached the threshold,
    after the calls the breaker is open if and only if the failures in a row
    have reached it (and then [openedAt] is the instant of the last failure),
    and otherwise it is closed and counts exactly the failures in a row. *)
Theorem trips_at_threshold cfg obs ops :
  limits_ok cfg ->
  let b0 := New cfg obs in
  let F := cfg_failures (config b0) in
  below_until F ops ->
  let b := run step ops b0 in
  if F <=? consecutive ops
  then state b = StateOpen /\ (forall ops' t, ops = ops' ++ [OpFailure t] -> openedAt b = t)
  else state b = StateClosed /\ failures b = consecutive ops.
Proof.
  intros Hlim b0 F. induction ops as [|op ops IH] using rev_ind; intros Hbelow b.
  - pose proof (New_ok cfg obs ltac:(apply Hlim) ltac:(apply Hlim) ltac:(apply Hlim)) as [Hc _ _ _].
    destruct Hc as [? _]. unfold b, consecutive. simpl. rewrite (proj2 (Z.leb_gt _ _)) by (subst F b0; lia).
    done.
  - apply below_until_snoc in Hbelow as [Hbelow Hlt]. specialize (IH Hbelow).
    rewrite (proj2 (Z.leb_gt _ _) Hlt) in IH. destruct IH as [Hs Hf].
    pose proof (closed_step _ op (run_New_ok cfg obs ops Hlim) Hs) as Hstep.
    fold b0 in Hstep. rewrite run_config, Hf, <-run_snoc in Hstep. fold F b in Hstep.
    rewrite consecutive_snoc. simpl in Hstep. destruct op; case_if; try done.
    all: destruct Hstep as [? Ht]; split; [done|]; intros ops' t' [_ Heq]%app_inj_tail; eauto.
Qed.

Definition op_time (op : Op) : Z :=
  match op with OpSuccess t | OpFailure t | OpAllow t => t end.

Lemma open_step b op :
  breaker_ok b -> state b = StateOpen ->
  time_sub (op_time op) (openedAt b) < cfg_cooldown (config b) ->
  state (step b op) = StateOpen /\ openedAt (step b op) = openedAt b /\
  (forall t, op = OpAllow t -> (Allow t b).1.1 = false).
Proof.
  intros [Hc _ _ _] Hs Ht.
  destruct op; simpl in *; unfold RecordSuccess, RecordFailure, Allow; simpl; rewrite Hs; simpl;
    rewrite ?(proj2 (Z.leb_gt _ _) Ht); split_and!; intros; simplify_eq; try done.
  by rewrite (proj2 (Z.leb_gt _ _) Ht).
Qed.

(** while the cooldown runs, an open breaker admits nothing: whatever
    calls are made at instants before [openedAt + Cooldown], every [Allow]
    answers false and the breaker stays open with the same opening instant. *)
Theorem open_denies_during_cooldown b ops :
  breaker_ok b -> state b = StateOpen ->
  Forall (fun op => op_time op - openedAt b < cfg_cooldown (config b)) ops ->
  Forall (fun a => a = false) (answers b ops) /\
  state (run step ops b) = StateOpen /\ openedAt (run step ops b) = openedAt b.
Proof.
  revert b. induction ops as [|op ops IH]; intros b Hok Hs Hall; [by repeat split|].
  inversion Hall as [|? ? Ht Hall']; subst. pose proof Hok as [[_ [Hd _]] _ _ _].
  assert (time_sub (op_time op) (openedAt b) < cfg_cooldown (config b)) as Ht'
    by (apply time_sub_lt; lia).
  destruct (open_step b op Hok Hs Ht') as (Hs' & Ho & Ha).
  rewrite <-Ho in *. rewrite <-(step_config b op) in *.
  destruct (IH _ (step_ok _ op Hok) Hs' Hall') as (IH1 & IH2 & IH3).
  split_and!; [|done|done].
  destruct op; simpl; [done|done|]. constructor; [by eapply Ha|done].
Qed.

(** Calls of [Allow] alone on a half-open breaker use up the probes left. *)
Lemma half_open_quota b ts :
  breaker_ok b -> state b = StateHalfOpen ->
  let left := Z.to_nat (cfg_halfOpenMax (config b) - halfOpenProbes b) in
  answers b (OpAllow <$> ts) =
    replicate (length ts `min` left) true ++ replicate (length ts - left) false /\
  state (run step (OpAllow <$> ts) b) = StateHalfOpen.
Proof.
  revert b. induction ts as [|t ts IH]; intros b Hok Hs left; [done|].
  pose proof Hok as [[_ [_ Hm]] Hp _ _].
  assert (state (step b (OpAllow t)) = StateHalfOpen) as Hs'.
  { simpl. unfold Allow. rewrite Hs. by case_if. }
  destruct (IH _ (step_ok _ (OpAllow t) Hok) Hs') as [IHa IHs].
  split; [|exact IHs]. rewrite step_config in IHa.
  change (answers b (OpAllow <$> t :: ts)) with
    ((Allow t b).1.1 :: answers (step b (OpAllow t)) (OpAllow <$> ts)).
  rewrite IHa. subst left. simpl. unfold Allow. rewrite Hs.
  destruct (halfOpenProbes b <? cfg_halfOpenMax (config b)) eqn:E; bool_to_prop; simpl.
  - rewrite wrap64_id by (unfold int64; lia).
    replace (Z.to_nat (cfg_halfOpenMax (config b) - halfOpenProbes b))
      with (S (Z.to_nat (cfg_halfOpenMax (config b) - (halfOpenProbes b + 1)))) by lia.
    done.
  - replace (Z.to_nat (cfg_halfOpenMax (config b) - halfOpenProbes b)) with 0%nat by lia.
    rewrite Nat.min_0_r, Nat.sub_0_r. done.
Qed.

(** The probes such calls have used. *)
Lemma half_open_probes b ts :
  breaker_ok b -> state b = StateHalfOpen ->
  let b' := run step (OpAllow <$> ts) b in
  state b' = StateHalfOpen /\ config b' = config b /\
  halfOpenProbes b' = Z.min (cfg_halfOpenMax (config b)) (halfOpenProbes b + Z.of_nat (length ts)).
Proof.
  revert b. induction ts as [|t ts IH]; intros b Hok Hs b'.
  - subst b'. destruct Hok as [_ Hp _ _]. simpl. split_and!; [done|done|lia].
  - pose proof Hok as [[_ [_ Hm]] Hp _ _].
    assert (state (step b (OpAllow t)) = StateHalfOpen /\
      halfOpenProbes (step b (OpAllow t)) = Z.min (cfg_halfOpenMax (config b)) (halfOpenProbes b + 1))
      as [Hs' Hp'].
    { simpl. unfold Allow. rewrite Hs. case_if; bool_to_prop; simpl; (split; [done|]);
        rewrite ?wrap64_id by (unfold int64; lia); lia. }
    destruct (IH _ (step_ok _ (OpAllow t) Hok) Hs') as (IH1 & IH2 & IH3).
    subst b'. change (run step (OpAllow <$> t :: ts) b)
      with (run step (OpAllow <$> ts) (step b (OpAllow t))).
    rewrite step_config in IH2, IH3. rewrite Hp' in IH3. split_and!; [done|done|].
    rewrite IH3. cbn [length]. lia.
Qed.

Lemma open_then_probes b t ts :
  breaker_ok b -> state b = StateOpen -> cfg_cooldown (config b) <= t - openedAt b ->
  let b' := run step (OpAllow <$> (t :: ts)) b in
  state b' = StateHalfOpen /\ config b' = config b /\
  halfOpenProbes b' = Z.min (cfg_halfOpenMax (config b)) (Z.of_nat (length ts)).
Proof.
  intros Hok Hs Ht b'. pose proof Hok as [[_ [Hd Hm]] _ _ _].
  assert (state (step b (OpAllow t)) = StateHalfOpen /\ halfOpenProbes (step b (OpAllow t)) = 0) as [Hs1 Hp1].
  { simpl. unfold Allow. rewrite Hs. by rewrite (proj2 (Z.leb_le _ _)) by (apply time_sub_ge; lia). }
  destruct (half_open_probes _ ts (step_ok b (OpAllow t) Hok) Hs1) as (H1 & H2 & H3).
  subst b'. change (run step (OpAllow <$> t :: ts) b)
    with (run step (OpAllow <$> ts) (step b (OpAllow t))).
  rewrite step_config in H2, H3. rewrite Hp1 in H3. done.
Qed.

(** how many probes a recovery admits.  Once the cooldown has expired,
    a series of [Allow] calls with no result in between is admitted
    [HalfOpenMax + 1] times (the call that leaves the open state is not
    counted) and denied from then on, however long the calls go on: without a
    recorded result the breaker never leaves the half-open state. *)
Theorem probes_admitted_after_cooldown b t ts :
  breaker_ok b -> state b = StateOpen ->
  cfg_cooldown (config b) <= t - openedAt b ->
  let quota := S (Z.to_nat (cfg_halfOpenMax (config b))) in
  answers b (OpAllow <$> (t :: ts)) =
    replicate (S (length ts) `min` quota) true ++ replicate (S (length ts) - quota) false /\
  state (run step (OpAllow <$> (t :: ts)) b) = StateHalfOpen.
Proof.
  intros Hok Hs Ht quota. pose proof Hok as [[_ [Hd Hm]] _ Hi _].
  assert (Allow t b = (true, mkBreaker (failures b) StateHalfOpen (lastFailure b) (openedAt b) 0
    (routeID b) (config b) (observed b), emit b StateOpen StateHalfOpen "cooldown expired" t))
    as Hallow.
  { unfold Allow. rewrite Hs. rewrite (proj2 (Z.leb_le _ _)) by (apply time_sub_ge; lia). done. }
  assert (step b (OpAllow t) = mkBreaker (failures b) StateHalfOpen (lastFailure b) (openedAt b) 0
    (routeID b) (config b) (observed b)) as Hstep by (simpl; by rewrite Hallow).
  pose proof (step_ok b (OpAllow t) Hok) as Hok'. rewrite Hstep in Hok'.
  destruct (half_open_quota _ ts Hok' eq_refl) as [Ha Hs']. simpl in Ha.
  rewrite Z.sub_0_r in Ha. split.
  - change (answers b (OpAllow <$> t :: ts)) with
      ((Allow t b).1.1 :: answers (step b (OpAllow t)) (OpAllow <$> ts)).
    rewrite Hstep, Hallow, Ha. subst quota. done.
  - change (run step (OpAllow <$> t :: ts) b) with (run step (OpAllow <$> ts) (step b (OpAllow t))).
    by rewrite Hstep.
Qed.

(** a failed probe reopens the breaker without a new cooldown: the opening
    instant keeps its old value, so the very next [Allow] is admitted and goes
    back to half-open, at any instant once the first cooldown has expired.  A
    breaker tripped from the closed state denies that same call. *)
Theorem failed_probe_restarts_no_cooldown b now now' :
  breaker_ok b ->
  cfg_cooldown (config b) <= now - openedAt b -> now <= now' ->
  (state b = StateHalfOpen ->
     let b' := (RecordFailure now b).1 in
     state b' = StateOpen /\ (Allow now' b').1.1 = true /\
     state (Allow now' b').1.2 = StateHalfOpen) /\
  (state b = StateClosed -> cfg_failures (config b) <= failures b + 1 ->
   now' - now < cfg_cooldown (config b) ->
     let b' := (RecordFailure now b).1 in
     state b' = StateOpen /\ (Allow now' b').1.1 = false).
Proof.
  intros [[Hf [Hd _]] _ _ Hcl] Ht Hn. split.
  - intros Hs. unfold RecordFailure. simpl. rewrite Hs. simpl. unfold Allow. simpl.
    rewrite (proj2 (Z.leb_le _ _)) by (apply time_sub_ge; lia). done.
  - intros Hs Hthr Hn'. specialize (Hcl Hs). unfold RecordFailure. simpl. rewrite Hs. simpl.
    rewrite wrap64_id by (unfold int64; lia). rewrite (proj2 (Z.leb_le _ _) Hthr). simpl.
    unfold Allow. simpl. by rewrite (proj2 (Z.leb_gt _ _)) by (apply time_sub_lt; lia).
Qed.

(** The transitions of the state machine. *)
Inductive transition : State -> State -> string -> Prop :=
  | tr_trip : transition StateClosed StateOpen "consecutive failures"
  | tr_probe : transition StateOpen StateHalfOpen "cooldown expired"
  | tr_close : transition StateHalfOpen StateClosed "probe succeeded"
  | tr_reopen : transition StateHalfOpen StateOpen "half-open probe failed".

Definition changes (op : Op) (b : Breaker) : list StateChange :=
  match op with
  | OpSuccess now => (RecordSuccess now b).2
  | OpFailure now => (RecordFailure now b).2
  | OpAllow now => (Allow now b).2
  end.

(** the state machine has exactly four transitions, and each call reports
    exactly the change it makes: with a callback installed, a call that moves
    the breaker emits one [StateChange] with the old and new state, the
    transition's reason, the route and the call's instant, and a call that
    does not move it emits none. *)
Theorem state_changes_reported b op :
  (state (step b op) = state b /\ changes op b = []) \/
  (exists reason, transition (state b) (state (step b op)) reason /\
     changes op b = if observed b
       then [mkStateChange (state b) (state (step b op)) reason (routeID b) (op_time op)]
       else []).
Proof.
  destruct op; simpl; unfold RecordSuccess, RecordFailure, Allow, emit; simpl;
    destruct (state b) eqn:Hs; simpl; rewrite ?Hs; repeat case_if; simpl;
    first [by left | right; eexists; (split; [constructor|done])].
Qed.

(** *** The registry hands out one breaker per route *)

Inductive RegOp :=
  | RGet (route : string)
  | RRemove (route : string)
  | RCall (p : nat) (op : Op).

Definition reg_step (r : Registry) (op : RegOp) : Registry :=
  match op with
  | RGet route => (Get route r).2
  | RRemove route => Remove route r
  | RCall p op => match store r !! p with Some b => update_at p (step b op) r | None => r end
  end.

Definition registry_ok (r : Registry) : Prop :=
  forall route p, breakers r !! route = Some p ->
    exists b, store r !! p = Some b /\ routeID b = route.

Lemma step_routeID b op : routeID (step b op) = routeID b.
Proof. destruct op; simpl; unfold RecordSuccess, RecordFailure, Allow; simpl;
  destruct (state b); simpl; repeat case_if; done. Qed.

Lemma update_at_ok p b b' r :
  registry_ok r -> store r !! p = Some b -> routeID b' = routeID b -> registry_ok (update_at p b' r).
Proof.
  intros Hok Hp Hid route q Hq. simpl in *. destruct (Hok route q Hq) as (c & Hc & <-).
  destruct (decide (p = q)) as [->|Hne].
  - exists b'. simplify_eq. rewrite list_lookup_insert_eq by (by eapply lookup_lt_Some). done.
  - exists c. by rewrite list_lookup_insert_ne.
Qed.

Lemma Get_registry_ok route r : registry_ok r -> registry_ok (Get route r).2.
Proof.
  unfold Get. intros Hok. destruct (breakers r !! route) as [p|] eqn:E; [done|].
  intros route' q. simpl. destruct (decide (route = route')) as [->|Hne].
  - rewrite lookup_insert_eq. intros [= <-]. eexists.
    rewrite lookup_app_r, Nat.sub_diag by done. done.
  - rewrite lookup_insert_ne by done. intros (b & Hb & ?)%Hok.
    exists b. by rewrite (lookup_app_l_Some _ _ _ _ Hb).
Qed.

Lemma reg_step_ok r op : registry_ok r -> registry_ok (reg_step r op).
Proof.
  destruct op as [route|route|p op]; simpl; intros Hok.
  - by apply Get_registry_ok.
  - intros route' q Hq. simpl in Hq. apply lookup_delete_Some in Hq as [_ Hq]. by apply Hok.
  - destruct (store r !! p) as [b|] eqn:Hp; [|done].
    eapply update_at_ok; [done|done|]. apply step_routeID.
Qed.

(** the registry keeps one breaker per route key: after any history of
    gets, removals and calls, [Get] returns a breaker labelled with the route,
    asking again returns the same breaker and changes nothing, and the breakers
    of two routes are different objects, so a call on one leaves the other
    untouched. *)
Theorem registry_one_breaker_per_route cfg log ops route :
  let r := run reg_step ops (NewRegistry cfg log) in
  let '(p, r1) := Get route r in
  (exists b, store r1 !! p = Some b /\ routeID b = route) /\
  Get route r1 = (p, r1) /\
  (forall route' q r2 b', route' <> route -> Get route' r1 = (q, r2) ->
     q <> p /\ store (update_at p b' r2) !! q = store r2 !! q).
Proof.
  intros r. assert (registry_ok r) as Hok.
  { apply run_invariant; [intros; by apply reg_step_ok|]. intros ? ? H. done. }
  pose proof (Get_registry_ok route r Hok) as Hok1.
  assert (breakers (Get route r).2 !! route = Some (Get route r).1) as Hget.
  { unfold Get. destruct (breakers r !! route) eqn:E; simpl; [done|apply lookup_insert_eq]. }
  destruct (Get route r) as [p r1]. simpl in *. split_and!.
  - by apply Hok1.
  - unfold Get. by rewrite Hget.
  - intros route' q r2 b' Hne Hget'.
    pose proof (Get_registry_ok route' r1 Hok1) as Hok2.
    assert (breakers r2 !! route' = Some q /\ breakers r2 !! route = Some p) as [H1 H2].
    { unfold Get in Hget'. destruct (breakers r1 !! route') eqn:E; simplify_eq; [done|].
      simpl. by rewrite lookup_insert_eq, lookup_insert_ne. }
    rewrite Hget' in Hok2. apply Hok2 in H1 as (b1 & Hb1 & Hr1). apply Hok2 in H2 as (b2 & Hb2 & Hr2).
    assert (q <> p) by congruence. split; [done|]. simpl. by apply list_lookup_insert_ne.
Qed.

(** ** Witnesses *)

Definition demo_config : Config := mkConfig 2 (10 * second) 1.
Definition demo_open : Breaker :=
  run step [OpFailure 5; OpFailure 7] (New demo_config true).
Lemma demo_open_ok : breaker_ok demo_open.
Proof. apply run_New_ok. unfold limits_ok, demo_config, second. simpl. lia. Qed.

Lemma below_until_take F ops :
  Forall (fun k => consecutive (take k ops) < F) (seq 0 (length ops)) -> below_until F ops.
Proof.
  rewrite Forall_forall. intros H p [k ->] Hne.
  assert (length k <> 0)%nat by (destruct k; [by rewrite app_nil_r in Hne|done]).
  rewrite <-(take_app_length p k). apply H. rewrite elem_of_seq, length_app. lia.
Qed.

Lemma trips_at_threshold_witness :
  state (run step [OpFailure 1; OpSuccess 2; OpFailure 3; OpFailure 4] (New demo_config true))
  = StateOpen.
Proof.
  pose proof (trips_at_threshold demo_config true
    [OpFailure 1; OpSuccess 2; OpFailure 3; OpFailure 4]) as H.
  apply H.
  - unfold limits_ok, demo_config, second. simpl. lia.
  - apply below_until_take. by_compute.
Defined.

Lemma open_denies_during_cooldown_witness :
  answers demo_open [OpAllow 8; OpAllow (5 * second)] = [false; false] /\
  Forall (fun a => a = false) (answers demo_open [OpAllow 8; OpAllow (5 * second)]).
Proof.
  split; [reflexivity|].
  apply (open_denies_during_cooldown demo_open); [apply demo_open_ok|reflexivity|].
  repeat constructor.
Defined.

Lemma probes_admitted_after_cooldown_witness :
  answers demo_open (OpAllow <$> [20 * second; 21 * second; 22 * second]) = [true; true; false].
Proof.
  destruct (probes_admitted_after_cooldown demo_open (20 * second) [21 * second; 22 * second])
    as [H _]; [apply demo_open_ok|reflexivity|vm_compute; discriminate|exact H].
Defined.

Lemma failed_probe_restarts_no_cooldown_witness :
  let b := run step [OpAllow (20 * second)] demo_open in
  (Allow (20 * second) (RecordFailure (20 * second) b).1).1.1 = true.
Proof.
  intros b.
  destruct (failed_probe_restarts_no_cooldown b (20 * second) (20 * second)) as [H _].
  - apply run_invariant; [intros; by apply step_ok|apply demo_open_ok].
  - vm_compute. discriminate.
  - lia.
  - by apply H.
Defined.
