(* ===== verification/Worker.v ===== *)
(** * Workers and their repository ([core/domain/worker],
      [core/infrastructure/repository])

    A [Worker] is shared by pointer between the pools, the lifecycle service
    and the repository, so pointers are explicit: a [heap] of worker cells.
    [MemoryWorkerRepository] copies on the way in and on the way out; the last
    section shows what that buys: whatever its clients write through the
    pointers they hold, the repository behaves as a finite map of values. *)
From S2P Require Import Prelude.
Local Open Scope string_scope.
Local Open Scope list_scope.
Local Open Scope Z_scope.

(** ** The entity ([worker.go]) *)

(** [State] is a Go string type; the code uses five of its values. *)
Definition State := string.
Definition StateStarting : State := "starting".
Definition StateRunning : State := "running".
Definition StateUnhealthy : State := "unhealthy".
Definition StateRestarting : State := "restarting".
Definition StateStopped : State := "stopped".

Record Worker := mkWorker {
  ID : string;
  Command : string;
  Args : list string;
  WorkDir : string;
  RuntimeVersion : string;
  wstate : State;
  RestartCount : Z;
  LastHeartbeat : Z;
  CreatedAt : Z;
  UpdatedAt : Z;
  ShutdownTimeout : Z;
}.

#[export] Instance Worker_eq_dec : EqDecision Worker.
Proof. solve_decision. Defined.

(** The assignments [w.ID = id], [w.State = s], [w.RestartCount = n],
    [w.LastHeartbeat = t], [w.CreatedAt = t] and [w.UpdatedAt = t]. *)
Definition set_ID (id : string) (w : Worker) : Worker :=
  mkWorker id (Command w) (Args w) (WorkDir w) (RuntimeVersion w) (wstate w)
    (RestartCount w) (LastHeartbeat w) (CreatedAt w) (UpdatedAt w) (ShutdownTimeout w).
Definition set_State (s : State) (w : Worker) : Worker :=
  mkWorker (ID w) (Command w) (Args w) (WorkDir w) (RuntimeVersion w) s
    (RestartCount w) (LastHeartbeat w) (CreatedAt w) (UpdatedAt w) (ShutdownTimeout w).
Definition set_RestartCount (n : Z) (w : Worker) : Worker :=
  mkWorker (ID w) (Command w) (Args w) (WorkDir w) (RuntimeVersion w) (wstate w)
    n (LastHeartbeat w) (CreatedAt w) (UpdatedAt w) (ShutdownTimeout w).
Definition set_LastHeartbeat (t : Z) (w : Worker) : Worker :=
  mkWorker (ID w) (Command w) (Args w) (WorkDir w) (RuntimeVersion w) (wstate w)
    (RestartCount w) t (CreatedAt w) (UpdatedAt w) (ShutdownTimeout w).
Definition set_CreatedAt (t : Z) (w : Worker) : Worker :=
  mkWorker (ID w) (Command w) (Args w) (WorkDir w) (RuntimeVersion w) (wstate w)
    (RestartCount w) (LastHeartbeat w) t (UpdatedAt w) (ShutdownTimeout w).
Definition set_UpdatedAt (t : Z) (w : Worker) : Worker :=
  mkWorker (ID w) (Command w) (Args w) (WorkDir w) (RuntimeVersion w) (wstate w)
    (RestartCount w) (LastHeartbeat w) (CreatedAt w) t (ShutdownTimeout w).

Definition IsAlive (w : Worker) : bool := String.eqb (wstate w) StateRunning.

(** The two readings of the clock are two arguments. *)
Definition SetHealth (healthy : bool) (now1 now2 : Z) (w : Worker) : Worker :=
  let w := if healthy then set_State StateRunning w else set_State StateUnhealthy w in
  set_UpdatedAt now2 (set_LastHeartbeat now1 w).

Definition RecordHeartbeat (now1 now2 : Z) (w : Worker) : Worker :=
  let w := set_UpdatedAt now2 (set_LastHeartbeat now1 w) in
  if String.eqb (wstate w) StateUnhealthy then set_State StateRunning w else w.

(** [errors.go] *)
Definition ErrNotFound := Sentinel "worker.ErrNotFound" "worker not found".
Definition ErrAlreadyRunning := Sentinel "worker.ErrAlreadyRunning" "worker is already running".
Definition ErrSpawnFailed := Sentinel "worker.ErrSpawnFailed" "failed to spawn worker process".
Definition ErrStopTimeout :=
  Sentinel "worker.ErrStopTimeout" "worker did not stop within the allowed timeout".
Definition ErrInvalidCommand :=
  Sentinel "worker.ErrInvalidCommand" "worker command is empty or invalid".

(** [event.go] *)
Inductive EventType :=
  | EventSpawned | EventRunning | EventUnhealthy | EventRestarting | EventStopped | EventHeartbeat.
#[export] Instance EventType_eq_dec : EqDecision EventType.
Proof. solve_decision. Defined.

Record Event := mkEvent {
  ev_type : EventType;
  ev_workerID : string;
  ev_state : State;
  ev_timestamp : Z;
  ev_details : string;
}.

(** ** The heap of workers

    Addresses are naturals; Go has no dangling pointers, so every address
    has a cell.  Addresses from [next] on are not allocated yet. *)
Definition loc := nat.
Record heap := mkHeap {
  cells : loc -> Worker;
  next : loc;
}.

Definition deref (h : heap) (p : loc) : Worker := cells h p.
Definition write (h : heap) (p : loc) (w : Worker) : heap :=
  mkHeap (fun q => if decide (q = p) then w else cells h q) (next h).
Definition alloc (h : heap) (w : Worker) : loc * heap :=
  (next h, mkHeap (fun q => if decide (q = next h) then w else cells h q) (S (next h))).

Lemma deref_write h p w : deref (write h p w) p = w.
Proof. unfold deref, write; simpl. by rewrite decide_True. Qed.
Lemma deref_write_ne h p q w : q <> p -> deref (write h p w) q = deref h q.
Proof. intros. unfold deref, write; simpl. by rewrite decide_False. Qed.
Lemma deref_alloc h w : deref (alloc h w).2 (alloc h w).1 = w.
Proof. unfold deref, alloc; simpl. by rewrite decide_True. Qed.
Lemma deref_alloc_ne h w q : q <> next h -> deref (alloc h w).2 q = deref h q.
Proof. intros. unfold deref, alloc; simpl. by rewrite decide_False. Qed.

(** ** The repository ([memory_worker_repository.go]) *)
Module Repository.

Record MemoryWorkerRepository := mkRepo { workers : gmap string loc }.

Definition NewMemoryWorkerRepository : MemoryWorkerRepository := mkRepo ∅.

Definition Save (w : loc) (hr : heap * MemoryWorkerRepository) : heap * MemoryWorkerRepository :=
  let '(h, r) := hr in
  let '(copy, h') := alloc h (deref h w) in
  (h', mkRepo (<[ID (deref h w) := copy]> (workers r))).

(** The nil pointer is [None]; no call of this implementation fails. *)
Definition FindByID (id : string) (hr : heap * MemoryWorkerRepository)
    : option loc * (heap * MemoryWorkerRepository) :=
  let '(h, r) := hr in
  match workers r !! id with
  | None => (None, (h, r))
  | Some w => let '(copy, h') := alloc h (deref h w) in (Some copy, (h', r))
  end.

(** [order] is the order in which the runtime ranges over the map. *)
Fixpoint FindAll (order : list string) (hr : heap * MemoryWorkerRepository)
    : list loc * (heap * MemoryWorkerRepository) :=
  match order with
  | [] => ([], hr)
  | id :: order' =>
      match FindByID id hr with
      | (None, hr') => FindAll order' hr'
      | (Some copy, hr') =>
          let '(result, hr'') := FindAll order' hr' in (copy :: result, hr'')
      end
  end.

Definition Delete (id : string) (hr : heap * MemoryWorkerRepository)
    : heap * MemoryWorkerRepository :=
  (hr.1, mkRepo (delete id (workers hr.2))).

Definition range_order {A} (m : gmap string A) (order : list string) : Prop :=
  order ≡ₚ (map_to_list m).*1.

(** [for id := range r.workers { ids = append(ids, id) }] *)
Definition LiveWorkerIDs (order : list string) (r : MemoryWorkerRepository) : list string :=
  foldl (fun ids id => match workers r !! id with Some _ => ids ++ [id] | None => ids end) [] order.

(** Every identifier of the map, once. *)
Lemma LiveWorkerIDs_keys order r : range_order (workers r) order ->
  LiveWorkerIDs order r ≡ₚ (map_to_list (workers r)).*1 /\ NoDup (LiveWorkerIDs order r).
Proof.
  intros Ho.
  assert (forall ids acc, Forall (fun id => is_Some (workers r !! id)) ids ->
    foldl (fun ids id => match workers r !! id with Some _ => ids ++ [id] | None => ids end) acc ids = acc ++ ids)
    as Hloop.
  { intros ids. induction ids as [|id ids IH]; intros acc Hf; cbn; [by rewrite app_nil_r|].
    apply Forall_cons in Hf as [[p ->] Hf]. by rewrite IH, <-app_assoc. }
  unfold LiveWorkerIDs. rewrite Hloop.
  - split; [done|]. rewrite Ho. apply NoDup_fst_map_to_list.
  - apply Forall_forall. intros id Hid. rewrite Ho in Hid. apply list_elem_of_fmap in Hid as ([k p] & -> & Hin).
    apply elem_of_map_to_list in Hin. eauto.
Qed.

(** *** Clients

    [held] is the set of pointers the clients hold: the workers they allocate
    and the copies the repository hands out.  A client reads and writes
    through those only. *)
Record sys := mkSys {
  store : heap;
  repo : MemoryWorkerRepository;
  held : gset loc;
}.

Inductive Op :=
  | CNew (w : Worker)
  | CWrite (p : loc) (w : Worker)
  | CSave (p : loc)
  | CFind (id : string)
  | CDelete (id : string).

Definition step (s : sys) (op : Op) : sys :=
  match op with
  | CNew w => let '(p, h) := alloc (store s) w in mkSys h (repo s) ({[p]} ∪ held s)
  | CWrite p w =>
      if decide (p ∈ held s) then mkSys (write (store s) p w) (repo s) (held s) else s
  | CSave p =>
      if decide (p ∈ held s) then
        let '(h, r) := Save p (store s, repo s) in mkSys h r (held s)
      else s
  | CFind id =>
      match FindByID id (store s, repo s) with
      | (Some p, (h, r)) => mkSys h r ({[p]} ∪ held s)
      | (None, (h, r)) => mkSys h r (held s)
      end
  | CDelete id => let '(h, r) := Delete id (store s, repo s) in mkSys h r (held s)
  end.

Definition init (h : heap) : sys := mkSys h NewMemoryWorkerRepository ∅.

(** *** The abstract repository: a finite map of values *)
Definition view (s : sys) : gmap string Worker := deref (store s) <$> workers (repo s).

Definition spec_step (s : sys) (op : Op) : gmap string Worker :=
  match op with
  | CSave p =>
      if decide (p ∈ held s) then
        <[ID (deref (store s) p) := deref (store s) p]> (view s)
      else view s
  | CDelete id => delete id (view s)
  | _ => view s
  end.

Record sys_ok (s : sys) : Prop := {
  ok_held : forall p, p ∈ held s -> (p < next (store s))%nat;
  ok_repo : forall id p, workers (repo s) !! id = Some p -> (p < next (store s))%nat /\ p ∉ held s;
}.

Lemma init_ok h : sys_ok (init h).
Proof. split; simpl; intros *; [set_solver|]. by rewrite lookup_empty. Qed.

Lemma repo_step_ok s op : sys_ok s -> sys_ok (step s op).
Proof.
  intros [Hh Hr]. destruct op as [w|p w|p|id|id]; simpl.
  - split; simpl.
    + intros p [->%elem_of_singleton|?%Hh]%elem_of_union; lia.
    + intros id p Hp. destruct (Hr _ _ Hp). split; [lia|].
      intros [->%elem_of_singleton|?]%elem_of_union; [lia|done].
  - case_decide; split; simpl; auto.
  - case_decide; [|by split]. split; simpl.
    + intros q ?%Hh. lia.
    + intros id q [[<- <-]|[? Hq]]%lookup_insert_Some.
      * split; [lia|]. intros ?%Hh. lia.
      * destruct (Hr _ _ Hq). split; [lia|done].
  - destruct (workers (repo s) !! id) as [q|] eqn:E; simpl.
    + split; simpl.
      * intros p [->%elem_of_singleton|?%Hh]%elem_of_union; lia.
      * intros id' p Hp. destruct (Hr _ _ Hp). split; [lia|].
        intros [->%elem_of_singleton|?]%elem_of_union; [lia|done].
    + by split.
  - split; simpl; [done|]. intros id' q [? ?]%lookup_delete_Some. eauto.
Qed.

Lemma run_ok ops s : sys_ok s -> sys_ok (run step ops s).
Proof. apply run_invariant. auto using repo_step_ok. Qed.

(** A heap that agrees on the repository's private cells gives the same view. *)
Lemma view_ext (m : gmap string loc) h h' :
  (forall id p, m !! id = Some p -> deref h' p = deref h p) ->
  deref h' <$> m = deref h <$> m.
Proof.
  intros H. apply map_fmap_ext. intros id p Hp. eauto.
Qed.

Lemma step_view s op : sys_ok s -> view (step s op) = spec_step s op.
Proof.
  intros [Hh Hr]. unfold view. destruct op as [w|p w|p|id|id]; simpl.
  - apply view_ext. intros id q Hq. apply deref_alloc_ne. destruct (Hr _ _ Hq). lia.
  - case_decide; simpl; [|done]. apply view_ext. intros id q Hq.
    apply deref_write_ne. destruct (Hr _ _ Hq). naive_solver.
  - case_decide; simpl; [|done]. rewrite fmap_insert. f_equal.
    + unfold deref; simpl. by rewrite decide_True.
    + apply view_ext. intros id q Hq. apply (deref_alloc_ne _ (deref (store s) p)).
      destruct (Hr _ _ Hq). lia.
  - destruct (workers (repo s) !! id) as [q|]; simpl; [|done].
    apply view_ext. intros id' q' Hq. apply (deref_alloc_ne _ (deref (store s) q)).
    destruct (Hr _ _ Hq). lia.
  - apply fmap_delete.
Qed.

(** What [FindByID] hands out: a fresh cell with the value stored last. *)
Lemma FindByID_view s id :
  deref (FindByID id (store s, repo s)).2.1 <$> (FindByID id (store s, repo s)).1 = view s !! id.
Proof.
  unfold view. rewrite lookup_fmap. simpl.
  destruct (workers (repo s) !! id) as [q|]; simpl; [|done].
  unfold deref; simpl. by rewrite decide_True.
Qed.

(** C39: Whatever its clients do - allocate workers, write through any pointer
    they hold, including the one they saved and the copies they were given -
    the repository behaves as a finite map of worker values: only [Save] and
    [Delete] change it, [Save] stores the value at the time of the call, and
    [FindByID] answers with that value in a cell no other pointer reaches. *)
Theorem repository_refines_map (h : heap) (ops : list Op) (op : Op) (id : string) :
  let s := run step ops (init h) in
  view (step s op) = spec_step s op /\
  match FindByID id (store s, repo s) with
  | (Some p, (h', r')) =>
      view s !! id = Some (deref h' p) /\ r' = repo s /\
      p ∉ held s /\ (forall id', workers r' !! id' <> Some p)
  | (None, hr') => view s !! id = None /\ hr' = (store s, repo s)
  end.
Proof.
  intros s. pose proof (run_ok ops (init h) (init_ok h)) as Hok. fold s in Hok.
  split; [by apply step_view|].
  pose proof (FindByID_view s id) as Hv. revert Hv. simpl.
  destruct (workers (repo s) !! id) as [q|] eqn:E; simpl; intros <-; [|done].
  destruct Hok as [Hh Hr]. split_and!; try done.
  - intros ?%Hh. lia.
  - intros id' Hp. destruct (Hr _ _ Hp). lia.
Qed.

End Repository.
