(* ===== verification/Pool.v ===== *)
(** * Worker pools ([core/domain/pool/pool.go])

    A pool keeps pointers to workers, so its operations read the heap of
    [Worker.v].  [workers] is the [sync.Map] and [workerIDs] the slice that
    fixes the iteration order; each method is one atomic step (the methods
    hold the mutex, and the two atomics of [SelectWorker] are read and bumped
    in one step). *)
From S2P Require Import Prelude Worker.
Local Open Scope string_scope.
Local Open Scope list_scope.
Local Open Scope Z_scope.
Local Open Scope go_scope.

(** ** Data *)

(** [Strategy] is a Go string type. *)
Definition Strategy := string.
Definition RoundRobin : Strategy := "round-robin".
Definition LeastLoaded : Strategy := "least-loaded".

Record workerState := mkWS {
  worker : loc;
  activeReqs : Z;
  lastHealthCheck : Z;
}.

Record Pool := mkPool {
  workers : gmap string workerState;
  workerIDs : list string;
  strategy : Strategy;
  counter : Z;
  lastUpdated : Z;
}.

(** ** Operations *)

(** The zero time of a fresh pool is the instant [0]. *)
Definition NewPool (s : Strategy) : Pool :=
  mkPool ∅ [] (if String.eqb s "" then RoundRobin else s) 0 0.

Definition AddWorker (h : heap) (w : loc) (now1 now2 : Z) (p : Pool) : Pool :=
  let id := ID (deref h w) in
  mkPool (<[id := mkWS w 0 now1]> (workers p)) (workerIDs p ++ [id]) (strategy p) (counter p) now2.

(** The loop of [RemoveWorker]: drop the first occurrence, then break. *)
Fixpoint remove_first (id : string) (l : list string) : list string :=
  match l with
  | [] => []
  | x :: l' => if String.eqb x id then l' else x :: remove_first id l'
  end.

Definition RemoveWorker (id : string) (now : Z) (p : Pool) : Pool :=
  mkPool (delete id (workers p)) (remove_first id (workerIDs p)) (strategy p) (counter p) now.

Definition UpdateWorker (h : heap) (w : loc) (now1 now2 : Z) (p : Pool) : Pool :=
  let id := ID (deref h w) in
  match workers p !! id with
  | Some ws =>
      mkPool (<[id := mkWS w (activeReqs ws) now1]> (workers p)) (workerIDs p)
        (strategy p) (counter p) now2
  | None => mkPool (workers p) (workerIDs p) (strategy p) (counter p) now2
  end.

Definition GetWorkers (p : Pool) : list loc :=
  omap (fun id => worker <$> workers p !! id) (workerIDs p).

Definition HealthyWorkers (h : heap) (p : Pool) : list loc :=
  omap (fun id =>
    match workers p !! id with
    | Some ws => if IsAlive (deref h (worker ws)) then Some (worker ws) else None
    | None => None
    end) (workerIDs p).

Definition GetWorkerState (id : string) (p : Pool) : option (loc * Z) :=
  match workers p !! id with
  | Some ws => Some (worker ws, activeReqs ws)
  | None => None
  end.

(** [activeReqs.Add(d)]. *)
Definition addActiveReqs (d : Z) (id : string) (p : Pool) : Pool :=
  match workers p !! id with
  | Some ws =>
      mkPool (<[id := mkWS (worker ws) (activeReqs ws +64 d) (lastHealthCheck ws)]> (workers p))
        (workerIDs p) (strategy p) (counter p) (lastUpdated p)
  | None => p
  end.
Definition IncrementActiveReqs := addActiveReqs 1.
Definition DecrementActiveReqs := addActiveReqs (-1).

(** Go's [%] truncates, so a negative counter gives a negative index, and
    indexing a slice with it panics. *)
Definition selectRoundRobin (ws : list loc) (p : Pool) : outcome (option loc * Pool) :=
  match ws with
  | [] => Ret (None, p)
  | _ =>
      let i := Z.rem (counter p) (Z.of_nat (length ws)) in
      if i <? 0 then Panic "index out of range"
      else match ws !! Z.to_nat i with
           | Some w =>
               Ret (Some w, mkPool (workers p) (workerIDs p) (strategy p) (counter p +64 1)
                              (lastUpdated p))
           | None => Panic "index out of range"
           end
  end.

(** The loop of [selectLeastLoaded]; [-1] stands for "none yet". *)
Fixpoint leastLoaded_loop (h : heap) (p : Pool) (ws : list loc) (selected : option loc)
    (minReqs : Z) : option loc :=
  match ws with
  | [] => selected
  | w :: ws' =>
      match workers p !! ID (deref h w) with
      | None => leastLoaded_loop h p ws' selected minReqs
      | Some st =>
          let reqs := activeReqs st in
          if (minReqs =? -1) || (reqs <? minReqs)
          then leastLoaded_loop h p ws' (Some w) reqs
          else leastLoaded_loop h p ws' selected minReqs
      end
  end.

Definition selectLeastLoaded (h : heap) (p : Pool) (ws : list loc) : option loc :=
  match ws with
  | [] => None
  | w0 :: _ =>
      match leastLoaded_loop h p ws None (-1) with
      | None => Some w0
      | Some w => Some w
      end
  end.

Definition SelectWorker (h : heap) (p : Pool) : outcome (option loc * Pool) :=
  let healthy := HealthyWorkers h p in
  match healthy with
  | [] => Ret (None, p)
  | _ =>
      if String.eqb (strategy p) LeastLoaded then Ret (selectLeastLoaded h p healthy, p)
      else selectRoundRobin healthy p
  end.

Definition Size (p : Pool) : Z := Z.of_nat (length (workerIDs p)).
Definition HealthySize (h : heap) (p : Pool) : Z :=
  foldl (fun count id =>
    match workers p !! id with
    | Some ws => if IsAlive (deref h (worker ws)) then count + 1 else count
    | None => count
    end) 0 (workerIDs p).

(** ** The invariant: the slice and the map list the same workers, once each *)

Record pool_ok (h : heap) (p : Pool) : Prop := {
  ok_nodup : NoDup (workerIDs p);
  ok_keys : forall id, id ∈ workerIDs p <-> is_Some (workers p !! id);
  ok_ids : forall id ws, workers p !! id = Some ws -> ID (deref h (worker ws)) = id;
}.

Lemma NewPool_ok h s : pool_ok h (NewPool s).
Proof.
  split; simpl; [constructor| |].
  - intros id. rewrite lookup_empty, elem_of_nil. split; [done|by intros [? ?]].
  - intros *. by rewrite lookup_empty.
Qed.

(** [AddWorker] does not look for an existing entry, so the caller must. *)
Lemma AddWorker_ok h w t1 t2 p :
  pool_ok h p -> ID (deref h w) ∉ workerIDs p -> pool_ok h (AddWorker h w t1 t2 p).
Proof.
  intros [Hn Hk Hi] Hw. split; simpl.
  - by apply NoDup_snoc.
  - intros id. rewrite elem_of_app, list_elem_of_singleton, lookup_insert_is_Some, Hk.
    destruct (decide (ID (deref h w) = id)); naive_solver.
  - intros id ws [[<- <-]|[? ?]]%lookup_insert_Some; simpl; eauto.
Qed.

Lemma elem_of_remove_first id x l : x ∈ remove_first id l -> x ∈ l.
Proof.
  induction l as [|y l IH]; simpl; [done|]. case_if; [by right|].
  intros [->|?]%elem_of_cons; [by left|right; auto].
Qed.

Lemma remove_first_spec id l :
  NoDup l -> NoDup (remove_first id l) /\ forall x, x ∈ remove_first id l <-> x <> id /\ x ∈ l.
Proof.
  induction l as [|y l IH]; intros Hl; simpl.
  - split; [constructor|]. intros x. rewrite elem_of_nil. naive_solver.
  - apply NoDup_cons in Hl as [Hy Hl]. destruct (IH Hl) as [IHn IHm].
    case_if; bool_to_prop; subst.
    + split; [done|]. intros x. rewrite elem_of_cons. naive_solver.
    + split; [apply NoDup_cons; rewrite IHm; naive_solver|].
      intros x. rewrite !elem_of_cons, IHm. naive_solver.
Qed.

Lemma RemoveWorker_ok h id t p : pool_ok h p -> pool_ok h (RemoveWorker id t p).
Proof.
  intros [Hn Hk Hi]. destruct (remove_first_spec id _ Hn) as [Hn' Hm]. split; simpl; [done| |].
  - intros x. rewrite Hm, lookup_delete_is_Some, Hk. naive_solver.
  - intros x ws [? ?]%lookup_delete_Some. eauto.
Qed.

Lemma UpdateWorker_ok h w t1 t2 p : pool_ok h p -> pool_ok h (UpdateWorker h w t1 t2 p).
Proof.
  intros [Hn Hk Hi]. unfold UpdateWorker.
  destruct (workers p !! _) as [st|] eqn:E; [|by split].
  split; simpl; [done| |].
  - intros id. rewrite lookup_insert_is_Some, Hk.
    destruct (decide (ID (deref h w) = id)) as [<-|]; naive_solver.
  - intros id ws [[<- <-]|[? ?]]%lookup_insert_Some; simpl; eauto.
Qed.

Lemma addActiveReqs_ok h d id p : pool_ok h p -> pool_ok h (addActiveReqs d id p).
Proof.
  intros [Hn Hk Hi]. unfold addActiveReqs. destruct (workers p !! id) as [st|] eqn:E; [|by split].
  split; simpl; [done| |].
  - intros x. rewrite lookup_insert_is_Some, Hk.
    destruct (decide (id = x)) as [<-|]; naive_solver.
  - intros x ws [[<- <-]|[? ?]]%lookup_insert_Some; simpl; eauto.
Qed.

#[export] Hint Resolve NewPool_ok AddWorker_ok RemoveWorker_ok UpdateWorker_ok
  addActiveReqs_ok : vyx.

(** ** Sizes and healthy workers *)

Lemma foldl_count {A B} (f : A -> option B) l c :
  foldl (fun n x => match f x with Some _ => n + 1 | None => n end) c l
  = c + Z.of_nat (length (omap f l)).
Proof.
  revert c. induction l as [|x l IH]; intros c; [simpl; lia|].
  cbn [foldl]. rewrite IH. cbn [omap list_omap]. destruct (f x); cbn [length]; lia.
Qed.

Lemma foldl_ext_acc {A B} (f g : A -> B -> A) l c :
  (forall a b, f a b = g a b) -> foldl f c l = foldl g c l.
Proof. intros H. revert c. induction l as [|x l IH]; intros c; simpl; [done|]. by rewrite H, IH. Qed.

Lemma HealthySize_length h p : HealthySize h p = Z.of_nat (length (HealthyWorkers h p)).
Proof.
  unfold HealthySize, HealthyWorkers. etrans; [|apply (foldl_count _ _ 0)].
  apply foldl_ext_acc. intros c id. destruct (workers p !! id); [|done]. by case_if.
Qed.

Lemma elem_of_HealthyWorkers h p w :
  w ∈ HealthyWorkers h p <->
  exists id ws, id ∈ workerIDs p /\ workers p !! id = Some ws /\ worker ws = w /\
    IsAlive (deref h w) = true.
Proof.
  unfold HealthyWorkers. rewrite list_elem_of_omap. split.
  - intros (id & Hid & H). destruct (workers p !! id) as [ws|] eqn:E; [|done].
    case_if; simplify_eq. eauto 10.
  - intros (id & ws & Hid & E & <- & Ha). exists id. by rewrite E, Ha.
Qed.

(** ** Round robin *)

Definition step_rr (h : heap) (p : Pool) : outcome (option loc * Pool) :=
  selectRoundRobin (HealthyWorkers h p) p.

(** The workers chosen by [n] calls of [SelectWorker] in a row. *)
Fixpoint selections (h : heap) (n : nat) (p : Pool) : outcome (list (option loc)) :=
  match n with
  | O => Ret []
  | S n' =>
      match SelectWorker h p with
      | Panic r => Panic r
      | Ret (w, p') =>
          match selections h n' p' with
          | Panic r => Panic r
          | Ret l => Ret (w :: l)
          end
      end
  end.

Definition with_counter (c : Z) (p : Pool) : Pool :=
  mkPool (workers p) (workerIDs p) (strategy p) c (lastUpdated p).

Lemma HealthyWorkers_counter h c p : HealthyWorkers h (with_counter c p) = HealthyWorkers h p.
Proof. done. Qed.

Lemma selectRoundRobin_spec ws p w0 :
  ws <> [] -> 0 <= counter p ->
  selectRoundRobin ws p =
    Ret (Some (nth (Z.to_nat (counter p mod Z.of_nat (length ws))) ws w0),
         with_counter (counter p +64 1) p).
Proof.
  intros Hne Hc.
  assert (0 < Z.of_nat (length ws)) as Hl by (destruct ws; [done|simpl; lia]).
  pose proof (Z.mod_pos_bound (counter p) _ Hl) as Hm.
  rewrite <-Z.rem_mod_nonneg in Hm |- * by lia.
  assert (is_Some (ws !! Z.to_nat (Z.rem (counter p) (Z.of_nat (length ws))))) as [w Hw].
  { apply lookup_lt_is_Some. lia. }
  rewrite (nth_lookup_Some _ _ _ _ Hw).
  unfold selectRoundRobin. destruct ws as [|w' ws']; [done|].
  rewrite (proj2 (Z.ltb_ge _ _)) by lia. by rewrite Hw.
Qed.

Lemma SelectWorker_rr h p w0 :
  strategy p <> LeastLoaded -> HealthyWorkers h p <> [] -> 0 <= counter p ->
  let ws := HealthyWorkers h p in
  SelectWorker h p =
    Ret (Some (nth (Z.to_nat (counter p mod Z.of_nat (length ws))) ws w0),
         with_counter (counter p +64 1) p).
Proof.
  intros Hs Hne Hc ws. rewrite <-selectRoundRobin_spec by done.
  unfold SelectWorker. fold ws. destruct (String.eqb_spec (strategy p) LeastLoaded); [done|].
  by destruct ws.
Qed.

Lemma selections_rr h p w0 n :
  strategy p <> LeastLoaded -> HealthyWorkers h p <> [] ->
  0 <= counter p -> counter p + Z.of_nat n < 2 ^ 63 ->
  let ws := HealthyWorkers h p in
  selections h n p =
    Ret ((fun i => Some (nth (Z.to_nat ((counter p + Z.of_nat i) mod Z.of_nat (length ws))) ws w0))
         <$> seq 0 n).
Proof.
  revert p. induction n as [|n IH]; intros p Hs Hne Hc Hn ws; [done|].
  cbn [selections]. rewrite (SelectWorker_rr h p w0) by done.
  rewrite wrap64_id by (unfold int64; lia).
  rewrite IH by (try done; simpl; lia).
  rewrite HealthyWorkers_counter. fold ws. simpl. f_equal. f_equal; [by rewrite Z.add_0_r|].
  rewrite <-seq_shift. rewrite <-list_fmap_compose. apply list_fmap_ext.
  intros i x _. simpl. do 4 f_equal. lia.
Qed.

(** Reading a list at [n] successive positions modulo its length. *)
Lemma rotate_nth {A} (l : list A) (d : A) (c : Z) :
  0 <= c -> l <> [] ->
  (fun i => nth (Z.to_nat ((c + Z.of_nat i) mod Z.of_nat (length l))) l d) <$> seq 0 (length l)
  = rotate (Z.to_nat (c mod Z.of_nat (length l))) l.
Proof.
  intros Hc Hl. assert (length l <> 0%nat) by (by destruct l).
  apply list_eq_same_length with (length l); [by rewrite length_rotate|by rewrite length_fmap, length_seq|].
  intros i x y Hi. rewrite list_lookup_fmap, lookup_seq_lt by done.
  intros [= <-]. intros Hy.
  pose proof (Z.mod_pos_bound c (Z.of_nat (length l)) ltac:(lia)).
  rewrite lookup_rotate_r in Hy by done.
  apply (nth_lookup_Some _ _ d) in Hy. rewrite <-Hy. simpl. f_equal.
  unfold rotate_nat_add. rewrite Z2Nat.id by lia. by rewrite Zplus_mod_idemp_l.
Qed.

Lemma rotate_Permutation {A} n (l : list A) : rotate n l ≡ₚ l.
Proof. unfold rotate. by rewrite Permutation_app_comm, take_drop. Qed.

(** Round robin is fair: as long as the set of healthy workers does not
    change, any [n] selections in a row, [n] being the number of healthy
    workers, choose each of them exactly once, and none of them panics. *)
Theorem round_robin_fair h p :
  strategy p <> LeastLoaded -> HealthyWorkers h p <> [] -> 0 <= counter p ->
  counter p + Z.of_nat (length (HealthyWorkers h p)) < 2 ^ 63 ->
  exists ws : list loc, selections h (length (HealthyWorkers h p)) p = Ret (Some <$> ws) /\
    ws ≡ₚ HealthyWorkers h p.
Proof.
  intros Hs Hne Hc Hn.
  assert (exists w0 : loc, True) as [w0 _] by (by exists 0%nat).
  rewrite (selections_rr h p w0) by done.
  exists (rotate (Z.to_nat (counter p mod Z.of_nat (length (HealthyWorkers h p)))) (HealthyWorkers h p)).
  split.
  - f_equal. rewrite <-rotate_nth with (d := w0) (c := counter p) by done.
    by rewrite <-list_fmap_compose.
  - apply rotate_Permutation.
Qed.

(** ** Least loaded *)

(** The in-flight requests of the worker at [w], when the pool lists it. *)
Definition load (h : heap) (p : Pool) (w : loc) : option Z :=
  activeReqs <$> workers p !! ID (deref h w).

(** The loop keeps the least load seen so far, provided no load is the
    sentinel [-1]. *)
Lemma leastLoaded_loop_min h p ws sel m :
  (forall w, w ∈ ws -> exists n, load h p w = Some n /\ 0 <= n) ->
  match sel with Some w => load h p w = Some m /\ 0 <= m | None => m = -1 end ->
  match leastLoaded_loop h p ws sel m with
  | Some w => (w ∈ ws \/ sel = Some w) /\
      exists n, load h p w = Some n /\ 0 <= n /\
        (forall w' n', w' ∈ ws -> load h p w' = Some n' -> n <= n') /\
        (sel <> None -> n <= m)
  | None => ws = [] /\ sel = None
  end.
Proof.
  revert sel m. induction ws as [|w ws IH]; intros sel m Hl Hs; simpl.
  - destruct sel as [w|]; [|done]. destruct Hs. split; [by right|]. exists m. split_and!; try done.
    intros w' n' []%elem_of_nil.
  - destruct (Hl w ltac:(by left)) as (n & Hn & Hn0). pose proof Hn as Hn'.
    unfold load in Hn'. destruct (workers p !! ID (deref h w)) as [st|] eqn:E; [|done].
    simpl in Hn'. injection Hn' as Hst.
    assert (forall w', w' ∈ ws -> exists n, load h p w' = Some n /\ 0 <= n) as Hl'.
    { intros w' ?. apply Hl. by right. }
    rewrite Hst.
    destruct ((m =? -1) || (n <? m)) eqn:Hc.
    + specialize (IH (Some w) n Hl' ltac:(done)).
      destruct (leastLoaded_loop h p ws (Some w) n) as [w''|]; [|naive_solver].
      destruct IH as (Hin & k & Hk & Hk0 & Hmin & Hkn). specialize (Hkn ltac:(done)).
      split; [left; rewrite elem_of_cons; naive_solver|].
      exists k. split_and!; [done|done| |].
      * intros w' n' [->|?]%elem_of_cons Hw'; [|eauto]. rewrite Hn in Hw'. by simplify_eq.
      * intros Hsel. destruct sel as [w0|]; [|done]. destruct Hs as [_ ?].
        apply orb_true_iff in Hc as [?|?]; bool_to_prop; lia.
    + apply orb_false_iff in Hc as [? ?]; bool_to_prop.
      destruct sel as [w0|]; [|lia].
      specialize (IH (Some w0) m Hl' Hs).
      destruct (leastLoaded_loop h p ws (Some w0) m) as [w''|]; [|naive_solver].
      destruct IH as (Hin & k & Hk & Hk0 & Hmin & Hkm). specialize (Hkm ltac:(done)).
      split; [rewrite elem_of_cons; naive_solver|].
      exists k. split_and!; [done|done| |done].
      intros w' n' [->|?]%elem_of_cons Hw'; [|eauto]. rewrite Hn in Hw'. simplify_eq. lia.
Qed.

(** Least loaded: when no worker of the pool has a negative number of
    in-flight requests, the worker selected is a healthy one and no healthy
    worker has fewer requests in flight; the pool is left as it was. *)
Theorem least_loaded_minimal h p :
  pool_ok h p -> strategy p = LeastLoaded -> HealthyWorkers h p <> [] ->
  map_Forall (fun _ st => 0 <= activeReqs st) (workers p) ->
  exists w n, SelectWorker h p = Ret (Some w, p) /\ w ∈ HealthyWorkers h p /\
    load h p w = Some n /\
    forall w' n', w' ∈ HealthyWorkers h p -> load h p w' = Some n' -> n <= n'.
Proof.
  intros Hok Hs Hne Hpos. unfold SelectWorker. rewrite Hs. simpl.
  assert (forall w, w ∈ HealthyWorkers h p -> exists n, load h p w = Some n /\ 0 <= n) as Hl.
  { intros w (id & st & Hid & Hst & <- & Ha)%elem_of_HealthyWorkers.
    unfold load. rewrite (ok_ids _ _ Hok _ _ Hst), Hst. exists (activeReqs st).
    split; [done|]. exact (Hpos _ _ Hst). }
  pose proof (leastLoaded_loop_min h p _ None (-1) Hl eq_refl) as H.
  destruct (HealthyWorkers h p) as [|w0 ws] eqn:E; [done|].
  unfold selectLeastLoaded. destruct (leastLoaded_loop _ _ _ _ _) as [w|]; [|naive_solver].
  destruct H as ([?|?] & n & Hn & _ & Hmin & _); [|done]. exists w, n. naive_solver.
Qed.

(** ** Concrete pools *)

Definition mk (id : string) (s : State) : Worker := mkWorker id "cmd" [] "" "" s 0 0 0 0 0.
Definition demo_heap : heap :=
  mkHeap (fun p => nth p [mk "a" StateRunning; mk "b" StateStopped; mk "c" StateRunning;
                          mk "d" StateRunning] (mk "" StateStopped)) 4%nat.
Definition demo (s : Strategy) : Pool :=
  foldl (fun p w => AddWorker demo_heap w 0 0 p) (NewPool s) [0; 1; 2; 3]%nat.

Example round_robin_cycle :
  selections demo_heap 4 (demo "") = Ret [Some 0; Some 2; Some 3; Some 0]%nat.
Proof. reflexivity. Qed.

(** The counter is an [int64] that is never reset: one selection after the
    largest one panics. *)
Example round_robin_overflow :
  selections demo_heap 2 (with_counter (2 ^ 63 - 1) (demo "")) = Panic "index out of range".
Proof. reflexivity. Qed.

Lemma round_robin_fair_witness :
  exists ws : list loc, selections demo_heap 3 (demo "") = Ret (Some <$> ws) /\ ws ≡ₚ [0; 2; 3]%nat.
Proof.
  apply (round_robin_fair demo_heap (demo "")); [discriminate|discriminate|by_compute|by_compute].
Defined.

Lemma demo_ok s : pool_ok demo_heap (demo s).
Proof.
  unfold demo. simpl. repeat (apply AddWorker_ok; [|by_compute]). apply NewPool_ok.
Qed.

Definition loaded : Pool := IncrementActiveReqs "a" (demo LeastLoaded).

Lemma least_loaded_minimal_witness :
  exists w n, SelectWorker demo_heap loaded = Ret (Some w, loaded) /\
    w ∈ HealthyWorkers demo_heap loaded /\ load demo_heap loaded w = Some n /\
    forall w' n', w' ∈ HealthyWorkers demo_heap loaded -> load demo_heap loaded w' = Some n' -> n <= n'.
Proof.
  apply (least_loaded_minimal demo_heap loaded).
  - apply addActiveReqs_ok, demo_ok.
  - reflexivity.
  - discriminate.
  - by_compute.
Defined.
