(* ===== verification/PoolManager.v ===== *)
(** * The pool manager ([core/domain/pool/manager.go])

    The manager spawns and stops processes through [worker.Manager], which is
    an interface here as it is there: the class [WorkerManager].  [World]
    gathers what an operation can change: the heap of workers, the manager's
    maps and the state behind the interface.  A pool is reached through the
    [pools] map only, so the map holds it by value and an operation on a pool
    writes it back under its prefix. *)
From S2P Require Import Prelude GoStrings Worker Pool.
Local Open Scope string_scope.
Local Open Scope list_scope.
Local Open Scope Z_scope.
Local Open Scope go_scope.

(** [worker.Manager]; an implementation reads the worker it is given and does
    not write to it, as [process.Manager] does. *)
Class WorkerManager (M : Type) := {
  Spawn : Worker -> M -> option error * M;
  Stop : string -> M -> option error * M;
}.

Definition ErrPoolNotFound := Sentinel "pool.ErrPoolNotFound" "pool not found".

Record ManagerConfig := mkManagerConfig {
  Replicas : Z;
  Strat : Strategy;
  MaxPoolSize : Z;
}.

(** [workerCfgs] may hold the nil pointer. *)
Record Manager := mkManager {
  pools : gmap string Pool;
  configs : gmap string ManagerConfig;
  workerCfgs : gmap string (option loc);
}.

Definition NewManager : Manager := mkManager ∅ ∅ ∅.

Definition RegisterPool (prefix : string) (cfg : ManagerConfig) (m : Manager) : Manager :=
  let cfg := mkManagerConfig (if Replicas cfg <=? 0 then 1 else Replicas cfg)
               (if String.eqb (Strat cfg) "" then RoundRobin else Strat cfg) (MaxPoolSize cfg) in
  mkManager (<[prefix := NewPool (Strat cfg)]> (pools m)) (<[prefix := cfg]> (configs m))
    (workerCfgs m).

Definition RegisterWorkerConfig (prefix : string) (cfg : option loc) (m : Manager) : Manager :=
  mkManager (pools m) (configs m) (<[prefix := cfg]> (workerCfgs m)).

Definition GetPool (prefix : string) (m : Manager) : option Pool := pools m !! prefix.

Definition set_pool (prefix : string) (p : Pool) (m : Manager) : Manager :=
  mkManager (<[prefix := p]> (pools m)) (configs m) (workerCfgs m).

(** ** Identifiers *)

(** [itoa], as a loop on [n > 0] that prepends digits; the fuel is a bound on
    the number of digits of an [int]. *)
Definition digit (d : Z) : ascii := ascii_of_nat (Z.to_nat (48 + d)).
Fixpoint itoa_loop (fuel : nat) (n : Z) (result : string) : string :=
  match fuel with
  | O => result
  | S fuel' =>
      if 0 <? n then itoa_loop fuel' (Z.quot n 10) (String (digit (Z.rem n 10)) result)
      else result
  end.
Definition itoa (n : Z) : string := if n =? 0 then "0" else itoa_loop 19 n "".

Definition is_digit (c : ascii) : bool :=
  (48 <=? Z.of_nat (nat_of_ascii c)) && (Z.of_nat (nat_of_ascii c) <=? 57).
Fixpoint all_digits (s : string) : bool :=
  match s with
  | "" => true
  | String c s' => is_digit c && all_digits s'
  end%string.

(** The outer loop of [extractPrefix]: [i] runs down; the body returns the
    first prefix it accepts.  Positions past the end are never tried. *)
Fixpoint extract_loop (i : nat) (s : string) : string :=
  match i with
  | O => s
  | S i' =>
      match String.get i' s with
      | Some c =>
          if Ascii.eqb c "-" && all_digits (drop_str (S i') s) && (0 <? Z.of_nat i')
          then take_str i' s
          else extract_loop i' s
      | None => extract_loop i' s
      end
  end.
Definition extractPrefix (workerID : string) : string :=
  extract_loop (String.length workerID) workerID.

(** [stamp] is [time.Now().Format("20060102-150405.000")]. *)
Definition generateWorkerID (prefix stamp : string) : string := prefix +:+ "-" +:+ stamp.

(** The name of the [i]-th initial instance. *)
Definition instanceID (prefix : string) (i : Z) : string :=
  if 0 <? i then prefix +:+ "-" +:+ itoa i else prefix.

Section Operations.
Context {M : Type} `{WorkerManager M}.

Record World := mkWorld {
  hp : heap;
  mg : Manager;
  pr : M;
}.

(** The loop of [SpawnWorkers] from iteration [i] on, [n] rounds to go.
    [clk] gives the readings of the clock, two per [AddWorker]. *)
Fixpoint spawn_loop (clk : nat -> Z) (prefix : string) (workerCfg : loc) (n i : nat)
    (h : heap) (p : Pool) (m : M) : option error * (heap * Pool * M) :=
  match n with
  | O => (None, (h, p, m))
  | S n' =>
      let '(w, h1) := alloc h (set_ID (instanceID prefix (Z.of_nat i)) (deref h workerCfg)) in
      match Spawn (deref h1 w) m with
      | (Some e, m1) => (Some e, (h1, p, m1))
      | (None, m1) =>
          spawn_loop clk prefix workerCfg n' (S i) h1
            (AddWorker h1 w (clk (2 * i)%nat) (clk (2 * i + 1)%nat) p) m1
      end
  end.

Definition SpawnWorkers (clk : nat -> Z) (prefix : string) (workerCfg : loc) (w : World)
    : option error * World :=
  match configs (mg w) !! prefix, pools (mg w) !! prefix with
  | Some cfg, Some pool =>
      let currentSize := Size pool in
      let finish count :=
        let '(err, (h, p, m)) :=
          spawn_loop clk prefix workerCfg (Z.to_nat count) 0 (hp w) pool (pr w) in
        (err, mkWorld h (set_pool prefix p (mg w)) m) in
      if 0 <? MaxPoolSize cfg then
        if MaxPoolSize cfg <=? currentSize then (None, w)
        else
          let maxAllowed := MaxPoolSize cfg -64 currentSize in
          finish (if maxAllowed <? Replicas cfg then maxAllowed else Replicas cfg)
      else finish (Replicas cfg)
  | _, _ => (Some ErrPoolNotFound, w)
  end.

Definition ReplaceWorker (clk : nat -> Z) (stamp : string) (workerID : string) (w : World)
    : option error * World :=
  let prefix := extractPrefix workerID in
  match pools (mg w) !! prefix with
  | None => (Some ErrPoolNotFound, w)
  | Some pool =>
      match GetWorkerState workerID pool with
      | None => (Some (NewErr "worker not found in pool"), w)
      | Some (oldWorker, _) =>
          let pool1 := RemoveWorker workerID (clk 0%nat) pool in
          let m1 := (Stop workerID (pr w)).2 in
          let '(nw, h1) :=
            alloc (hp w) (set_ID (generateWorkerID prefix stamp) (deref (hp w) oldWorker)) in
          match Spawn (deref h1 nw) m1 with
          | (Some e, m2) => (Some e, mkWorld h1 (set_pool prefix pool1 (mg w)) m2)
          | (None, m2) =>
              (None, mkWorld h1 (set_pool prefix (AddWorker h1 nw (clk 1%nat) (clk 2%nat) pool1)
                                   (mg w)) m2)
          end
      end
  end.

(** One iteration per missing replica; a failed spawn is skipped. *)
Fixpoint replica_loop (clk : nat -> Z) (stamp : nat -> string) (prefix : string)
    (workerCfg : loc) (n i : nat) (h : heap) (p : Pool) (m : M) : heap * Pool * M :=
  match n with
  | O => (h, p, m)
  | S n' =>
      let '(w, h1) := alloc h (set_ID (generateWorkerID prefix (stamp i)) (deref h workerCfg)) in
      match Spawn (deref h1 w) m with
      | (Some _, m1) => replica_loop clk stamp prefix workerCfg n' (S i) h1 p m1
      | (None, m1) =>
          replica_loop clk stamp prefix workerCfg n' (S i) h1
            (AddWorker h1 w (clk (2 * i)%nat) (clk (2 * i + 1)%nat) p) m1
      end
  end.

(** How many replicas [ensureReplicas] starts. *)
Definition spawnCount (cfg : ManagerConfig) (h : heap) (pool : Pool) : Z :=
  let n := Replicas cfg -64 HealthySize h pool in
  if 0 <? MaxPoolSize cfg then
    let maxAllowed := MaxPoolSize cfg -64 Size pool in
    let n := if maxAllowed <? n then maxAllowed else n in
    if n <? 0 then 0 else n
  else n.

Definition ensureReplicas (clk : nat -> Z) (stamp : nat -> string) (prefix : string)
    (pool : Pool) (w : World) : World :=
  match configs (mg w) !! prefix, workerCfgs (mg w) !! prefix with
  | Some cfg, Some workerCfg =>
      let n := spawnCount cfg (hp w) pool in
      match workerCfg with
      | Some c =>
          if 0 <? n then
            let '(h, p, m) :=
              replica_loop clk stamp prefix c (Z.to_nat n) 0 (hp w) pool (pr w) in
            mkWorld h (set_pool prefix p (mg w)) m
          else mkWorld (hp w) (set_pool prefix pool (mg w)) (pr w)
      | None => mkWorld (hp w) (set_pool prefix pool (mg w)) (pr w)
      end
  | _, _ => mkWorld (hp w) (set_pool prefix pool (mg w)) (pr w)
  end.

(** The inner loop of [MonitorHealth]: drop and stop every worker that is
    not alive. *)
Fixpoint evict_dead (clk : nat -> Z) (i : nat) (ws : list loc) (h : heap) (p : Pool) (m : M)
    : Pool * M :=
  match ws with
  | [] => (p, m)
  | w :: ws' =>
      if IsAlive (deref h w) then evict_dead clk (S i) ws' h p m
      else evict_dead clk (S i) ws' h (RemoveWorker (ID (deref h w)) (clk i) p)
             (Stop (ID (deref h w)) m).2
  end.

Definition monitorPool (clk : nat -> Z) (stamp : nat -> string) (prefix : string) (w : World)
    : World :=
  match pools (mg w) !! prefix with
  | None => w
  | Some pool =>
      let '(p, m) := evict_dead clk 0 (GetWorkers pool) (hp w) pool (pr w) in
      ensureReplicas clk stamp prefix p (mkWorld (hp w) (mg w) m)
  end.

(** [order] is the order in which the runtime ranges over the pools. *)
Definition MonitorHealth (clk : nat -> Z) (stamp : string -> nat -> string)
    (order : list string) (w : World) : World :=
  foldl (fun w prefix => monitorPool clk (stamp prefix) prefix w) w order.

Definition StopAll (order : list string) (w : World) : World :=
  mkWorld (hp w) (mg w)
    (foldl (fun m prefix =>
       match pools (mg w) !! prefix with
       | None => m
       | Some pool => foldl (fun m l => (Stop (ID (deref (hp w) l)) m).2) m (GetWorkers pool)
       end) (pr w) order).
End Operations.
Arguments World : clear implicits.

(** ** The size limit *)

(** Every worker of the map is listed; duplicates may be. *)
Definition listed (p : Pool) : Prop := forall id, is_Some (workers p !! id) -> id ∈ workerIDs p.

Lemma AddWorker_listed h w t1 t2 p : listed p -> listed (AddWorker h w t1 t2 p).
Proof.
  intros Hp id. simpl. rewrite lookup_insert_is_Some, elem_of_app, list_elem_of_singleton.
  intros [<-|[_ ?]]; [by right|left; auto].
Qed.

Lemma AddWorker_size h w t1 t2 p : Size (AddWorker h w t1 t2 p) = Size p + 1.
Proof. unfold Size; simpl. rewrite length_app; simpl. lia. Qed.

Lemma remove_first_other id x l : x <> id -> x ∈ l -> x ∈ remove_first id l.
Proof.
  intros Hx. induction l as [|y l IH]; simpl; [done|].
  case_if; bool_to_prop; rewrite !elem_of_cons; naive_solver.
Qed.

Lemma RemoveWorker_listed id t p : listed p -> listed (RemoveWorker id t p).
Proof.
  intros Hp x. simpl. rewrite lookup_delete_is_Some. intros [? ?].
  apply remove_first_other; auto.
Qed.

Lemma remove_first_length id l :
  length (remove_first id l) = (length l - (if decide (id ∈ l) then 1 else 0))%nat.
Proof.
  induction l as [|y l IH]; cbn [remove_first length]; [done|].
  case_if; bool_to_prop; subst.
  - rewrite decide_True by left. lia.
  - cbn [length]. rewrite IH. destruct (decide (id ∈ l)) as [Hi|Hi].
    + rewrite decide_True by (by right).
      destruct l; [by apply not_elem_of_nil in Hi|simpl; lia].
    + rewrite decide_False by (rewrite elem_of_cons; naive_solver). lia.
Qed.

Lemma RemoveWorker_size id t p : Size (RemoveWorker id t p) <= Size p.
Proof. unfold Size; simpl. rewrite remove_first_length. case_decide; lia. Qed.

Lemma RemoveWorker_size_in id t p :
  id ∈ workerIDs p -> Size (RemoveWorker id t p) = Size p - 1.
Proof.
  intros Hi. unfold Size; simpl. rewrite remove_first_length, decide_True by done.
  destruct (workerIDs p); [by apply not_elem_of_nil in Hi|simpl; lia].
Qed.

Section Limits.
Context {M : Type} `{WorkerManager M}.

Lemma spawn_loop_size clk prefix c n i h p m :
  listed p ->
  let p' := (spawn_loop clk prefix c n i h p m).2.1.2 in
  listed p' /\ Size p' <= Size p + Z.of_nat n.
Proof.
  revert i h p m. induction n as [|n IH]; intros i h p m Hp; cbn [spawn_loop].
  - cbn. split; [done|lia].
  - destruct (alloc _ _) as [w h1]. destruct (Spawn _ m) as [[e|] m1]; [cbn; split; [done|lia]|].
    set (p1 := AddWorker h1 w _ _ p).
    assert (Size p1 = Size p + 1) as Hp1 by apply AddWorker_size.
    destruct (IH (S i) h1 p1 m1 (AddWorker_listed _ _ _ _ _ Hp)) as [? Hs].
    split; [done|]. lia.
Qed.

Lemma replica_loop_size clk stamp prefix c n i h p m :
  listed p ->
  let p' := (replica_loop clk stamp prefix c n i h p m).1.2 in
  listed p' /\ Size p' <= Size p + Z.of_nat n.
Proof.
  revert i h p m. induction n as [|n IH]; intros i h p m Hp; cbn [replica_loop].
  - cbn. split; [done|lia].
  - destruct (alloc _ _) as [w h1]. destruct (Spawn _ m) as [[e|] m1].
    + destruct (IH (S i) h1 p m1 Hp) as [? Hs]. split; [done|]. lia.
    + set (p1 := AddWorker h1 w _ _ p).
      assert (Size p1 = Size p + 1) as Hp1 by apply AddWorker_size.
      destruct (IH (S i) h1 p1 m1 (AddWorker_listed _ _ _ _ _ Hp)) as [? Hs].
      split; [done|]. lia.
Qed.

Lemma evict_dead_size clk i ws h p m :
  listed p -> let p' := (evict_dead clk i ws h p m).1 in listed p' /\ Size p' <= Size p.
Proof.
  revert i p m. induction ws as [|w ws IH]; intros i p m Hp; simpl; [done|].
  case_if; [auto|].
  destruct (IH (S i) (RemoveWorker (ID (deref h w)) (clk i) p) (Stop (ID (deref h w)) m).2)
    as [? Hs]; [by apply RemoveWorker_listed|].
  split; [done|]. etrans; [exact Hs|]. apply RemoveWorker_size.
Qed.

(** The pools within their limits. *)
Definition pool_within (cfg : ManagerConfig) (p : Pool) : Prop :=
  listed p /\ int64 (MaxPoolSize cfg) /\ (0 < MaxPoolSize cfg -> Size p <= MaxPoolSize cfg).
Definition within_limits (m : Manager) : Prop :=
  (forall prefix, is_Some (pools m !! prefix) -> is_Some (configs m !! prefix)) /\
  forall prefix cfg p,
    configs m !! prefix = Some cfg -> pools m !! prefix = Some p -> pool_within cfg p.

Lemma set_pool_within prefix cfg p m :
  within_limits m -> configs m !! prefix = Some cfg -> pool_within cfg p ->
  within_limits (set_pool prefix p m).
Proof.
  intros [Hd Hw] Hc Hp. split; simpl.
  - intros x. rewrite lookup_insert_is_Some. intros [<-|[? ?]]; eauto.
  - intros x cfg' p' Hx [[<- <-]|[? ?]]%lookup_insert_Some; [naive_solver|eauto].
Qed.

Lemma RegisterPool_within prefix cfg m :
  int64 (MaxPoolSize cfg) -> within_limits m -> within_limits (RegisterPool prefix cfg m).
Proof.
  intros Hi [Hd Hw]. split; simpl.
  - intros x. rewrite !lookup_insert_is_Some. naive_solver.
  - intros x cfg' p'. destruct (decide (prefix = x)) as [<-|Hx].
    + rewrite !lookup_insert_eq. intros [= <-] [= <-]. split_and!; simpl; [|done|].
      * intros id [? Hl]. simpl in Hl. by rewrite lookup_empty in Hl.
      * unfold Size; simpl. lia.
    + rewrite !lookup_insert_ne by done. eauto.
Qed.

Lemma Size_nonneg p : 0 <= Size p.
Proof. unfold Size. lia. Qed.

Lemma SpawnWorkers_within clk prefix c (w : World M) :
  within_limits (mg w) -> within_limits (mg (SpawnWorkers clk prefix c w).2).
Proof.
  intros Hw. unfold SpawnWorkers.
  destruct (configs (mg w) !! prefix) as [cfg|] eqn:Hc; [|done].
  destruct (pools (mg w) !! prefix) as [p|] eqn:Hp; [|done].
  destruct (proj2 Hw _ _ _ Hc Hp) as (Hl & Hi & Hs).
  assert (forall count, (0 < MaxPoolSize cfg -> count <= MaxPoolSize cfg - Size p /\ Size p <= MaxPoolSize cfg) ->
    within_limits (mg (let '(err, (h, p0, m)) :=
        spawn_loop clk prefix c (Z.to_nat count) 0 (hp w) p (pr w) in
        (err, mkWorld h (set_pool prefix p0 (mg w)) m)).2)) as Hfin.
  { intros count Hcnt. pose proof (spawn_loop_size clk prefix c (Z.to_nat count) 0 (hp w) p (pr w) Hl) as Hz.
    destruct (spawn_loop _ _ _ _ _ _ _ _) as [err [[h p'] m']]. simpl in *. destruct Hz.
    eapply set_pool_within; [done..|]. split_and!; [done..|]. lia. }
  pose proof (Size_nonneg p). unfold int64 in Hi.
  destruct (0 <? MaxPoolSize cfg) eqn:E; bool_to_prop; [|apply Hfin; lia].
  destruct (MaxPoolSize cfg <=? Size p) eqn:E2; bool_to_prop; [done|].
  rewrite wrap64_id by (unfold int64; lia).
  apply Hfin. intros _. split; [|lia]. case_if; bool_to_prop; lia.
Qed.

Lemma ReplaceWorker_within clk stamp id (w : World M) :
  within_limits (mg w) -> within_limits (mg (ReplaceWorker clk stamp id w).2).
Proof.
  intros Hw. unfold ReplaceWorker, GetWorkerState.
  destruct (pools (mg w) !! extractPrefix id) as [p|] eqn:Hp; [|done].
  destruct (workers p !! id) as [st|] eqn:Hst; [|done].
  destruct (proj1 Hw _ (mk_is_Some _ _ Hp)) as [cfg Hc].
  destruct (proj2 Hw _ _ _ Hc Hp) as (Hl & Hi & Hs).
  pose proof (Hl _ (mk_is_Some _ _ Hst)) as Hin.
  pose proof (RemoveWorker_size_in _ (clk 0%nat) _ Hin) as Hrm.
  destruct (alloc _ _) as [nw h1]. destruct (Spawn _ _) as [[e|] m2]; simpl;
    (eapply set_pool_within; [done..|]); split_and!; try done.
  - by apply RemoveWorker_listed.
  - lia.
  - by apply AddWorker_listed, RemoveWorker_listed.
  - rewrite AddWorker_size. lia.
Qed.

Lemma monitorPool_within clk stamp prefix (w : World M) :
  within_limits (mg w) -> within_limits (mg (monitorPool clk stamp prefix w)).
Proof.
  intros Hw. unfold monitorPool.
  destruct (pools (mg w) !! prefix) as [p|] eqn:Hp; [|done].
  destruct (proj1 Hw _ (mk_is_Some _ _ Hp)) as [cfg Hc].
  destruct (proj2 Hw _ _ _ Hc Hp) as (Hl & Hi & Hs).
  pose proof (evict_dead_size clk 0 (GetWorkers p) (hp w) p (pr w) Hl) as Hev.
  destruct (evict_dead _ _ _ _ _ _) as [p1 m1]. destruct Hev as [Hl1 Hs1]. simpl in *.
  assert (pool_within cfg p1) as Hp1 by (split_and!; [done..|]; lia).
  unfold ensureReplicas. simpl. rewrite Hc.
  destruct (workerCfgs (mg w) !! prefix) as [[c|]|]; simpl;
    [|by eapply set_pool_within..].
  case_if; [|by eapply set_pool_within]. bool_to_prop.
  pose proof (replica_loop_size clk stamp prefix c (Z.to_nat (spawnCount cfg (hp w) p1)) 0
    (hp w) p1 m1 Hl1) as Hr.
  destruct (replica_loop _ _ _ _ _ _ _ _ _) as [[h p2] m2]. simpl in *. destruct Hr as [Hl2 Hs2].
  eapply set_pool_within; [done..|]. split_and!; [done..|]. intros Hmax.
  etrans; [exact Hs2|]. revert Heqb. unfold spawnCount. rewrite (proj2 (Z.ltb_lt _ _)) by done.
  pose proof (Size_nonneg p1). unfold int64 in Hi. rewrite (wrap64_id (MaxPoolSize cfg - _)) by (unfold int64; lia).
  repeat case_if; bool_to_prop; lia.
Qed.

Inductive Op :=
  | ORegisterPool (prefix : string) (cfg : ManagerConfig)
  | ORegisterWorkerConfig (prefix : string) (cfg : option loc)
  | OSpawnWorkers (clk : nat -> Z) (prefix : string) (c : loc)
  | OReplaceWorker (clk : nat -> Z) (stamp id : string)
  | OMonitorHealth (clk : nat -> Z) (stamp : string -> nat -> string) (order : list string)
  | OStopAll (order : list string)
  | OWriteWorker (p : loc) (w : Worker).

(** [OWriteWorker] is a write by another component that shares a worker. *)
Definition step (w : World M) (op : Op) : World M :=
  match op with
  | ORegisterPool prefix cfg => mkWorld (hp w) (RegisterPool prefix cfg (mg w)) (pr w)
  | ORegisterWorkerConfig prefix c =>
      mkWorld (hp w) (RegisterWorkerConfig prefix c (mg w)) (pr w)
  | OSpawnWorkers clk prefix c => (SpawnWorkers clk prefix c w).2
  | OReplaceWorker clk stamp id => (ReplaceWorker clk stamp id w).2
  | OMonitorHealth clk stamp order => MonitorHealth clk stamp order w
  | OStopAll order => StopAll order w
  | OWriteWorker p x => mkWorld (write (hp w) p x) (mg w) (pr w)
  end.

(** A configuration holds machine integers. *)
Definition op_ok (op : Op) : Prop :=
  match op with ORegisterPool _ cfg => int64 (MaxPoolSize cfg) | _ => True end.

Lemma MonitorHealth_within clk stamp order (w : World M) :
  within_limits (mg w) -> within_limits (mg (MonitorHealth clk stamp order w)).
Proof.
  unfold MonitorHealth. revert w. induction order as [|prefix order IH]; intros w Hw; simpl; [done|].
  apply IH. by apply monitorPool_within.
Qed.

Lemma step_within w op : op_ok op -> within_limits (mg w) -> within_limits (mg (step w op)).
Proof.
  destruct op; simpl; intros; auto using RegisterPool_within, SpawnWorkers_within,
    ReplaceWorker_within, MonitorHealth_within.
Qed.

(** No sequence of operations of the manager - registrations, spawns that
    succeed or fail half-way, replacements, health rounds, over any process
    manager and whatever other components write to the shared workers -
    leaves a pool with more workers than its [MaxPoolSize]. *)
Theorem pools_stay_within_max (h : heap) (m : M) (ops : list Op) (prefix : string)
    (cfg : ManagerConfig) (p : Pool) :
  Forall op_ok ops ->
  let w := run step ops (mkWorld h NewManager m) in
  configs (mg w) !! prefix = Some cfg -> pools (mg w) !! prefix = Some p ->
  0 < MaxPoolSize cfg -> Size p <= MaxPoolSize cfg.
Proof.
  intros Hops w Hc Hp Hm.
  assert (within_limits (mg w)) as Hw.
  { subst w. assert (within_limits (mg (mkWorld h NewManager m))) as H0.
    { split; simpl; [intros x [? Hx]|intros * Hx]; by rewrite lookup_empty in Hx. }
    revert H0. generalize (mkWorld h NewManager m). clear - Hops.
    induction Hops; simpl; intros w Hw; [done|]. auto using step_within. }
  by eapply (proj2 Hw).
Qed.
End Limits.
Arguments Op : clear implicits.

(** ** Identifiers *)

(** The number a string of digits denotes, read after [acc]. *)
Fixpoint decimal (acc : Z) (s : string) : Z :=
  match s with
  | "" => acc
  | String c s' => decimal (acc * 10 + (Z.of_nat (nat_of_ascii c) - 48)) s'
  end%string.

Lemma digit_code d : 0 <= d < 10 -> Z.of_nat (nat_of_ascii (digit d)) = 48 + d.
Proof. intros. unfold digit. rewrite nat_ascii_embedding by lia. lia. Qed.

Lemma itoa_loop_spec fuel n r :
  0 <= n < 10 ^ Z.of_nat fuel ->
  decimal 0 (itoa_loop fuel n r) = decimal n r /\
  all_digits (itoa_loop fuel n r) = all_digits r.
Proof.
  revert n r. induction fuel as [|fuel IH]; intros n r Hn; cbn [itoa_loop].
  - assert (n = 0) as -> by (simpl in Hn; lia). done.
  - destruct (0 <? n) eqn:E; bool_to_prop; [|by assert (n = 0) as -> by lia].
    rewrite Z.quot_div_nonneg, Z.rem_mod_nonneg by lia.
    pose proof (Z.mod_pos_bound n 10 ltac:(lia)).
    destruct (IH (n / 10) (String (digit (n mod 10)) r)) as [-> ->].
    { split; [apply Z.div_pos; lia|]. apply Z.div_lt_upper_bound; [lia|].
      rewrite Nat2Z.inj_succ, Z.pow_succ_r in Hn by lia. lia. }
    cbn [decimal all_digits]. unfold is_digit. rewrite digit_code by done. split.
    + f_equal. pose proof (Z.div_mod n 10). lia.
    + rewrite !(proj2 (Z.leb_le _ _)) by lia. done.
Qed.

Lemma itoa_spec n :
  0 <= n < 2 ^ 63 -> decimal 0 (itoa n) = n /\ all_digits (itoa n) = true.
Proof.
  intros Hn. unfold itoa. case_if; bool_to_prop; [by subst|].
  destruct (itoa_loop_spec 19 n "") as [-> ->]; [simpl; lia|]. done.
Qed.

Lemma all_digits_get s k c :
  all_digits s = true -> String.get k s = Some c -> Ascii.eqb c "-" = false.
Proof.
  revert k. induction s as [|a s IH]; intros [|k]; simpl; try done.
  - intros [Ha _]%andb_true_iff [= <-]. destruct (Ascii.eqb_spec a "-"); [by subst|done].
  - intros [_ Hs]%andb_true_iff. by apply IH.
Qed.

Lemma get_app_r s t k : String.get (String.length s + k) (s +:+ t) = String.get k t.
Proof. induction s as [|a s IH]; simpl; [done|]. apply IH. Qed.
Lemma get_app_l s t k : (k < String.length s)%nat -> String.get k (s +:+ t) = String.get k s.
Proof.
  revert k. induction s as [|a s IH]; intros [|k]; simpl; try lia; [done|]. intros. apply IH. lia.
Qed.
Lemma drop_str_app s t k : drop_str (String.length s + k) (s +:+ t) = drop_str k t.
Proof. induction s as [|a s IH]; simpl; [done|]. apply IH. Qed.
Lemma take_str_app s t : take_str (String.length s) (s +:+ t) = s.
Proof. induction s as [|a s IH]; simpl; [done|]. by f_equal. Qed.
(** A position whose tail is not all digits is passed over. *)
Lemma extract_loop_skip i s :
  match String.get i s with
  | Some c => Ascii.eqb c "-" && all_digits (drop_str (S i) s) = false
  | None => True
  end -> extract_loop (S i) s = extract_loop i s.
Proof. cbn [extract_loop]. destruct (String.get i s); [|done]. by intros ->. Qed.

Lemma extract_loop_tail p d k :
  all_digits d = true -> p <> "" ->
  extract_loop (S (String.length p + k)) (p +:+ String "-" d) = p.
Proof.
  intros Hd Hp. induction k as [|k IH].
  - cbn [extract_loop]. rewrite get_app_r. cbn [String.get].
    replace (S (String.length p + 0)) with (String.length p + 1)%nat by lia.
    rewrite drop_str_app. cbn [drop_str]. rewrite Hd.
    rewrite Nat.add_0_r, take_str_app. destruct p; [done|]. done.
  - etrans; [apply extract_loop_skip|by rewrite Nat.add_succ_r].
    rewrite get_app_r. cbn [String.get]. destruct (String.get k d) as [c|] eqn:E; [|done].
    by rewrite (all_digits_get _ _ _ Hd E).
Qed.

Lemma extractPrefix_numbered p d :
  p <> "" -> all_digits d = true -> extractPrefix (p +:+ String "-" d) = p.
Proof.
  intros Hp Hd. unfold extractPrefix. rewrite length_app_str. cbn [String.length].
  rewrite Nat.add_succ_r. by apply extract_loop_tail.
Qed.

(** Round trip of the names of the initial instances: the prefix that
    [extractPrefix] recovers from the [i]-th instance of a pool is the pool's
    own, for every replica number an [int] can hold. *)
Theorem extractPrefix_instanceID (prefix : string) (i : Z) :
  prefix <> "" -> 0 < i < 2 ^ 63 -> extractPrefix (instanceID prefix i) = prefix.
Proof.
  intros Hp Hi. unfold instanceID. rewrite (proj2 (Z.ltb_lt _ _)) by lia.
  apply extractPrefix_numbered; [done|]. apply itoa_spec. lia.
Qed.

Lemma extractPrefix_instanceID_witness : extractPrefix (instanceID "node:products-v2" 10) = "node:products-v2".
Proof. apply (extractPrefix_instanceID "node:products-v2" 10); [discriminate|by_compute]. Defined.

(** A dot followed by a dash-free tail: no suffix after a dash is a number. *)
Lemma extractPrefix_dot s t :
  all_digits t = true -> extractPrefix (s +:+ String "." t) = s +:+ String "." t.
Proof.
  intros Ht. unfold extractPrefix. generalize (String.length (s +:+ String "." t)). intros n.
  induction n as [|n IH]; [done|]. rewrite extract_loop_skip; [done|].
  destruct (String.get n (s +:+ String "." t)) as [c|] eqn:E; [|done].
  destruct (Nat.lt_ge_cases n (String.length s)) as [Hn|Hn].
  - apply andb_false_iff. right. clear E IH c. revert n Hn.
    induction s as [|a s IH]; intros [|n]; cbn [String.length]; try lia; intros.
    + simpl. clear. induction s as [|b s IH]; simpl; [done|]. by rewrite IH, andb_false_r.
    + apply (IH n). lia.
  - replace n with (String.length s + (n - String.length s))%nat in E by lia.
    rewrite get_app_r in E. destruct (n - String.length s)%nat as [|k]; cbn [String.get] in E.
    + by simplify_eq.
    + by rewrite (all_digits_get _ _ _ Ht E).
Qed.

(** The identifiers of replacements do not round-trip: their time stamp
    ends in a dot and milliseconds, which [extractPrefix] does not take for a
    number, so replacing a replacement looks up a pool under the worker's own
    name and, unless one is registered there, reports [ErrPoolNotFound]. *)
Theorem replacement_cannot_be_replaced {M} `{WorkerManager M} (clk : nat -> Z)
    (prefix date millis : string) (stamp : string) (w : World M) :
  all_digits millis = true ->
  let id := generateWorkerID prefix (date +:+ "." +:+ millis) in
  pools (mg w) !! id = None ->
  extractPrefix id = id /\ ReplaceWorker clk stamp id w = (Some ErrPoolNotFound, w).
Proof.
  intros Hm id Hid. assert (extractPrefix id = id) as E.
  { unfold id, generateWorkerID.
    replace (prefix +:+ "-" +:+ (date +:+ "." +:+ millis))
      with ((prefix +:+ "-" +:+ date) +:+ String "." millis).
    - by apply extractPrefix_dot.
    - by rewrite !string_app_assoc. }
  split; [done|]. unfold ReplaceWorker. by rewrite E, Hid.
Qed.

(** ** A health round restores the replicas *)

(** Every worker of the pool is alive and allocated. *)
Definition all_alive (h : heap) (p : Pool) : Prop :=
  map_Forall (fun _ st => IsAlive (deref h (worker st)) = true) (workers p).
Definition allocated (h : heap) (p : Pool) : Prop :=
  map_Forall (fun _ st => (worker st < next h)%nat) (workers p).

Lemma all_alive_size h p : pool_ok h p -> all_alive h p -> HealthySize h p = Size p.
Proof.
  intros Hok Ha. rewrite HealthySize_length. unfold Size. f_equal.
  unfold HealthyWorkers.
  assert (forall l, (forall id, id ∈ l -> id ∈ workerIDs p) ->
    length (omap (fun id => match workers p !! id with
      | Some ws => if IsAlive (deref h (worker ws)) then Some (worker ws) else None
      | None => None end) l) = length l) as Hl; [|by apply Hl].
  induction l as [|id l IH]; intros Hin; [done|]. cbn [omap list_omap].
  destruct (proj1 (ok_keys _ _ Hok id) (Hin id ltac:(by left))) as [st Hst].
  rewrite Hst, (Ha _ _ Hst). cbn [length]. rewrite IH; [done|]. intros. apply Hin. by right.
Qed.

Definition dead (h : heap) (p : Pool) (id : string) : Prop :=
  forall st, workers p !! id = Some st -> IsAlive (deref h (worker st)) = false.

Lemma omap_ext_in {A B} (f g : A -> option B) (l : list A) :
  (forall x, x ∈ l -> f x = g x) -> omap f l = omap g l.
Proof.
  induction l as [|x l IH]; intros Hf; [done|]. cbn [omap list_omap].
  rewrite (Hf x) by (by left). rewrite IH; [done|]. intros. apply Hf. by right.
Qed.

Lemma omap_remove_first {B} (f g : string -> option B) id l :
  NoDup l -> f id = None -> (forall x, x <> id -> g x = f x) ->
  omap g (remove_first id l) = omap f l.
Proof.
  intros Hn Hf Hg. induction Hn as [|y l Hy Hn IH]; [done|]. cbn [remove_first]. case_if; bool_to_prop.
  - subst y. cbn [omap list_omap]. rewrite Hf. apply omap_ext_in. intros x Hx. apply Hg. by intros ->.
  - cbn [omap list_omap]. rewrite Hg by done. by rewrite IH.
Qed.

Lemma RemoveWorker_healthy h p id t :
  pool_ok h p -> dead h p id -> HealthyWorkers h (RemoveWorker id t p) = HealthyWorkers h p.
Proof.
  intros Hok Hd. unfold HealthyWorkers. cbn [workers workerIDs RemoveWorker].
  apply omap_remove_first; [apply Hok| |].
  - destruct (workers p !! id) as [st|] eqn:E; [|done]. by rewrite (Hd _ E).
  - intros x Hx. by rewrite lookup_delete_ne.
Qed.

Section HealthRound.
Context {M : Type} `{WorkerManager M}.

Lemma evict_dead_spec clk i ws h p m :
  pool_ok h p -> allocated h p ->
  (forall w, w ∈ ws -> IsAlive (deref h w) = false -> dead h p (ID (deref h w))) ->
  let p' := (evict_dead clk i ws h p m).1 in
  pool_ok h p' /\ allocated h p' /\ HealthyWorkers h p' = HealthyWorkers h p /\
  (forall id st, workers p' !! id = Some st ->
    workers p !! id = Some st /\
    forall w, w ∈ ws -> IsAlive (deref h w) = false -> ID (deref h w) <> id).
Proof.
  revert i p m. induction ws as [|w ws IH]; intros i p m Hok Hal Hd; cbn [evict_dead].
  - split_and!; try done. intros id st Hst. split; [done|]. by intros w Hw%elem_of_nil.
  - destruct (IsAlive (deref h w)) eqn:Ea.
    + destruct (IH (S i) p m Hok Hal) as (? & ? & ? & Hx).
      { intros w' ?. apply Hd. by right. }
      split_and!; try done. intros id st Hst. destruct (Hx _ _ Hst). split; [done|].
      intros w' [->|?]%elem_of_cons; [congruence|auto].
    + set (id0 := ID (deref h w)). set (p1 := RemoveWorker id0 (clk i) p).
      assert (workers p1 = delete id0 (workers p)) as Hp1 by done.
      assert (dead h p id0) as Hd0 by (apply Hd; [by left|done]).
      destruct (IH (S i) p1 (Stop id0 m).2) as (? & ? & Hh & Hx).
      * by apply RemoveWorker_ok.
      * by apply map_Forall_delete.
      * intros w' Hw' Ha st Hst. rewrite Hp1 in Hst. apply lookup_delete_Some in Hst as [? Hst]. eapply Hd; [by right|done|done].
      * split_and!; [done|done| |].
        -- etrans; [exact Hh|]. by apply RemoveWorker_healthy.
        -- intros id st Hst. destruct (Hx _ _ Hst) as [Hst1 ?]. rewrite Hp1 in Hst1.
           apply lookup_delete_Some in Hst1 as [? ?].
           split; [done|]. intros w' [->|?]%elem_of_cons; auto.
Qed.

(** What a pool knows of the heap survives the allocation of a worker. *)
Lemma pool_ok_alloc h w p :
  allocated h p -> pool_ok h p -> all_alive h p ->
  let h1 := (alloc h w).2 in pool_ok h1 p /\ allocated h1 p /\ all_alive h1 p.
Proof.
  intros Hal Hok Ha h1.
  assert (forall id st, workers p !! id = Some st -> deref h1 (worker st) = deref h (worker st)) as E.
  { intros id st Hst. apply deref_alloc_ne. pose proof (Hal _ _ Hst). simpl in *. lia. }
  split_and!.
  - destruct Hok as [Hn Hk Hi]. split; [done|done|]. intros id st Hst. rewrite (E _ _ Hst). eauto.
  - intros id st Hst. pose proof (Hal _ _ Hst). simpl in *. lia.
  - intros id st Hst. cbn beta. rewrite (E _ _ Hst). by apply (Ha id).
Qed.

Lemma replica_loop_spec clk stamp prefix c n i h p m :
  pool_ok h p -> allocated h p -> all_alive h p -> (c < next h)%nat ->
  IsAlive (deref h c) = true ->
  (forall id m, (Spawn (set_ID id (deref h c)) m).1 = None) ->
  (forall j, (i <= j < i + n)%nat -> generateWorkerID prefix (stamp j) ∉ workerIDs p) ->
  (forall j k, (i <= j < i + n)%nat -> (i <= k < i + n)%nat ->
     generateWorkerID prefix (stamp j) = generateWorkerID prefix (stamp k) -> j = k) ->
  let '(h', p', _) := replica_loop clk stamp prefix c n i h p m in
  pool_ok h' p' /\ all_alive h' p' /\ Size p' = Size p + Z.of_nat n.
Proof.
  revert i h p m. induction n as [|n IH]; intros i h p m Hok Hal Ha Hc Hac Hsp Hf Hinj;
    cbn [replica_loop]; [split_and!; [done|done|lia]|].
  pose proof (pool_ok_alloc h (set_ID (generateWorkerID prefix (stamp i)) (deref h c)) p Hal Hok Ha)
    as (Hok1 & Hal1 & Ha1).
  pose proof (deref_alloc h (set_ID (generateWorkerID prefix (stamp i)) (deref h c))) as Hw.
  assert (deref (alloc h (set_ID (generateWorkerID prefix (stamp i)) (deref h c))).2 c = deref h c) as Hc1.
  { apply deref_alloc_ne. lia. }
  assert (next (alloc h (set_ID (generateWorkerID prefix (stamp i)) (deref h c))).2 = S (next h)) as Hnx by done.
  assert ((alloc h (set_ID (generateWorkerID prefix (stamp i)) (deref h c))).1 = next h) as Hw1 by done.
  destruct (alloc h _) as [w h1]. cbn [fst snd] in *. rewrite Hw.
  destruct (Spawn _ m) as [err m1] eqn:Es.
  pose proof (Hsp (generateWorkerID prefix (stamp i)) m) as Hnone. rewrite Es in Hnone. simpl in Hnone. subst err.
  set (p1 := AddWorker h1 w _ _ p).
  assert (Size p1 = Size p + 1) as Hs1 by apply AddWorker_size.
  assert (exists st0, workers p1 = <[ID (deref h1 w) := st0]> (workers p) /\ worker st0 = w)
    as (st0 & Hp1 & Hst0) by (by eexists).
  assert (pool_ok h1 p1) as Hokp1.
  { apply AddWorker_ok; [done|]. rewrite Hw. apply Hf. lia. }
  specialize (IH (S i) h1 p1 m1 Hokp1).
  destruct (replica_loop _ _ _ _ _ _ _ _ _) as [[h' p'] m'].
  replace (Size p + Z.of_nat (S n)) with (Size p1 + Z.of_nat n) by lia.
  apply IH.
  - unfold allocated. rewrite Hp1. apply map_Forall_insert_2; [|done]. rewrite Hst0. lia.
  - unfold all_alive. rewrite Hp1. apply map_Forall_insert_2; [|done]. by rewrite Hst0, Hw.
  - lia.
  - by rewrite Hc1.
  - by rewrite Hc1.
  - intros j Hj. simpl. rewrite Hw. rewrite elem_of_app, list_elem_of_singleton.
    intros [Hin|He]; [by apply (Hf j); [lia|]|].
    apply Hinj in He; lia.
  - intros j k ? ?. apply Hinj; lia.
Qed.

(** C37: A health round restores a pool: when the base worker of its
    configuration spawns, the time stamps give fresh distinct names and the
    size limit leaves room for the configured replicas, then after
    [MonitorHealth] has visited the pool every worker it lists is alive, once
    each, and there are exactly [Replicas] of them. *)
Theorem health_round_restores_replicas clk stamp prefix (w : World M) pool cfg (c : loc) :
  pools (mg w) !! prefix = Some pool -> configs (mg w) !! prefix = Some cfg ->
  workerCfgs (mg w) !! prefix = Some (Some c) ->
  pool_ok (hp w) pool -> allocated (hp w) pool -> (c < next (hp w))%nat ->
  IsAlive (deref (hp w) c) = true ->
  (forall id m, (Spawn (set_ID id (deref (hp w) c)) m).1 = None) ->
  (forall j, (j < Z.to_nat (Replicas cfg))%nat ->
     generateWorkerID prefix (stamp j) ∉ workerIDs pool) ->
  (forall j k, (j < Z.to_nat (Replicas cfg))%nat -> (k < Z.to_nat (Replicas cfg))%nat ->
     generateWorkerID prefix (stamp j) = generateWorkerID prefix (stamp k) -> j = k) ->
  HealthySize (hp w) pool <= Replicas cfg < 2 ^ 63 ->
  (MaxPoolSize cfg <= 0 \/ Replicas cfg <= MaxPoolSize cfg < 2 ^ 63) ->
  let w' := monitorPool clk stamp prefix w in
  exists pool', pools (mg w') !! prefix = Some pool' /\ pool_ok (hp w') pool' /\
    all_alive (hp w') pool' /\ Size pool' = Replicas cfg /\
    HealthySize (hp w') pool' = Replicas cfg.
Proof.
  intros Hp Hcfg Hwc Hok Hal Hc Hac Hsp Hf Hinj Hrep Hmax w'. subst w'.
  unfold monitorPool. rewrite Hp.
  pose proof (evict_dead_spec clk 0 (GetWorkers pool) (hp w) pool (pr w) Hok Hal) as Hev.
  destruct (evict_dead _ _ _ _ _ _) as [p1 m1]. cbn [fst] in Hev.
  destruct Hev as (Hok1 & Hal1 & Hh1 & Hx).
  { intros l (id & Hid & Hl)%list_elem_of_omap Ha st Hst.
    apply fmap_Some in Hl as (st' & Hst' & ->).
    rewrite (ok_ids _ _ Hok _ _ Hst') in Hst. by simplify_eq. }
  assert (all_alive (hp w) p1) as Ha1.
  { intros id st Hst. destruct (Hx _ _ Hst) as [Hst' Hnd].
    change (IsAlive (deref (hp w) (worker st)) = true).
    destruct (IsAlive (deref (hp w) (worker st))) eqn:E; [done|]. exfalso.
    apply (Hnd (worker st)); [|done|exact (ok_ids _ _ Hok _ _ Hst')].
    apply list_elem_of_omap. exists id. rewrite Hst'. split; [|done].
    apply (ok_keys _ _ Hok). eauto. }
  pose proof (all_alive_size _ _ Hok1 Ha1) as Hsz.
  assert (HealthySize (hp w) p1 = HealthySize (hp w) pool) as Hhs
    by (by rewrite !HealthySize_length, Hh1).
  pose proof (Size_nonneg p1).
  assert (spawnCount cfg (hp w) p1 = Replicas cfg - Size p1) as Hn.
  { unfold spawnCount. rewrite Hsz, (wrap64_id (Replicas cfg - _)) by (unfold int64; lia).
    case_if; bool_to_prop; [|done]. rewrite wrap64_id by (unfold int64; lia).
    case_if; bool_to_prop; case_if; bool_to_prop; lia. }
  assert (forall id, id ∈ workerIDs p1 -> id ∈ workerIDs pool) as Hsub.
  { intros id [st Hst]%(ok_keys _ _ Hok1). apply (ok_keys _ _ Hok). exists st. by apply Hx. }
  unfold ensureReplicas. cbn [mg hp pr]. rewrite Hcfg, Hwc, Hn.
  destruct (0 <? _) eqn:E; bool_to_prop.
  - pose proof (replica_loop_spec clk stamp prefix c (Z.to_nat (Replicas cfg - Size p1)) 0
      (hp w) p1 m1 Hok1 Hal1 Ha1 Hc Hac Hsp) as Hr.
    destruct (replica_loop _ _ _ _ _ _ _ _ _) as [[h2 p2] m2].
    destruct Hr as (Hok2 & Ha2 & Hs2); [intros j ? ?%Hsub; apply (Hf j); [lia|done]|
      intros; apply Hinj; [lia|lia|done]|].
    exists p2. cbn [mg hp set_pool pools]. rewrite lookup_insert_eq, (all_alive_size _ _ Hok2 Ha2).
    split_and!; try done; lia.
  - exists p1. cbn [mg hp set_pool pools]. rewrite lookup_insert_eq.
    split_and!; try done; lia.
Qed.
End HealthRound.

(** ** A concrete process manager

    The running processes by worker, in the order they were started.  Like
    [process.Manager], starting a worker under a name that is taken loses
    track of the process that had it. *)
#[local] Instance ledger : WorkerManager (list string) := {
  Spawn w m := if String.eqb (Command w) "" then (Some ErrInvalidCommand, m)
               else (None, ID w :: m);
  Stop id m := if decide (id ∈ m) then (None, filter (fun x => x <> id) m)
               else (Some ErrNotFound, m);
}.

Definition noclk : nat -> Z := fun _ => 0.
Definition stamps (i : nat) : string := "20240101-000000." +:+ itoa (100 + Z.of_nat i).

(** Three instances of the running base worker of [demo_heap]. *)
Definition start : World (list string) :=
  mkWorld demo_heap
    (RegisterWorkerConfig "a" (Some 0%nat)
      (RegisterPool "a" (mkManagerConfig 3 "" 4) NewManager)) [].
Definition started : World (list string) := (SpawnWorkers noclk "a" 0%nat start).2.

(** The second instance fails its health check. *)
Definition sick : World (list string) :=
  mkWorld (write (hp started) 5%nat (SetHealth false 0 0 (deref (hp started) 5%nat)))
    (mg started) (pr started).

Example started_ids : (workerIDs <$> pools (mg started) !! "a") = Some ["a"; "a-1"; "a-2"].
Proof. reflexivity. Qed.
Example healed_ids :
  (workerIDs <$> pools (mg (monitorPool noclk stamps "a" sick)) !! "a")
  = Some ["a"; "a-2"; "a-20240101-000000.100"].
Proof. vm_compute. reflexivity. Qed.

Definition sick_pool : Pool :=
  foldl (fun p w => AddWorker (hp sick) w 0 0 p) (NewPool "") [4; 5; 6]%nat.

Lemma sick_pool_ok : pools (mg sick) !! "a" = Some sick_pool /\ pool_ok (hp sick) sick_pool.
Proof.
  split; [vm_compute; reflexivity|].
  unfold sick_pool. cbn [foldl]. repeat (apply AddWorker_ok; [|by_compute]). apply NewPool_ok.
Qed.

Lemma health_round_restores_replicas_witness :
  exists pool', pools (mg (monitorPool noclk stamps "a" sick)) !! "a" = Some pool' /\
    pool_ok (hp (monitorPool noclk stamps "a" sick)) pool' /\
    all_alive (hp (monitorPool noclk stamps "a" sick)) pool' /\ Size pool' = 3 /\
    HealthySize (hp (monitorPool noclk stamps "a" sick)) pool' = 3.
Proof.
  apply (health_round_restores_replicas noclk stamps "a" sick sick_pool
           (mkManagerConfig 3 "round-robin" 4) 0%nat).
  - apply sick_pool_ok.
  - vm_compute; reflexivity.
  - vm_compute; reflexivity.
  - apply sick_pool_ok.
  - by_compute.
  - by_compute.
  - vm_compute; reflexivity.
  - reflexivity.
  - intros [|[|[|j]]] Hj; [by_compute..|simpl in Hj; lia].
  - intros [|[|[|j]]] [|[|[|k]]] Hj Hk; simpl in Hj, Hk; try lia; try done; by_compute.
  - by_compute.
  - right. by_compute.
Defined.

(** Registering the pool and spawning twice: the limit of four cuts the second
    spawn to one instance. *)
Definition twice : list (Op) :=
  [ORegisterPool "a" (mkManagerConfig 3 "" 4); OSpawnWorkers noclk "a" 0%nat;
   OSpawnWorkers noclk "a" 0%nat].
Lemma pools_stay_within_max_witness :
  exists p, pools (mg (run step twice (mkWorld demo_heap NewManager []))) !! "a" = Some p /\
    Size p <= MaxPoolSize (mkManagerConfig 3 "round-robin" 4).
Proof.
  destruct (pools (mg (run step twice (mkWorld demo_heap NewManager []))) !! "a") as [p|] eqn:E;
    [|vm_compute in E; discriminate E].
  exists p. split; [reflexivity|].
  apply (pools_stay_within_max demo_heap [] twice "a" (mkManagerConfig 3 "round-robin" 4) p).
  - repeat constructor; by_compute.
  - vm_compute; reflexivity.
  - exact E.
  - reflexivity.
Defined.

Lemma replacement_cannot_be_replaced_witness :
  let id := generateWorkerID "a" "20240101-000000.100" in
  extractPrefix id = id /\ ReplaceWorker noclk "20240101-000001.000" id started
    = (Some ErrPoolNotFound, started).
Proof.
  apply (replacement_cannot_be_replaced noclk "a" "20240101-000000" "100" "20240101-000001.000" started);
    vm_compute; reflexivity.
Defined.

(** Two replacements started within the same millisecond share their name:
    the pool lists it twice and the process manager has lost one of them. *)
Example same_millisecond :
  let w := monitorPool noclk (fun _ => "20240101-000000.100") "a"
    (mkWorld (hp started) (set_pool "a" (NewPool "") (mg started)) []) in
  (workerIDs <$> pools (mg w) !! "a") = Some (replicate 3 "a-20240101-000000.100").
Proof. vm_compute. reflexivity. Qed.
