(* ===== verification/Ipc.v ===== *)
(** * IPC messages and their framing ([core/domain/ipc],
      [core/infrastructure/ipc/framing])

    A message travels as a 5-byte header (payload length, 32-bit
    little-endian, and type) and the payload.  [Write] hands one frame to an
    [io.Writer]; [Read] takes one frame off an [io.Reader], whose bytes may
    arrive in pieces of any size.  The theorems show that a stream of frames
    reads back as the messages written whatever the fragmentation, and that
    [Read] accepts nothing else. *)
From S2P Require Import Prelude.
Local Open Scope string_scope.
Local Open Scope list_scope.
Local Open Scope Z_scope.
Local Open Scope go_scope.

(** ** Bytes *)

Ltac div_lia := Z.to_euclidean_division_equations; lia.

Definition bytes := list ascii.
Definition of_string (s : string) : bytes := String.list_ascii_of_string s.

(** [binary.LittleEndian.PutUint32] and [Uint32]. *)
Definition put_uint32 (v : Z) : bytes :=
  [byte_of v; byte_of (Z.shiftr v 8); byte_of (Z.shiftr v 16); byte_of (Z.shiftr v 24)].
Definition uint32 (b0 b1 b2 b3 : ascii) : Z :=
  Z.lor (to_Z b0) (Z.lor (Z.shiftl (to_Z b1) 8)
    (Z.lor (Z.shiftl (to_Z b2) 16) (Z.shiftl (to_Z b3) 24))).

Lemma lor_shift_add a b n : 0 <= n -> 0 <= a < 2 ^ n -> Z.lor a (Z.shiftl b n) = a + b * 2 ^ n.
Proof.
  intros Hn Ha. rewrite <-Z.shiftl_mul_pow2 by done.
  symmetry. apply Z.add_nocarry_lor.
  apply Z.bits_inj'. intros i Hi. rewrite Z.land_spec, Z.bits_0, Z.shiftl_spec by done.
  destruct (Z.lt_ge_cases i n).
  - rewrite (Z.testbit_neg_r b) by lia. by rewrite andb_false_r.
  - assert (a = a mod 2 ^ n) as -> by (rewrite Z.mod_small; lia).
    rewrite Z.mod_pow2_bits_high by lia. done.
Qed.

Lemma uint32_value b0 b1 b2 b3 :
  uint32 b0 b1 b2 b3 = to_Z b0 + 256 * (to_Z b1 + 256 * (to_Z b2 + 256 * to_Z b3)).
Proof.
  unfold uint32. pose proof (to_Z_range b0). pose proof (to_Z_range b1).
  pose proof (to_Z_range b2). pose proof (to_Z_range b3).
  replace (Z.shiftl (to_Z b3) 24) with (Z.shiftl (Z.shiftl (to_Z b3) 8) 16)
    by (by rewrite Z.shiftl_shiftl).
  rewrite <-Z.shiftl_lor.
  rewrite (lor_shift_add (to_Z b2) (to_Z b3) 8) by lia.
  replace (Z.shiftl (to_Z b2 + to_Z b3 * 2 ^ 8) 16)
    with (Z.shiftl (Z.shiftl (to_Z b2 + to_Z b3 * 2 ^ 8) 8) 8) by (by rewrite Z.shiftl_shiftl).
  rewrite <-Z.shiftl_lor. rewrite !lor_shift_add by lia. lia.
Qed.

Lemma uint32_range b0 b1 b2 b3 : 0 <= uint32 b0 b1 b2 b3 < 2 ^ 32.
Proof.
  rewrite uint32_value. pose proof (to_Z_range b0). pose proof (to_Z_range b1).
  pose proof (to_Z_range b2). pose proof (to_Z_range b3). lia.
Qed.

Lemma put_uint32_bytes b0 b1 b2 b3 : put_uint32 (uint32 b0 b1 b2 b3) = [b0; b1; b2; b3].
Proof.
  rewrite uint32_value. unfold put_uint32.
  pose proof (to_Z_range b0). pose proof (to_Z_range b1).
  pose proof (to_Z_range b2). pose proof (to_Z_range b3).
  assert (forall z b, z mod 256 = to_Z b -> byte_of z = b) as E.
  { intros z b Hz. rewrite <-(byte_of_to_Z b), <-Hz. unfold byte_of.
    change 255 with (Z.ones 8). rewrite !Z.land_ones by lia. change (2 ^ 8) with 256.
    by rewrite Zmod_mod. }
  rewrite !Z.shiftr_div_pow2 by lia.
  change (2 ^ 8) with 256. change (2 ^ 16) with 65536. change (2 ^ 24) with 16777216.
  rewrite (E _ b0), (E _ b1), (E _ b2), (E _ b3) by div_lia. done.
Qed.

Lemma uint32_put v :
  0 <= v < 2 ^ 32 ->
  uint32 (byte_of v) (byte_of (Z.shiftr v 8)) (byte_of (Z.shiftr v 16)) (byte_of (Z.shiftr v 24)) = v.
Proof.
  intros. rewrite uint32_value, !to_Z_byte_of, !Z.shiftr_div_pow2 by lia. div_lia.
Qed.

(** ** Messages ([message.go]) *)

(** [MessageType] is a byte; the protocol declares thirteen. *)
Definition MessageType := ascii.
Definition TypeRequest : MessageType := byte_of 1.
Definition TypeResponse : MessageType := byte_of 2.
Definition TypeHeartbeat : MessageType := byte_of 3.
Definition TypeError : MessageType := byte_of 4.
Definition TypeHandshake : MessageType := byte_of 5.
Definition TypeWSOpen : MessageType := byte_of 6.
Definition TypeWSMessage : MessageType := byte_of 7.
Definition TypeWSClose : MessageType := byte_of 8.
Definition TypeStreamStart : MessageType := byte_of 9.
Definition TypeStreamChunk : MessageType := byte_of 10.
Definition TypeStreamEnd : MessageType := byte_of 11.
Definition TypeArrowData : MessageType := byte_of 12.
Definition TypeArrowSHM : MessageType := byte_of 13.

Definition hex_digit (z : Z) : ascii :=
  ascii_of_nat (Z.to_nat (if z <? 10 then 48 + z else 87 + z)).

Definition MessageType_String (t : MessageType) : string :=
  match to_Z t with
  | 1 => "request" | 2 => "response" | 3 => "heartbeat" | 4 => "error" | 5 => "handshake"
  | 6 => "ws_open" | 7 => "ws_message" | 8 => "ws_close" | 9 => "stream_start"
  | 10 => "stream_chunk" | 11 => "stream_end" | 12 => "arrow_data" | 13 => "arrow_shm"
  | z => "unknown(0x" +:+ String (hex_digit (Z.shiftr z 4))
           (String (hex_digit (Z.land z 15)) ")")
  end.

Record Message := mkMessage {
  mtype : MessageType;
  Payload : bytes;
}.
#[export] Instance Message_eq_dec : EqDecision Message.
Proof. solve_decision. Defined.

Definition MaxPayloadSize : Z := Z.shiftl 16 20.

(** [errors.go] *)
Definition ErrPayloadTooLarge :=
  Sentinel "ipc.ErrPayloadTooLarge" "ipc: payload exceeds maximum allowed size".
Definition ErrUnknownMessageType :=
  Sentinel "ipc.ErrUnknownMessageType" "ipc: unknown message type".
Definition ErrConnectionClosed :=
  Sentinel "ipc.ErrConnectionClosed" "ipc: connection is closed".
Definition ErrWorkerNotConnected :=
  Sentinel "ipc.ErrWorkerNotConnected" "ipc: worker is not connected".

(** ** Readers

    The bytes a connection delivers, in the pieces its [Read] returns them,
    and then the end of the file. *)
Definition reader := list bytes.
Definition EOF := Sentinel "io.EOF" "EOF".
Definition ErrUnexpectedEOF := Sentinel "io.ErrUnexpectedEOF" "unexpected EOF".

(** [io.ReadFull(r, buf)] with [n] bytes of [buf] still to fill. *)
Fixpoint read_full (n : nat) (acc : bytes) (r : reader) : result bytes * reader :=
  match n, r with
  | O, _ => (Ok acc, r)
  | _, [] => (Err (match acc with [] => EOF | _ => ErrUnexpectedEOF end), [])
  | _, c :: r' =>
      if decide (n < length c)%nat then (Ok (acc ++ take n c), drop n c :: r')
      else read_full (n - length c) (acc ++ c) r'
  end.
Definition ReadFull (n : nat) (r : reader) : result bytes * reader := read_full n [] r.

(** ** Framing ([framing.go]) *)

Definition headerSize : nat := 5.

Definition validateType (t : MessageType) : option error :=
  if decide (t ∈ [TypeRequest; TypeResponse; TypeHeartbeat; TypeError; TypeHandshake;
                  TypeWSOpen; TypeWSMessage; TypeWSClose])
  then None else Some ErrUnknownMessageType.

(** The buffer [Write] fills: the length is converted to [uint32], the frame
    is allocated for that length and [copy] stops at its end. *)
Definition frame (msg : Message) : bytes :=
  let payloadLen := Z.of_nat (length (Payload msg)) mod 2 ^ 32 in
  put_uint32 payloadLen ++ [mtype msg] ++ take (Z.to_nat payloadLen) (Payload msg).

(** [w.Write] is the method of the [io.Writer] the frame is handed to. *)
Definition Write {W} (w_Write : bytes -> W -> option error * W) (msg : Message) (w : W)
    : option error * W := w_Write (frame msg) w.

Definition Read (r : reader) : result Message * reader :=
  match ReadFull headerSize r with
  | (Ok [b0; b1; b2; b3; t], r1) =>
      let payloadLen := uint32 b0 b1 b2 b3 in
      match validateType t with
      | Some err => (Err err, r1)
      | None =>
          if MaxPayloadSize <? payloadLen then (Err ErrPayloadTooLarge, r1)
          else if 0 <? payloadLen then
            match ReadFull (Z.to_nat payloadLen) r1 with
            | (Ok payload, r2) => (Ok (mkMessage t payload), r2)
            | (Err err, r2) => (Err (WrapErr "framing: read payload: " err ""), r2)
            end
          else (Ok (mkMessage t []), r1)
      end
  | (Ok _, r1) => (Err (NewErr "unreachable"), r1)
  | (Err err, r1) => (Err (WrapErr "framing: read header: " err ""), r1)
  end.

(** Reading [n] frames. *)
Fixpoint read_n (n : nat) (r : reader) : result (list Message) * reader :=
  match n with
  | O => (Ok [], r)
  | S n' =>
      match Read r with
      | (Err e, r1) => (Err e, r1)
      | (Ok m, r1) =>
          match read_n n' r1 with
          | (Err e, r2) => (Err e, r2)
          | (Ok ms, r2) => (Ok (m :: ms), r2)
          end
      end
  end.

(** A message [Read] can return. *)
Definition sendable (m : Message) : Prop :=
  validateType (mtype m) = None /\ Z.of_nat (length (Payload m)) <= MaxPayloadSize.
#[export] Instance sendable_dec m : Decision (sendable m).
Proof. unfold sendable. apply _. Defined.

(** ** Reading does not depend on the fragmentation *)

(** [ReadFull] on the bytes that are still to come. *)
Definition read_full_flat (n : nat) (acc s : bytes) : result bytes * bytes :=
  if decide (n <= length s)%nat then (Ok (acc ++ take n s), drop n s)
  else (Err (match acc ++ s with [] => EOF | _ => ErrUnexpectedEOF end), []).

Lemma read_full_spec n acc r :
  let '(res, r') := read_full n acc r in
  (res, concat r') = read_full_flat n acc (concat r).
Proof.
  revert n acc. induction r as [|c r IH]; intros n acc.
  - destruct n; simpl; unfold read_full_flat; [by rewrite decide_True, take_0, app_nil_r by (simpl; lia)|].
    rewrite decide_False by (simpl; lia). by rewrite app_nil_r.
  - destruct n as [|n].
    + cbn [read_full]. unfold read_full_flat.
      by rewrite decide_True, take_0, drop_0, app_nil_r by lia.
    + cbn [read_full]. case_decide as Hc.
      * cbn [concat]. unfold read_full_flat. rewrite decide_True by (rewrite length_app; lia).
        rewrite take_app_le, drop_app_le by lia. done.
      * specialize (IH (S n - length c)%nat (acc ++ c)). destruct (read_full _ _ _) as [res r'].
        rewrite IH. cbn [concat]. unfold read_full_flat. rewrite length_app.
        destruct (decide (S n - length c <= length (concat r))%nat).
        -- rewrite decide_True by lia. rewrite take_app_ge, drop_app_ge by lia.
           by rewrite app_assoc.
        -- rewrite decide_False by lia. by rewrite app_assoc.
Qed.

Lemma ReadFull_Ok n r s t :
  concat r = s ++ t -> length s = n -> exists r', ReadFull n r = (Ok s, r') /\ concat r' = t.
Proof.
  intros Hr Hn. unfold ReadFull. pose proof (read_full_spec n [] r) as H.
  destruct (read_full n [] r) as [res r']. exists r'.
  unfold read_full_flat in H. rewrite Hr, decide_True in H by (rewrite length_app; lia).
  rewrite take_app_length', drop_app_length' in H by done. by simplify_eq/=.
Qed.

Lemma ReadFull_inv n r s r' : ReadFull n r = (Ok s, r') -> concat r = s ++ concat r' /\ length s = n.
Proof.
  intros Hr. unfold ReadFull in Hr. pose proof (read_full_spec n [] r) as H. rewrite Hr in H.
  unfold read_full_flat in H. case_decide; simplify_eq/=.
  rewrite H1, length_take. split; [by rewrite take_drop|lia].
Qed.

(** ** The decoder on a flat sequence of bytes *)

Definition decode (s : bytes) : result Message * bytes :=
  match s with
  | b0 :: b1 :: b2 :: b3 :: t :: s' =>
      match validateType t with
      | Some err => (Err err, s')
      | None =>
          let n := uint32 b0 b1 b2 b3 in
          if MaxPayloadSize <? n then (Err ErrPayloadTooLarge, s')
          else if Z.of_nat (length s') <? n then
            (Err (WrapErr "framing: read payload: "
                    (match s' with [] => EOF | _ => ErrUnexpectedEOF end) ""), [])
          else (Ok (mkMessage t (take (Z.to_nat n) s')), drop (Z.to_nat n) s')
      end
  | _ =>
      (Err (WrapErr "framing: read header: "
              (match s with [] => EOF | _ => ErrUnexpectedEOF end) ""), [])
  end.

Lemma ReadFull_flat n r :
  let '(res, r') := ReadFull n r in (res, concat r') = read_full_flat n [] (concat r).
Proof. apply read_full_spec. Qed.

Lemma Read_flat (r : reader) :
  let '(res, r') := Read r in (res, concat r') = decode (concat r).
Proof.
  unfold Read. pose proof (ReadFull_flat headerSize r) as H.
  destruct (ReadFull headerSize r) as [res1 r1]. unfold read_full_flat, headerSize in H.
  destruct (concat r) as [|b0 [|b1 [|b2 [|b3 [|t s]]]]];
    [rewrite decide_False in H by (simpl; lia); by injection H as -> ->..|].
  rewrite decide_True in H by (simpl; lia). cbn [take drop app] in H. rewrite take_0 in H.
  injection H as -> Hr1. rewrite drop_0 in Hr1. cbn [decode].
  destruct (validateType t); [by rewrite Hr1|].
  pose proof (uint32_range b0 b1 b2 b3). destruct (MaxPayloadSize <? _); [by rewrite Hr1|].
  destruct (0 <? uint32 b0 b1 b2 b3) eqn:E0; bool_to_prop.
  - pose proof (ReadFull_flat (Z.to_nat (uint32 b0 b1 b2 b3)) r1) as H2.
    destruct (ReadFull _ r1) as [res2 r2]. unfold read_full_flat in H2. rewrite Hr1 in H2.
    destruct (Z.of_nat (length s) <? uint32 b0 b1 b2 b3) eqn:E; bool_to_prop.
    + rewrite decide_False in H2 by lia. by injection H2 as -> ->.
    + rewrite decide_True in H2 by lia. by injection H2 as -> ->.
  - assert (uint32 b0 b1 b2 b3 = 0) as -> by lia.
    rewrite (proj2 (Z.ltb_ge _ _)) by lia. by rewrite Hr1.
Qed.

(** Every branch of [Read], errors included: on a connection whose bytes
    arrive in pieces of any size it answers as the decoder of the flat byte
    sequence does and leaves the bytes the decoder leaves, so neither results
    nor the next frame's position depend on the fragmentation. *)
Theorem Read_refines_decode (r : reader) :
  let '(res, r') := Read r in (res, concat r') = decode (concat r).
Proof. apply Read_flat. Qed.

(** ** Round trips *)

Lemma sendable_payload_len m :
  sendable m -> Z.of_nat (length (Payload m)) mod 2 ^ 32 = Z.of_nat (length (Payload m)).
Proof. intros [_ H]. change MaxPayloadSize with 16777216 in H. rewrite Z.mod_small; lia. Qed.

Lemma decode_frame m s : sendable m -> decode (frame m ++ s) = (Ok m, s).
Proof.
  intros Hm. unfold frame. rewrite (sendable_payload_len m Hm). destruct Hm as [Ht Hl].
  rewrite Nat2Z.id, firstn_all. change MaxPayloadSize with 16777216 in Hl.
  cbn [put_uint32 app decode]. rewrite Ht. rewrite uint32_put by lia.
  rewrite (proj2 (Z.ltb_ge _ _)) by done.
  rewrite (proj2 (Z.ltb_ge _ _)) by (rewrite length_app; lia).
  rewrite Nat2Z.id, take_app_length, drop_app_length. by destruct m.
Qed.

(** Whatever pieces a frame arrives in, [Read] gives its message and leaves
    what follows. *)
Lemma Read_frame m r rest :
  sendable m -> concat r = frame m ++ rest -> exists r', Read r = (Ok m, r') /\ concat r' = rest.
Proof.
  intros Hm Hr. pose proof (decode_frame m rest Hm) as Hd. rewrite <-Hr in Hd.
  pose proof (Read_flat r) as H. destruct (Read r) as [res r1]. rewrite <-H in Hd.
  injection Hd as -> Hr1. by exists r1.
Qed.

(** C19: A stream of frames reads back: whatever pieces the bytes of the frames
    of [ms] and of what follows them arrive in, reading as many frames returns
    [ms] in order and leaves the bytes that follow. *)
Theorem frames_roundtrip (ms : list Message) (r : reader) (rest : bytes) :
  Forall sendable ms -> concat r = concat (frame <$> ms) ++ rest ->
  exists r', read_n (length ms) r = (Ok ms, r') /\ concat r' = rest.
Proof.
  intros Hms. revert r. induction Hms as [|m ms Hm Hms IH]; intros r Hr; [by exists r|].
  rewrite fmap_cons in Hr. cbn [concat] in Hr. rewrite <-app_assoc in Hr.
  destruct (Read_frame _ _ _ Hm Hr) as (r1 & HR & Hr1). cbn [length read_n]. rewrite HR.
  destruct (IH r1 Hr1) as (r2 & -> & ?). by exists r2.
Qed.

(** The only bytes [decode] accepts are those of a frame. *)
Lemma decode_Ok s m s' : decode s = (Ok m, s') -> sendable m /\ s = frame m ++ s'.
Proof.
  destruct s as [|b0 [|b1 [|b2 [|b3 [|t s]]]]]; try done. cbn [decode].
  destruct (validateType t) eqn:Ht; [done|]. cbv zeta. pose proof (uint32_range b0 b1 b2 b3).
  destruct (MaxPayloadSize <? _) eqn:E1; [done|].
  destruct (Z.of_nat (length s) <? uint32 b0 b1 b2 b3) eqn:E2; [done|]. intros He.
  injection He as <- <-. bool_to_prop.
  assert (Z.of_nat (length (take (Z.to_nat (uint32 b0 b1 b2 b3)) s)) = uint32 b0 b1 b2 b3) as Hl.
  { rewrite length_take. lia. }
  split; [split; simpl; [done|lia]|].
  unfold frame. cbn [Payload mtype]. rewrite Hl, Z.mod_small by lia.
  rewrite put_uint32_bytes. cbn [app].
  rewrite take_take, Nat.min_id, take_drop. done.
Qed.

(** [Read] accepts nothing but what [Write] emits: a message it returns has
    a type of the protocol and a payload within the limit, and the bytes it
    took off the connection are exactly that message's frame. *)
Theorem Read_sound (r r' : reader) (m : Message) :
  Read r = (Ok m, r') -> sendable m /\ concat r = frame m ++ concat r'.
Proof.
  intros Hr. pose proof (Read_flat r) as H. rewrite Hr in H. symmetry in H. by apply decode_Ok.
Qed.

(** The header of a frame, and what [decode] makes of a header alone. *)
Lemma decode_bad_type m s :
  validateType (mtype m) = Some ErrUnknownMessageType ->
  (decode (frame m ++ s)).1 = Err ErrUnknownMessageType.
Proof. intros H. unfold frame. cbn [put_uint32 app decode]. by rewrite H. Qed.

(** [Write] does not enforce what [Read] does.  A frame of one of the five
    types declared for streaming and Arrow transfers, or with a payload
    between the limit and 4 GiB, is written without an error and refused by
    the [Read] at the other end, which has then consumed the header only: it
    goes on to read the payload as if it were frames. *)
Theorem Write_accepts_unreadable (m : Message) (rest : bytes) :
  let refused :=
    exists e, Read [frame m ++ rest] = (Err e, [Payload m ++ rest]) in
  (mtype m ∈ [TypeStreamStart; TypeStreamChunk; TypeStreamEnd; TypeArrowData; TypeArrowSHM] ->
   0 < Z.of_nat (length (Payload m ++ rest)) -> Z.of_nat (length (Payload m)) < 2 ^ 32 ->
   refused) /\
  (MaxPayloadSize < Z.of_nat (length (Payload m)) < 2 ^ 32 -> refused).
Proof.
  assert (forall (Hl : Z.of_nat (length (Payload m)) < 2 ^ 32) (Hp : 0 < Z.of_nat (length (Payload m ++ rest))),
    ReadFull headerSize [frame m ++ rest] =
      (Ok (put_uint32 (Z.of_nat (length (Payload m))) ++ [mtype m]), [Payload m ++ rest])) as HR.
  { intros Hl Hp. unfold frame. rewrite Z.mod_small, Nat2Z.id, firstn_all by lia.
    unfold ReadFull, headerSize. cbn [read_full].
    cbn [put_uint32 app]. rewrite decide_True by (cbn [length]; lia).
    done. }
  split.
  - intros Ht Hp Hl. unfold Read. rewrite HR by done. cbn [put_uint32 app].
    exists ErrUnknownMessageType.
    assert (validateType (mtype m) = Some ErrUnknownMessageType) as ->; [|done].
    unfold validateType. rewrite decide_False; [done|].
    rewrite !elem_of_cons, elem_of_nil in Ht. destruct Ht as [->|[->|[->|[->|[->|[]]]]]];
      apply (bool_decide_unpack _); vm_compute; exact I.
  - intros [Hl1 Hl2]. change MaxPayloadSize with 16777216 in Hl1.
    unfold Read. rewrite HR by (rewrite ?length_app; lia). cbn [put_uint32 app].
    destruct (validateType (mtype m)) as [e|]; [by exists e|].
    rewrite uint32_put by lia.
    rewrite (proj2 (Z.ltb_lt _ _)) by (change MaxPayloadSize with 16777216; lia).
    by exists ErrPayloadTooLarge.
Qed.

(** ** Witnesses *)

Definition hello : Message := mkMessage TypeRequest (of_string "hello").
Definition beat : Message := mkMessage TypeHeartbeat [].

(** Two frames and two bytes more, one byte at a time. *)
Definition trickle : reader :=
  (fun b => [b]) <$> (frame hello ++ frame beat ++ of_string "xy").

Lemma frames_roundtrip_witness :
  exists r', read_n 2 trickle = (Ok [hello; beat], r') /\ concat r' = of_string "xy".
Proof.
  apply (frames_roundtrip [hello; beat] trickle (of_string "xy")); [by_compute|reflexivity].
Defined.

Lemma Read_sound_witness :
  sendable hello /\ concat trickle = frame hello ++ concat (drop 10 trickle).
Proof. apply Read_sound. vm_compute. reflexivity. Defined.

Lemma Write_accepts_unreadable_witness :
  exists e, Read [frame (mkMessage TypeStreamStart (of_string "{}"))] = (Err e, [of_string "{}"]).
Proof.
  destruct (Write_accepts_unreadable (mkMessage TypeStreamStart (of_string "{}")) []) as [H _].
  apply H; by_compute.
Defined.
