(* ===== verification/Json.v ===== *)
(** * JSON values as [encoding/json] moves them

    What [json.Marshal] and [json.Unmarshal] do at the Go types the gateway
    and the workers exchange, on the level of JSON documents: a value is
    marshalled to a document and a document decoded into a variable that may
    hold something already.  The text of documents is left to the parameters
    of the sections that need it.  [[]byte] is a string in base64. *)
From stdpp Require Import sorting countable.
From S2P Require Import Prelude GoStrings Ipc.
Local Open Scope string_scope.
Local Open Scope list_scope.
Local Open Scope Z_scope.

(** [JFloat] is a number that is not written as an integer; the members of an
    object keep their order and may repeat a key. *)
Inductive json :=
  | JNull
  | JBool (b : bool)
  | JInt (z : Z)
  | JFloat (literal : string)
  | JStr (s : string)
  | JArr (l : list json)
  | JObj (members : list (string * json)).

(** Every string and key of a document through [f]. *)
Fixpoint jmap (f : string -> string) (j : json) : json :=
  match j with
  | JStr s => JStr (f s)
  | JArr l => JArr (map (jmap f) l)
  | JObj ms => JObj (map (fun m => (f m.1, jmap f m.2)) ms)
  | _ => j
  end.

(** ** Marshalling *)

(** Maps are written with their keys sorted. *)
Definition by_key {A} (x y : string * A) : Prop := String.leb x.1 y.1 = true.
#[export] Instance by_key_dec {A} (x y : string * A) : Decision (by_key x y).
Proof. unfold by_key. apply _. Defined.
Definition members {A} (f : A -> json) (l : list (string * A)) : list (string * json) :=
  map (fun kv => (kv.1, f kv.2)) l.
Definition map_members {A} (f : A -> json) (m : gmap string A) : list (string * json) :=
  members f (merge_sort by_key (map_to_list m)).
Definition enc_map (m : gmap string string) : json := JObj (map_members JStr m).
Definition enc_any_map (m : gmap string json) : json := JObj (map_members (fun j => j) m).

(** A member with [omitempty]. *)
Definition omit_empty (key s : string) : list (string * json) :=
  if String.eqb s "" then [] else [(key, JStr s)].

(** ** Decoding

    A decoder takes the document and the variable's old value; it goes on
    after a mismatch and reports the first one. *)
Definition decoder (A : Type) := json -> A -> A * option error.
Definition first_err (e1 e2 : option error) : option error :=
  match e1 with Some _ => e1 | None => e2 end.

(** [json.UnmarshalTypeError] and [json.SyntaxError]; their texts name Go
    types and positions and are not looked at. *)
Definition type_error : error := NewErr "json: cannot unmarshal".
Definition syntax_error : error := NewErr "unexpected end of JSON input".

Definition dec_string : decoder string := fun j s =>
  match j with JNull => (s, None) | JStr t => (t, None) | _ => (s, Some type_error) end.
Definition dec_bool : decoder bool := fun j b =>
  match j with JNull => (b, None) | JBool t => (t, None) | _ => (b, Some type_error) end.
Definition dec_int : decoder Z := fun j n =>
  match j with
  | JNull => (n, None)
  | JInt z => if (- 2 ^ 63 <=? z) && (z <? 2 ^ 63) then (z, None) else (n, Some type_error)
  | _ => (n, Some type_error)
  end.
(** A pointer becomes nil for null, and otherwise points to a new value. *)
Definition dec_ptr {A} (zero : A) (d : decoder A) : decoder (option A) := fun j p =>
  match j with
  | JNull => (None, None)
  | _ => let '(a, e) := d j (default zero p) in (Some a, e)
  end.
(** A variable of type [any] takes the document. *)
Definition dec_any : decoder json := fun j _ => (j, None).

(** A map takes the members in, a mismatch included; null makes it nil. *)
Definition dec_map {A} (zero : A) (d : decoder A) : decoder (gmap string A) := fun j m =>
  match j with
  | JNull => (∅, None)
  | JObj ms =>
      foldl (fun acc kv => let '(a, e) := d kv.2 zero in (<[kv.1 := a]> acc.1, first_err acc.2 e))
        (m, None) ms
  | _ => (m, Some type_error)
  end.

(** A [json.RawMessage] keeps the document, null included. *)
Definition dec_raw : decoder (option json) := fun j _ => (Some j, None).

(** The folding of member names: ASCII case, and the two letters outside
    ASCII that fold into it, U+017F and U+212A. *)
Fixpoint fold_name (s : string) : string :=
  match s with
  | String "197" (String "191" s') => String "S" (fold_name s')
  | String "226" (String "132" (String "170" s')) => String "K" (fold_name s')
  | String a s' => String (upper_ascii a) (fold_name s')
  | "" => ""
  end.

(** The fields of a struct: name, and what a member does to the struct. *)
Definition field (A : Type) : Type := string * decoder A.
Definition via {A B} (get : A -> B) (set : B -> A -> A) (d : decoder B) : decoder A := fun j a =>
  let '(b, e) := d j (get a) in (set b a, e).
Definition find_field {A} (fs : list (field A)) (key : string) : option (decoder A) :=
  match first_some (fun f => if String.eqb f.1 key then Some f.2 else None) fs with
  | Some d => Some d
  | None => first_some (fun f => if String.eqb (fold_name f.1) (fold_name key) then Some f.2 else None) fs
  end.
Definition dec_member {A} (fs : list (field A)) (acc : A * option error) (m : string * json)
    : A * option error :=
  match find_field fs m.1 with
  | None => acc
  | Some d => let '(a, e) := d m.2 acc.1 in (a, first_err acc.2 e)
  end.
Definition dec_struct {A} (fs : list (field A)) : decoder A := fun j a =>
  match j with
  | JNull => (a, None)
  | JObj ms => foldl (dec_member fs) (a, None) ms
  | _ => (a, Some type_error)
  end.

(** A slice takes the elements of an array in order. *)
Definition dec_slice {A} (zero : A) (d : decoder A) : decoder (list A) := fun j l =>
  match j with
  | JNull => ([], None)
  | JArr js =>
      let rs := (fun j => d j zero) <$> js in
      (fst <$> rs, foldl (fun e r => first_err e r.2) None rs)
  | _ => (l, Some type_error)
  end.

(** [json.Unmarshal] of a raw message; an empty one is not JSON. *)
Definition unmarshal_raw {A} (d : decoder A) (raw : option json) (a : A) : A * option error :=
  match raw with None => (a, Some syntax_error) | Some j => d j a end.

(** ** Base64 ([encoding/base64], standard alphabet with padding) *)

Definition b64_char (v : Z) : ascii :=
  ascii_of_N (Z.to_N (if v <? 26 then 65 + v else if v <? 52 then 71 + v else if v <? 62 then v - 4
                      else if v =? 62 then 43 else 47)).
Definition b64_value (a : ascii) : option Z :=
  let c := to_Z a in
  if (65 <=? c) && (c <=? 90) then Some (c - 65)
  else if (97 <=? c) && (c <=? 122) then Some (c - 71)
  else if (48 <=? c) && (c <=? 57) then Some (c + 4)
  else if c =? 43 then Some 62
  else if c =? 47 then Some 63
  else None.

Fixpoint b64_encode (b : bytes) : string :=
  match b with
  | [] => ""
  | [x] =>
      let x := to_Z x in
      String (b64_char (x / 4)) (String (b64_char (x mod 4 * 16)) "==")
  | [x; y] =>
      let x := to_Z x in let y := to_Z y in
      String (b64_char (x / 4)) (String (b64_char (x mod 4 * 16 + y / 16))
        (String (b64_char (y mod 16 * 4)) "="))
  | x :: y :: z :: b' =>
      let x := to_Z x in let y := to_Z y in let z := to_Z z in
      String (b64_char (x / 4)) (String (b64_char (x mod 4 * 16 + y / 16))
        (String (b64_char (y mod 16 * 4 + z / 64)) (String (b64_char (z mod 64)) (b64_encode b'))))
  end.

(** The decoder skips CR and LF, takes quanta of four characters, the last
    one padded, and ignores the bits a padded quantum leaves over. *)
Definition b64_clean (s : string) : list ascii :=
  filter (fun a => a <> "013"%char /\ a <> "010"%char) (String.list_ascii_of_string s).
Definition b64_error : error := NewErr "illegal base64 data".
Fixpoint b64_quanta (cs : list ascii) : option bytes :=
  match cs with
  | [] => Some []
  | c1 :: c2 :: c3 :: c4 :: cs' =>
      match b64_value c1, b64_value c2 with
      | Some v1, Some v2 =>
          match b64_value c3, b64_value c4 with
          | Some v3, Some v4 =>
              (app [byte_of (v1 * 4 + v2 / 16); byte_of (v2 mod 16 * 16 + v3 / 4); byte_of (v3 mod 4 * 64 + v4)])
                <$> b64_quanta cs'
          | Some v3, None =>
              if Ascii.eqb c4 "=" && bool_decide (cs' = [])
              then Some [byte_of (v1 * 4 + v2 / 16); byte_of (v2 mod 16 * 16 + v3 / 4)] else None
          | None, _ =>
              if Ascii.eqb c3 "=" && Ascii.eqb c4 "=" && bool_decide (cs' = [])
              then Some [byte_of (v1 * 4 + v2 / 16)] else None
          end
      | _, _ => None
      end
  | _ => None
  end.
Definition b64_decode (s : string) : result bytes :=
  match b64_quanta (b64_clean s) with Some b => Ok b | None => Err b64_error end.

(** A [[]byte] is decoded from such a string, or from an array of numbers. *)
Definition dec_uint8 : decoder ascii := fun j a =>
  match j with
  | JNull => (a, None)
  | JInt z => if (0 <=? z) && (z <? 256) then (byte_of z, None) else (a, Some type_error)
  | _ => (a, Some type_error)
  end.
Definition enc_bytes (b : bytes) : json := JStr (b64_encode b).
Definition dec_bytes : decoder bytes := fun j b =>
  match j with
  | JStr s => match b64_decode s with Ok b' => (b', None) | Err e => (b, Some e) end
  | _ => dec_slice "000"%char dec_uint8 j b
  end.

(** ** Facts *)

Definition sextets : list Z := Z.of_nat <$> seq 0 64.
Lemma sextet_elem v : 0 <= v < 64 -> v ∈ sextets.
Proof.
  intros Hv. apply list_elem_of_fmap. exists (Z.to_nat v). split; [lia|]. apply elem_of_seq. lia.
Qed.

(** What is decided for each of the 64 values holds for all. *)
Lemma by_sextets (P : Z -> Prop) `{!forall v, Decision (P v)} :
  Forall P sextets -> forall v, 0 <= v < 64 -> P v.
Proof. intros HF v Hv. rewrite Forall_forall in HF. by apply HF, sextet_elem. Qed.

Lemma b64_value_char v : 0 <= v < 64 -> b64_value (b64_char v) = Some v.
Proof. revert v. apply (by_sextets (fun v => b64_value (b64_char v) = Some v)). by_compute. Qed.
Lemma b64_char_clean v :
  0 <= v < 64 -> b64_char v <> "013"%char /\ b64_char v <> "010"%char.
Proof.
  revert v. apply (by_sextets (fun v => b64_char v <> "013"%char /\ b64_char v <> "010"%char)). by_compute.
Qed.

Lemma byte_of_eq v b : v = to_Z b -> byte_of v = b.
Proof. intros ->. apply byte_of_to_Z. Qed.

(** Three bytes from the end at a time. *)
Lemma triples_ind (P : bytes -> Prop) :
  P [] -> (forall x, P [x]) -> (forall x y, P [x; y]) ->
  (forall x y z b, P b -> P (x :: y :: z :: b)) -> forall b, P b.
Proof.
  intros H0 H1 H2 H3 b. enough (P b /\ (forall x, P (x :: b)) /\ (forall x y, P (x :: y :: b))) by tauto.
  induction b as [|x b (IH0 & IH1 & IH2)]; [tauto|]. split_and!; auto.
Qed.

Ltac sextet_lia := pose proof to_Z_range as HR;
  repeat match goal with x : ascii |- _ => pose proof (HR x); revert x end; clear; intros; div_lia.

Lemma b64_clean_cons v s :
  0 <= v < 64 -> b64_clean (String (b64_char v) s) = b64_char v :: b64_clean s.
Proof.
  intros Hv. unfold b64_clean. cbn [String.list_ascii_of_string].
  by rewrite filter_cons_True by (by apply b64_char_clean).
Qed.

(** Base64 round-trips: what a byte slice is marshalled to decodes to it. *)
Lemma b64_roundtrip b : b64_decode (b64_encode b) = Ok b.
Proof.
  unfold b64_decode. enough (b64_quanta (b64_clean (b64_encode b)) = Some b) as -> by done.
  revert b. apply triples_ind.
  - done.
  - intros x. pose proof (to_Z_range x). cbn [b64_encode].
    rewrite !b64_clean_cons by div_lia. cbn [b64_quanta]. rewrite !b64_value_char by div_lia.
    change (b64_clean "==") with ["="%char; "="%char]. cbn [b64_quanta].
    change (b64_value "=") with (@None Z). change (Ascii.eqb "=" "=") with true. cbn [andb].
    rewrite bool_decide_true by done. do 2 f_equal. apply byte_of_eq. div_lia.
  - intros x y. pose proof (to_Z_range x). pose proof (to_Z_range y). cbn [b64_encode].
    rewrite !b64_clean_cons by div_lia. change (b64_clean "=") with ["="%char]. cbn [b64_quanta].
    rewrite !b64_value_char by div_lia.
    change (b64_value "=") with (@None Z). change (Ascii.eqb "=" "=") with true. cbn [andb].
    rewrite bool_decide_true by done.
    rewrite (byte_of_eq _ x), (byte_of_eq _ y) by div_lia. done.
  - intros x y z b IH. pose proof (to_Z_range x). pose proof (to_Z_range y). pose proof (to_Z_range z).
    cbn [b64_encode]. rewrite !b64_clean_cons by div_lia. cbn [b64_quanta].
    rewrite !b64_value_char by div_lia. rewrite IH. cbn.
    rewrite (byte_of_eq _ x), (byte_of_eq _ y), (byte_of_eq _ z) by div_lia. done.
Qed.

(** A [[]byte] that went through JSON comes back, whatever it held. *)
Lemma bytes_roundtrip b old : dec_bytes (enc_bytes b) old = (b, None).
Proof. unfold dec_bytes, enc_bytes. by rewrite b64_roundtrip. Qed.

(** A map goes through JSON: the order of the members does not matter. *)
Lemma dec_map_members {A} (zero : A) (d : decoder A) (f : A -> json) (m : gmap string A) :
  (forall a, d (f a) zero = (a, None)) -> dec_map zero d (JObj (map_members f m)) ∅ = (m, None).
Proof.
  intros Hd. cbn [dec_map]. unfold map_members.
  pose proof (merge_sort_Permutation by_key (map_to_list m)) as Hp.
  set (l := merge_sort by_key (map_to_list m)) in *.
  assert (NoDup l.*1) as Hnd by (rewrite Hp; apply NoDup_fst_map_to_list).
  rewrite <-(list_to_map_to_list m). rewrite <-(list_to_map_proper l) by done.
  clearbody l. clear Hp.
  assert (forall l (acc : gmap string A * option error), NoDup l.*1 ->
    (forall k, k ∈ l.*1 -> acc.1 !! k = None) ->
    foldl (fun acc kv => let '(a, e) := d kv.2 zero in (<[kv.1 := a]> acc.1, first_err acc.2 e)) acc
      (members f l) = (list_to_map l ∪ acc.1, acc.2)) as HF.
  { clear l Hnd. induction l as [|[k a] l IH]; intros acc Hnd Hacc.
    - cbn. rewrite (left_id_L ∅ (∪)). by destruct acc.
    - inversion Hnd as [|? ? Hk Hnd']; subst. cbn [members map foldl fst snd]. fold (members f l). rewrite Hd.
      rewrite IH; [|done|].
      + cbn [fst snd]. f_equal; [|by destruct acc.2]. rewrite list_to_map_cons.
        by rewrite <-insert_union_r, <-insert_union_l by (apply not_elem_of_list_to_map_1; exact Hk).
      + intros k' Hk'. cbn [fst]. rewrite lookup_insert_ne; [by apply Hacc; right|]. intros ->. done. }
  rewrite HF by (done || intros; apply lookup_empty). cbn. by rewrite (right_id_L ∅ (∪)).
Qed.
Lemma dec_enc_map m : dec_map "" dec_string (enc_map m) ∅ = (m, None).
Proof. by apply dec_map_members. Qed.
Lemma dec_enc_any_map m : dec_map JNull dec_any (enc_any_map m) ∅ = (m, None).
Proof. by apply dec_map_members. Qed.

(** What every field of a struct preserves, decoding the struct preserves. *)
Lemma find_field_elem {A} (fs : list (field A)) k d : find_field fs k = Some d -> exists n, (n, d) ∈ fs.
Proof.
  unfold find_field.
  assert (forall p : field A -> bool, first_some (fun f : field A => if p f then Some f.2 else None) fs = Some d -> exists n, (n, d) ∈ fs) as H.
  { intros p Hs. apply first_some_Some in Hs as ([n d'] & Hin & Hp). case_match; [|done].
    injection Hp as ->. by exists n. }
  case_match eqn:E; [|apply H]. intros [= ->]. by apply (H _ E).
Qed.

Lemma dec_struct_inv {A} (P : A -> Prop) (fs : list (field A)) j z :
  (forall n d j a, (n, d) ∈ fs -> P a -> P (d j a).1) -> P z -> P (dec_struct fs j z).1.
Proof.
  intros Hfs Hz. unfold dec_struct. destruct j as [| | | | | |ms]; try done.
  assert (forall acc, P acc.1 -> P (foldl (dec_member fs) acc ms).1) as HF; [|by apply HF].
  induction ms as [|m ms IH]; intros acc Ha; [done|]. cbn [foldl]. apply IH. unfold dec_member.
  destruct (find_field fs m.1) as [d|] eqn:E; [|done]. destruct (find_field_elem _ _ _ E) as [n Hn].
  specialize (Hfs n d m.2 acc.1 Hn Ha). by destruct (d m.2 acc.1).
Qed.

Lemma dec_int_range j n : int64 n -> int64 (dec_int j n).1.
Proof. intros Hn. unfold dec_int. destruct j; try done. case_if; [|done]. bool_to_prop. unfold int64. cbn. lia. Qed.

(** ** Numbers as bytes, for the witnesses that need some injective text *)
Fixpoint bits (p : positive) : bytes :=
  match p with xH => [] | xO p => "0"%char :: bits p | xI p => "1"%char :: bits p end.
Fixpoint of_bits (b : bytes) : positive :=
  match b with
  | [] => xH
  | a :: b => if Ascii.eqb a "0" then xO (of_bits b) else xI (of_bits b)
  end.
Lemma of_bits_bits p : of_bits (bits p) = p.
Proof. induction p as [p IH|p IH|]; cbn; by rewrite ?IH. Qed.
