(* ===== verification/GoWorker.v ===== *)
(** * A Go worker ([src/examples/hello-world/workers/go])

    The worker's side of the protocol: it dials the core, announces itself,
    and then answers heartbeats and requests until the connection ends.  The
    example workers share this code to the letter and differ in their stores
    and handlers, so the main loop is over a store [S] and a [dispatch]; the
    handlers of hello-world are at the end.  The text of JSON documents and
    the formatting of values that are not strings are parameters. *)
From S2P Require Import Prelude GoStrings Ipc Json.
Local Open Scope string_scope.
Local Open Scope list_scope.
Local Open Scope Z_scope.

(** ** Protocol types *)

Definition typeRequest : ascii := byte_of 1.
Definition typeResponse : ascii := byte_of 2.
Definition typeHeartbeat : ascii := byte_of 3.
Definition typeError : ascii := byte_of 4.
Definition typeHandshake : ascii := byte_of 5.

Record frame := mkFrame { Length : Z; MsgType : ascii; Payload : bytes }.

Record capability := mkCapability { c_Path : string; c_Method : string }.
Record handshakePayload := mkHandshake { WorkerID : string; Capabilities : list capability }.

Record request := mkRequest {
  Method : string;
  Path : string;
  Headers : gmap string string;
  Query : gmap string string;
  Params : gmap string string;
  Body : option json;
  Claims : gmap string json;
}.
Definition zero_request : request := mkRequest "" "" ∅ ∅ ∅ None ∅.
Definition set_Params (p : gmap string string) (r : request) : request :=
  mkRequest (Method r) (Path r) (Headers r) (Query r) p (Body r) (Claims r).

Record response := mkResponse {
  StatusCode : Z;
  resp_Headers : gmap string string;
  resp_Body : json;
  CorrelationID : string;
}.

Definition enc_capability (c : capability) : json :=
  JObj [("path", JStr (c_Path c)); ("method", JStr (c_Method c))].
Definition enc_handshake (h : handshakePayload) : json :=
  JObj [("worker_id", JStr (WorkerID h)); ("capabilities", JArr (enc_capability <$> Capabilities h))].
Definition enc_response (r : response) : json :=
  JObj ([("status_code", JInt (StatusCode r)); ("headers", enc_map (resp_Headers r)); ("body", resp_Body r)]
        ++ omit_empty "correlation_id" (CorrelationID r)).

Definition request_fields : list (field request) :=
  [("method", via Method (fun m r => mkRequest m (Path r) (Headers r) (Query r) (Params r) (Body r) (Claims r)) dec_string);
   ("path", via Path (fun p r => mkRequest (Method r) p (Headers r) (Query r) (Params r) (Body r) (Claims r)) dec_string);
   ("headers", via Headers (fun h r => mkRequest (Method r) (Path r) h (Query r) (Params r) (Body r) (Claims r)) (dec_map "" dec_string));
   ("query", via Query (fun q r => mkRequest (Method r) (Path r) (Headers r) q (Params r) (Body r) (Claims r)) (dec_map "" dec_string));
   ("params", via Params set_Params (dec_map "" dec_string));
   ("body", via Body (fun b r => mkRequest (Method r) (Path r) (Headers r) (Query r) (Params r) b (Claims r)) dec_raw);
   ("claims", via Claims (fun c r => mkRequest (Method r) (Path r) (Headers r) (Query r) (Params r) (Body r) c) (dec_map JNull dec_any))].
Definition dec_request : decoder request := dec_struct request_fields.

(** ** Frames *)

Definition writeFrame {W} (conn_Write : bytes -> W -> option error * W) (msgType : ascii) (payload : bytes)
    (w : W) : option error * W :=
  conn_Write (put_uint32 (Z.of_nat (length payload) mod 2 ^ 32) ++ [msgType] ++ payload) w.

(** [n] bytes of the buffer are left to fill; the error is whatever [Read]
    gives at the end of the connection, after bytes or not. *)
Fixpoint readFull (n : nat) (acc : bytes) (conn : reader) : result bytes * reader :=
  match n, conn with
  | O, _ => (Ok acc, conn)
  | _, [] => (Err EOF, [])
  | _, c :: conn' =>
      if decide (n < length c)%nat then (Ok (acc ++ take n c), drop n c :: conn')
      else readFull (n - length c) (acc ++ c) conn'
  end.

Definition readFrame (conn : reader) : result frame * reader :=
  match readFull 5 [] conn with
  | (Ok [b0; b1; b2; b3; t], conn1) =>
      let length := uint32 b0 b1 b2 b3 in
      if 0 <? length then
        match readFull (Z.to_nat length) [] conn1 with
        | (Ok payload, conn2) => (Ok (mkFrame length t payload), conn2)
        | (Err err, conn2) => (Err err, conn2)
        end
      else (Ok (mkFrame length t []), conn1)
  | (Ok _, conn1) => (Err (NewErr "unreachable"), conn1)
  | (Err err, conn1) => (Err err, conn1)
  end.

(** [dialNamedPipe]: the result of the [k]-th attempt is given; the second
    component is the time slept, half a second between attempts. *)
Definition maxAttempts : nat := 20.
Definition retryDelay : Z := second / 2.
Fixpoint dial_attempts {A} (CreateFile : nat -> result A) (attempt left : nat) : result A * Z :=
  match CreateFile attempt with
  | Ok h => (Ok h, 0)
  | Err e =>
      match left with
      | O => (Err e, 0)
      | S left' =>
          let '(r, slept) := dial_attempts CreateFile (S attempt) left' in (r, retryDelay + slept)
      end
  end.
Definition dialNamedPipe {A} (UTF16PtrFromString : string -> option error) (CreateFile : nat -> result A)
    (path : string) : result A * Z :=
  match UTF16PtrFromString path with
  | Some err => (Err (WrapErr "named pipe dial: UTF16PtrFromString: " err ""), 0)
  | None =>
      match dial_attempts CreateFile 1 (maxAttempts - 1) with
      | (Ok h, slept) => (Ok h, slept)
      | (Err err, slept) => (Err (WrapErr "named pipe dial: CreateFile after 20 attempts: " err ""), slept)
      end
  end.

(** [dialSocket]: [goos_windows] is the platform, [dial_unix] the library's
    [net.Dial] for Unix sockets. *)
Definition dialSocket {A} (goos_windows : bool) (UTF16PtrFromString : string -> option error)
    (CreateFile : string -> nat -> result A) (dial_unix : string -> result A) (socketPath : string) : result A :=
  if goos_windows then (dialNamedPipe UTF16PtrFromString (CreateFile socketPath) socketPath).1
  else dial_unix socketPath.

(** ** The main loop *)

Section Worker.
Context {S : Type} (dispatch : request -> S -> response * S).
Context (print : json -> bytes) (parse : bytes -> option json).
Context {W : Type} (conn_Write : bytes -> W -> option error * W).

(** One round: errors of writing are logged or dropped, a request that does
    not parse is skipped, and so is any other frame. *)
Definition on_frame (f : frame) (w : W) (s : S) : W * S :=
  if Ascii.eqb (MsgType f) typeHeartbeat then ((writeFrame conn_Write typeHeartbeat [] w).2, s)
  else if Ascii.eqb (MsgType f) typeRequest then
    match parse (Payload f) with
    | None => (w, s)
    | Some j =>
        match dec_request j zero_request with
        | (_, Some _) => (w, s)
        | (req, None) =>
            let '(resp, s) := dispatch req s in
            ((writeFrame conn_Write typeResponse (print (enc_response resp)) w).2, s)
        end
    end
  else (w, s).

(** The loop ends when a frame cannot be read; [None] when out of fuel. *)
Fixpoint loop (fuel : nat) (conn : reader) (w : W) (s : S) : option (error * W * S) :=
  match fuel with
  | O => None
  | Datatypes.S fuel' =>
      match readFrame conn with
      | (Err e, _) => Some (e, w, s)
      | (Ok f, conn') => let '(w, s) := on_frame f w s in loop fuel' conn' w s
      end
  end.

(** Why the process ends: a fatal error before the loop, or the connection. *)
Inductive exit := Fatal (text : string) | ConnectionClosed (e : error).

Definition main (handshake : handshakePayload) (dial : result (reader * W)) (fuel : nat) (s : S)
    : option (exit * option (W * S)) :=
  match dial with
  | Err err => Some (Fatal ("failed to connect to core: " +:+ err_text err), None)
  | Ok (conn, w) =>
      match writeFrame conn_Write typeHandshake (print (enc_handshake handshake)) w with
      | (Some err, w) => Some (Fatal ("handshake failed: " +:+ err_text err), Some (w, s))
      | (None, w) =>
          match writeFrame conn_Write typeHeartbeat [] w with
          | (Some err, w) => Some (Fatal ("initial heartbeat failed: " +:+ err_text err), Some (w, s))
          | (None, w) =>
              match loop fuel conn w s with
              | None => None
              | Some (e, w, s) => Some (ConnectionClosed e, Some (w, s))
              end
          end
      end
  end.
End Worker.

(** ** The handlers of hello-world *)

Section Hello.
(** [fmt.Sprintf("%v", x)] of a value that is not a string. *)
Context (Sprint_other : json -> string).

Definition Sprint (v : json) : string := match v with JStr s => s | _ => Sprint_other v end.

Definition json_headers : gmap string string := {["Content-Type" := "application/json"]}.
Definition answer (status : Z) (body : json) : response := mkResponse status json_headers body "".
Definition error_body (msg : string) : json := JObj [("error", JStr msg)].

Definition handleHello (req : request) : response :=
  let userID := match Claims req !! "sub" with Some sub => Sprint sub | None => "" end in
  answer 200 (enc_map {["message" := "Hello from the Go worker!"; "user" := userID]}).

Definition greet_fields : list (field string) := [("name", dec_string)].
Definition handleGreet (req : request) : response :=
  match unmarshal_raw (dec_struct greet_fields) (Body req) "" with
  | (_, Some _) => answer 400 (error_body "invalid body")
  | (name, None) =>
      answer 200 (JObj [("message", JStr ("Hello, " +:+ name +:+ "! Greetings from the Go worker."))])
  end.

Definition dispatch (req : request) (s : unit) : response * unit :=
  (if String.eqb (Method req) "GET" && String.eqb (Path req) "/api/hello" then handleHello req
   else if String.eqb (Method req) "POST" && String.eqb (Path req) "/api/greet" then handleGreet req
   else answer 404 (error_body "route not found"), s).

Definition hello_handshake : handshakePayload :=
  mkHandshake "go:api" [mkCapability "/api/hello" "GET"; mkCapability "/api/greet" "POST"].

Definition hello_main {W} (print : json -> bytes) (parse : bytes -> option json)
    (conn_Write : bytes -> W -> option error * W) (dial : result (reader * W)) (fuel : nat) :=
  main dispatch print parse conn_Write hello_handshake dial fuel tt.
End Hello.

(** ** Facts: frames *)

Lemma readFull_read_full n acc r b r' : read_full n acc r = (Ok b, r') <-> readFull n acc r = (Ok b, r').
Proof.
  revert n acc. induction r as [|c r IH]; intros [|n] acc; cbn [read_full readFull]; try done.
  case_decide; [done|]. apply IH.
Qed.

(** The worker reads every frame the core's [Read] would read, as the same
    message, and leaves the connection where [Read] would. *)
Lemma readFrame_Read r m r' :
  Read r = (Ok m, r') ->
  readFrame r = (Ok (mkFrame (Z.of_nat (length (Ipc.Payload m))) (mtype m) (Ipc.Payload m)), r').
Proof.
  unfold Read, readFrame, ReadFull. destruct (read_full headerSize [] r) as [[b|e] r1] eqn:E1; [|done].
  apply readFull_read_full in E1. unfold headerSize in E1. rewrite E1.
  destruct b as [|b0 [|b1 [|b2 [|b3 [|t [|]]]]]]; try done.
  destruct (validateType t); [done|]. destruct (MaxPayloadSize <? _); [done|].
  pose proof (uint32_range b0 b1 b2 b3). destruct (0 <? uint32 b0 b1 b2 b3) eqn:E0; bool_to_prop.
  - destruct (read_full _ [] r1) as [[p|e] r2] eqn:E2; [|done]. intros [= <- <-].
    pose proof (ReadFull_inv _ _ _ _ E2) as [_ Hl]. apply readFull_read_full in E2. rewrite E2.
    cbn [Ipc.Payload mtype]. do 3 f_equal. lia.
  - intros [= <- <-]. cbn [Ipc.Payload mtype length]. do 3 f_equal. lia.
Qed.

Lemma readFrame_frame m r rest :
  sendable m -> concat r = Ipc.frame m ++ rest ->
  exists r', readFrame r = (Ok (mkFrame (Z.of_nat (length (Ipc.Payload m))) (mtype m) (Ipc.Payload m)), r') /\
    concat r' = rest.
Proof.
  intros Hm Hr. destruct (Read_frame _ _ _ Hm Hr) as (r' & HR & ?). exists r'. split; [by apply readFrame_Read|done].
Qed.

(** The core reads a connection that holds frames to its end. *)
Lemma read_n_frames ms r :
  Forall sendable ms -> concat r = concat (Ipc.frame <$> ms) ->
  exists r', read_n (length ms) r = (Ok ms, r') /\ concat r' = [].
Proof.
  intros Hms. revert r. induction Hms as [|m ms Hm Hms IH]; intros r Hr; [by exists r|].
  rewrite fmap_cons in Hr. cbn [concat] in Hr.
  destruct (Read_frame _ _ _ Hm Hr) as (r1 & HR & Hr1). cbn [length read_n]. rewrite HR.
  destruct (IH r1 Hr1) as (r2 & -> & ?). by exists r2.
Qed.

Lemma readFull_ok n acc r b r' :
  readFull n acc r = (Ok b, r') -> (length (concat r') + n = length (concat r))%nat.
Proof.
  intros H. apply readFull_read_full in H.
  pose proof (read_full_spec n acc r) as Hs. rewrite H in Hs. unfold read_full_flat in Hs.
  case_decide; [|done]. injection Hs as _ ->. rewrite length_drop. lia.
Qed.

(** Each frame takes at least its header off the connection. *)
Lemma readFrame_consumes r f r' :
  readFrame r = (Ok f, r') -> (length (concat r') < length (concat r))%nat.
Proof.
  unfold readFrame. destruct (readFull 5 [] r) as [[b|e] r1] eqn:E1; [|done].
  apply readFull_ok in E1. destruct b as [|b0 [|b1 [|b2 [|b3 [|t [|]]]]]]; try done.
  case_if; [|intros [= _ <-]; lia].
  destruct (readFull _ [] r1) as [[p|e] r2] eqn:E2; [|done]. apply readFull_ok in E2.
  intros [= _ <-]. lia.
Qed.

Lemma writeFrame_frame {W} (conn_Write : bytes -> W -> option error * W) t p w :
  Z.of_nat (length p) < 2 ^ 32 -> writeFrame conn_Write t p w = conn_Write (Ipc.frame (mkMessage t p)) w.
Proof.
  intros Hp. unfold writeFrame, Ipc.frame. cbn [Ipc.Payload mtype].
  by rewrite Z.mod_small, Nat2Z.id, firstn_all by lia.
Qed.

(** ** Facts: the main loop *)

Section Loop.
Context {S : Type} (dispatch : request -> S -> response * S).
Context (print : json -> bytes) (parse : bytes -> option json).

(** A connection whose writes succeed, as the bytes written. *)
Definition accepts (b w : bytes) : option error * bytes := (None, w ++ b).

(** What one message is answered with, if anything, and the messages in
    turn: the worker as a function on messages. *)
Definition reply_to (m : Message) (s : S) : option Message * S :=
  if decide (mtype m = TypeHeartbeat) then (Some (mkMessage TypeHeartbeat []), s)
  else if decide (mtype m = TypeRequest) then
    match parse (Ipc.Payload m) with
    | None => (None, s)
    | Some j =>
        match dec_request j zero_request with
        | (_, Some _) => (None, s)
        | (req, None) =>
            let '(resp, s) := dispatch req s in
            (Some (mkMessage TypeResponse (print (enc_response resp))), s)
        end
    end
  else (None, s).
Fixpoint replies (ms : list Message) (s : S) : list Message * S :=
  match ms with
  | [] => ([], s)
  | m :: ms' =>
      let '(a, s) := reply_to m s in
      let '(l, s) := replies ms' s in (option_list a ++ l, s)
  end.

Lemma type_eqb t : Ascii.eqb t typeHeartbeat = bool_decide (t = TypeHeartbeat) /\
  Ascii.eqb t typeRequest = bool_decide (t = TypeRequest).
Proof.
  split; symmetry; [destruct (Ascii.eqb_spec t typeHeartbeat) as [Hx|Hx]|destruct (Ascii.eqb_spec t typeRequest) as [Hx|Hx]];
    ((by apply bool_decide_eq_true) || (by apply bool_decide_eq_false)).
Qed.

Lemma on_frame_reply m w s :
  (forall a, (reply_to m s).1 = Some a -> sendable a) ->
  on_frame dispatch print parse accepts
    (mkFrame (Z.of_nat (length (Ipc.Payload m))) (mtype m) (Ipc.Payload m)) w s
  = (w ++ concat (Ipc.frame <$> option_list (reply_to m s).1), (reply_to m s).2).
Proof.
  intros Ha. unfold on_frame, reply_to in *. cbn [MsgType Payload]. destruct (type_eqb (mtype m)) as [-> ->].
  assert (forall t p, sendable (mkMessage t p) -> Z.of_nat (length p) < 2 ^ 32) as Hs.
  { intros t p [_ Hp]. change MaxPayloadSize with 16777216 in Hp. simpl in Hp. lia. }
  destruct (decide (mtype m = TypeHeartbeat)) as [->|Hh].
  - rewrite bool_decide_true by done. rewrite writeFrame_frame by (simpl; lia). cbn.
    by rewrite app_nil_r.
  - rewrite bool_decide_false by done. destruct (decide (mtype m = TypeRequest)) as [->|Hr].
    + rewrite bool_decide_true by done. destruct (parse (Ipc.Payload m)) as [j|]; [|by cbn; rewrite app_nil_r].
      destruct (dec_request j zero_request) as [req [e|]]; [by cbn; rewrite app_nil_r|].
      destruct (dispatch req s) as [resp s'].
      rewrite writeFrame_frame by (eapply Hs, (Ha _ eq_refl)). cbn [accepts fst snd option_list].
      f_equal. f_equal. cbn. by rewrite app_nil_r.
    + rewrite bool_decide_false by done. cbn. by rewrite app_nil_r.
Qed.

Lemma reply_to_type m s a : (reply_to m s).1 = Some a -> validateType (mtype a) = None.
Proof.
  unfold reply_to. repeat case_decide; [by intros [= <-]| |done].
  destruct (parse _); [|done]. destruct (dec_request _ _) as [req [e|]]; [done|].
  destruct (dispatch req s). by intros [= <-].
Qed.

Lemma loop_replies ms r w s fuel :
  Forall sendable ms -> Forall sendable (replies ms s).1 ->
  concat r = concat (Ipc.frame <$> ms) -> (length (concat r) < fuel)%nat ->
  loop dispatch print parse accepts fuel r w s
  = Some (EOF, w ++ concat (Ipc.frame <$> (replies ms s).1), (replies ms s).2).
Proof.
  intros Hms. revert r w s fuel. induction Hms as [|m ms Hm Hms IH]; intros r w s fuel Ha Hr Hf.
  - destruct fuel as [|fuel]; [lia|]. cbn [loop].
    assert (readFull 5 [] r = (Err EOF, [])) as HE.
    { cbn in Hr. clear -Hr. induction r as [|c r IH]; [done|]. cbn [concat] in Hr.
      apply app_nil in Hr as [-> Hr]. cbn [readFull]. rewrite decide_False by (simpl; lia). by apply IH. }
    unfold readFrame. rewrite HE. cbn. by rewrite app_nil_r.
  - rewrite fmap_cons in Hr. cbn [concat] in Hr. destruct fuel as [|fuel]; [lia|].
    destruct (readFrame_frame m r _ Hm Hr) as (r' & HF & Hr'). cbn [loop]. rewrite HF.
    pose proof (readFrame_consumes _ _ _ HF) as Hc.
    cbn [replies] in *. pose proof (on_frame_reply m w s) as HO.
    destruct (reply_to m s) as [a s1] eqn:ER. destruct (replies ms s1) as [l s2] eqn:EL.
    cbn [fst snd] in *. apply Forall_app in Ha as [Ha1 Ha2].
    rewrite HO by (intros a' ->; by inversion Ha1). specialize (IH r' (w ++ concat (Ipc.frame <$> option_list a)) s1 fuel).
    rewrite EL in IH. rewrite IH; [|done|done|lia]. cbn. by rewrite fmap_app, concat_app, app_assoc.
Qed.
End Loop.

(** C20: The worker's side of the protocol, from start to end.  Whatever pieces
    the messages of the core arrive in, the worker's process runs until the
    connection ends and then stops; and whatever pieces its output arrives in
    at the core, the core's [Read] finds in it the handshake, one heartbeat,
    and then in the order of the messages one heartbeat for each heartbeat
    and the response of [dispatch] for each request that parses - nothing for
    any other message - and not a byte more. *)
Theorem worker_answers_in_order {S} (dispatch : request -> S -> response * S)
    (print : json -> bytes) (parse : bytes -> option json) (h : handshakePayload) (ms : list Message)
    (conn : reader) (fuel : nat) (s : S) :
  Forall sendable ms -> concat conn = concat (Ipc.frame <$> ms) -> (length (concat conn) < fuel)%nat ->
  let '(answers, s') := replies dispatch print parse ms s in
  let said := mkMessage TypeHandshake (print (enc_handshake h)) :: mkMessage TypeHeartbeat [] :: answers in
  Forall sendable said ->
  exists out, main dispatch print parse accepts h (Ok (conn, [])) fuel s
                = Some (ConnectionClosed EOF, Some (out, s')) /\
    forall r, concat r = out -> exists r', read_n (length said) r = (Ok said, r') /\ concat r' = [].
Proof.
  intros Hms Hc Hf. destruct (replies dispatch print parse ms s) as [answers s'] eqn:ER. intros said Hs.
  exists (concat (Ipc.frame <$> said)). subst said.
  inversion Hs as [|? ? Hh Hs1]; subst. inversion Hs1 as [|? ? Hb Hs2]; subst. split.
  - unfold main. destruct Hh as [_ Hh]. change MaxPayloadSize with 16777216 in Hh. cbn [Ipc.Payload] in Hh.
    rewrite writeFrame_frame by lia. cbn [accepts].
    rewrite writeFrame_frame by (simpl; lia). cbn [accepts].
    pose proof (loop_replies dispatch print parse ms conn
      (([] ++ Ipc.frame (mkMessage TypeHandshake (print (enc_handshake h)))) ++ Ipc.frame (mkMessage TypeHeartbeat []))
      s fuel Hms) as HL.
    rewrite ER in HL. change (mkMessage typeHandshake) with (mkMessage TypeHandshake).
    change (mkMessage typeHeartbeat) with (mkMessage TypeHeartbeat).
    rewrite HL by done. cbn [fst snd]. rewrite !fmap_cons. cbn [concat app]. by rewrite <-app_assoc.
  - intros r Hr. by apply read_n_frames.
Qed.

(** A named pipe is tried twenty times, half a second apart: the dial
    succeeds exactly when one of the first twenty attempts does, and never
    sleeps ten seconds. *)
Lemma dial_attempts_spec {A} (f : nat -> result A) attempt left :
  let '(r, slept) := dial_attempts f attempt left in
  0 <= slept <= Z.of_nat left * retryDelay /\
  match r with
  | Ok h => exists k, (attempt <= k <= attempt + left)%nat /\ f k = Ok h
  | Err _ => forall k h, (attempt <= k <= attempt + left)%nat -> f k <> Ok h
  end.
Proof.
  change retryDelay with 500000000.
  revert attempt. induction left as [|left IH]; intros attempt; cbn [dial_attempts];
    destruct (f attempt) as [h|e] eqn:E.
  1, 3: split; [lia|]; exists attempt; split; [lia|done].
  - split; [lia|]. intros k h Hk. assert (k = attempt) as -> by lia. by rewrite E.
  - specialize (IH (Datatypes.S attempt)). destruct (dial_attempts f _ left) as [r slept].
    destruct IH as [Hs Hr]. change retryDelay with 500000000. split; [lia|]. destruct r as [h|e'].
    + destruct Hr as (k & Hk & ?). exists k. split; [lia|done].
    + intros k h Hk. destruct (decide (k = attempt)) as [->|]; [by rewrite E|]. apply Hr. lia.
Qed.

Lemma dialNamedPipe_bounded {A} (utf16 : string -> option error) (f : nat -> result A) path :
  utf16 path = None ->
  let '(r, slept) := dialNamedPipe utf16 f path in
  0 <= slept < 10 * second /\
  ((exists h, r = Ok h) <-> exists k h, (1 <= k <= 20)%nat /\ f k = Ok h).
Proof.
  intros Hu. unfold dialNamedPipe. rewrite Hu.
  pose proof (dial_attempts_spec f 1 (maxAttempts - 1)) as H. change (maxAttempts - 1)%nat with 19%nat in *.
  change retryDelay with 500000000 in H. change second with 1000000000.
  destruct (dial_attempts f 1 19) as [[h|e] slept]; destruct H as [Hs Hr]; split; try lia.
  - split; [intros _|by eexists]. destruct Hr as (k & Hk & ?). exists k, h. split; [lia|done].
  - split; [by intros [? ?]|]. intros (k & h & Hk & HE). exfalso. apply (Hr k h); [lia|done].
Qed.

(** ** Witnesses *)

(** A text for two documents: the request below and what [print] writes. *)
Definition hello_request : json :=
  JObj [("method", JStr "GET"); ("path", JStr "/api/hello"); ("claims", JObj [("sub", JStr "ann")])].
Definition tiny_print (j : json) : bytes :=
  match j with JObj ((k, _) :: _) => of_string k | _ => [] end.
Definition tiny_parse (b : bytes) : option json :=
  if decide (b = of_string "hello") then Some hello_request else None.
Definition core_messages : list Message :=
  [mkMessage TypeRequest (of_string "hello"); mkMessage TypeHeartbeat []; mkMessage TypeRequest (of_string "?")].

Example hello_answers :
  replies (dispatch (fun _ => "")) (fun j => match j with JObj [_; _; (_, JObj [(_, _); (_, JStr u)])] => of_string u | _ => [] end)
    tiny_parse core_messages tt
  = ([mkMessage TypeResponse (of_string "ann"); mkMessage TypeHeartbeat []], tt).
Proof. vm_compute. reflexivity. Qed.

Lemma worker_answers_in_order_witness :
  exists out, main (dispatch (fun _ => "")) tiny_print tiny_parse accepts hello_handshake
    (Ok ((fun b => [b]) <$> concat (Ipc.frame <$> core_messages), [])) 100 tt
    = Some (ConnectionClosed EOF, Some (out, tt)).
Proof.
  pose proof (worker_answers_in_order (dispatch (fun _ => "")) tiny_print tiny_parse hello_handshake core_messages
    ((fun b => [b]) <$> concat (Ipc.frame <$> core_messages)) 100 tt) as H.
  assert (Forall sendable core_messages) as H1 by by_compute.
  assert (concat ((fun b => [b]) <$> concat (Ipc.frame <$> core_messages)) = concat (Ipc.frame <$> core_messages)) as H2
    by (vm_compute; reflexivity).
  assert (length (concat ((fun b => [b]) <$> concat (Ipc.frame <$> core_messages))) < 100)%nat as H3 by by_compute.
  specialize (H H1 H2 H3).
  assert (replies (dispatch (fun _ => "")) tiny_print tiny_parse core_messages tt
    = ([mkMessage TypeResponse (of_string "status_code"); mkMessage TypeHeartbeat []], tt)) as HR
    by (vm_compute; reflexivity).
  rewrite HR in H. destruct H as (out & Hout & _); [by_compute|]. by exists out.
Defined.
