(* ===== verification/Dashboard.v ===== *)
(** * The dashboard worker ([src/examples/dashboard/workers/go/main.go])

    Users and their settings in memory behind the protocol of [GoWorker]:
    the stores, one function per handler and the path dispatch.  A handler
    holds the mutex while it touches the stores, so it is one atomic step.
    [order] is the order in which the runtime goes over the keys of a map. *)
From S2P Require Import Prelude GoStrings Ipc Json GoWorker.
Local Open Scope string_scope.
Local Open Scope list_scope.
Local Open Scope Z_scope.
Local Open Scope go_scope.

(** ** Types and stores *)

Record user := mkUser { ID : string; Name : string; Email : string; Role : string; Password : string }.
Record settings := mkSettings {
  Theme : string; NotificationsEnabled : bool; Language : string; Timezone : string;
}.
Record userPublic := mkPublic { pub_ID : string; pub_Name : string; pub_Email : string; pub_Role : string }.

Record stores := mkStores {
  users : gmap string user;
  userSettings : gmap string settings;
  nextID : Z;
}.
Definition init : stores :=
  mkStores
    {["1" := mkUser "1" "Admin User" "admin@dashboard.local" "admin" "admin123";
      "2" := mkUser "2" "Regular User" "user@dashboard.local" "user" "password"]}
    {["1" := mkSettings "dark" true "en" "UTC"; "2" := mkSettings "light" false "en" "America/New_York"]}
    3.

Definition toPublic (u : user) : userPublic := mkPublic (ID u) (Name u) (Email u) (Role u).

Definition enc_public (u : userPublic) : json :=
  JObj [("id", JStr (pub_ID u)); ("name", JStr (pub_Name u)); ("email", JStr (pub_Email u)); ("role", JStr (pub_Role u))].
Definition enc_settings (s : settings) : json :=
  JObj [("theme", JStr (Theme s)); ("notifications_enabled", JBool (NotificationsEnabled s));
        ("language", JStr (Language s)); ("timezone", JStr (Timezone s))].

(** The structs the bodies are decoded into. *)
Record loginRequest := mkLogin { Username : string; l_Password : string }.
Definition login_fields : list (field loginRequest) :=
  [("username", via Username (fun u r => mkLogin u (l_Password r)) dec_string);
   ("password", via l_Password (fun p r => mkLogin (Username r) p) dec_string)].
Record userBody := mkUserBody { b_Name : string; b_Email : string; b_Role : string }.
Definition user_fields : list (field userBody) :=
  [("name", via b_Name (fun n r => mkUserBody n (b_Email r) (b_Role r)) dec_string);
   ("email", via b_Email (fun e r => mkUserBody (b_Name r) e (b_Role r)) dec_string);
   ("role", via b_Role (fun x r => mkUserBody (b_Name r) (b_Email r) x) dec_string)].
Record settingsBody := mkSettingsBody {
  s_Theme : option string; s_Notif : option bool; s_Language : option string; s_Timezone : option string;
}.
Definition settings_fields : list (field settingsBody) :=
  [("theme", via s_Theme (fun x r => mkSettingsBody x (s_Notif r) (s_Language r) (s_Timezone r)) (dec_ptr "" dec_string));
   ("notifications_enabled", via s_Notif (fun x r => mkSettingsBody (s_Theme r) x (s_Language r) (s_Timezone r)) (dec_ptr false dec_bool));
   ("language", via s_Language (fun x r => mkSettingsBody (s_Theme r) (s_Notif r) x (s_Timezone r)) (dec_ptr "" dec_string));
   ("timezone", via s_Timezone (fun x r => mkSettingsBody (s_Theme r) (s_Notif r) (s_Language r) x) (dec_ptr "" dec_string))].

#[export] Instance user_eq_dec : EqDecision user.
Proof. solve_decision. Defined.

(** ** Handlers *)

Section Handlers.
Context (Sprint_other : json -> string) (order : gset string -> list string).

Definition range (m : gmap string user) : list user := omap (fun k => m !! k) (order (dom m)).

Definition handler := request -> stores -> response * stores.

Definition handleLogin : handler := fun req s =>
  match unmarshal_raw (dec_struct login_fields) (Body req) (mkLogin "" "") with
  | (_, Some _) => (answer 400 (error_body "invalid request body"), s)
  | (body, None) =>
      match first_some (fun u =>
              if String.eqb (Name u) (Username body) && String.eqb (Password u) (l_Password body)
              then Some u else None) (range (users s)) with
      | None => (answer 401 (error_body "invalid credentials"), s)
      | Some u =>
          (answer 200 (JObj [("token", JStr ("vyx_" +:+ ID u +:+ "_" +:+ Role u)); ("user", enc_public (toPublic u))]), s)
      end
  end.

Definition handleListUsers : handler := fun req s =>
  let userList := (fun u => enc_public (toPublic u)) <$> range (users s) in
  (answer 200 (enc_any_map {["users" := JArr userList; "total" := JInt (Z.of_nat (length userList))]}), s).

(** The guard the four handlers of one user begin with: what is refused, with
    [what] in the message; the caller's role counts only when it is a
    string. *)
Definition string_of_any (v : option json) : string := match v with Some (JStr s) => s | _ => "" end.
Definition guard (what : string) (req : request) : option response :=
  let requestedID := default "" (Params req !! "id") in
  if String.eqb requestedID "" then Some (answer 400 (error_body "missing user id"))
  else match Claims req !! "sub" with
       | None => None
       | Some sub =>
           let callerID := Sprint Sprint_other sub in
           let callerRole := string_of_any (Claims req !! "role") in
           if negb (String.eqb callerID requestedID) && negb (String.eqb callerRole "admin")
           then Some (answer 403 (error_body ("forbidden: you can only " +:+ what)))
           else None
       end.
Definition param_id (req : request) : string := default "" (Params req !! "id").

Definition handleGetUser : handler := fun req s =>
  match guard "access your own profile" req with
  | Some refusal => (refusal, s)
  | None =>
      match users s !! param_id req with
      | None => (answer 404 (error_body "user not found"), s)
      | Some u => (answer 200 (enc_public (toPublic u)), s)
      end
  end.

Definition handleCreateUser : handler := fun req s =>
  match unmarshal_raw (dec_struct user_fields) (Body req) (mkUserBody "" "" "") with
  | (_, Some _) => (answer 400 (error_body "invalid request body"), s)
  | (body, None) =>
      let role := if String.eqb (b_Role body) "" then "user" else b_Role body in
      let id := pretty (nextID s) in
      let u := mkUser id (b_Name body) (b_Email body) role "password" in
      (answer 201 (enc_public (toPublic u)),
       mkStores (<[id := u]> (users s)) (<[id := mkSettings "system" true "en" "UTC"]> (userSettings s))
         (nextID s +64 1))
  end.

Definition if_set (new old : string) : string := if String.eqb new "" then old else new.
Definition handleUpdateUser : handler := fun req s =>
  match guard "update your own profile" req with
  | Some refusal => (refusal, s)
  | None =>
      match unmarshal_raw (dec_struct user_fields) (Body req) (mkUserBody "" "" "") with
      | (_, Some _) => (answer 400 (error_body "invalid request body"), s)
      | (body, None) =>
          match users s !! param_id req with
          | None => (answer 404 (error_body "user not found"), s)
          | Some u =>
              let u := mkUser (ID u) (if_set (b_Name body) (Name u)) (if_set (b_Email body) (Email u))
                         (if_set (b_Role body) (Role u)) (Password u) in
              (answer 200 (enc_public (toPublic u)),
               mkStores (<[param_id req := u]> (users s)) (userSettings s) (nextID s))
          end
      end
  end.

Definition handleGetSettings : handler := fun req s =>
  match guard "access your own settings" req with
  | Some refusal => (refusal, s)
  | None =>
      match userSettings s !! param_id req with
      | None => (answer 404 (error_body "settings not found"), s)
      | Some x => (answer 200 (enc_settings x), s)
      end
  end.

Definition handleUpdateSettings : handler := fun req s =>
  match guard "update your own settings" req with
  | Some refusal => (refusal, s)
  | None =>
      match unmarshal_raw (dec_struct settings_fields) (Body req) (mkSettingsBody None None None None) with
      | (_, Some _) => (answer 400 (error_body "invalid request body"), s)
      | (body, None) =>
          match userSettings s !! param_id req with
          | None => (answer 404 (error_body "settings not found"), s)
          | Some x =>
              let x := mkSettings (default (Theme x) (s_Theme body)) (default (NotificationsEnabled x) (s_Notif body))
                         (default (Language x) (s_Language body)) (default (Timezone x) (s_Timezone body)) in
              (answer 200 (enc_settings x),
               mkStores (users s) (<[param_id req := x]> (userSettings s)) (nextID s))
          end
      end
  end.

(** ** Path dispatch *)

Definition not_found (s : stores) : response * stores := (answer 404 (error_body "route not found"), s).
(** The id is the fourth part of the path, when there are four. *)
Definition with_id (path : string) (h : handler) : handler := fun req s =>
  match split_on "/" path with
  | [_; _; _; id] => h (set_Params {["id" := id]} req) s
  | _ => not_found s
  end.

Definition dispatch (req : request) (s : stores) : response * stores :=
  let path := trim_suffix (Path req) "/" in
  let path := if String.eqb path "" then "/" else path in
  let of_user := has_prefix path "/api/users/" && (count_char "/" path =? 3)%nat && negb (has_suffix path "/settings") in
  let of_settings := has_suffix path "/settings" && has_prefix path "/api/users/" in
  let method m := String.eqb (Method req) m in
  if method "POST" && String.eqb path "/api/auth/login" then handleLogin req s
  else if method "GET" && String.eqb path "/api/users" then handleListUsers req s
  else if method "GET" && of_user then with_id path handleGetUser req s
  else if method "POST" && String.eqb path "/api/users" then handleCreateUser req s
  else if method "PUT" && of_user then with_id path handleUpdateUser req s
  else if method "GET" && of_settings then with_id (trim_suffix path "/settings") handleGetSettings req s
  else if method "PUT" && of_settings then with_id (trim_suffix path "/settings") handleUpdateSettings req s
  else not_found s.

(** ** The process *)

Definition dashboard_handshake : handshakePayload :=
  mkHandshake "go:api" [
     mkCapability "/api/auth/login" "POST";
     mkCapability "/api/users" "GET";
     mkCapability "/api/users/:id" "GET";
     mkCapability "/api/users" "POST";
     mkCapability "/api/users/:id" "PUT";
     mkCapability "/api/users/:id/settings" "GET";
     mkCapability "/api/users/:id/settings" "PUT"].
Definition main {W} (print : json -> bytes) (parse : bytes -> option json)
    (conn_Write : bytes -> W -> option error * W) (dial : result (reader * W)) (fuel : nat) (s : stores) :=
  GoWorker.main dispatch print parse conn_Write dashboard_handshake dial fuel s.
End Handlers.

(** ** Facts: where a path leads *)

Lemma has_suffix_spec s suf : has_suffix s suf = true -> exists pre, s = pre +:+ suf.
Proof.
  induction s as [|a s IH]; cbn [has_suffix]; intros [H|H]%orb_true_iff.
  - bool_to_prop. subst. by exists "".
  - done.
  - apply String.eqb_eq in H as ->. by exists "".
  - destruct (IH H) as [pre ->]. by exists (String a pre).
Qed.

Lemma has_prefix_app pre s : has_prefix (pre +:+ s) pre = true.
Proof.
  unfold has_prefix. induction pre as [|a pre IH]; [by destruct s|]. rewrite string_app_cons. cbn [String.prefix].
  by destruct (ascii_dec a a).
Qed.

(** An id as the paths carry it. *)
Definition path_id (id : string) : Prop := free_of "/" id = true /\ id <> "" /\ id <> "settings".

Lemma split_user_path id : free_of "/" id = true ->
  split_on "/" ("/api/users/" +:+ id) = [""; "api"; "users"; id].
Proof.
  intros Hid. change ("/api/users/" +:+ id) with ("/api/users" +:+ String "/" id).
  by rewrite split_on_app_sep, (split_on_free "/" id) by done.
Qed.

Lemma has_suffix_app s suf : has_suffix (s +:+ suf) suf = true.
Proof.
  induction s as [|a s IH]; cbn [has_suffix].
  - change ("" +:+ suf) with suf. destruct suf; cbn [has_suffix]; by rewrite String.eqb_refl.
  - rewrite string_app_cons. cbn [has_suffix]. rewrite IH. apply orb_true_r.
Qed.
Lemma take_str_len s t : take_str (String.length s) (s +:+ t) = s.
Proof. induction s as [|a s IH]; [by destruct t|]. rewrite string_app_cons. cbn. by rewrite IH. Qed.
Lemma trim_suffix_app s suf : trim_suffix (s +:+ suf) suf = s.
Proof.
  unfold trim_suffix. rewrite has_suffix_app, length_app_str, Nat.add_sub. apply take_str_len.
Qed.
Lemma trim_suffix_none s suf : (forall pre, s <> pre +:+ suf) -> trim_suffix s suf = s.
Proof.
  intros H. unfold trim_suffix. destruct (has_suffix s suf) eqn:E; [|done].
  apply has_suffix_spec in E as [pre E]. by destruct (H pre).
Qed.

(** The last part of a path that ends in "/" and a word without one. *)
Lemma split_on_last c s w : free_of c w = true -> last (split_on c (s +:+ String c w)) = Some w.
Proof. intros Hw. by rewrite split_on_app_sep, (split_on_free c w), last_snoc by done. Qed.

Section Paths.
Context (id : string) (Hid : path_id id).
Let path := "/api/users/" +:+ id.

Lemma user_path_last pre w : free_of "/" w = true -> path = pre +:+ String "/" w -> w = id.
Proof.
  destruct Hid as (Hf & _ & _). intros Hw Hp. apply (f_equal (fun s => last (split_on "/" s))) in Hp.
  unfold path in Hp. rewrite split_user_path, split_on_last in Hp by done. by injection Hp.
Qed.
Lemma user_path_no_slash pre : path <> pre +:+ "/".
Proof. intros Hp. apply (user_path_last pre "") in Hp; [|done]. destruct Hid as (_ & H & _). by destruct H. Qed.
Lemma user_path_not_settings pre : path <> pre +:+ "/settings".
Proof. intros Hp. apply (user_path_last pre "settings") in Hp; [|done]. destruct Hid as (_ & _ & H). by destruct H. Qed.

Lemma user_path_shape :
  trim_suffix path "/" = path /\ String.eqb path "" = false /\ has_prefix path "/api/users/" = true /\
  count_char "/" path = 3%nat /\ has_suffix path "/settings" = false /\ split_on "/" path = [""; "api"; "users"; id] /\
  String.eqb path "/api/users" = false /\ String.eqb path "/api/auth/login" = false.
Proof.
  destruct Hid as (Hf & _ & _). split_and!; try done.
  - apply trim_suffix_none, user_path_no_slash.
  - unfold path. by destruct id.
  - unfold count_char, path. by rewrite split_user_path.
  - destruct (has_suffix path "/settings") eqn:E; [|done].
    apply has_suffix_spec in E as [pre E]. by apply user_path_not_settings in E.
  - by apply split_user_path.
Qed.
End Paths.

Section Routes.
Context (Sprint_other : json -> string) (order : gset string -> list string).
Notation worker := (dispatch Sprint_other order).

(** The two paths of one user lead to the four handlers, with the id among
    the parameters whatever the core has sent there. *)
Lemma dispatch_user (id : string) (req : request) (s : stores) :
  path_id id -> Path req = "/api/users/" +:+ id ->
  worker req s =
    (if String.eqb (Method req) "GET" then handleGetUser Sprint_other (set_Params {["id" := id]} req) s
     else if String.eqb (Method req) "PUT" then handleUpdateUser Sprint_other (set_Params {["id" := id]} req) s
     else not_found s).
Proof.
  intros Hid Hp. destruct (user_path_shape id Hid) as (H1 & H2 & H3 & H4 & H5 & H6 & H7 & H8).
  unfold dispatch. cbv zeta beta. rewrite Hp, H1, H2, H3, H4, H5, H7, H8. cbn [Nat.eqb negb andb].
  unfold with_id. rewrite H6, !andb_false_r, !andb_true_r.
  done.
Qed.
Lemma dispatch_settings (id : string) (req : request) (s : stores) :
  path_id id -> Path req = "/api/users/" +:+ id +:+ "/settings" ->
  worker req s =
    (if String.eqb (Method req) "GET" then handleGetSettings Sprint_other (set_Params {["id" := id]} req) s
     else if String.eqb (Method req) "PUT" then handleUpdateSettings Sprint_other (set_Params {["id" := id]} req) s
     else not_found s).
Proof.
  intros Hid Hp. set (path := "/api/users/" +:+ id +:+ "/settings") in *.
  assert (path = ("/api/users/" +:+ id) +:+ "/settings") as Hps by (unfold path; by rewrite string_app_assoc).
  destruct Hid as (Hf & Hne & _).
  assert (split_on "/" path = [""; "api"; "users"; id; "settings"]) as Hsplit.
  { rewrite Hps. change ("/settings") with (String "/" "settings").
    by rewrite split_on_app_sep, split_user_path by done. }
  assert (trim_suffix path "/" = path) as Ht.
  { apply trim_suffix_none. intros pre E. change (path = pre +:+ String "/" "") in E.
    apply (f_equal (fun s => last (split_on "/" s))) in E. rewrite split_on_last, Hsplit in E by done. discriminate E. }
  assert (count_char "/" path = 4%nat) as Hc by (unfold count_char; by rewrite Hsplit).
  assert (has_suffix path "/settings" = true) as Hsuf by (rewrite Hps; apply has_suffix_app).
  assert (has_prefix path "/api/users/" = true) as Hpre by (rewrite Hps, string_app_assoc; apply has_prefix_app).
  assert (trim_suffix path "/settings" = "/api/users/" +:+ id) as Htr by (rewrite Hps; apply trim_suffix_app).
  assert (String.eqb path "" = false /\ String.eqb path "/api/users" = false /\ String.eqb path "/api/auth/login" = false)
    as (H1 & H2 & H3) by done.
  unfold dispatch. cbv zeta beta. rewrite Hp, Ht, H1, H2, H3, Hc, Hsuf, Hpre, Htr. cbn [Nat.eqb negb andb].
  unfold with_id. rewrite split_user_path, !andb_false_r, !andb_true_r by done.
  done.
Qed.
End Routes.

(** ** Theorems *)

Section Theorems.
Context (Sprint_other : json -> string) (order : gset string -> list string).
Notation worker := (dispatch Sprint_other order).

Lemma guard_refuses what req sub :
  Claims req !! "sub" = Some sub -> Sprint Sprint_other sub <> param_id req ->
  string_of_any (Claims req !! "role") <> "admin" ->
  exists refusal, guard Sprint_other what req = Some refusal /\ StatusCode refusal ∈ [400; 403].
Proof.
  intros Hs Hid Hr. unfold guard. fold (param_id req). destruct (String.eqb (param_id req) "").
  - eexists. split; [done|]. by_compute.
  - rewrite Hs, (proj2 (String.eqb_neq _ _) Hid), (proj2 (String.eqb_neq _ _) Hr). eexists. split; [done|]. by_compute.
Qed.

(** C40: The paths of one user are his own.  When the claims name a subject
    other than [id] and no role "admin", then no request to the two paths
    "/api/users/<id>" and "/api/users/<id>/settings", whatever its method and
    body, changes anything in the stores; it is refused, and the refusal is
    the same whatever the stores hold.  The other paths have no such guard:
    the list of all users is shown to whoever asks the worker for it
    ([list_shows_everybody]; in the route map the gateway keeps it for
    administrators). *)
Theorem only_owner_or_admin (req : request) (id : string) (sub : json) (s : stores) :
  path_id id ->
  Path req = "/api/users/" +:+ id \/ Path req = "/api/users/" +:+ id +:+ "/settings" ->
  Claims req !! "sub" = Some sub -> Sprint Sprint_other sub <> id ->
  string_of_any (Claims req !! "role") <> "admin" ->
  (worker req s).2 = s /\ StatusCode (worker req s).1 ∈ [400; 403; 404] /\
  forall s', (worker req s').1 = (worker req s).1.
Proof.
  intros Hid Hp Hs Hsub Hr.
  assert (forall what, exists refusal, guard Sprint_other what (set_Params {["id" := id]} req) = Some refusal /\
    StatusCode refusal ∈ [400; 403]) as HG.
  { intros what. by apply (guard_refuses what (set_Params {["id" := id]} req) sub). }
  assert (forall z, z ∈ [400; 403] -> z ∈ [400; 403; 404]) as Hsub2 by set_solver.
  assert (forall s, exists refusal, worker req s = (refusal, s) /\ StatusCode refusal ∈ [400; 403; 404] /\
    forall s', worker req s' = (refusal, s')) as HW.
  { intros s0. destruct Hp as [Hp|Hp].
    - destruct (HG "access your own profile") as (r1 & E1 & ?), (HG "update your own profile") as (r2 & E2 & ?).
      exists (if String.eqb (Method req) "GET" then r1 else if String.eqb (Method req) "PUT" then r2
              else answer 404 (error_body "route not found")).
      assert (forall s', worker req s' = (if String.eqb (Method req) "GET" then r1 else if String.eqb (Method req) "PUT" then r2
              else answer 404 (error_body "route not found"), s')) as HW.
      { intros s'. rewrite (dispatch_user _ _ id) by done. unfold handleGetUser, handleUpdateUser. rewrite E1, E2.
        by destruct (String.eqb (Method req) "GET"), (String.eqb (Method req) "PUT"). }
      split_and!; [apply HW| |exact HW]. repeat case_if; auto. by_compute.
    - destruct (HG "access your own settings") as (r1 & E1 & ?), (HG "update your own settings") as (r2 & E2 & ?).
      exists (if String.eqb (Method req) "GET" then r1 else if String.eqb (Method req) "PUT" then r2
              else answer 404 (error_body "route not found")).
      assert (forall s', worker req s' = (if String.eqb (Method req) "GET" then r1 else if String.eqb (Method req) "PUT" then r2
              else answer 404 (error_body "route not found"), s')) as HW.
      { intros s'. rewrite (dispatch_settings _ _ id) by done. unfold handleGetSettings, handleUpdateSettings. rewrite E1, E2.
        by destruct (String.eqb (Method req) "GET"), (String.eqb (Method req) "PUT"). }
      split_and!; [apply HW| |exact HW]. repeat case_if; auto. by_compute. }
  destruct (HW s) as (r & -> & Hst & Hall). cbn [fst snd]. split_and!; try done. intros s'. by rewrite Hall.
Qed.

(** Two stores a caller may not be able to tell apart: the same but for
    passwords. *)
Definition same_but_passwords (s1 s2 : stores) : Prop :=
  toPublic <$> users s1 = toPublic <$> users s2 /\ userSettings s1 = userSettings s2 /\ nextID s1 = nextID s2.

Lemma range_public m1 m2 :
  toPublic <$> m1 = toPublic <$> m2 ->
  (fun u => enc_public (toPublic u)) <$> range order m1 = (fun u => enc_public (toPublic u)) <$> range order m2.
Proof.
  intros Hm. unfold range.
  assert (dom m1 = dom m2) as -> by (by rewrite <-(dom_fmap_L toPublic m1), Hm, dom_fmap_L).
  induction (order (dom m2)) as [|k l IH]; [done|].
  apply (f_equal (fun m => m !! k)) in Hm. rewrite !lookup_fmap in Hm. cbn [omap list_omap].
  destruct (m1 !! k) as [u1|], (m2 !! k) as [u2|]; try discriminate Hm; [|exact IH]. rewrite !fmap_cons.
  rewrite IH. f_equal. f_equal. injection Hm. intros. unfold toPublic. congruence.
Qed.

Lemma lookup_public (m1 m2 : gmap string user) k :
  toPublic <$> m1 = toPublic <$> m2 -> toPublic <$> m1 !! k = toPublic <$> m2 !! k.
Proof. intros Hm. apply (f_equal (fun m => m !! k)) in Hm. by rewrite !lookup_fmap in Hm. Qed.

Definition indistinguishable (h : handler) : Prop := forall req s1 s2,
  same_but_passwords s1 s2 ->
  (h req s1).1 = (h req s2).1 /\ same_but_passwords (h req s1).2 (h req s2).2.

Lemma list_indistinguishable : indistinguishable (handleListUsers order).
Proof. intros req s1 s2 (Hu & Hs & Hn). unfold handleListUsers. cbn [fst snd]. by rewrite (range_public _ _ Hu). Qed.
Lemma get_indistinguishable : indistinguishable (handleGetUser Sprint_other).
Proof.
  intros req s1 s2 (Hu & Hs & Hn). unfold handleGetUser. destruct (guard _ _ _); [done|].
  pose proof (lookup_public _ _ (param_id req) Hu) as Hl.
  destruct (users s1 !! _) as [u1|], (users s2 !! _) as [u2|]; try discriminate Hl; [|done].
  injection Hl. intros. cbn [fst snd]. unfold toPublic. split; [congruence|done].
Qed.
Lemma create_indistinguishable : indistinguishable handleCreateUser.
Proof.
  intros req s1 s2 (Hu & Hs & Hn). unfold handleCreateUser.
  destruct (unmarshal_raw _ _ _) as [body [e|]]; [done|]. rewrite Hn, Hs. cbn [fst snd].
  split; [done|]. unfold same_but_passwords. cbn [users userSettings nextID]. by rewrite !fmap_insert, Hu.
Qed.
Lemma update_indistinguishable : indistinguishable (handleUpdateUser Sprint_other).
Proof.
  intros req s1 s2 (Hu & Hs & Hn). unfold handleUpdateUser. destruct (guard _ _ _); [done|].
  destruct (unmarshal_raw _ _ _) as [body [e|]]; [done|].
  pose proof (lookup_public _ _ (param_id req) Hu) as Hl.
  destruct (users s1 !! _) as [u1|], (users s2 !! _) as [u2|]; try discriminate Hl; [|done].
  destruct u1, u2. cbn in Hl. simplify_eq. cbn [fst snd]. split; [done|].
  unfold same_but_passwords. cbn [users userSettings nextID]. by rewrite !fmap_insert, Hu.
Qed.
Lemma get_settings_indistinguishable : indistinguishable (handleGetSettings Sprint_other).
Proof.
  intros req s1 s2 (Hu & Hs & Hn). unfold handleGetSettings. rewrite Hs. destruct (guard _ _ _); [done|].
  by destruct (userSettings s2 !! _).
Qed.
Lemma update_settings_indistinguishable : indistinguishable (handleUpdateSettings Sprint_other).
Proof.
  intros req s1 s2 (Hu & Hs & Hn). unfold handleUpdateSettings. rewrite Hs. destruct (guard _ _ _); [done|].
  destruct (unmarshal_raw _ _ _) as [body [e|]]; [done|]. by destruct (userSettings s2 !! _).
Qed.
Lemma with_id_indistinguishable path h : indistinguishable h -> indistinguishable (with_id path h).
Proof.
  intros Hh req s1 s2 Hs. unfold with_id.
  destruct (split_on "/" path) as [|? [|? [|? [|? [|]]]]]; try done. by apply Hh.
Qed.

(** Passwords do not get out.  Take two dashboards that differ in nothing
    but the passwords of their users and give them the same requests, logins
    excepted: all the answers are equal, so no sequence of requests tells a
    caller anything about a password but whether a login with it succeeds. *)
Theorem passwords_do_not_leak (reqs : list request) (s1 s2 : stores) :
  same_but_passwords s1 s2 ->
  Forall (fun req => ~ (Method req = "POST" /\ trim_suffix (Path req) "/" = "/api/auth/login")) reqs ->
  let step acc req := let '(a, s) := worker req acc.2 in (acc.1 ++ [a], s) in
  (foldl step ([], s1) reqs).1 = (foldl step ([], s2) reqs).1 /\
  same_but_passwords (foldl step ([], s1) reqs).2 (foldl step ([], s2) reqs).2.
Proof.
  intros Hs HF step. generalize (@nil response) as l. revert s1 s2 Hs.
  induction HF as [|req reqs Hreq HF IH]; intros s1 s2 Hs l; [done|]. cbn [foldl].
  assert ((worker req s1).1 = (worker req s2).1 /\ same_but_passwords (worker req s1).2 (worker req s2).2) as [Ha Hs'].
  { unfold dispatch. cbv zeta. case_if.
    - exfalso. apply Hreq. bool_to_prop. split; [done|].
      destruct (String.eqb (trim_suffix (Path req) "/") ""); done.
    - case_if; [by apply list_indistinguishable|]. case_if; [by apply with_id_indistinguishable; [apply get_indistinguishable|]|].
      case_if; [by apply create_indistinguishable|].
      case_if; [by apply with_id_indistinguishable; [apply update_indistinguishable|]|].
      case_if; [by apply with_id_indistinguishable; [apply get_settings_indistinguishable|]|].
      case_if; [by apply with_id_indistinguishable; [apply update_settings_indistinguishable|]|done]. }
  unfold step at 2 4 6 8. cbn [fst snd].
  destruct (worker req s1) as [a1 t1], (worker req s2) as [a2 t2]. cbn [fst snd] in *. subst a2. by apply IH.
Qed.
End Theorems.

(** ** The stores stay well formed *)

Record store_ok (s : stores) : Prop := {
  ok_ids : forall k u, users s !! k = Some u -> ID u = k;
  ok_dom : dom (users s) = dom (userSettings s);
  ok_numbered : forall k, k ∈ dom (users s) -> exists n, 1 <= n < nextID s /\ k = pretty n;
}.

(** What a request may do to the accounts: the ones there stay, with their
    ids and passwords. *)
Definition accounts_kept (s s' : stores) : Prop :=
  forall k u, users s !! k = Some u ->
    exists u', users s' !! k = Some u' /\ ID u' = ID u /\ Password u' = Password u.

Definition keeps_store (h : handler) : Prop := forall req s,
  store_ok s -> 1 <= nextID s < 2 ^ 63 - 1 ->
  let s' := (h req s).2 in
  store_ok s' /\ accounts_kept s s' /\ nextID s <= nextID s' <= nextID s + 1.

Lemma unchanged_keeps s : store_ok s -> store_ok s /\ accounts_kept s s /\ nextID s <= nextID s <= nextID s + 1.
Proof. intros Hs. split_and!; [done| |lia..]. intros k u Hk. by exists u. Qed.

Section Stores.
Context (Sprint_other : json -> string) (order : gset string -> list string).

Lemma reads_keep (h : handler) : (forall req s, (h req s).2 = s) -> keeps_store h.
Proof. intros Hh req s Hs Hn s'. subst s'. rewrite Hh. by apply unchanged_keeps. Qed.

Lemma create_keeps : keeps_store handleCreateUser.
Proof.
  intros req s Hs Hn. unfold handleCreateUser.
  destruct (unmarshal_raw _ _ _) as [body [e|]]; [by apply unchanged_keeps|].
  cbn [fst snd]. assert (wrap64 (nextID s + 1) = nextID s + 1) as Hw by (apply wrap64_id; unfold int64; lia).
  assert (users s !! pretty (nextID s) = None) as Hfresh.
  { apply not_elem_of_dom. intros Hd. destruct (ok_numbered s Hs _ Hd) as (n & Hb & Heq).
    apply (inj pretty) in Heq. lia. }
  split; [split|split]; cbn [users userSettings nextID].
  - intros k u Hk. apply lookup_insert_Some in Hk as [[<- <-]|[_ Hk]]; [done|]. by apply (ok_ids s Hs).
  - rewrite !dom_insert_L. by rewrite (ok_dom s Hs).
  - intros k Hk. rewrite dom_insert_L in Hk. rewrite Hw. apply elem_of_union in Hk as [->%elem_of_singleton|Hk].
    + exists (nextID s). split; [lia|done].
    + destruct (ok_numbered s Hs _ Hk) as (n & ? & ->). exists n. split; [lia|done].
  - intros k u Hk. exists u. split; [|done]. cbn. rewrite lookup_insert_ne; [done|]. intros <-. by rewrite Hfresh in Hk.
  - rewrite Hw. lia.
Qed.

Lemma update_keeps : keeps_store (handleUpdateUser Sprint_other).
Proof.
  intros req s Hs Hn. unfold handleUpdateUser. destruct (guard _ _ _); [by apply unchanged_keeps|].
  destruct (unmarshal_raw _ _ _) as [body [e|]]; [by apply unchanged_keeps|].
  destruct (users s !! param_id req) as [u0|] eqn:E0; [|by apply unchanged_keeps]. cbn [fst snd].
  assert (param_id req ∈ dom (users s)) as Hin by (by apply elem_of_dom; eexists).
  split; [split|split]; cbn [users userSettings nextID]; [| | | |lia].
  - intros k u Hk. apply lookup_insert_Some in Hk as [[<- <-]|[_ Hk]]; [|by apply (ok_ids s Hs)].
    cbn [ID]. by apply (ok_ids s Hs).
  - rewrite dom_insert_L, <-(ok_dom s Hs). set_solver.
  - intros k Hk. apply (ok_numbered s Hs). rewrite dom_insert_L in Hk. set_solver.
  - intros k u Hk. destruct (decide (k = param_id req)) as [->|Hne].
    + eexists. cbn. rewrite lookup_insert_eq. split; [done|]. by rewrite E0 in Hk; simplify_eq.
    + exists u. cbn. by rewrite lookup_insert_ne by done.
Qed.

Lemma update_settings_keeps : keeps_store (handleUpdateSettings Sprint_other).
Proof.
  intros req s Hs Hn. unfold handleUpdateSettings. destruct (guard _ _ _); [by apply unchanged_keeps|].
  destruct (unmarshal_raw _ _ _) as [body [e|]]; [by apply unchanged_keeps|].
  destruct (userSettings s !! param_id req) as [x|] eqn:E; [|by apply unchanged_keeps]. cbn [fst snd].
  assert (param_id req ∈ dom (userSettings s)) as Hin by (by apply elem_of_dom; eexists).
  split; [split|split]; cbn [users userSettings nextID]; [| | | |lia].
  - apply (ok_ids s Hs).
  - rewrite dom_insert_L, (ok_dom s Hs). set_solver.
  - apply (ok_numbered s Hs).
  - intros k u Hk. by exists u.
Qed.

Lemma with_id_keeps path h : keeps_store h -> keeps_store (with_id path h).
Proof.
  intros Hh req s Hs Hn. unfold with_id.
  destruct (split_on "/" path) as [|? [|? [|? [|? [|]]]]]; try by apply unchanged_keeps. by apply Hh.
Qed.

Lemma dispatch_keeps : keeps_store (dispatch Sprint_other order).
Proof.
  assert (forall req s, (handleLogin order req s).2 = s) as H1.
  { intros. unfold handleLogin. destruct (unmarshal_raw _ _ _) as [? []]; [done|]. by destruct (first_some _ _). }
  assert (forall req s, (handleGetUser Sprint_other req s).2 = s) as H2.
  { intros. unfold handleGetUser. destruct (guard _ _ _); [done|]. by destruct (users _ !! _). }
  assert (forall req s, (handleGetSettings Sprint_other req s).2 = s) as H3.
  { intros. unfold handleGetSettings. destruct (guard _ _ _); [done|]. by destruct (userSettings _ !! _). }
  intros req s Hs Hn. unfold dispatch. cbv zeta.
  case_if; [by apply (reads_keep _ H1)|]. case_if; [by apply unchanged_keeps|].
  case_if; [by apply with_id_keeps; [apply (reads_keep _ H2)|..]|].
  case_if; [by apply create_keeps|]. case_if; [by apply with_id_keeps; [apply update_keeps|..]|].
  case_if; [by apply with_id_keeps; [apply (reads_keep _ H3)|..]|].
  case_if; [by apply with_id_keeps; [apply update_settings_keeps|..]|]. by apply unchanged_keeps.
Qed.

Lemma first_stores_ok : store_ok init.
Proof.
  split.
  - intros k u Hk. cbn [init users] in Hk. apply lookup_insert_Some in Hk as [[<- <-]|[_ Hk]]; [done|].
    by apply lookup_singleton_Some in Hk as [<- <-].
  - by vm_compute.
  - intros k Hk. cbn [init users] in Hk. rewrite dom_insert_L, dom_singleton_L in Hk.
    apply elem_of_union in Hk as [->%elem_of_singleton| ->%elem_of_singleton]; [exists 1|exists 2]; by_compute.
Qed.

(** No account is lost or taken over.  From the seeded stores, after any
    requests - short of the 2^63 that would make the counter wrap - every
    user has settings and the other way round, each is stored under the id
    it carries, a number below the counter; and every account that was there
    after the first of the requests, however many, is there after all of
    them with the same id and the same password. *)
Theorem accounts_are_never_lost (reqs1 reqs2 : list request) :
  Z.of_nat (length reqs1 + length reqs2) < 2 ^ 63 - 4 ->
  let step s req := (dispatch Sprint_other order req s).2 in
  let s1 := run step reqs1 init in
  let s2 := run step reqs2 s1 in
  store_ok s2 /\ accounts_kept s1 s2.
Proof.
  intros Hl step s1 s2.
  assert (forall reqs s, store_ok s -> 1 <= nextID s -> nextID s + Z.of_nat (length reqs) < 2 ^ 63 - 1 ->
    store_ok (run step reqs s) /\ accounts_kept s (run step reqs s) /\
    nextID s <= nextID (run step reqs s) <= nextID s + Z.of_nat (length reqs)) as HR.
  { induction reqs as [|req reqs IH]; intros s Hs H1 Hn.
    - cbn. split_and!; try lia; [done|]. intros k u Hk. by exists u.
    - cbn [length] in Hn. destruct (dispatch_keeps req s Hs) as (Hs' & Hk & Hb); [lia|].
      change (run step (req :: reqs) s) with (run step reqs (step s req)). fold (step s req) in *.
      destruct (IH (step s req) Hs') as (Hs2 & Hk2 & Hb2); [lia..|]. cbn [length].
      split_and!; [done| |lia..]. intros k u Hu. destruct (Hk k u Hu) as (u1 & Hu1 & ? & ?).
      destruct (Hk2 k u1 Hu1) as (u2 & Hu2 & ? & ?). exists u2. split_and!; [done|congruence..]. }
  destruct (HR reqs1 init first_stores_ok) as (Hs1 & _ & Hb1); [cbn; lia..|].
  destruct (HR reqs2 s1 Hs1) as (Hs2 & Hk & _); change (nextID init) with 3 in Hb1; fold s1 in Hb1; [lia..|].
  by split.
Qed.
End Stores.

(** ** A user makes himself an administrator *)

Section Promotion.
Context (Sprint_other : json -> string) (order : gset string -> list string).
Context (order_perm : forall X, order X ≡ₚ elements X).
Notation worker := (dispatch Sprint_other order).

Lemma range_elem m u : u ∈ range order m <-> exists k, m !! k = Some u.
Proof.
  unfold range. rewrite list_elem_of_omap. split.
  - intros (k & _ & Hk). by exists k.
  - intros [k Hk]. exists k. split; [|done]. rewrite order_perm, elem_of_elements. apply elem_of_dom. by eexists.
Qed.

(** The list has no guard of its own: whatever the claims say, the worker
    shows the public part of every user, his id, name, address and role. *)
Theorem list_shows_everybody (req : request) (s : stores) :
  Method req = "GET" -> Path req = "/api/users" ->
  exists l, worker req s = (answer 200 (enc_any_map {["users" := JArr l; "total" := JInt (Z.of_nat (length l))]}), s) /\
    forall u, (exists k, users s !! k = Some u) -> enc_public (toPublic u) ∈ l.
Proof.
  intros Hm Hp. unfold dispatch. rewrite Hp, Hm. eexists. split; [reflexivity|].
  intros u Hu. apply list_elem_of_fmap. exists u. split; [done|]. by apply range_elem.
Qed.

(** The guard looks at who asks and not at what is asked for: the owner of an
    account may set any field of it, the role included.  A user who puts
    {"role": r} on his own profile has role [r] from then on, keeps his
    password, and his next login is answered with the token of that role. *)
Theorem self_promotion (id r : string) (u : user) (req login : request) (s : stores) :
  path_id id -> users s !! id = Some u -> ID u = id ->
  (forall k v, users s !! k = Some v -> Name v = Name u -> Password v = Password u -> k = id) ->
  Method req = "PUT" -> Path req = "/api/users/" +:+ id -> Claims req !! "sub" = Some (JStr id) ->
  Body req = Some (JObj [("role", JStr r)]) -> r <> "" ->
  Method login = "POST" -> Path login = "/api/auth/login" ->
  Body login = Some (JObj [("username", JStr (Name u)); ("password", JStr (Password u))]) ->
  let promoted := mkUser id (Name u) (Email u) r (Password u) in
  let s' := mkStores (<[id := promoted]> (users s)) (userSettings s) (nextID s) in
  worker req s = (answer 200 (enc_public (toPublic promoted)), s') /\
  worker login s' =
    (answer 200 (JObj [("token", JStr ("vyx_" +:+ id +:+ "_" +:+ r)); ("user", enc_public (toPublic promoted))]), s').
Proof.
  intros Hid Hu HuID Huniq Hm Hp Hc Hb Hr Hm' Hp' Hb' promoted s'. split.
  - rewrite (dispatch_user _ _ id) by done. rewrite Hm. cbn [String.eqb Ascii.eqb Bool.eqb].
    unfold handleUpdateUser, guard, param_id. cbn [Params set_Params Claims Body].
    rewrite lookup_singleton_eq. change (default "" (Some id)) with id. destruct Hid as (_ & Hne & _).
    change (Ascii.eqb "P" "G") with false. cbv iota. change (String.eqb "PUT" "PUT") with true. cbv iota.
    rewrite (proj2 (String.eqb_neq _ _) Hne), Hc. cbn [Sprint]. rewrite String.eqb_refl. cbn [negb andb].
    rewrite Hb.
    assert (unmarshal_raw (dec_struct user_fields) (Some (JObj [("role", JStr r)])) (mkUserBody "" "" "")
      = (mkUserBody "" "" r, None)) as -> by reflexivity.
    rewrite Hu. unfold if_set. cbn [b_Name b_Email b_Role]. rewrite (proj2 (String.eqb_neq _ _) Hr). cbn. by rewrite HuID.
  - unfold dispatch. cbv zeta. rewrite Hp', Hm'.
    assert (trim_suffix "/api/auth/login" "/" = "/api/auth/login") as -> by (vm_compute; reflexivity).
    change (String.eqb "POST" "POST") with true.
    change (String.eqb "/api/auth/login" "") with false. cbv iota. cbn [andb].
    change (String.eqb "/api/auth/login" "/api/auth/login") with true. cbv iota.
    unfold handleLogin. rewrite Hb'.
    assert (unmarshal_raw (dec_struct login_fields)
      (Some (JObj [("username", JStr (Name u)); ("password", JStr (Password u))])) (mkLogin "" "")
      = (mkLogin (Name u) (Password u), None)) as -> by reflexivity.
    cbn [Username l_Password].
    assert (first_some (fun v => if String.eqb (Name v) (Name u) && String.eqb (Password v) (Password u) then Some v else None)
              (range order (users s')) = Some promoted) as ->; [|done].
    destruct (first_some _ _) as [v|] eqn:E.
    + apply first_some_Some in E as (v' & Hv & Hif). case_if; [|done]. injection Hif as ->. bool_to_prop.
      apply range_elem in Hv as [k Hk]. cbn [users s'] in Hk.
      apply lookup_insert_Some in Hk as [[_ Hk]|[Hne Hk]]; [by rewrite Hk|]. destruct Hne. by rewrite (Huniq k v).
    + exfalso. assert (promoted ∈ range order (users s')) as Hin.
      { apply range_elem. exists id. apply lookup_insert_eq. }
      apply list_elem_of_split in Hin as (l1 & l2 & Hl). rewrite Hl, first_some_app in E.
      destruct (first_some _ l1); [done|]. cbn in E. by rewrite !String.eqb_refl in E.
Qed.
End Promotion.

(** ** Witnesses *)

(** The seeded user "2" asks, for himself and for another. *)
Definition by_two (method path : string) (body : option json) : request :=
  mkRequest method path ∅ ∅ ∅ body {["role" := JStr "user"; "sub" := JStr "2"]}.

Lemma path_id_one : path_id "1".
Proof. by split_and!. Qed.
Lemma path_id_two : path_id "2".
Proof. by split_and!. Qed.

Lemma only_owner_or_admin_witness :
  (dispatch (fun _ => "") elements (by_two "PUT" "/api/users/1/settings" None) init).2 = init.
Proof.
  apply (only_owner_or_admin (fun _ => "") elements (by_two "PUT" "/api/users/1/settings" None) "1" (JStr "2") init).
  - exact path_id_one.
  - right. reflexivity.
  - reflexivity.
  - discriminate.
  - discriminate.
Defined.

(** The seeded stores after the passwords were changed. *)
Definition rekeyed : stores :=
  mkStores ((fun u => mkUser (ID u) (Name u) (Email u) (Role u) "s3cret") <$> users init) (userSettings init) (nextID init).

Lemma passwords_do_not_leak_witness :
  let step acc req := let '(a, s) := dispatch (fun _ => "") elements req acc.2 in (acc.1 ++ [a], s) in
  let reqs := [by_two "GET" "/api/users" None; by_two "GET" "/api/users/2" None] in
  (foldl step ([], init) reqs).1 = (foldl step ([], rekeyed) reqs).1.
Proof.
  intros step reqs. apply (passwords_do_not_leak (fun _ => "") elements reqs init rekeyed).
  - split; [|done]. cbn [users rekeyed]. by rewrite <-map_fmap_compose.
  - repeat constructor; intros [[=] _].
Defined.

Lemma accounts_are_never_lost_witness :
  let step s req := (dispatch (fun _ => "") elements req s).2 in
  let s1 := run step [by_two "POST" "/api/users" (Some (JObj [("name", JStr "Ann")]))] init in
  store_ok (run step [by_two "PUT" "/api/users/3" None] s1).
Proof.
  intros step s1. eapply (accounts_are_never_lost (fun _ => "") elements
    [by_two "POST" "/api/users" (Some (JObj [("name", JStr "Ann")]))] [by_two "PUT" "/api/users/3" None]).
  cbn [length]. lia.
Defined.

Lemma self_promotion_witness :
  (dispatch (fun _ => "") elements (by_two "PUT" "/api/users/2" (Some (JObj [("role", JStr "admin")]))) init).1
  = answer 200 (enc_public (mkPublic "2" "Regular User" "user@dashboard.local" "admin")).
Proof.
  set (u := mkUser "2" "Regular User" "user@dashboard.local" "user" "password").
  destruct (self_promotion (fun _ => "") elements (fun X => reflexivity _) "2" "admin" u
    (by_two "PUT" "/api/users/2" (Some (JObj [("role", JStr "admin")])))
    (by_two "POST" "/api/auth/login" (Some (JObj [("username", JStr (Name u)); ("password", JStr (Password u))])))
    init path_id_two) as [-> _]; try reflexivity; [|discriminate].
  intros k v Hk Hn _. cbn [init users] in Hk. apply lookup_insert_Some in Hk as [[<- <-]|[_ Hk]]; [discriminate Hn|].
  apply lookup_singleton_Some in Hk as [<- _]. reflexivity.
Defined.
