(* ===== verification/Ecommerce.v ===== *)
(** * The shop worker ([src/examples/ecommerce/workers/go/main.go])

    Products and carts in memory behind the protocol of [GoWorker].  A
    handler holds the mutex while it touches the stores, so it is one atomic
    step.  Prices are [float64]: their type, the comparison with zero and
    their JSON form are parameters. *)
From S2P Require Import Prelude GoStrings Ipc Json GoWorker.
Local Open Scope string_scope.
Local Open Scope list_scope.
Local Open Scope Z_scope.
Local Open Scope go_scope.

(** ** Path patterns *)

(** The segments of a pattern against those of a path: a segment that begins
    with a colon takes what is there. *)
Fixpoint match_segments (pat path : list string) (params : gmap string string) : option (gmap string string) :=
  match pat, path with
  | p :: pat', s :: path' =>
      if has_prefix p ":" then match_segments pat' path' (<[drop_str 1 p := s]> params)
      else if String.eqb p s then match_segments pat' path' params
      else None
  | _, _ => Some params
  end.
Definition is_slash (a : ascii) : bool := Ascii.eqb a "/".
Definition segments (s : string) : list string := split_on "/" (trim is_slash (trim_right is_slash s)).
Definition matchPattern (path pattern : string) : option (gmap string string) :=
  if (length (segments path) =? length (segments pattern))%nat
  then match_segments (segments pattern) (segments path) ∅
  else None.
Definition matchPatternBool (path pattern : string) : bool :=
  match matchPattern path pattern with Some _ => true | None => false end.

Section Shop.
(** [float64] as far as prices need it. *)
Context (F : Type) (zero : F) (positive_price : F -> bool) (enc_F : F -> json) (dec_F : decoder F).
Context (Sprint_other : json -> string) (order : gset string -> list string).

(** ** Stores *)

Record product := mkProduct {
  ID : string; Name : string; Description : string; Price : F; Category : string; Stock : Z;
}.
Record cartItem := mkItem { ProductID : string; Quantity : Z }.
Definition cart := list cartItem.

Record stores := mkStores {
  products : gmap string product;
  carts : gmap string cart;
  nextProdID : Z;
}.

(** The seeded products, whose prices are given. *)
Definition init (p1 p2 p3 : F) : stores :=
  mkStores
    {["1" := mkProduct "1" "Smartphone" "Latest model smartphone" p1 "electronics" 50;
      "2" := mkProduct "2" "T-Shirt" "Cotton t-shirt" p2 "clothing" 200;
      "3" := mkProduct "3" "Notebook" "Premium notebook" p3 "books" 100]}
    ∅ 4.

Definition omit_zero (key : string) (z : Z) : list (string * json) := if z =? 0 then [] else [(key, JInt z)].
Definition enc_product (p : product) : json :=
  JObj ([("id", JStr (ID p)); ("name", JStr (Name p))] ++ omit_empty "description" (Description p)
        ++ [("price", enc_F (Price p))] ++ omit_empty "category" (Category p) ++ omit_zero "stock" (Stock p)).
Definition enc_item (i : cartItem) : json :=
  JObj [("product_id", JStr (ProductID i)); ("quantity", JInt (Quantity i))].
Definition enc_cart (c : cart) : json := JObj [("items", JArr (enc_item <$> c))].

Definition product_fields : list (field product) :=
  [("id", via ID (fun x p => mkProduct x (Name p) (Description p) (Price p) (Category p) (Stock p)) dec_string);
   ("name", via Name (fun x p => mkProduct (ID p) x (Description p) (Price p) (Category p) (Stock p)) dec_string);
   ("description", via Description (fun x p => mkProduct (ID p) (Name p) x (Price p) (Category p) (Stock p)) dec_string);
   ("price", via Price (fun x p => mkProduct (ID p) (Name p) (Description p) x (Category p) (Stock p)) dec_F);
   ("category", via Category (fun x p => mkProduct (ID p) (Name p) (Description p) (Price p) x (Stock p)) dec_string);
   ("stock", via Stock (fun x p => mkProduct (ID p) (Name p) (Description p) (Price p) (Category p) x) dec_int)].
Definition item_fields : list (field cartItem) :=
  [("product_id", via ProductID (fun x i => mkItem x (Quantity i)) dec_string);
   ("quantity", via Quantity (fun x i => mkItem (ProductID i) x) dec_int)].
Definition zero_product : product := mkProduct "" "" "" zero "" 0.

(** ** Handlers *)

Definition jsonResponse (body : json) : response := answer 200 body.
Definition jsonError (status : Z) (msg : string) : response := answer status (error_body msg).
Definition no_product (id : string) : response := jsonError 404 ("product " +:+ id +:+ " not found").
Definition param_id (req : request) : string := default "" (Params req !! "id").

Definition handler := request -> stores -> response * stores.

Definition handleListProducts : handler := fun _ s =>
  (jsonResponse (JObj [("products", JArr (enc_product <$> omap (fun k => products s !! k) (order (dom (products s)))))]), s).

Definition handleCreateProduct : handler := fun req s =>
  match unmarshal_raw (dec_struct product_fields) (Body req) zero_product with
  | (_, Some _) => (jsonError 400 "invalid product payload", s)
  | (p, None) =>
      let id := pretty (nextProdID s) in
      let p := mkProduct id (Name p) (Description p) (Price p) (Category p) (Stock p) in
      (answer 201 (enc_product p), mkStores (<[id := p]> (products s)) (carts s) (nextProdID s +64 1))
  end.

Definition handleGetProduct : handler := fun req s =>
  match products s !! param_id req with
  | None => (no_product (param_id req), s)
  | Some p => (jsonResponse (enc_product p), s)
  end.

Definition if_set (new old : string) : string := if String.eqb new "" then old else new.
(** The fields of [updates] that count as given. *)
Definition merge (updates existing : product) : product :=
  mkProduct (ID existing) (if_set (Name updates) (Name existing)) (if_set (Description updates) (Description existing))
    (if positive_price (Price updates) then Price updates else Price existing)
    (if_set (Category updates) (Category existing))
    (if 0 <=? Stock updates then Stock updates else Stock existing).
Definition handleUpdateProduct : handler := fun req s =>
  match unmarshal_raw (dec_struct product_fields) (Body req) zero_product with
  | (_, Some _) => (jsonError 400 "invalid product payload", s)
  | (updates, None) =>
      match products s !! param_id req with
      | None => (no_product (param_id req), s)
      | Some existing =>
          let p := merge updates existing in
          (jsonResponse (enc_product p), mkStores (<[param_id req := p]> (products s)) (carts s) (nextProdID s))
      end
  end.

Definition handleDeleteProduct : handler := fun req s =>
  let id := param_id req in
  match products s !! id with
  | None => (no_product id, s)
  | Some _ =>
      (jsonResponse (enc_map {["status" := "deleted"; "id" := id]}),
       mkStores (delete id (products s)) (carts s) (nextProdID s))
  end.

Definition subject (req : request) : string :=
  match Claims req !! "sub" with Some v => Sprint Sprint_other v | None => "" end.

Definition handleGetCart : handler := fun req s =>
  let sub := subject req in
  if String.eqb sub "" then (jsonError 401 "unauthorized", s)
  else match carts s !! sub with
       | Some c => (jsonResponse (enc_cart c), s)
       | None => (jsonResponse (enc_cart []), mkStores (products s) (<[sub := []]> (carts s)) (nextProdID s))
       end.

(** The first item of the product gets the quantity; [None] when there is
    none. *)
Fixpoint add_quantity (item : cartItem) (c : cart) : option cart :=
  match c with
  | [] => None
  | ci :: c' =>
      if String.eqb (ProductID ci) (ProductID item)
      then Some (mkItem (ProductID ci) (Quantity ci +64 Quantity item) :: c')
      else cons ci <$> add_quantity item c'
  end.
Definition handleAddCartItem : handler := fun req s =>
  let sub := subject req in
  if String.eqb sub "" then (jsonError 401 "unauthorized", s)
  else
    match unmarshal_raw (dec_struct item_fields) (Body req) (mkItem "" 0) with
    | (_, Some _) => (jsonError 400 "invalid cart item payload", s)
    | (item, None) =>
        match products s !! ProductID item with
        | None => (no_product (ProductID item), s)
        | Some _ =>
            let c := default [] (carts s !! sub) in
            let c := default (c ++ [item]) (add_quantity item c) in
            (answer 201 (enc_cart c), mkStores (products s) (<[sub := c]> (carts s)) (nextProdID s))
        end
    end.

(** ** Dispatch *)

Definition dispatch (req : request) (s : stores) : response * stores :=
  let method m := String.eqb (Method req) m in
  let one := matchPatternBool (Path req) "/api/products/:id" in
  if method "GET" && String.eqb (Path req) "/api/products" then handleListProducts req s
  else if method "POST" && String.eqb (Path req) "/api/products" then handleCreateProduct req s
  else if method "GET" && one then handleGetProduct req s
  else if method "PUT" && one then handleUpdateProduct req s
  else if method "DELETE" && one then handleDeleteProduct req s
  else if method "GET" && String.eqb (Path req) "/api/cart" then handleGetCart req s
  else if method "POST" && String.eqb (Path req) "/api/cart/items" then handleAddCartItem req s
  else (jsonError 404 "route not found", s).

(** ** The process *)

Definition shop_handshake : handshakePayload :=
  mkHandshake "go:api" [
     mkCapability "/api/products" "GET";
     mkCapability "/api/products" "POST";
     mkCapability "/api/products/:id" "GET";
     mkCapability "/api/products/:id" "PUT";
     mkCapability "/api/products/:id" "DELETE";
     mkCapability "/api/cart" "GET";
     mkCapability "/api/cart/items" "POST"].
Definition main {W} (print : json -> bytes) (parse : bytes -> option json)
    (conn_Write : bytes -> W -> option error * W) (dial : result (reader * W)) (fuel : nat) (s : stores) :=
  GoWorker.main dispatch print parse conn_Write shop_handshake dial fuel s.

(** ** Facts: carts *)

(** The quantity of a product in a cart: that of its first item. *)
Definition quantity (pid : string) (c : cart) : Z :=
  default 0 (first_some (fun ci => if String.eqb (ProductID ci) pid then Some (Quantity ci) else None) c).
Definition add_item (c : cart) (item : cartItem) : cart := default (c ++ [item]) (add_quantity item c).

Lemma add_quantity_ids item c c' : add_quantity item c = Some c' -> ProductID <$> c' = ProductID <$> c.
Proof.
  revert c'. induction c as [|ci c IH]; intros c'; cbn [add_quantity]; [done|]. case_if.
  - by intros [= <-].
  - destruct (add_quantity item c) as [c1|]; [|done]. intros [= <-]. rewrite !fmap_cons. by rewrite (IH c1).
Qed.
Lemma add_quantity_None item c : add_quantity item c = None -> ProductID item ∉ ProductID <$> c.
Proof.
  induction c as [|ci c IH]; cbn [add_quantity]; [intros _; apply not_elem_of_nil|]. case_if; [done|].
  destruct (add_quantity item c); [done|]. intros _. rewrite fmap_cons, not_elem_of_cons. bool_to_prop. auto.
Qed.

(** No product is twice in a cart, and adding adds. *)
Lemma add_item_NoDup c item : NoDup (ProductID <$> c) -> NoDup (ProductID <$> add_item c item).
Proof.
  intros Hc. unfold add_item. destruct (add_quantity item c) as [c'|] eqn:E.
  - cbn. by rewrite (add_quantity_ids _ _ _ E).
  - cbn. rewrite fmap_app. apply NoDup_snoc; [done|]. by apply add_quantity_None.
Qed.

Lemma quantity_absent pid c : pid ∉ ProductID <$> c -> quantity pid c = 0.
Proof.
  unfold quantity. induction c as [|ci c IH]; [done|]. rewrite fmap_cons, not_elem_of_cons. intros [Hne Hc].
  cbn [first_some]. rewrite (proj2 (String.eqb_neq _ _)) by congruence. by apply IH.
Qed.
Lemma quantity_add pid c item :
  int64 (Quantity item) ->
  quantity pid (add_item c item)
  = if String.eqb (ProductID item) pid then quantity pid c +64 Quantity item else quantity pid c.
Proof.
  intros Hq. unfold add_item. destruct (add_quantity item c) as [c'|] eqn:E; cbn [default from_option].
  - revert c' E. induction c as [|ci c IH]; intros c'; cbn [add_quantity]; [done|].
    destruct (String.eqb_spec (ProductID ci) (ProductID item)) as [He|Hne].
    + intros [= <-]. unfold quantity. cbn. rewrite He. by destruct (String.eqb (ProductID item) pid).
    + destruct (add_quantity item c) as [c1|]; [|done]. intros [= <-]. specialize (IH c1 eq_refl).
      unfold quantity in *. cbn in *. destruct (String.eqb_spec (ProductID ci) pid) as [He|]; [|exact IH].
      by rewrite (proj2 (String.eqb_neq (ProductID item) pid)) by congruence.
  - apply add_quantity_None in E. destruct (String.eqb_spec (ProductID item) pid) as [He|Hne].
    + rewrite (quantity_absent pid c) by congruence. rewrite Z.add_0_l, wrap64_id by done.
      unfold quantity. rewrite first_some_app. change (first_some _ c) with
        (first_some (fun ci => if String.eqb (ProductID ci) pid then Some (Quantity ci) else None) c).
      destruct (first_some _ c) eqn:Ef.
      * exfalso. apply E. apply first_some_Some in Ef as (ci & Hin & Hci). case_if; [|done]. bool_to_prop.
        rewrite He, <-Heqb. by apply list_elem_of_fmap_2.
      * cbn. by rewrite He, String.eqb_refl.
    + unfold quantity. rewrite first_some_app. destruct (first_some _ c); [done|]. cbn.
      by rewrite (proj2 (String.eqb_neq _ _) Hne).
Qed.

(** A quantity that was decoded is in range. *)
Lemma decoded_quantity raw item :
  unmarshal_raw (dec_struct item_fields) raw (mkItem "" 0) = (item, None) -> int64 (Quantity item).
Proof.
  destruct raw as [j|]; [|done]. cbn [unmarshal_raw]. intros H.
  enough (int64 (Quantity (dec_struct item_fields j (mkItem "" 0)).1)) by (by rewrite H in *).
  apply (dec_struct_inv (fun i => int64 (Quantity i))); [|unfold int64; cbn; lia].
  intros n d j' a Hin Ha. apply elem_of_cons in Hin as [[= -> ->]|Hin%list_elem_of_singleton].
  - unfold via. by destruct (dec_string j' (ProductID a)).
  - injection Hin as -> ->. unfold via. pose proof (dec_int_range j' (Quantity a) Ha). by destruct (dec_int j' (Quantity a)).
Qed.

Definition cart_of (sub : string) (s : stores) : cart := default [] (carts s !! sub).

(** A request of [sub] to add [item]. *)
Definition adds (sub : string) (s : stores) (req : request) (item : cartItem) : Prop :=
  Method req = "POST" /\ Path req = "/api/cart/items" /\ subject req = sub /\
  unmarshal_raw (dec_struct item_fields) (Body req) (mkItem "" 0) = (item, None) /\
  is_Some (products s !! ProductID item).
Definition total (pid : string) (items : list cartItem) : Z :=
  foldr (fun i n => (if String.eqb (ProductID i) pid then Quantity i else 0) + n) 0 items.

Lemma add_step sub s req item :
  sub <> "" -> adds sub s req item ->
  dispatch req s = (answer 201 (enc_cart (add_item (cart_of sub s) item)),
    mkStores (products s) (<[sub := add_item (cart_of sub s) item]> (carts s)) (nextProdID s)).
Proof.
  intros Hsub (Hm & Hp & Hs & Hb & [p Hprod]). unfold dispatch. cbv zeta. rewrite Hm, Hp.
  repeat match goal with |- context [if ?b then _ else _] => change b with false; cbv iota end.
  change (String.eqb "POST" "POST" && String.eqb "/api/cart/items" "/api/cart/items") with true. cbv iota.
  unfold handleAddCartItem. rewrite Hs, (proj2 (String.eqb_neq _ _) Hsub), Hb, Hprod. done.
Qed.

Lemma wrap64_wrap a b : wrap64 (wrap64 a + b) = wrap64 (a + b).
Proof.
  unfold wrap64. replace ((a + 2 ^ 63) mod 2 ^ 64 - 2 ^ 63 + b + 2 ^ 63) with ((a + 2 ^ 63) mod 2 ^ 64 + b) by lia.
  rewrite Zplus_mod_idemp_l. do 2 f_equal. lia.
Qed.

(** A cart counts.  After any number of requests of one caller to add
    items - all of products the shop has - his cart holds of each product
    the quantity it held before plus the sum of those he added, modulo the
    width of an [int]; no product is in it twice if none was; and the
    products and the carts of everybody else are untouched. *)
Theorem cart_counts (sub : string) (reqs : list request) (items : list cartItem) (s : stores) :
  sub <> "" -> Forall2 (adds sub s) reqs items ->
  let s' := run (fun s req => (dispatch req s).2) reqs s in
  (forall pid, int64 (quantity pid (cart_of sub s)) ->
     quantity pid (cart_of sub s') = wrap64 (quantity pid (cart_of sub s) + total pid items)) /\
  (NoDup (ProductID <$> cart_of sub s) -> NoDup (ProductID <$> cart_of sub s')) /\
  products s' = products s /\ forall other, other <> sub -> carts s' !! other = carts s !! other.
Proof.
  intros Hsub HF s'. subst s'. revert s HF. revert items.
  induction reqs as [|req reqs IH]; intros items s HF.
  - inversion HF; subst. cbn. split_and!; try done. intros pid Hq. by rewrite Z.add_0_r, wrap64_id.
  - inversion HF as [|? item ? items' Ha HF']; subst. pose proof (add_step _ _ _ _ Hsub Ha) as Hd.
    change (run _ (req :: reqs) s) with (run (fun s req => (dispatch req s).2) reqs (dispatch req s).2).
    rewrite Hd. cbn [snd]. set (s1 := mkStores _ _ _).
    assert (Forall2 (adds sub s1) reqs items') as HF1 by exact HF'.
    destruct (IH items' s1 HF1) as (Hq & Hn & Hp & Ho).
    assert (cart_of sub s1 = add_item (cart_of sub s) item) as Hc.
    { unfold cart_of at 1. unfold s1. cbn [carts]. by rewrite lookup_insert_eq. }
    rewrite Hc in Hq, Hn.
    destruct Ha as (_ & _ & _ & Hdec & _). apply decoded_quantity in Hdec.
    split_and!.
    + intros pid Hi. rewrite Hq by (rewrite quantity_add by done; case_if; [apply wrap64_range|done]).
      rewrite quantity_add by done. cbn [total foldr]. fold (total pid items'). case_if.
      * rewrite wrap64_wrap. f_equal. lia.
      * done.
    + intros Hnd. apply Hn. by apply add_item_NoDup.
    + by rewrite Hp.
    + intros other Hne. rewrite Ho by done. unfold s1. cbn [carts]. by rewrite lookup_insert_ne.
Qed.

(** A member sets the stock only when its name folds to that field's. *)
Lemma stock_unset ms (acc : product * option error) :
  Forall (fun m => fold_name m.1 <> "STOCK") ms ->
  Stock (foldl (dec_member product_fields) acc ms).1 = Stock acc.1.
Proof.
  intros Hms. revert acc. induction Hms as [|[k j] ms Hk Hms IH]; intros acc; [done|]. cbn [foldl]. rewrite IH.
  unfold dec_member. cbn [fst snd] in *. destruct (find_field product_fields k) as [d|] eqn:E; [|done].
  assert (d ∈ snd <$> take 5 product_fields) as Hd.
  { assert (k <> "stock") as Hk' by (intros ->; by apply Hk).
    unfold find_field, product_fields in E. cbn [first_some fst snd] in E.
    change (fold_name "stock") with "STOCK" in E.
    rewrite (proj2 (String.eqb_neq "stock" k)), (proj2 (String.eqb_neq "STOCK" (fold_name k))) in E by congruence.
    apply list_elem_of_In. repeat case_match; simplify_eq; simpl; auto 10. }
  unfold product_fields in Hd. cbn in Hd.
  repeat (apply elem_of_cons in Hd as [->|Hd]; [unfold via; by destruct (_ j _)|]). by apply elem_of_nil in Hd.
Qed.

(** An update that does not mention the stock clears it: the zero the
    decoder leaves in the missing field counts as given.  Whatever else the
    body of a PUT sets, if no member is named "stock" (in any case), then the
    product's stock is 0 afterwards. *)
Theorem partial_update_clears_stock (req : request) (s : stores) (existing updates : product) ms :
  products s !! param_id req = Some existing -> Body req = Some (JObj ms) ->
  Forall (fun m => fold_name m.1 <> "STOCK") ms ->
  unmarshal_raw (dec_struct product_fields) (Body req) zero_product = (updates, None) ->
  exists p, (handleUpdateProduct req s).2 = mkStores (<[param_id req := p]> (products s)) (carts s) (nextProdID s) /\
    Stock p = 0 /\ ID p = ID existing.
Proof.
  intros He Hb Hms Hu. unfold handleUpdateProduct. rewrite Hu, He. eexists. split; [done|]. split; [|done].
  rewrite Hb in Hu. cbn [unmarshal_raw dec_struct] in Hu. pose proof (stock_unset ms (zero_product, None) Hms) as Hs.
  rewrite Hu in Hs. cbn in Hs. unfold merge. cbn [Stock]. by rewrite Hs.
Qed.
End Shop.

(** ** Witnesses

    Prices as whole numbers. *)
Definition add_phone (n : Z) : request :=
  mkRequest "POST" "/api/cart/items" ∅ ∅ ∅ (Some (JObj [("product_id", JStr "1"); ("quantity", JInt n)]))
    {["sub" := JStr "ann"]}.

Lemma cart_counts_witness :
  let s := init Z 999 29 49 in
  let s' := run (fun s req => (dispatch Z 0 (Z.ltb 0) JInt dec_int (fun _ => "") elements req s).2) [add_phone 2; add_phone 3] s in
  quantity "1" (cart_of Z "ann" s') = 5.
Proof.
  intros s s'. destruct (cart_counts Z 0 (Z.ltb 0) JInt dec_int (fun _ => "") elements "ann" [add_phone 2; add_phone 3]
    [mkItem "1" 2; mkItem "1" 3] s) as [H _].
  - discriminate.
  - repeat constructor; by eexists.
  - unfold s'. rewrite H; [reflexivity|]. change (int64 0). unfold int64. lia.
Defined.

Definition rename_phone : request :=
  mkRequest "PUT" "/api/products/1" ∅ ∅ {["id" := "1"]} (Some (JObj [("name", JStr "Phone")])) ∅.
Lemma partial_update_clears_stock_witness :
  exists p, products Z (handleUpdateProduct Z 0 (Z.ltb 0) JInt dec_int rename_phone (init Z 999 29 49)).2 !! "1" = Some p /\
    Stock Z p = 0.
Proof.
  destruct (partial_update_clears_stock Z 0 (Z.ltb 0) JInt dec_int rename_phone (init Z 999 29 49)
    (mkProduct Z "1" "Smartphone" "Latest model smartphone" 999 "electronics" 50) (mkProduct Z "" "Phone" "" 0 "" 0)
    [("name", JStr "Phone")]) as (p & -> & Hp & _); try reflexivity.
  - repeat constructor. discriminate.
  - exists p. split; [apply lookup_insert_eq|exact Hp].
Defined.
