(* ===== verification/Landpage.v ===== *)
(** * The landing page worker ([src/examples/landpage/workers/go/main.go])

    Contact messages and newsletter subscriptions in memory behind the
    protocol of [GoWorker].  A handler holds the mutex while it touches the
    stores, so it is one atomic step; [now] is the time as RFC 3339 text. *)
From S2P Require Import Prelude GoStrings Ipc Json GoWorker.
Local Open Scope string_scope.
Local Open Scope list_scope.
Local Open Scope Z_scope.

Definition maxContactEntries : nat := 100.

Record contactEntry := mkContact { c_Name : string; c_Email : string; c_Message : string; c_Subject : string }.
Record newsletterEntry := mkEntry { n_Email : string; n_Name : string }.
Record stores := mkStores { contactMessages : list contactEntry; newsletterEmails : list newsletterEntry }.
Definition init : stores := mkStores [] [].

Definition contact_fields : list (field contactEntry) :=
  [("name", via c_Name (fun x r => mkContact x (c_Email r) (c_Message r) (c_Subject r)) dec_string);
   ("email", via c_Email (fun x r => mkContact (c_Name r) x (c_Message r) (c_Subject r)) dec_string);
   ("message", via c_Message (fun x r => mkContact (c_Name r) (c_Email r) x (c_Subject r)) dec_string);
   ("subject", via c_Subject (fun x r => mkContact (c_Name r) (c_Email r) (c_Message r) x) dec_string)].
Definition entry_fields : list (field newsletterEntry) :=
  [("email", via n_Email (fun x r => mkEntry x (n_Name r)) dec_string);
   ("name", via n_Name (fun x r => mkEntry (n_Email r) x) dec_string)].
Definition enc_entry (e : newsletterEntry) : json :=
  JObj [("email", JStr (n_Email e)); ("name", JStr (n_Name e))].

(** ** Handlers *)

Definition handler := request -> stores -> response * stores.
Definition message_body (msg : string) : json := JObj [("message", JStr msg)].

Definition handleHealth (now : string) : handler := fun _ s =>
  (answer 200 (enc_map {["status" := "ok"; "service" := "landpage"; "timestamp" := now]}), s).

Definition handleContact : handler := fun req s =>
  match unmarshal_raw (dec_struct contact_fields) (Body req) (mkContact "" "" "" "") with
  | (_, Some _) => (answer 400 (error_body "invalid body"), s)
  | (body, None) =>
      if (maxContactEntries <=? length (contactMessages s))%nat
      then (answer 503 (error_body "contact store full, try again later"), s)
      else
        let subject := if String.eqb (c_Subject body) "" then "general" else c_Subject body in
        (answer 200 (message_body "Thank you for your message! We'll get back to you soon."),
         mkStores (contactMessages s ++ [mkContact (c_Name body) (c_Email body) (c_Message body) subject])
           (newsletterEmails s))
  end.

Definition handleNewsletter : handler := fun req s =>
  match unmarshal_raw (dec_struct entry_fields) (Body req) (mkEntry "" "") with
  | (_, Some _) => (answer 400 (error_body "invalid body"), s)
  | (body, None) =>
      if existsb (fun entry => String.eqb (n_Email entry) (n_Email body)) (newsletterEmails s)
      then (answer 200 (message_body "You are already subscribed!"), s)
      else (answer 200 (message_body "Successfully subscribed to the newsletter!"),
            mkStores (contactMessages s) (newsletterEmails s ++ [mkEntry (n_Email body) (n_Name body)]))
  end.

Definition handleListSubscribers : handler := fun _ s =>
  (answer 200 (enc_any_map {["subscribers" := JArr (enc_entry <$> newsletterEmails s);
                             "total" := JInt (Z.of_nat (length (newsletterEmails s)))]}), s).

(** ** Dispatch *)

Definition dispatch (now : string) (req : request) (s : stores) : response * stores :=
  let route_is m path := String.eqb (Method req) m && String.eqb (Path req) path in
  if route_is "GET" "/api/health" then handleHealth now req s
  else if route_is "POST" "/api/contact" then handleContact req s
  else if route_is "POST" "/api/newsletter" then handleNewsletter req s
  else if route_is "GET" "/api/newsletter/subscribers" then handleListSubscribers req s
  else (answer 404 (error_body "route not found"), s).

(** ** The process

    The clock is given as one reading for each request, which only
    [handleHealth] looks at, and the zero time after the last of them. *)

Definition landpage_handshake : handshakePayload :=
  mkHandshake "go:api" [
     mkCapability "/api/health" "GET";
     mkCapability "/api/contact" "POST";
     mkCapability "/api/newsletter" "POST";
     mkCapability "/api/newsletter/subscribers" "GET"].
Definition tick (req : request) (s : list string * stores) : response * (list string * stores) :=
  let '(clock, st) := s in
  let '(resp, st) := dispatch (hd "0001-01-01T00:00:00Z" clock) req st in (resp, (tl clock, st)).
Definition main {W} (print : json -> bytes) (parse : bytes -> option json)
    (conn_Write : bytes -> W -> option error * W) (dial : result (reader * W)) (fuel : nat) (s : list string * stores) :=
  GoWorker.main tick print parse conn_Write landpage_handshake dial fuel s.

(** ** The stores *)

Definition stores_ok (s : stores) : Prop :=
  (length (contactMessages s) <= maxContactEntries)%nat /\ NoDup (n_Email <$> newsletterEmails s).

(** Entries are only ever added. *)
Definition grows (s s' : stores) : Prop :=
  contactMessages s `prefix_of` contactMessages s' /\ newsletterEmails s `prefix_of` newsletterEmails s'.

Lemma dispatch_stores now req s :
  stores_ok s -> let s' := (dispatch now req s).2 in stores_ok s' /\ grows s s'.
Proof.
  intros [Hc Hn]. assert (stores_ok s /\ grows s s) as Hsame by (by split_and!).
  unfold dispatch. cbv zeta. case_if; [done|]. case_if.
  { unfold handleContact. destruct (unmarshal_raw _ _ _) as [body [e|]]; [done|]. case_if; [done|].
    apply Nat.leb_gt in Heqb1. cbn. split; split; cbn [contactMessages newsletterEmails]; try done.
    - rewrite length_app. cbn. lia.
    - by eexists. }
  case_if; [|by case_if].
  unfold handleNewsletter. destruct (unmarshal_raw _ _ _) as [body [e|]]; [done|].
  destruct (existsb _ _) eqn:E; [done|]. cbn. split; split; cbn [contactMessages newsletterEmails]; try done; [|by eexists].
  rewrite fmap_app. apply NoDup_snoc; [done|]. intros (x & Hx & Hin)%list_elem_of_fmap.
  cbn in Hx. apply not_true_iff_false in E. apply E. apply existsb_exists. exists x.
  split; [by apply list_elem_of_In|]. by rewrite Hx, String.eqb_refl.
Qed.

(** What the page keeps.  After any requests, from the start, there are at
    most a hundred contact messages and no address is subscribed twice; what
    was there stays, in order.  And the contact form fills up for good: once
    there are a hundred messages, no later request adds one or makes room,
    and every one of them is answered 503 - or 400 - however long it waits
    before it tries again. *)
Theorem contact_store_fills_for_good (before after : list (string * request)) :
  let step s r := (dispatch r.1 r.2 s).2 in
  let s := run step before init in
  let s' := run step after s in
  stores_ok s /\ stores_ok s' /\ grows s s' /\
  (length (contactMessages s) = maxContactEntries ->
   contactMessages s' = contactMessages s /\
   forall now req, Method req = "POST" -> Path req = "/api/contact" ->
     StatusCode (dispatch now req s').1 ∈ [400; 503]).
Proof.
  intros step s s'.
  assert (forall rs s, stores_ok s -> stores_ok (run step rs s) /\ grows s (run step rs s)) as HR.
  { induction rs as [|r rs IH]; intros t Ht; [by split; [|split]|].
    destruct (dispatch_stores r.1 r.2 t Ht) as [Ht' [Hg1 Hg2]]. fold (step t r) in *.
    destruct (IH _ Ht') as [? [Hg3 Hg4]]. change (run step (r :: rs) t) with (run step rs (step t r)).
    split; [done|]. split; by etransitivity. }
  assert (stores_ok init) as Hi by (split; [cbn; lia|constructor]).
  destruct (HR before init Hi) as [Hs _]. fold s in Hs. destruct (HR after s Hs) as [Hs' [Hg Hg']]. fold s' in Hs', Hg, Hg'.
  split_and!; try done. intros Hfull.
  assert (contactMessages s' = contactMessages s) as Heq.
  { destruct Hg as [k Hk]. destruct Hs' as [Hl _]. rewrite Hk, length_app, Hfull in Hl.
    destruct k; [by rewrite app_nil_r in Hk|cbn [length] in Hl; lia]. }
  split; [done|]. intros now req Hm Hp. unfold dispatch. cbv zeta. rewrite Hm, Hp.
  change (String.eqb "POST" "GET" && _) with false. cbv iota.
  change (String.eqb "POST" "POST" && String.eqb "/api/contact" "/api/contact") with true. cbv iota.
  unfold handleContact. destruct (unmarshal_raw _ _ _) as [body [e|]]; [by_compute|].
  rewrite Heq, Hfull, Nat.leb_refl. by_compute.
Qed.

Example subscribed_once :
  let sub := mkRequest "POST" "/api/newsletter" ∅ ∅ ∅ (Some (JObj [("email", JStr "a@b.c"); ("name", JStr "Ann")])) ∅ in
  run (fun s r => (dispatch "" r s).2) [sub; sub] init = mkStores [] [mkEntry "a@b.c" "Ann"].
Proof. reflexivity. Qed.

(** ** Witness: a hundred messages, and one more. *)
Definition say_hello : string * request :=
  ("", mkRequest "POST" "/api/contact" ∅ ∅ ∅ (Some (JObj [("name", JStr "Ann"); ("message", JStr "hello")])) ∅).
Lemma contact_store_fills_for_good_witness :
  let step s r := (dispatch r.1 r.2 s).2 in
  let s := run step (replicate 100 say_hello) init in
  contactMessages (run step [say_hello] s) = contactMessages s /\
  StatusCode (dispatch "" say_hello.2 (run step [say_hello] s)).1 ∈ [400; 503].
Proof.
  intros step s. destruct (contact_store_fills_for_good (replicate 100 say_hello) [say_hello]) as (_ & _ & _ & H).
  assert (length (contactMessages (run step (replicate 100 say_hello) init)) = 100%nat) as Hl by (vm_compute; reflexivity).
  destruct (H Hl) as [H1 H2]. split; [exact H1|]. apply H2; reflexivity.
Defined.
