(* ===== verification/Drainer.v ===== *)
(** * The drainer ([core/application/lifecycle/drainer.go])

    One [sync.WaitGroup] per worker counts its requests in flight.  The wait
    groups are shared by pointer: [Drain] keeps the one it loaded while
    [Cleanup] drops the entry and a later [Acquire] makes another.  A counter
    that would go below zero panics, as [WaitGroup.Done] does. *)
From S2P Require Import Prelude.
Local Open Scope string_scope.
Local Open Scope list_scope.
Local Open Scope Z_scope.

(** [groups] are the counters of all wait groups ever made, by address. *)
Record WorkerDrainer := mkDrainer {
  groups : list Z;
  inflight : gmap string nat;
  draining : gmap string bool;
}.

Definition NewWorkerDrainer : WorkerDrainer := mkDrainer [] ∅ ∅.

Definition counter (p : nat) (d : WorkerDrainer) : Z := default 0 (groups d !! p).

(** [inflight.LoadOrStore(workerID, &sync.WaitGroup{})]. *)
Definition load_or_store (id : string) (d : WorkerDrainer) : nat * WorkerDrainer :=
  match inflight d !! id with
  | Some p => (p, d)
  | None =>
      (length (groups d), mkDrainer (groups d ++ [0]) (<[id := length (groups d)]> (inflight d)) (draining d))
  end.

(** [wg.Add(n)]. *)
Definition wg_Add (p : nat) (n : Z) (d : WorkerDrainer) : outcome WorkerDrainer :=
  if counter p d + n <? 0 then Panic "sync: negative WaitGroup counter"
  else Ret (mkDrainer (<[p := counter p d + n]> (groups d)) (inflight d) (draining d)).

Definition Acquire (id : string) (d : WorkerDrainer) : outcome WorkerDrainer :=
  let '(p, d) := load_or_store id d in wg_Add p 1 d.

Definition Release (id : string) (d : WorkerDrainer) : outcome WorkerDrainer :=
  match inflight d !! id with
  | None => Ret d
  | Some p => wg_Add p (-1) d
  end.

Definition MarkDraining (id : string) (d : WorkerDrainer) : WorkerDrainer :=
  mkDrainer (groups d) (inflight d) (<[id := true]> (draining d)).

Definition IsDraining (id : string) (d : WorkerDrainer) : bool :=
  match draining d !! id with Some b => b | None => false end.

Definition Cleanup (id : string) (d : WorkerDrainer) : WorkerDrainer :=
  mkDrainer (groups d) (delete id (inflight d)) (delete id (draining d)).

(** ** Calls *)

Inductive Op :=
  | OAcquire (id : string)
  | ORelease (id : string)
  | OMark (id : string)
  | OCleanup (id : string).
#[export] Instance Op_eq_dec : EqDecision Op.
Proof. solve_decision. Defined.

Definition step (d : WorkerDrainer) (op : Op) : outcome WorkerDrainer :=
  match op with
  | OAcquire id => Acquire id d
  | ORelease id => Release id d
  | OMark id => Ret (MarkDraining id d)
  | OCleanup id => Ret (Cleanup id d)
  end.

Fixpoint steps (ops : list Op) (d : WorkerDrainer) : outcome WorkerDrainer :=
  match ops with
  | [] => Ret d
  | op :: ops' => d' ← step d op; steps ops' d'
  end.

(** ** Drain

    [Drain] starts a goroutine that waits on the wait group and closes a
    channel, and selects between that channel and the end of its context.  What
    happens meanwhile, in order: a call of another goroutine; the end of the
    context - the one [Drain] was given, whose end [drainCtx] shares, or the
    timeout of its own; a turn of the waiting goroutine; a turn of the [select],
    [pick] being its choice when both channels are ready. *)
Inductive DrainEvent :=
  | EOp (op : Op)
  | EEnd (e : context_end)
  | EWaiter
  | ESelect (pick : bool).
#[export] Instance DrainEvent_eq_dec : EqDecision DrainEvent.
Proof. solve_decision. Defined.

Definition op_of (ev : DrainEvent) : option Op := match ev with EOp op => Some op | _ => None end.
Definition ops_of (evs : list DrainEvent) : list Op := omap op_of evs.

(** The goroutine: before its [wg.Wait], blocked in it, woken by the call that
    took the counter to zero, past the [close(done)] - or ended by the panic of
    a [Wait] that finds the group counting again when it wakes ("WaitGroup is
    reused before previous Wait has returned"), which [LogPanic] recovers:
    then nobody closes [done]. *)
Inductive Waiter := GStarting | GBlocked | GWoken | GClosed | GPanicked.
#[export] Instance Waiter_eq_dec : EqDecision Waiter.
Proof. solve_decision. Defined.

Definition waiter_turn (p : nat) (d : WorkerDrainer) (g : Waiter) : Waiter :=
  match g with
  | GStarting => if counter p d =? 0 then GClosed else GBlocked
  | GWoken => if counter p d =? 0 then GClosed else GPanicked
  | _ => g
  end.

(** A call that takes the counter to zero releases whoever waits. *)
Definition wake (p : nat) (d : WorkerDrainer) (g : Waiter) : Waiter :=
  match g with
  | GBlocked => if counter p d =? 0 then GWoken else GBlocked
  | _ => g
  end.

(** One evaluation of the [select]; [None] when it blocks. *)
Definition select_turn (pick : bool) (g : Waiter) (over : option context_end) : option (option error) :=
  match bool_decide (g = GClosed), over with
  | true, None => Some None
  | true, Some e => Some (if pick then None else Some (ctx_Err e))
  | false, Some e => Some (Some (ctx_Err e))
  | false, None => None
  end.

(** [over] is how [drainCtx] ended, if it has.  When the agenda ends nothing
    else happens until the timeout: the goroutine has its turn. *)
Fixpoint wait (p : nat) (g : Waiter) (over : option context_end) (agenda : list DrainEvent) (d : WorkerDrainer)
    : outcome (option error * list DrainEvent * WorkerDrainer) :=
  match agenda with
  | [] =>
      match over, waiter_turn p d g with
      | Some e, _ => Ret (Some (ctx_Err e), [], d)
      | None, GClosed => Ret (None, [], d)
      | None, _ => Ret (Some (ctx_Err ContextDeadline), [], d)
      end
  | EOp op :: agenda' => d' ← step d op; wait p (wake p d' g) over agenda' d'
  | EEnd e :: agenda' => wait p g (Some (default e over)) agenda' d
  | EWaiter :: agenda' => wait p (waiter_turn p d g) over agenda' d
  | ESelect pick :: agenda' =>
      match select_turn pick g over with
      | Some err => Ret (err, agenda', d)
      | None => wait p g over agenda' d
      end
  end.

(** A context that is over when [Drain] is called is an agenda that begins
    with its end. *)
Definition Drain (id : string) (agenda : list DrainEvent) (d : WorkerDrainer)
    : outcome (option error * list DrainEvent * WorkerDrainer) :=
  match inflight d !! id with
  | None => Ret (None, agenda, d)
  | Some p => wait p GStarting None agenda d
  end.

(** ** What the counters count *)

(** Requests in flight to [id] as the history has it: a [Cleanup] forgets the
    ones before it, and a [Release] with nothing acquired since is ignored. *)
Definition tally (id : string) (n : option Z) (op : Op) : option Z :=
  match op with
  | OAcquire x => if String.eqb x id then Some (default 0 n + 1) else n
  | ORelease x => if String.eqb x id then (fun k => k - 1) <$> n else n
  | OMark _ => n
  | OCleanup x => if String.eqb x id then None else n
  end.
Definition in_flight (id : string) (ops : list Op) : option Z := foldl (tally id) None ops.

(** The table points at distinct groups, none of them negative. *)
Record drainer_ok (d : WorkerDrainer) : Prop := {
  ok_alloc : forall id p, inflight d !! id = Some p -> (p < length (groups d))%nat;
  ok_inj : forall id id' p, inflight d !! id = Some p -> inflight d !! id' = Some p -> id = id';
  ok_nonneg : forall p, 0 <= counter p d;
}.

Definition count (id : string) (d : WorkerDrainer) : option Z :=
  (fun p => counter p d) <$> inflight d !! id.

Lemma NewWorkerDrainer_ok : drainer_ok NewWorkerDrainer.
Proof. split; simpl; intros *; rewrite ?lookup_empty; try done. Qed.

Lemma wg_Add_ok p n d d' :
  drainer_ok d -> (p < length (groups d))%nat -> wg_Add p n d = Ret d' ->
  drainer_ok d' /\ inflight d' = inflight d /\
  forall q, counter q d' = if decide (q = p) then counter p d + n else counter q d.
Proof.
  intros [Ha Hi Hn] Hp. unfold wg_Add. case_if; [done|]. bool_to_prop. intros [= <-].
  assert (forall q, counter q (mkDrainer (<[p:=counter p d + n]> (groups d)) (inflight d) (draining d))
    = if decide (q = p) then counter p d + n else counter q d) as Hc.
  { intros q. unfold counter; simpl. case_decide; [subst; by rewrite list_lookup_insert_eq|].
    by rewrite list_lookup_insert_ne. }
  split_and!; [|done|done]. split; simpl; [|done|].
  - intros id q. rewrite length_insert. apply Ha.
  - intros q. rewrite Hc. case_decide; [lia|apply Hn].
Qed.

Lemma load_or_store_ok id d p d' :
  drainer_ok d -> load_or_store id d = (p, d') ->
  drainer_ok d' /\ inflight d' = <[id := p]> (inflight d) /\ (p < length (groups d'))%nat /\
  (forall q, counter q d' = counter q d) /\ counter p d = default 0 (count id d).
Proof.
  intros [Ha Hi Hn]. unfold load_or_store, count.
  destruct (inflight d !! id) as [p0|] eqn:E; intros [= <- <-].
  - split_and!; try done; [by rewrite insert_id|eauto].
  - assert (forall q, counter q (mkDrainer (groups d ++ [0]) (<[id:=length (groups d)]> (inflight d)) (draining d))
      = counter q d) as Hc.
    { intros q. unfold counter; simpl. destruct (Nat.lt_trichotomy q (length (groups d))) as [?|[->|?]].
      - by rewrite lookup_app_l.
      - rewrite lookup_app_r, Nat.sub_diag by lia. simpl. by rewrite lookup_ge_None_2.
      - rewrite !lookup_ge_None_2; [done|lia|rewrite length_app; simpl; lia]. }
    split_and!; try done.
    + split; simpl.
      * intros id' q. rewrite length_app; simpl.
        intros [[<- <-]|[? ?%Ha]]%lookup_insert_Some; lia.
      * intros i1 i2 q [[<- <-]|[? H1]]%lookup_insert_Some [[<- Hq]|[? H2]]%lookup_insert_Some;
          [done|apply Ha in H2; lia|apply Ha in H1; lia|eauto].
      * intros q. rewrite Hc. apply Hn.
    + simpl. rewrite length_app; simpl. lia.
    + simpl. unfold counter. by rewrite lookup_ge_None_2.
Qed.

Lemma drainer_step_ok d op d' :
  drainer_ok d -> step d op = Ret d' ->
  drainer_ok d' /\ forall id, count id d' = tally id (count id d) op.
Proof.
  intros Hok Hs. pose proof Hok as [Ha Hi Hn]. destruct op as [x|x|x|x]; simpl in Hs.
  - unfold Acquire in Hs. destruct (load_or_store x d) as [p d1] eqn:E.
    destruct (load_or_store_ok _ _ _ _ Hok E) as (Hok1 & Hin & Hp & Hc & Hp0).
    destruct (wg_Add_ok _ _ _ _ Hok1 Hp Hs) as (Hok2 & Hin2 & Hc2).
    split; [done|]. intros id. unfold count. rewrite Hin2, Hin. simpl.
    destruct (String.eqb_spec x id) as [->|Hne].
    + rewrite lookup_insert_eq. simpl. rewrite Hc2, decide_True, Hc, Hp0 by done. done.
    + rewrite lookup_insert_ne by done. destruct (inflight d !! id) as [q|] eqn:Eq; [|done].
      simpl. rewrite Hc2, decide_False, Hc; [done|]. intros ->.
      apply Hne. eapply (ok_inj _ Hok1); [rewrite Hin; apply lookup_insert_eq|].
      by rewrite Hin, lookup_insert_ne.
  - unfold Release in Hs. destruct (inflight d !! x) as [p|] eqn:E.
    + destruct (wg_Add_ok _ _ _ _ Hok (Ha _ _ E) Hs) as (Hok2 & Hin2 & Hc2).
      split; [done|]. intros id. unfold count. rewrite Hin2. simpl.
      destruct (String.eqb_spec x id) as [->|Hne].
      * rewrite E. simpl. rewrite Hc2, decide_True by done. f_equal.
      * destruct (inflight d !! id) as [q|] eqn:Eq; [|done].
        simpl. rewrite Hc2, decide_False; [done|]. intros ->. eauto.
    + injection Hs as <-. split; [done|]. intros id. simpl.
      destruct (String.eqb_spec x id) as [->|Hne]; [|done]. unfold count. by rewrite E.
  - injection Hs as <-. split; [by split|done].
  - injection Hs as <-. split.
    + split; simpl; [| |done].
      * intros id p [? ?]%lookup_delete_Some. eauto.
      * intros i1 i2 p [? ?]%lookup_delete_Some [? ?]%lookup_delete_Some. eauto.
    + intros id. unfold count; simpl. destruct (String.eqb_spec x id) as [->|Hne].
      * by rewrite lookup_delete_eq.
      * by rewrite lookup_delete_ne.
Qed.

Lemma steps_app ops1 ops2 d : steps (ops1 ++ ops2) d = (d' ← steps ops1 d; steps ops2 d').
Proof.
  revert d. induction ops1 as [|op ops IH]; intros d; simpl; [done|].
  destruct (step d op); simpl; [apply IH|done].
Qed.

Lemma drainer_steps_ok ops d d' :
  drainer_ok d -> steps ops d = Ret d' ->
  drainer_ok d' /\ forall id, count id d' = foldl (tally id) (count id d) ops.
Proof.
  revert d. induction ops as [|op ops IH]; intros d Hok; cbn [steps foldl].
  - intros [= <-]. done.
  - destruct (step d op) as [d1|] eqn:E; [|done]. simpl. intros Hs.
    destruct (drainer_step_ok _ _ _ Hok E) as [Hok1 Hc]. destruct (IH _ Hok1 Hs) as [Hok2 Hc2].
    split; [done|]. intros id. by rewrite Hc2, Hc.
Qed.

(** The only call that can fail is a [Release] too many. *)
Lemma drainer_step_total d op :
  drainer_ok d ->
  (exists d', step d op = Ret d') \/
  (exists id, op = ORelease id /\ count id d = Some 0 /\
     step d op = Panic "sync: negative WaitGroup counter").
Proof.
  intros [Ha Hi Hn]. destruct op as [x|x|x|x]; simpl; [|..]; [|shelve|left; by eexists|left; by eexists].
  - left. unfold Acquire. destruct (load_or_store x d) as [p d1] eqn:E.
    destruct (load_or_store_ok x d p d1 ltac:(by split) E) as ([_ _ Hn1] & _).
    unfold wg_Add. pose proof (Hn1 p). rewrite (proj2 (Z.ltb_ge _ _)) by lia. by eexists.
  Unshelve.
  unfold Release, count. destruct (inflight d !! x) as [p|] eqn:E; [|left; by eexists].
  unfold wg_Add. pose proof (Hn p). case_if; bool_to_prop; [right|left; by eexists].
  exists x. rewrite E. simpl. split_and!; [done|f_equal; lia|done].
Qed.

(** The counters are the requests in flight: after any history of calls
    that returned, every worker's counter is the number of its acquisitions
    not yet released since its last [Cleanup], never negative; and a history
    panics only at a [Release] for which none is left. *)
Theorem drainer_counts_in_flight (ops : list Op) :
  match steps ops NewWorkerDrainer with
  | Ret d => forall id, count id d = in_flight id ops /\ 0 <= default 0 (in_flight id ops)
  | Panic _ => exists pre id post, ops = pre ++ ORelease id :: post /\ in_flight id pre = Some 0
  end.
Proof.
  assert (forall d, steps ops NewWorkerDrainer = Ret d ->
    forall id, count id d = in_flight id ops /\ 0 <= default 0 (in_flight id ops)) as Hret.
  { intros d Hs id. destruct (drainer_steps_ok _ _ _ NewWorkerDrainer_ok Hs) as [[_ _ Hn] Hc].
    assert (count id d = in_flight id ops) as <- by (rewrite Hc; done).
    split; [done|]. unfold count. destruct (inflight d !! id); simpl; [apply Hn|done]. }
  destruct (steps ops NewWorkerDrainer) as [d|r] eqn:E; [by apply Hret|]. clear Hret.
  revert r E. induction ops as [|op ops IH] using rev_ind; intros r; [done|].
  rewrite steps_app. destruct (steps ops NewWorkerDrainer) as [d|r'] eqn:E.
  - simpl. destruct (drainer_steps_ok _ _ _ NewWorkerDrainer_ok E) as [Hok Hc].
    destruct (drainer_step_total d op Hok) as [[d' ->]|(id & -> & Hid & ->)]; [done|]. intros _.
    exists ops, id, []. split; [done|]. rewrite <-Hid, Hc. done.
  - intros _. destruct (IH _ eq_refl) as (pre & id & post & -> & Hp).
    exists pre, id, (post ++ [op]). by rewrite <-app_assoc.
Qed.

(** ** What [Drain] returns *)

(** While [id] is not cleaned up its wait group stays the one loaded. *)
Lemma step_inflight_same d op d' id p :
  drainer_ok d -> step d op = Ret d' -> op <> OCleanup id ->
  inflight d !! id = Some p -> inflight d' !! id = Some p.
Proof.
  intros Hok Hs Hop Hp. destruct op as [x|x|x|x]; simpl in Hs.
  - unfold Acquire in Hs. destruct (load_or_store x d) as [q d1] eqn:E.
    destruct (load_or_store_ok _ _ _ _ Hok E) as (Hok1 & Hin & Hq & _ & _).
    destruct (wg_Add_ok _ _ _ _ Hok1 Hq Hs) as (_ & -> & _). rewrite Hin.
    destruct (decide (x = id)) as [->|]; [|by rewrite lookup_insert_ne].
    rewrite lookup_insert_eq. unfold load_or_store in E. rewrite Hp in E. by injection E as <- _.
  - unfold Release in Hs. destruct (inflight d !! x) as [q|] eqn:E.
    + by destruct (wg_Add_ok _ _ _ _ Hok (ok_alloc _ Hok _ _ E) Hs) as (_ & -> & _).
    + by injection Hs as <-.
  - by injection Hs as <-.
  - injection Hs as <-. simpl. rewrite lookup_delete_ne; naive_solver.
Qed.
Lemma steps_inflight_same ops d d' id p :
  drainer_ok d -> steps ops d = Ret d' -> OCleanup id ∉ ops ->
  inflight d !! id = Some p -> inflight d' !! id = Some p.
Proof.
  revert d. induction ops as [|op ops IH]; intros d Hok; cbn [steps]; [by intros [= <-]|].
  destruct (step d op) as [d1|] eqn:E; [|done]. cbn. intros Hs [Hop Hops]%not_elem_of_cons Hp.
  apply (IH d1); [by eapply drainer_step_ok|done..|]. by eapply step_inflight_same.
Qed.
Lemma in_flight_counter pre ops id p d d0 :
  steps pre NewWorkerDrainer = Ret d -> steps ops d = Ret d0 -> OCleanup id ∉ ops ->
  inflight d !! id = Some p -> in_flight id (pre ++ ops) = Some (counter p d0).
Proof.
  intros Hpre Hs Hcl Hp. destruct (drainer_steps_ok _ _ _ NewWorkerDrainer_ok Hpre) as [Hok _].
  assert (steps (pre ++ ops) NewWorkerDrainer = Ret d0) as Hall by by rewrite steps_app, Hpre.
  destruct (drainer_steps_ok _ _ _ NewWorkerDrainer_ok Hall) as [_ Hc]. unfold in_flight.
  change None with (count id NewWorkerDrainer). rewrite <-Hc. unfold count.
  by rewrite (steps_inflight_same _ _ _ _ _ Hok Hs Hcl Hp).
Qed.

Definition end_of (ev : DrainEvent) : option context_end := match ev with EEnd e => Some e | _ => None end.
(** How the context ended in the course of the events: its first end counts. *)
Definition ending (evs : list DrainEvent) : option context_end := head (omap end_of evs).

Lemma ending_cons ev evs :
  ending (ev :: evs) = match ev with EEnd e => Some e | _ => ending evs end.
Proof. by destruct ev. Qed.
Lemma ending_app evs1 evs2 :
  ending (evs1 ++ evs2) = match ending evs1 with Some e => Some e | None => ending evs2 end.
Proof. induction evs1 as [|ev evs1 IH]; [done|]. rewrite <-app_comm_cons, !ending_cons. by destruct ev. Qed.
Lemma ops_of_app evs1 evs2 : ops_of (evs1 ++ evs2) = ops_of evs1 ++ ops_of evs2.
Proof. apply omap_app. Qed.

(** What the state of the goroutine tells of the past: it is past its wait only
    if the counter has been zero, [z]. *)
Definition has_waited (z : Prop) (g : Waiter) : Prop :=
  match g with GWoken | GClosed | GPanicked => z | _ => True end.

Lemma waiter_turn_waited p d g (z : Prop) :
  (counter p d = 0 -> z) -> has_waited z g -> has_waited z (waiter_turn p d g).
Proof. intros Hz. destruct g; cbn; try done; case_if; bool_to_prop; cbn; tauto. Qed.
Lemma wake_waited p d g (z : Prop) : (counter p d = 0 -> z) -> has_waited z g -> has_waited z (wake p d g).
Proof. intros Hz. destruct g; cbn; try done. case_if; bool_to_prop; cbn; tauto. Qed.

(** At some moment of the events the counter of the group is zero. *)
Definition zero_at (p : nat) (evs : list DrainEvent) (d : WorkerDrainer) : Prop :=
  exists before after d0, evs = before ++ after /\ steps (ops_of before) d = Ret d0 /\ counter p d0 = 0.

Lemma zero_now p evs d : counter p d = 0 -> zero_at p evs d.
Proof. intros H. by exists [], evs, d. Qed.
Lemma zero_later p ev evs d d1 :
  steps (ops_of [ev]) d = Ret d1 -> zero_at p evs d1 -> zero_at p (ev :: evs) d.
Proof.
  intros Hs (before & after & d0 & -> & Hb & Hz). exists (ev :: before), after, d0. split_and!; [done| |done].
  change (ev :: before) with ([ev] ++ before). by rewrite ops_of_app, steps_app, Hs.
Qed.

(** Why [Drain] returned [err] after [passed]: the counter was zero, or the
    context is over - at the latest by its own timeout, at the end. *)
Definition explained (p : nat) (z : Prop) (over : option context_end) (passed rest : list DrainEvent)
    (d : WorkerDrainer) (err : option error) : Prop :=
  match err with
  | None => z \/ zero_at p passed d
  | Some e => exists c, e = ctx_Err c /\
      (match over with Some o => Some o | None => ending passed end = Some c \/
       (rest = [] /\ over = None /\ ending passed = None /\ c = ContextDeadline))
  end.

(** One more event in front, after which the goroutine may have seen zero. *)
Lemma explained_later p (z z' : Prop) over ev passed rest d d1 err :
  match ev with EEnd _ => False | _ => True end ->
  steps (ops_of [ev]) d = Ret d1 -> (z' -> z \/ counter p d = 0 \/ counter p d1 = 0) ->
  explained p z' over passed rest d1 err -> explained p z over (ev :: passed) rest d err.
Proof.
  intros Hev Hs Hz. unfold explained. destruct err as [e|].
  - rewrite ending_cons. by destruct ev.
  - intros [[?|[H0|H0]]%Hz|H0]; [by left|right..]; [by apply zero_now|eapply zero_later; [exact Hs|]..];
      [by apply zero_now|done].
Qed.

Lemma wait_spec p g over agenda d err rest d' (z : Prop) :
  has_waited z g -> wait p g over agenda d = Ret (err, rest, d') ->
  exists passed, agenda = passed ++ rest /\ steps (ops_of passed) d = Ret d' /\
    explained p z over passed rest d err.
Proof.
  revert g over d z. induction agenda as [|[op|e| |pick] agenda IH]; intros g over d z Hg; cbn [wait].
  - pose proof (waiter_turn_waited p d g (z \/ zero_at p [] d) (fun H => or_intror (zero_now p [] d H))) as Hw.
    destruct over as [o|]; [intros [= <- <- <-]; exists []; split_and!; [done..|]; exists o; by split; [|left]|].
    destruct (waiter_turn p d g) eqn:E; intros [= <- <- <-]; exists []; (split_and!; [done..|]);
      try (exists ContextDeadline; split; [done|by right]).
    apply Hw. destruct g; cbn in Hg |- *; tauto.
  - destruct (step d op) as [d1|] eqn:E; [|done]. cbn [mbind outcome_mbind outcome_bind]. intros Hw.
    assert (steps (ops_of [EOp op]) d = Ret d1) as Hs by (cbn; by rewrite E).
    destruct (IH (wake p d1 g) over d1 (z \/ counter p d1 = 0)) as (passed & -> & Hps & Herr); [|done|].
    { apply wake_waited; [tauto|]. destruct g; cbn in *; tauto. }
    exists (EOp op :: passed). split_and!; [done| |eapply explained_later; [done|exact Hs| |exact Herr]; tauto].
    change (ops_of (EOp op :: passed)) with (op :: ops_of passed). cbn [steps]. by rewrite E.
  - intros Hw. destruct (IH g (Some (default e over)) d z Hg Hw) as (passed & -> & Hps & Herr).
    exists (EEnd e :: passed). split_and!; [done..|]. destruct err as [er|]; cbn [explained] in *.
    + destruct Herr as (c & -> & [Hc|(_ & [=] & _)]). exists c. split; [done|left].
      rewrite ending_cons. by destruct over.
    + destruct Herr as [?|Hz]; [by left|right]. by eapply (zero_later p (EEnd e)).
  - intros Hw. destruct (IH (waiter_turn p d g) over d (z \/ counter p d = 0)) as (passed & -> & Hps & Herr); [|done|].
    { apply waiter_turn_waited; [tauto|]. destruct g; cbn in *; tauto. }
    exists (EWaiter :: passed). split_and!; [done..|]. eapply explained_later; [done|done| |exact Herr]. tauto.
  - destruct (select_turn pick g over) as [r|] eqn:E.
    + intros [= -> <- <-]. exists [ESelect pick]. split_and!; [done..|]. unfold select_turn in E.
      case_bool_decide as Hc; [subst g|]; destruct over as [o|]; [destruct pick| | |]; simplify_eq;
        first [by left|exists o; by split; [|left]].
    + intros Hw. destruct (IH g over d z Hg Hw) as (passed & -> & Hps & Herr).
      exists (ESelect pick :: passed). split_and!; [done..|]. eapply explained_later; [done|done| |exact Herr]. tauto.
Qed.

(** C30: What [Drain] promises.  When it returns nil, there was a moment during
    the call at which the counter of the wait group it had loaded was zero -
    if the worker has not been cleaned up by then, every request the drainer
    has counted for it had been released - or there was no group at all.  When
    it returns an error, that is the error of its context, which was
    cancelled or has passed its deadline during the call, or by the timeout at
    the end of it.  Nothing is promised about the moment it returns at:
    requests acquired between the zero and the return are in flight then. *)
Theorem Drain_waits (pre : list Op) (agenda rest : list DrainEvent) (id : string) (d d' : WorkerDrainer)
    (err : option error) :
  steps pre NewWorkerDrainer = Ret d ->
  Drain id agenda d = Ret (err, rest, d') ->
  exists passed, agenda = passed ++ rest /\ steps (ops_of passed) d = Ret d' /\
    match err with
    | None => exists before after d0, passed = before ++ after /\ steps (ops_of before) d = Ret d0 /\
        (forall p, inflight d !! id = Some p -> counter p d0 = 0) /\
        (OCleanup id ∉ ops_of before -> default 0 (in_flight id (pre ++ ops_of before)) = 0)
    | Some e => exists c, e = ctx_Err c /\
        (ending passed = Some c \/ (rest = [] /\ ending agenda = None /\ c = ContextDeadline))
    end.
Proof.
  intros Hpre HD. destruct (drainer_steps_ok _ _ _ NewWorkerDrainer_ok Hpre) as [Hok Hc].
  unfold Drain in HD. destruct (inflight d !! id) as [p|] eqn:Hp.
  - destruct (wait_spec p GStarting None agenda d err rest d' False I HD) as (passed & -> & Hs & Herr).
    exists passed. split_and!; [done..|]. destruct err as [e|]; cbn [explained] in Herr.
    + destruct Herr as (c & -> & [Hend|(-> & _ & Hend & ->)]); eexists; (split; [reflexivity|]); [by left|right].
      by rewrite app_nil_r.
    + destruct Herr as [[]|(before & after & d0 & -> & Hb & Hz)]. exists before, after, d0.
      split_and!; [done..|by intros ? [= <-]|]. intros Hcl.
      by rewrite (in_flight_counter pre (ops_of before) id p d d0).
  - injection HD as <- <- <-. exists []. split_and!; [done..|]. exists [], [], d. split_and!; [done..|].
    intros _. cbn [ops_of omap list_omap]. rewrite app_nil_r.
    change (in_flight id pre) with (foldl (tally id) (count id NewWorkerDrainer) pre).
    rewrite <-Hc. unfold count. by rewrite Hp.
Qed.

(** The first request is released, the goroutine waits, the second one is
    released, "b" comes; the goroutine wakes and [Drain] returns before "c". *)
Definition two_in_flight : list Op := [OAcquire "a"; OAcquire "a"].
Definition drain_agenda : list DrainEvent :=
  [EOp (ORelease "a"); EWaiter; EOp (ORelease "a"); EOp (OAcquire "b"); EWaiter; ESelect true; EOp (OAcquire "c")].

Lemma Drain_waits_witness :
  exists before after d0, drain_agenda = before ++ after ++ [EOp (OAcquire "c")] /\
    steps (two_in_flight ++ ops_of before) NewWorkerDrainer = Ret d0 /\ counter 0 d0 = 0.
Proof.
  destruct (steps two_in_flight NewWorkerDrainer) as [d|] eqn:E; [|vm_compute in E; discriminate E].
  destruct (Drain "a" drain_agenda d) as [[[err rest] d']|] eqn:ED;
    [|vm_compute in E; injection E as <-; vm_compute in ED; discriminate ED].
  assert (err = None /\ rest = [EOp (OAcquire "c")] /\ inflight d !! "a" = Some 0%nat) as (-> & -> & Hp).
  { vm_compute in E. injection E as <-. vm_compute in ED. injection ED as <- <- _. vm_compute. done. }
  destruct (Drain_waits two_in_flight drain_agenda _ "a" d d' None E ED)
    as (passed & Hpa & _ & before & after & d0 & -> & Hb & Hz & _).
  exists before, after, d0. split_and!; [by rewrite app_assoc| |by apply Hz].
  by rewrite steps_app, E.
Defined.

(** ** When [Drain] returns nil *)

Definition drained (o : outcome (option error * list DrainEvent * WorkerDrainer)) : Prop :=
  exists rest d', o = Ret (None, rest, d').

(** The counter is zero, or not zero, before each of the calls. *)
Definition all_along (q : Z -> Prop) (p : nat) (evs : list DrainEvent) (d : WorkerDrainer) : Prop :=
  forall l1 ev l2 d1, evs = l1 ++ ev :: l2 -> steps (ops_of l1) d = Ret d1 -> q (counter p d1).

Lemma all_along_tail q p ev evs d d1 :
  steps (ops_of [ev]) d = Ret d1 -> all_along q p (ev :: evs) d -> all_along q p evs d1.
Proof.
  intros Hs Hall l1 x l2 dd -> Hd. apply (Hall (ev :: l1) x l2); [done|].
  change (ev :: l1) with ([ev] ++ l1). by rewrite ops_of_app, steps_app, Hs.
Qed.

Lemma closed_drains p later pick rest d :
  ending later = None -> (exists d', steps (ops_of later) d = Ret d') ->
  drained (wait p GClosed None (later ++ ESelect pick :: rest) d).
Proof.
  revert d. induction later as [|ev later IH]; intros d; [intros _ _; by eexists _, _|].
  rewrite ending_cons, <-app_comm_cons. destruct ev as [op|e| |b]; cbn [wait]; try done.
  - change (ops_of (EOp op :: later)) with (op :: ops_of later). cbn [steps].
    intros He [d' Hs]. destruct (step d op) as [d1|] eqn:E; [|done]. cbn in *. apply IH; [done|by exists d'].
  - apply IH.
  - intros _ _. by eexists _, _.
Qed.

Lemma quiet_drains p g quiet later pick rest d :
  g <> GBlocked -> g <> GPanicked ->
  ending (quiet ++ later) = None -> all_along (fun n => n = 0) p (quiet ++ [EWaiter]) d ->
  (exists d', steps (ops_of (quiet ++ later)) d = Ret d') ->
  drained (wait p g None (quiet ++ EWaiter :: later ++ ESelect pick :: rest) d).
Proof.
  intros Hb Hp. revert g d Hb Hp. induction quiet as [|ev quiet IH]; intros g d Hb Hp He Hz Hs.
  - cbn [wait app]. assert (counter p d = 0) as H0 by by apply (Hz [] EWaiter []).
    replace (waiter_turn p d g) with GClosed by (destruct g; cbn; rewrite ?H0; done). by apply closed_drains.
  - assert (counter p d = 0) as H0 by by apply (Hz [] ev (quiet ++ [EWaiter])).
    rewrite <-app_comm_cons, ending_cons in *. destruct ev as [op|e| |b]; cbn [wait app]; try done.
    + destruct Hs as [d' Hs].
      change (ops_of (EOp op :: quiet ++ later)) with (op :: ops_of (quiet ++ later)) in Hs. cbn [steps] in Hs.
      destruct (step d op) as [d1|] eqn:E; [|done]. cbn in Hs |- *.
      apply IH; [by destruct g|by destruct g|done| |by exists d'].
      eapply all_along_tail; [|exact Hz]. cbn. by rewrite E.
    + apply IH; [destruct g; cbn; rewrite ?H0; done..|done| |done]. by eapply all_along_tail; [|exact Hz].
    + unfold select_turn. case_bool_decide; [by eexists _, _|].
      apply IH; [done..| |done]. by eapply all_along_tail; [|exact Hz].
Qed.

(** Until the counter is zero the goroutine has not started or is blocked. *)
Definition on_the_way (g : Waiter) (before : list DrainEvent) : Prop :=
  match g with GStarting => True | GBlocked => before <> [] | GWoken => before = [] | _ => False end.

Lemma busy_drains p g before quiet later pick rest d d0 :
  on_the_way g before -> ending (before ++ quiet ++ later) = None -> all_along (fun n => n <> 0) p before d ->
  steps (ops_of before) d = Ret d0 -> all_along (fun n => n = 0) p (quiet ++ [EWaiter]) d0 ->
  (exists d', steps (ops_of (quiet ++ later)) d0 = Ret d') ->
  drained (wait p g None (before ++ quiet ++ EWaiter :: later ++ ESelect pick :: rest) d).
Proof.
  intros Hg He Hnz Hs Hz Hok. assert (counter p d0 = 0) as Hd0.
  { destruct quiet as [|ev quiet]; [by apply (Hz [] EWaiter [])|by apply (Hz [] ev (quiet ++ [EWaiter]))]. }
  revert g d Hg He Hnz Hs. induction before as [|ev before IH]; intros g d Hg He Hnz Hs.
  { injection Hs as <-. apply quiet_drains; [by destruct g..|done|done|done]. }
  assert (counter p d <> 0) as H0 by by apply (Hnz [] ev before).
  assert (forall d1, steps (ops_of [ev]) d = Ret d1 -> steps (ops_of before) d1 = Ret d0) as Hs1.
  { intros d1 H1. change (ev :: before) with ([ev] ++ before) in Hs. by rewrite ops_of_app, steps_app, H1 in Hs. }
  assert (forall d1, steps (ops_of [ev]) d = Ret d1 -> all_along (fun n => n <> 0) p before d1) as Hnz1
    by by intros d1 H1; eapply all_along_tail.
  assert (forall d1, steps (ops_of [ev]) d = Ret d1 -> before = [] <-> counter p d1 = 0) as Hlast.
  { intros d1 H1. specialize (Hs1 d1 H1). specialize (Hnz1 d1 H1).
    destruct before as [|x before]; [by injection Hs1 as ->|]. split; [done|]. intros Hc. by destruct (Hnz1 [] x before d1). }
  rewrite <-app_comm_cons, ending_cons in He. destruct ev as [op|e| |b]; rewrite <-app_comm_cons; cbn [wait]; [|done|..].
  - change (ops_of (EOp op :: before)) with (op :: ops_of before) in Hs. cbn [steps] in Hs.
    destruct (step d op) as [d1|] eqn:E; [|done]. cbn in Hs |- *.
    assert (steps (ops_of [EOp op]) d = Ret d1) as H1 by (cbn; by rewrite E).
    apply IH; [|done|by apply Hnz1|done]. specialize (Hlast d1 H1).
    destruct g; cbn in Hg |- *; try done. case_if; bool_to_prop; cbn; tauto.
  - specialize (Hlast d eq_refl). apply IH; [|done|by apply Hnz1|done].
    destruct g; cbn in Hg |- *; try done. all: (rewrite ?(proj2 (Z.eqb_neq _ _) H0); cbn; intros Hb; by apply H0, Hlast).
  - specialize (Hlast d eq_refl). unfold select_turn. rewrite bool_decide_false by (by destruct g).
    apply IH; [|done|by apply Hnz1|done]. destruct g; cbn in Hg |- *; try done; tauto.
Qed.

(** C6: [Drain] returns nil when the worker is done in time.  Its wait group gets
    to zero, stays there until the waiting goroutine has had a turn, and the
    [select] has a turn afterwards, all before the context ends; whatever other
    calls happen in between, and whatever they do to the group once the
    goroutine has had its turn, [Drain] returns without an error. *)
Theorem Drain_returns (id : string) (p : nat) (before quiet later rest : list DrainEvent) (pick : bool)
    (d d0 : WorkerDrainer) :
  inflight d !! id = Some p ->
  ending (before ++ quiet ++ later) = None ->
  steps (ops_of before) d = Ret d0 -> (exists d', steps (ops_of (quiet ++ later)) d0 = Ret d') ->
  all_along (fun n => n <> 0) p before d -> all_along (fun n => n = 0) p (quiet ++ [EWaiter]) d0 ->
  drained (Drain id (before ++ quiet ++ EWaiter :: later ++ ESelect pick :: rest) d).
Proof.
  intros Hp He Hs Hok Hnz Hz. unfold Drain. rewrite Hp. by eapply busy_drains.
Qed.

Lemma Drain_returns_witness :
  drained (d ← steps two_in_flight NewWorkerDrainer; Drain "a" drain_agenda d).
Proof.
  destruct (steps two_in_flight NewWorkerDrainer) as [d|] eqn:E; [|vm_compute in E; discriminate E].
  destruct (steps [ORelease "a"; ORelease "a"] d) as [d0|] eqn:E0;
    [|vm_compute in E; injection E as <-; vm_compute in E0; discriminate E0].
  apply (Drain_returns "a" 0 [EOp (ORelease "a"); EWaiter; EOp (ORelease "a")] [EOp (OAcquire "b")] []
    [EOp (OAcquire "c")] true d d0); [|done|exact E0|..].
  - vm_compute in E. injection E as <-. reflexivity.
  - vm_compute in E. injection E as <-. vm_compute in E0. injection E0 as <-. by eexists.
  - vm_compute in E. injection E as <-. intros [|e1 [|e2 [|e3 [|]]]] x l2 d1 [=] Hd; subst; vm_compute in Hd;
      injection Hd as <-; by vm_compute.
  - vm_compute in E. injection E as <-. vm_compute in E0. injection E0 as <-.
    intros [|e1 [|e2 [|]]] x l2 d1 [=] Hd; subst; vm_compute in Hd; injection Hd as <-; by vm_compute.
Defined.

Lemma panicked_never_drains p over agenda d err rest d' :
  wait p GPanicked over agenda d = Ret (err, rest, d') -> err <> None.
Proof.
  revert over d. induction agenda as [|[op|e| |pick] agenda IH]; intros over d; cbn [wait waiter_turn wake].
  - destruct over; by intros [= <- _ _].
  - destruct (step d op); [apply IH|done].
  - apply IH.
  - apply IH.
  - unfold select_turn. cbn. destruct over; [by intros [= <- _ _]|apply IH].
Qed.
(** A request that comes too soon spoils the drain.  If one is acquired between
    the release that takes the group to zero and the turn of the goroutine it
    wakes, the [Wait] of that goroutine panics; [done] is never closed, and
    [Drain] returns the error of its context whatever happens from then on -
    every request released included. *)
Theorem reused_group_spoils_drain (id : string) (tail rest : list DrainEvent) (d d' : WorkerDrainer) (err : option error) :
  steps [OAcquire id] NewWorkerDrainer = Ret d ->
  Drain id ([EWaiter; EOp (ORelease id); EOp (OAcquire id); EWaiter; EOp (ORelease id)] ++ tail) d = Ret (err, rest, d') ->
  err <> None.
Proof.
  set (st n := mkDrainer [n] (<[id := 0%nat]> ∅) ∅).
  assert (Acquire id NewWorkerDrainer = Ret (st 1)) as H0.
  { unfold Acquire, load_or_store. cbn [inflight NewWorkerDrainer]. by rewrite lookup_empty. }
  assert (Acquire id (st 0) = Ret (st 1)) as H1.
  { unfold Acquire, load_or_store. cbn [inflight st]. by rewrite lookup_insert_eq. }
  assert (Release id (st 1) = Ret (st 0)) as H2.
  { unfold Release. cbn [inflight st]. by rewrite lookup_insert_eq. }
  cbn [steps step]. rewrite H0. cbn. intros [= <-]. unfold Drain. cbn [inflight st]. rewrite lookup_insert_eq.
  change (mkDrainer [1] (<[id:=0%nat]> ∅) ∅) with (st 1). cbn [wait step app]. rewrite H2.
  cbn [mbind outcome_mbind outcome_bind]. rewrite H1. cbn [mbind outcome_mbind outcome_bind].
  rewrite H2. cbn [mbind outcome_mbind outcome_bind]. apply panicked_never_drains.
Qed.

(** A balanced history can panic.  When a worker is cleaned up while a
    request is in flight - [StopWorker] goes on after a drain that timed out -
    and a new request is acquired under its name, the two releases go to the
    new wait group and the second one takes its counter below zero. *)
Theorem cleanup_makes_release_panic (id : string) :
  steps [OAcquire id; OCleanup id; OAcquire id; ORelease id; ORelease id] NewWorkerDrainer
  = Panic "sync: negative WaitGroup counter".
Proof.
  cbn [steps step mbind outcome_mbind outcome_bind].
  unfold Release, Acquire, load_or_store, wg_Add, counter, Cleanup. cbn.
  rewrite lookup_empty. cbn. change (0 + 1 <? 0) with false. cbn.
  rewrite delete_insert_eq, lookup_delete_eq. cbn. change (0 + 1 <? 0) with false. cbn.
  rewrite !lookup_insert_eq. cbn. change (0 + 1 + -1 <? 0) with false. cbn.
  rewrite !lookup_insert_eq. done.
Qed.

(** ** The draining flags *)

Lemma step_draining d op d' id :
  op <> OCleanup id -> step d op = Ret d' -> IsDraining id d = true -> IsDraining id d' = true.
Proof.
  assert (forall p n d d', wg_Add p n d = Ret d' -> draining d' = draining d) as Hadd.
  { intros p n e e'. unfold wg_Add. case_if; [done|]. by intros [= <-]. }
  unfold IsDraining. intros Hop Hs Hd. destruct op as [x|x|x|x]; simpl in Hs.
  - unfold Acquire, load_or_store in Hs. destruct (inflight d !! x); by rewrite (Hadd _ _ _ _ Hs).
  - unfold Release in Hs. destruct (inflight d !! x); [by rewrite (Hadd _ _ _ _ Hs)|by injection Hs as <-].
  - injection Hs as <-. simpl. destruct (decide (x = id)) as [->|];
      [by rewrite lookup_insert_eq|by rewrite lookup_insert_ne].
  - injection Hs as <-. simpl. rewrite lookup_delete_ne by naive_solver. done.
Qed.

Lemma steps_draining ops d d' id :
  Forall (fun op => op <> OCleanup id) ops -> steps ops d = Ret d' ->
  IsDraining id d = true -> IsDraining id d' = true.
Proof.
  intros Hops. revert d. induction Hops as [|op ops Hop Hops IH]; intros d; cbn [steps].
  - by intros [= <-].
  - destruct (step d op) as [d1|] eqn:E; [|done]. simpl. intros Hs Hd.
    apply (IH d1 Hs). by eapply step_draining.
Qed.

Lemma wait_keeps_draining id p g over agenda d err rest d' :
  Forall (fun op => op <> OCleanup id) (ops_of agenda) -> IsDraining id d = true ->
  wait p g over agenda d = Ret (err, rest, d') -> IsDraining id d' = true.
Proof.
  revert g over d. induction agenda as [|ev agenda IH]; intros g over d Hops Hd; cbn [wait].
  - destruct over, (waiter_turn p d g); congruence.
  - destruct ev as [op|e| |pick]; [|by apply IH..|destruct (select_turn pick g over); [congruence|by apply IH]].
    change (ops_of (EOp op :: agenda)) with (op :: ops_of agenda) in Hops. apply Forall_cons in Hops as [Hop Hops].
    destruct (step d op) as [d1|] eqn:E; [|done]. cbn. apply IH; [done|]. by eapply step_draining.
Qed.
Lemma Drain_keeps_draining id x agenda d err rest d' :
  Forall (fun op => op <> OCleanup id) (ops_of agenda) -> IsDraining id d = true ->
  Drain x agenda d = Ret (err, rest, d') -> IsDraining id d' = true.
Proof.
  unfold Drain. destruct (inflight d !! x) as [p|]; [apply wait_keeps_draining|congruence].
Qed.
