(* ===== verification/RateLimiter.v ===== *)
(** * The rate limiter ([core/application/gateway/ratelimiter.go])

    One fixed-window counter ([bucket]) per client address and per token.  A
    call takes the clock reading [now] and the random number [rnd] the code
    draws for the jitter when it opens a window.  [time.Time] values are
    instants without overflow; the zero time is the instant [0]. *)
From S2P Require Import Prelude GoStrings.
Local Open Scope string_scope.
Local Open Scope list_scope.
Local Open Scope Z_scope.
Local Open Scope go_scope.

Record bucket := mkBucket { count : Z; windowEnd : Z }.

(** [rand.Int63n(n)] for the random number [rnd]. *)
Definition Int63n (rnd n : Z) : Z := rnd mod n.

Definition allow (limit window jitter now rnd : Z) (b : bucket) : bool * Z * bucket :=
  let b :=
    if windowEnd b <? now then
      mkBucket 0 (if 0 <? jitter then now + window + Int63n rnd jitter else now + window)
    else b in
  if limit <=? count b then
    let retryAfter := time_sub (windowEnd b) now in
    (false, if retryAfter <? 0 then 0 else retryAfter, b)
  else (true, 0, mkBucket (count b +64 1) (windowEnd b)).

Record RateLimiter := mkLimiter {
  perIP : Z;
  perToken : Z;
  window : Z;
  jitter : Z;
  ipBuckets : gmap string bucket;
  tokBuckets : gmap string bucket;
}.

(** Go's integer division truncates. *)
Definition NewRateLimiterWithJitter (perIP perToken window maxJitter : Z) : RateLimiter :=
  mkLimiter perIP perToken window
    (if Z.quot window 2 <? maxJitter then Z.quot window 2 else maxJitter) ∅ ∅.
Definition NewRateLimiter (perIP perToken window : Z) : RateLimiter :=
  NewRateLimiterWithJitter perIP perToken window 0.

(** A bucket is created empty, with the zero time. *)
Definition getBucket (m : gmap string bucket) (key : string) : bucket :=
  default (mkBucket 0 0) (m !! key).

(** The key of a remote address: its host, or all of it when it has no port. *)
Definition ip_key (remoteAddr : string) : string :=
  match SplitHostPort remoteAddr with
  | Ok (ip, _) => ip
  | Err _ => remoteAddr
  end.

Definition AllowIP (remoteAddr : string) (now rnd : Z) (r : RateLimiter)
    : bool * Z * RateLimiter :=
  let ip := ip_key remoteAddr in
  let '(ok, retryAfter, b) :=
    allow (perIP r) (window r) (jitter r) now rnd (getBucket (ipBuckets r) ip) in
  (ok, retryAfter, mkLimiter (perIP r) (perToken r) (window r) (jitter r)
                     (<[ip := b]> (ipBuckets r)) (tokBuckets r)).

Definition AllowToken (token : string) (now rnd : Z) (r : RateLimiter)
    : bool * Z * RateLimiter :=
  if String.eqb token "" then (true, 0, r)
  else
    let '(ok, retryAfter, b) :=
      allow (perToken r) (window r) (jitter r) now rnd (getBucket (tokBuckets r) token) in
    (ok, retryAfter, mkLimiter (perIP r) (perToken r) (window r) (jitter r)
                       (ipBuckets r) (<[token := b]> (tokBuckets r))).

Definition Jitter (r : RateLimiter) : Z := jitter r.

(** ** Calls *)

Inductive Op :=
  | OIP (remoteAddr : string) (now rnd : Z)
  | OToken (token : string) (now rnd : Z).

Definition call (r : RateLimiter) (op : Op) : bool * Z * RateLimiter :=
  match op with
  | OIP addr now rnd => AllowIP addr now rnd r
  | OToken token now rnd => AllowToken token now rnd r
  end.
Definition step (r : RateLimiter) (op : Op) : RateLimiter := (call r op).2.

Definition op_time (op : Op) : Z :=
  match op with OIP _ now _ | OToken _ now _ => now end.

(** How many of the calls [ops] a client is admitted in. *)
Fixpoint admitted (mine : Op -> bool) (r : RateLimiter) (ops : list Op) : Z :=
  match ops with
  | [] => 0
  | op :: ops' =>
      (if mine op && (call r op).1.1 then 1 else 0) + admitted mine (step r op) ops'
  end.
Definition from_ip (ip : string) (op : Op) : bool :=
  match op with OIP addr _ _ => String.eqb (ip_key addr) ip | _ => false end.
Definition with_token (token : string) (op : Op) : bool :=
  match op with OToken t _ _ => String.eqb t token | _ => false end.

(** ** One bucket *)

Definition bucket_ok (limit : Z) (b : bucket) : Prop := 0 <= count b <= limit.

Section Bucket.
Context (limit window jitter : Z).
Hypothesis limit_int : 0 <= limit < 2 ^ 63.
Hypothesis window_pos : 0 <= window.
Hypothesis jitter_nonneg : 0 <= jitter.

Lemma allow_ok now rnd b :
  bucket_ok limit b -> bucket_ok limit (allow limit window jitter now rnd b).2.
Proof.
  unfold allow, bucket_ok. intros Hb.
  destruct (windowEnd b <? now), (0 <? jitter);
    case_if; simpl in *; bool_to_prop; try rewrite wrap64_id by (unfold int64; lia); lia.
Qed.

(** How much a bucket can still admit up to the instant [until]: what is left
    in its window, and a full window more if it can open one. *)
Definition budget (until : Z) (b : bucket) : Z :=
  limit - count b + (if windowEnd b <? until then limit else 0).

Lemma allow_budget from until now rnd b :
  bucket_ok limit b -> from <= now <= until -> until <= from + window ->
  (if (allow limit window jitter now rnd b).1.1 then 1 else 0)
    + budget until (allow limit window jitter now rnd b).2 <= budget until b.
Proof.
  intros Hb Hnow Huntil. unfold allow, budget, Int63n, bucket_ok in *.
  destruct (windowEnd b <? now) eqn:E; bool_to_prop.
  - rewrite (proj2 (Z.ltb_lt (windowEnd b) until)) by lia.
    destruct (0 <? jitter) eqn:Ej; bool_to_prop; simpl.
    + pose proof (Z.mod_pos_bound rnd jitter Ej).
      cbn [count windowEnd fst snd]. destruct (limit <=? 0) eqn:El; bool_to_prop; simpl;
        rewrite ?wrap64_id by (unfold int64; lia);
        rewrite (proj2 (Z.ltb_ge (now + window + _) until)) by lia; lia.
    + cbn [count windowEnd fst snd]. destruct (limit <=? 0) eqn:El; bool_to_prop; simpl; rewrite ?wrap64_id by (unfold int64; lia);
        rewrite (proj2 (Z.ltb_ge (now + window) until)) by lia; lia.
  - destruct (limit <=? count b) eqn:El; bool_to_prop; simpl;
      rewrite ?wrap64_id by (unfold int64; lia); destruct (windowEnd b <? until); lia.
Qed.
End Bucket.

(** ** The whole limiter *)

Record limiter_ok (r : RateLimiter) : Prop := {
  ok_ip : 0 <= perIP r < 2 ^ 63;
  ok_token : 0 <= perToken r < 2 ^ 63;
  ok_window : 0 <= window r;
  ok_jitter : 0 <= jitter r;
  ok_ipBuckets : forall ip, bucket_ok (perIP r) (getBucket (ipBuckets r) ip);
  ok_tokBuckets : forall t, bucket_ok (perToken r) (getBucket (tokBuckets r) t);
}.

Lemma NewLimiter_ok perIP perToken window maxJitter :
  0 <= perIP < 2 ^ 63 -> 0 <= perToken < 2 ^ 63 -> 0 <= window -> 0 <= maxJitter ->
  limiter_ok (NewRateLimiterWithJitter perIP perToken window maxJitter).
Proof.
  intros. split; simpl; try done.
  - pose proof (Z.quot_pos window 2). case_if; lia.
  - intros ip. unfold getBucket, bucket_ok. rewrite lookup_empty. simpl. lia.
  - intros t. unfold getBucket, bucket_ok. rewrite lookup_empty. simpl. lia.
Qed.

Lemma getBucket_insert m k b : getBucket (<[k := b]> m) k = b.
Proof. unfold getBucket. by rewrite lookup_insert_eq. Qed.
Lemma getBucket_insert_ne m k k' b : k <> k' -> getBucket (<[k := b]> m) k' = getBucket m k'.
Proof. intros. unfold getBucket. by rewrite lookup_insert_ne. Qed.

Lemma limiter_step_ok r op : limiter_ok r -> limiter_ok (step r op).
Proof.
  intros [H1 H2 H3 H4 H5 H6]. unfold step. destruct op as [addr now rnd|t now rnd]; simpl.
  - unfold AllowIP. destruct (allow _ _ _ _ _ _) as [[ok ra] b] eqn:E. simpl. split; simpl; try done.
    intros k. destruct (decide (ip_key addr = k)) as [<-|]; [|by rewrite getBucket_insert_ne].
    rewrite getBucket_insert. replace b with (ok, ra, b).2 by done. rewrite <-E. by apply allow_ok.
  - unfold AllowToken. destruct (String.eqb t ""); [by split|].
    destruct (allow _ _ _ _ _ _) as [[ok ra] b] eqn:E. simpl. split; simpl; try done.
    intros k. destruct (decide (t = k)) as [<-|]; [|by rewrite getBucket_insert_ne].
    rewrite getBucket_insert. replace b with (ok, ra, b).2 by done. rewrite <-E. by apply allow_ok.
Qed.

(** What a call answers to one client, and does to that client's bucket,
    depends on that bucket alone; other calls leave it alone. *)
Lemma call_from_ip r op ip :
  if from_ip ip op then
    exists rnd, (call r op).1 = (allow (perIP r) (window r) (jitter r) (op_time op) rnd (getBucket (ipBuckets r) ip)).1 /\
      getBucket (ipBuckets (step r op)) ip
      = (allow (perIP r) (window r) (jitter r) (op_time op) rnd (getBucket (ipBuckets r) ip)).2
  else getBucket (ipBuckets (step r op)) ip = getBucket (ipBuckets r) ip.
Proof.
  unfold step. destruct op as [addr now rnd|t now rnd]; simpl.
  - unfold AllowIP. destruct (String.eqb_spec (ip_key addr) ip) as [<-|Hne].
    + exists rnd. destruct (allow _ _ _ _ _ _) as [[ok ra] b]. simpl. by rewrite getBucket_insert.
    + destruct (allow _ _ _ _ _ _) as [[ok ra] b]. simpl. by rewrite getBucket_insert_ne.
  - unfold AllowToken. destruct (String.eqb t ""); [done|].
    by destruct (allow _ _ _ _ _ _) as [[ok ra] b].
Qed.

Lemma call_with_token r op t :
  t <> "" ->
  if with_token t op then
    exists rnd, (call r op).1 = (allow (perToken r) (window r) (jitter r) (op_time op) rnd (getBucket (tokBuckets r) t)).1 /\
      getBucket (tokBuckets (step r op)) t
      = (allow (perToken r) (window r) (jitter r) (op_time op) rnd (getBucket (tokBuckets r) t)).2
  else getBucket (tokBuckets (step r op)) t = getBucket (tokBuckets r) t.
Proof.
  intros Ht. unfold step. destruct op as [addr now rnd|t' now rnd]; simpl.
  - unfold AllowIP. by destruct (allow _ _ _ _ _ _) as [[ok ra] b].
  - unfold AllowToken. destruct (String.eqb_spec t' t) as [->|Hne].
    + rewrite (proj2 (String.eqb_neq t "")) by done. exists rnd.
      destruct (allow _ _ _ _ _ _) as [[ok ra] b]. simpl. by rewrite getBucket_insert.
    + destruct (String.eqb t' ""); [done|].
      destruct (allow _ _ _ _ _ _) as [[ok ra] b]. simpl. by rewrite getBucket_insert_ne.
Qed.

Lemma limiter_step_config r op :
  perIP (step r op) = perIP r /\ perToken (step r op) = perToken r /\
  window (step r op) = window r /\ jitter (step r op) = jitter r.
Proof.
  unfold step. destruct op as [addr now rnd|t now rnd]; simpl; unfold AllowIP, AllowToken;
    [|destruct (String.eqb t "")]; try destruct (allow _ _ _ _ _ _) as [[ok ra] b]; done.
Qed.

(** [mine] selects the calls of one client, whose bucket is [bk]. *)
Lemma admitted_budget (mine : Op -> bool) (bk : RateLimiter -> bucket) (limit : RateLimiter -> Z) :
  (forall r op, limit (step r op) = limit r) ->
  (forall r, limiter_ok r -> 0 <= limit r < 2 ^ 63 /\ bucket_ok (limit r) (bk r)) ->
  (forall r op, if mine op then
     exists rnd, (call r op).1 = (allow (limit r) (window r) (jitter r) (op_time op) rnd (bk r)).1 /\
       bk (step r op) = (allow (limit r) (window r) (jitter r) (op_time op) rnd (bk r)).2
   else bk (step r op) = bk r) ->
  forall from until ops r, limiter_ok r -> until <= from + window r ->
  Forall (fun op => from <= op_time op <= until) ops ->
  admitted mine r ops <= budget (limit r) until (bk r).
Proof.
  intros Hlim Hok Hcall from until ops r Hr Hw Hops. revert r Hr Hw.
  induction Hops as [|op ops Hop Hops IH]; intros r Hr Hw; cbn [admitted].
  - destruct (Hok r Hr) as [? Hb]. unfold budget, bucket_ok in *. case_if; lia.
  - specialize (IH (step r op) (limiter_step_ok r op Hr)). rewrite Hlim in IH.
    destruct (limiter_step_config r op) as (_ & _ & Hwin & _). rewrite Hwin in IH. specialize (IH Hw).
    destruct (Hok r Hr) as [? Hb]. destruct Hr as [_ _ Hw0 Hj0 _ _].
    specialize (Hcall r op). destruct (mine op).
    + destruct Hcall as (rnd & -> & Hbk). rewrite Hbk in IH. cbn [andb].
      etrans; [apply Z.add_le_mono_l, IH|]. by apply (allow_budget _ _ _ H) with from.
    + rewrite Hcall in IH. simpl. lia.
Qed.

(** C31: The rolling-window bound.  After any history, in any interval no
    longer than the window, whatever the random jitter and however the calls
    interleave, one address is admitted at most twice its limit, and so is one
    token: a window that ends inside the interval can be followed by one more. *)
Theorem rolling_window_bound (ip_limit token_limit win maxJitter from : Z)
    (pre mid : list Op) (ip token : string) :
  0 <= ip_limit < 2 ^ 63 -> 0 <= token_limit < 2 ^ 63 -> 0 <= win -> 0 <= maxJitter ->
  token <> "" -> Forall (fun op => from <= op_time op <= from + win) mid ->
  let r := run step pre (NewRateLimiterWithJitter ip_limit token_limit win maxJitter) in
  admitted (from_ip ip) r mid <= 2 * ip_limit /\
  admitted (with_token token) r mid <= 2 * token_limit.
Proof.
  intros Hi Ht Hw Hj Htok Hmid r.
  pose proof (NewLimiter_ok ip_limit token_limit win maxJitter Hi Ht Hw Hj) as H0.
  assert (limiter_ok r /\ perIP r = ip_limit /\ perToken r = token_limit /\ window r = win)
    as (Hr & Hip & Htk & Hwin).
  { subst r. apply (run_invariant step (fun r => limiter_ok r /\ perIP r = ip_limit /\
      perToken r = token_limit /\ window r = win)); [|done].
    intros s op (? & ? & ? & ?). destruct (limiter_step_config s op) as (? & ? & ? & ?).
    split_and!; [by apply limiter_step_ok|congruence..]. }
  assert (forall limit b, bucket_ok limit b -> budget limit (from + win) b <= 2 * limit) as Hbud.
  { intros limit b. unfold bucket_ok, budget. intros. case_if; lia. }
  split.
  - etrans; [apply (admitted_budget (from_ip ip) (fun r => getBucket (ipBuckets r) ip) perIP
      ltac:(apply limiter_step_config) ltac:(intros r' []; auto) ltac:(intros; apply call_from_ip)
      from (from + win)); [done|rewrite Hwin; lia|done]|].
    rewrite <-Hip. apply Hbud. rewrite Hip. rewrite <-Hip. apply Hr.
  - etrans; [apply (admitted_budget (with_token token) (fun r => getBucket (tokBuckets r) token) perToken
      ltac:(apply limiter_step_config) ltac:(intros r' []; auto) ltac:(intros; by apply call_with_token)
      from (from + win)); [done|rewrite Hwin; lia|done]|].
    rewrite <-Htk. apply Hbud, Hr.
Qed.

(** The answers to one client's calls, in order. *)
Fixpoint answers (mine : Op -> bool) (r : RateLimiter) (ops : list Op) : list (bool * Z) :=
  match ops with
  | [] => []
  | op :: ops' =>
      if mine op then (call r op).1 :: answers mine (step r op) ops'
      else answers mine (step r op) ops'
  end.

Definition three_calls : list Op :=
  [OIP "10.0.0.1:1" 60 0; OIP "10.0.0.1:2" 60 0; OIP "10.0.0.1:3" 60 0].

(** The bound is reached: with two requests per window of 60, the address is
    admitted four times within two instants; and a client that waited the
    [retryAfter] it was told to is refused once more, with a wait of zero. *)
Example bound_is_tight :
  answers (from_ip "10.0.0.1") (NewRateLimiter 2 2 60)
    [OIP "10.0.0.1:1" 1 0; OIP "10.0.0.1:1" 61 0; OIP "10.0.0.1:1" 61 0;
     OIP "10.0.0.1:1" 62 0; OIP "10.0.0.1:1" 62 0; OIP "10.0.0.1:1" 62 0;
     OIP "10.0.0.1:1" 122 0]
  = [(true, 0); (true, 0); (false, 0); (true, 0); (true, 0); (false, 60); (false, 0)].
Proof. reflexivity. Qed.

Lemma rolling_window_bound_witness :
  admitted (from_ip "10.0.0.1") (NewRateLimiterWithJitter 2 2 60 10) three_calls <= 4 /\
  admitted (with_token "t") (NewRateLimiterWithJitter 2 2 60 10) three_calls <= 4.
Proof.
  apply (rolling_window_bound 2 2 60 10 60 [] three_calls "10.0.0.1" "t"); by_compute.
Defined.
