(* ===== verification/Gateway.v ===== *)
(** * The vocabulary of the gateway ([core/domain/gateway],
      [core/application/gateway/proxylistener.go], [lifecycle.go],
      [access_log_lifecycle.go], [security_headers.go])

    Requests, responses, sentinel errors, the context that travels through
    the dispatch pipeline and the two kinds of extension points the pipeline
    calls: [ProxyListener] and [RequestLifecycle], of which the access log is
    one.  Extensions keep state of their own, the type [H]. *)
From S2P Require Import Prelude GoStrings Ipc RouteMap.
Local Open Scope string_scope.
Local Open Scope list_scope.
Local Open Scope Z_scope.

(** ** Types and errors *)

Record Claims := mkClaims { UserID : string; Roles : list string }.

Notation headers := (gmap string string).

Record GatewayRequest := mkRequest {
  Method : string;
  Path : string;
  Headers : headers;
  Query : headers;
  Params : option headers;
  Body : bytes;
  rclaims : option Claims;
  ClientIP : string;
}.

Record GatewayResponse := mkResponse {
  StatusCode : Z;
  respHeaders : headers;
  respBody : bytes;
  CorrelationID : string;
}.

Record WorkerResponse := mkWorkerResponse {
  w_StatusCode : Z;
  w_Headers : headers;
  w_Body : bytes;
  w_CorrelationID : string;
}.

Definition ErrRouteNotFound := Sentinel "gateway.ErrRouteNotFound" "route not found".
Definition ErrUnauthorized := Sentinel "gateway.ErrUnauthorized" "unauthorized".
Definition ErrForbidden := Sentinel "gateway.ErrForbidden" "forbidden".
Definition ErrPayloadTooLarge := Sentinel "gateway.ErrPayloadTooLarge" "payload too large".
Definition ErrUpstreamTimeout := Sentinel "gateway.ErrUpstreamTimeout" "upstream timeout".

Definition set_Headers (h : headers) (r : GatewayRequest) : GatewayRequest :=
  mkRequest (Method r) (Path r) h (Query r) (Params r) (Body r) (rclaims r) (ClientIP r).
Definition set_Params (p : option headers) (r : GatewayRequest) : GatewayRequest :=
  mkRequest (Method r) (Path r) (Headers r) (Query r) p (Body r) (rclaims r) (ClientIP r).
Definition set_Claims (c : option Claims) (r : GatewayRequest) : GatewayRequest :=
  mkRequest (Method r) (Path r) (Headers r) (Query r) (Params r) (Body r) c (ClientIP r).
Definition set_CorrelationID (c : string) (r : GatewayResponse) : GatewayResponse :=
  mkResponse (StatusCode r) (respHeaders r) (respBody r) c.

(** [req.Headers[k]]: the empty string when the key is absent. *)
Definition header (h : headers) (k : string) : string := default "" (h !! k).

(** ** The lifecycle context ([proxylistener.go]) *)

Inductive Phase := PhaseNone | PhaseRouteMatch | PhasePreDispatch | PhasePostDispatch | PhaseError.
#[export] Instance Phase_eq_dec : EqDecision Phase.
Proof. solve_decision. Defined.

(** [Request] is the pointer the pipeline itself works on, so the request
    lives here; [early] is [earlyResp] when [respondEarly] is set.  What
    listeners keep in [Metadata] belongs to their own state. *)
Record LifecycleContext := mkLC {
  Request : GatewayRequest;
  Route : option RouteEntry;
  lcCorrelationID : string;
  lcPhase : Phase;
  RouteParams : option headers;
  lcWorkerID : string;
  lcErr : option error;
  lcStatus : Z;
  early : option GatewayResponse;
}.

Definition NewLifecycleContext (req : GatewayRequest) : LifecycleContext :=
  mkLC req None "" PhaseNone None "" None 0 None.

Definition lc_request (r : GatewayRequest) (lc : LifecycleContext) : LifecycleContext :=
  mkLC r (Route lc) (lcCorrelationID lc) (lcPhase lc) (RouteParams lc) (lcWorkerID lc)
    (lcErr lc) (lcStatus lc) (early lc).
Definition lc_route (r : RouteEntry) (lc : LifecycleContext) : LifecycleContext :=
  mkLC (Request lc) (Some r) (lcCorrelationID lc) (lcPhase lc) (RouteParams lc) (lcWorkerID lc)
    (lcErr lc) (lcStatus lc) (early lc).
Definition lc_correlation (c : string) (lc : LifecycleContext) : LifecycleContext :=
  mkLC (Request lc) (Route lc) c (lcPhase lc) (RouteParams lc) (lcWorkerID lc)
    (lcErr lc) (lcStatus lc) (early lc).
Definition lc_phase (p : Phase) (lc : LifecycleContext) : LifecycleContext :=
  mkLC (Request lc) (Route lc) (lcCorrelationID lc) p (RouteParams lc) (lcWorkerID lc)
    (lcErr lc) (lcStatus lc) (early lc).
Definition lc_params (p : option headers) (lc : LifecycleContext) : LifecycleContext :=
  mkLC (Request lc) (Route lc) (lcCorrelationID lc) (lcPhase lc) p (lcWorkerID lc)
    (lcErr lc) (lcStatus lc) (early lc).
Definition lc_worker (w : string) (lc : LifecycleContext) : LifecycleContext :=
  mkLC (Request lc) (Route lc) (lcCorrelationID lc) (lcPhase lc) (RouteParams lc) w
    (lcErr lc) (lcStatus lc) (early lc).
Definition lc_err (e : error) (lc : LifecycleContext) : LifecycleContext :=
  mkLC (Request lc) (Route lc) (lcCorrelationID lc) (lcPhase lc) (RouteParams lc) (lcWorkerID lc)
    (Some e) (lcStatus lc) (early lc).
Definition lc_status (s : Z) (lc : LifecycleContext) : LifecycleContext :=
  mkLC (Request lc) (Route lc) (lcCorrelationID lc) (lcPhase lc) (RouteParams lc) (lcWorkerID lc)
    (lcErr lc) s (early lc).
Definition lc_early (r : GatewayResponse) (lc : LifecycleContext) : LifecycleContext :=
  mkLC (Request lc) (Route lc) (lcCorrelationID lc) (lcPhase lc) (RouteParams lc) (lcWorkerID lc)
    (lcErr lc) (lcStatus lc) (Some r).

(** What a listener may do to stop the pipeline. *)
Definition Abort (err : error) (lc : LifecycleContext) : LifecycleContext :=
  lc_early (mkResponse (lcStatus lc) ∅ (of_string (err_text err)) "") (lc_err err lc).
Definition RespondBeforeDispatch (resp : GatewayResponse) (lc : LifecycleContext) : LifecycleContext :=
  lc_status (StatusCode resp) (lc_early resp lc).
Definition EarlyResponse (lc : LifecycleContext) : option GatewayResponse := early lc.

(** ** Extension points *)

Record ProxyListener (H : Type) := mkListener {
  OnRouteMatch : LifecycleContext -> H -> LifecycleContext * H;
  OnPreDispatch : LifecycleContext -> H -> LifecycleContext * H;
  OnPostDispatch : Z -> LifecycleContext -> H -> LifecycleContext * H;
  OnError : Phase -> LifecycleContext -> H -> LifecycleContext * H;
}.
Arguments mkListener {H}.
Arguments OnRouteMatch {H}.
Arguments OnPreDispatch {H}.
Arguments OnPostDispatch {H}.
Arguments OnError {H}.

(** [FuncListener]: the functions that are not set do nothing. *)
Definition FuncListener {H}
    (onRouteMatch onPreDispatch : option (LifecycleContext -> H -> LifecycleContext * H))
    (onPostDispatch : option (Z -> LifecycleContext -> H -> LifecycleContext * H))
    (onError : option (Phase -> LifecycleContext -> H -> LifecycleContext * H))
    : ProxyListener H :=
  mkListener
    (fun lc h => match onRouteMatch with Some f => f lc h | None => (lc, h) end)
    (fun lc h => match onPreDispatch with Some f => f lc h | None => (lc, h) end)
    (fun d lc h => match onPostDispatch with Some f => f d lc h | None => (lc, h) end)
    (fun p lc h => match onError with Some f => f p lc h | None => (lc, h) end).

(** Hooks see the request, the route and the response by pointer.  The [Z] is
    a reading of the clock. *)
Record RequestLifecycle (H : Type) := mkHook {
  OnBeforeDispatch : Z -> GatewayRequest -> RouteEntry -> H ->
    option error * GatewayRequest * RouteEntry * H;
  OnAfterDispatch : Z -> GatewayRequest -> GatewayResponse -> H -> GatewayResponse * H;
  OnWorkerError : string -> GatewayRequest -> error -> H -> GatewayRequest * H;
}.
Arguments mkHook {H}.
Arguments OnBeforeDispatch {H}.
Arguments OnAfterDispatch {H}.
Arguments OnWorkerError {H}.

(** [getCorrelationID] of a request that is not nil. *)
Definition getCorrelationID (req : GatewayRequest) : string :=
  let cid := header (Headers req) "X-Request-Id" in
  if String.eqb cid "" then "-" else cid.

Definition getUserID (req : GatewayRequest) : string :=
  match rclaims req with None => "-" | Some c => UserID c end.

(** ** The access log ([access_log_lifecycle.go])

    [startTimes] is the map of the requests in flight; [lines] are the
    entries written, as (method, path, user, status, latency, correlation id,
    whether at warning level). *)
Record AccessLog := mkAccessLog {
  startTimes : gmap string Z;
  lines : list (string * string * string * Z * Z * string * bool);
}.

Definition NewAccessLogLifecycle : RequestLifecycle AccessLog :=
  mkHook
    (fun now req route a =>
       (None, req, route, mkAccessLog (<[getCorrelationID req := now]> (startTimes a)) (lines a)))
    (fun now req resp a =>
       let cid := getCorrelationID req in
       let start := default now (startTimes a !! cid) in
       let line := (Method req, Path req, getUserID req, StatusCode resp, time_sub now start,
                    cid, 400 <=? StatusCode resp) in
       (resp, mkAccessLog (delete cid (startTimes a)) (lines a ++ [line])))
    (fun _ req _ a => (req, mkAccessLog (delete (getCorrelationID req) (startTimes a)) (lines a))).

(** ** Security headers ([security_headers.go]) *)

Definition SecurityHeaders : headers :=
  list_to_map
    [("X-Content-Type-Options", "nosniff"); ("X-Frame-Options", "DENY");
     ("X-XSS-Protection", "1; mode=block");
     ("Strict-Transport-Security", "max-age=63072000; includeSubDomains");
     ("Referrer-Policy", "strict-origin-when-cross-origin");
     ("Content-Security-Policy", "default-src 'self'");
     ("Permissions-Policy", "geolocation=(), camera=(), microphone=(), payment=(), usb=()")].
