(* ===== verification/Dispatcher.v ===== *)
(** * The dispatch pipeline ([core/application/gateway/dispatcher.go])

    One request through the pipeline: route lookup, circuit breaker, listeners,
    drain check, JWT and roles, schema, hooks, worker selection, send, receive,
    response.  Every stage is a function on [Run]: the state of the parts the
    dispatcher shares with the rest of the core ([World]), the request's
    lifecycle context and its status code.  A stage lets the request go on or
    stops it with what it returns.  Metrics and log lines are left out.

    The transport, the JWT validator, the schema validator and the JSON
    encoding are parameters: an interface here as there, or code outside the
    repository. *)
From S2P Require Import Prelude GoStrings Ipc RouteMap Circuit Worker Pool PoolManager Drainer Gateway.
Local Open Scope string_scope.
Local Open Scope list_scope.
Local Open Scope Z_scope.

Definition HeaderCorrelationID := "X-Request-Id".

(** [ipc.Transport] as the dispatcher uses it.  The boolean of
    [ReceiveResponse] says whether the dispatch context has ended, by the
    deadline or with the request, when it returns. *)
Class Transport (T : Type) := {
  Send : string -> Message -> T -> option error * T;
  ReceiveResponse : string -> T -> result Message * bool * T;
}.

Record requestPayload := mkPayload {
  p_Method : string;
  p_Path : string;
  p_Headers : headers;
  p_Query : headers;
  p_Params : option headers;
  p_Body : bytes;
  p_Claims : option Claims;
  p_ClientIP : string;
  p_CorrelationID : string;
  p_Timeout : string;
}.

(** [json.Marshal], [json.Unmarshal] at the two types used, and
    [time.Duration.String]. *)
Record Encoding := mkEncoding {
  marshal : requestPayload -> result bytes;
  unmarshal : bytes -> result WorkerResponse;
  duration_string : Z -> string;
}.

Definition extractPrefix (workerID : string) : string := PoolManager.extractPrefix workerID.

Definition stripBearerPrefix (token : string) : string :=
  if (7 <? String.length token)%nat && String.eqb (take_str 7 token) "Bearer "
  then drop_str 7 token else token.

(** The set of the caller's roles, asked for each required role. *)
Definition hasRequiredRole (callerRoles requiredRoles : list string) : bool :=
  let set : gset string := list_to_set callerRoles in
  existsb (fun r => bool_decide (r ∈ set)) requiredRoles.

Definition resolveCorrelationID (workerCorrelationID requestCorrelationID : string) : string :=
  if String.eqb workerCorrelationID "" then requestCorrelationID else workerCorrelationID.

(** [fmt.Sprintf("%s:%s", req.Method, route.Path)]. *)
Definition routeKey (method path : string) : string := method +:+ ":" +:+ path.

Section Pipeline.
Context {T : Type} `{TR : !Transport T} {H : Type} (enc : Encoding).

(** The fields fixed at construction; [jwt] and [schema] may be nil. *)
Record Dispatcher := mkDispatcher {
  routes : RouteMap;
  jwt : option (string -> result Claims);
  schema : option (string -> bytes -> option error);
  timeout : Z;
  listeners : list (ProxyListener H);
  hooks : list (RequestLifecycle H);
}.

(** What a request can change: the breakers, the drainer and the pools (each
    may be absent), the heap of workers, the transport and the state of the
    extensions. *)
Record World := mkWorld {
  circuits : Registry;
  drainer : option WorkerDrainer;
  poolMgr : option Manager;
  workers : heap;
  wire : T;
  ext : H;
}.

Definition w_circuits (c : Registry) (w : World) : World :=
  mkWorld c (drainer w) (poolMgr w) (workers w) (wire w) (ext w).
Definition w_drainer (d : option WorkerDrainer) (w : World) : World :=
  mkWorld (circuits w) d (poolMgr w) (workers w) (wire w) (ext w).
Definition w_poolMgr (m : option Manager) (w : World) : World :=
  mkWorld (circuits w) (drainer w) m (workers w) (wire w) (ext w).
Definition w_wire (t : T) (w : World) : World :=
  mkWorld (circuits w) (drainer w) (poolMgr w) (workers w) t (ext w).
Definition w_ext (h : H) (w : World) : World :=
  mkWorld (circuits w) (drainer w) (poolMgr w) (workers w) (wire w) h.

Record Run := mkRun { wd : World; lc : LifecycleContext; code : Z }.

Definition on_wd (f : World -> World) (r : Run) : Run := mkRun (f (wd r)) (lc r) (code r).
Definition on_lc (f : LifecycleContext -> LifecycleContext) (r : Run) : Run :=
  mkRun (wd r) (f (lc r)) (code r).
Definition set_code (c : Z) (r : Run) : Run := mkRun (wd r) (lc r) c.
Definition req (r : Run) : GatewayRequest := Request (lc r).

(** [*statusCode = c; lc.StatusCode = c]. *)
Definition status (c : Z) (r : Run) : Run := set_code c (on_lc (lc_status c) r).

Inductive verdict := Continue | Stop (resp : option GatewayResponse).
Definition Stage := Run -> outcome (verdict * Run).

Definition seq (s1 s2 : Stage) : Stage := fun r =>
  match s1 r with
  | Ret (Continue, r') => s2 r'
  | o => o
  end.

(** A method call on the breaker of a key, through the registry. *)
Definition on_breaker {A} (key : string) (f : Breaker -> A * Breaker) (w : World) : A * World :=
  let '(p, reg) := Circuit.Get key (circuits w) in
  let '(a, b) := f (default (Circuit.New (reg_config reg) (reg_log reg)) (store reg !! p)) in
  (a, w_circuits (update_at p b reg) w).

Definition record_failure (now : Z) (key : string) (w : World) : World :=
  (on_breaker key (fun b => (tt, (RecordFailure now b).1)) w).2.
Definition record_success (now : Z) (key : string) (w : World) : World :=
  (on_breaker key (fun b => (tt, (RecordSuccess now b).1)) w).2.

(** ** The stages *)

Definition initCorrelationID (uuid : string) (rq : GatewayRequest) : string * GatewayRequest :=
  let c := header (Headers rq) HeaderCorrelationID in
  let c := if String.eqb c "" then uuid else c in
  (c, set_Headers (<[HeaderCorrelationID := c]> (Headers rq)) rq).

(** The request's own correlation id, as the responses echo it. *)
Definition req_correlation (r : Run) : string := header (Headers (req r)) HeaderCorrelationID.

Definition lookupRoute (d : Dispatcher) (r : Run) : option RouteEntry * Run :=
  match Lookup (routes d) (Method (req r)) (Path (req r)) with
  | None =>
      (None, on_lc (fun l => lc_phase PhaseRouteMatch (lc_err ErrRouteNotFound (lc_status 404 l))) r)
  | Some res =>
      (Some (lr_entry res),
       on_lc (fun l => lc_params (lr_params res) (lc_phase PhaseRouteMatch (lc_route (lr_entry res) l))) r)
  end.

(** The route is shared with [lc.Route], whose fields a listener may have
    changed; that a listener makes [lc.Route], [lc.Request] or [lc.earlyResp]
    point elsewhere is not modelled. *)
Definition route (r : Run) : RouteEntry :=
  default (mkRouteEntry "" "" "" [] "" "") (Route (lc r)).

Definition breaker_open_response (st : Circuit.State) (r : Run) : GatewayResponse :=
  mkResponse 503 {["Retry-After" := "30"]}
    (of_string ("{" +:+ String "034" ("error" +:+ String "034" (":" +:+ String "034"
      ("circuit breaker open" +:+ String "034" ("," +:+ String "034" ("state" +:+ String "034"
      (":" +:+ String "034" (Circuit.State_String st +:+ String "034" "}")))))))))
    (req_correlation r).

Definition checkCircuitBreaker (now : Z) (key : string) : Stage := fun r =>
  let '((ok, st), w) :=
    on_breaker key (fun b => let '(ok, b', _) := Allow now b in ((ok, state b'), b')) (wd r) in
  let r := mkRun w (lc r) (code r) in
  if ok then Ret (Continue, r)
  else
    let err := NewErr ("circuit breaker open for route " +:+ key +:+ " (state: " +:+ Circuit.State_String st +:+ ")") in
    let r := on_lc (fun l => lc_phase PhasePreDispatch (lc_err err l)) (status 503 r) in
    Ret (Stop (Some (breaker_open_response st r)), r).

(** The response is the one that [lc.earlyResp] points to. *)
Fixpoint routeMatch_loop (ls : list (ProxyListener H)) : Stage := fun r =>
  match ls with
  | [] => Ret (Continue, r)
  | l :: ls' =>
      let '(c, h) := OnRouteMatch l (lc r) (ext (wd r)) in
      let r := mkRun (w_ext h (wd r)) c (code r) in
      match EarlyResponse (lc r) with
      | Some resp =>
          let resp' := set_CorrelationID (req_correlation r) resp in
          let r := on_lc (lc_early resp') (set_code (StatusCode resp) r) in
          Ret (Stop (Some resp'), r)
      | None => routeMatch_loop ls' r
      end
  end.
Definition runRouteMatchHooks (d : Dispatcher) : Stage := routeMatch_loop (listeners d).

Definition checkDrainStatus : Stage := fun r =>
  match drainer (wd r) with
  | Some dr =>
      if IsDraining (re_workerID (route r)) dr then
        let r := on_lc (lc_phase PhasePreDispatch) (status 503 r) in
        Ret (Stop (Some (mkResponse 503 {["Retry-After" := "1"]}
               (of_string ("{" +:+ String "034" ("error" +:+ String "034" (":" +:+ String "034"
                  ("worker draining" +:+ String "034" "}"))))) (req_correlation r))), r)
      else Ret (Continue, r)
  | None => Ret (Continue, r)
  end.

(** [*statusCode], [lc.StatusCode], [lc.Err] and [lc.Phase] of a refusal. *)
Definition refuse (c : Z) (e : error) (r : Run) : outcome (verdict * Run) :=
  Ret (Stop None, on_lc (fun l => lc_phase PhasePreDispatch (lc_err e l)) (status c r)).

Definition validateJWT (d : Dispatcher) : Stage := fun r =>
  match re_authRoles (route r) with
  | [] => Ret (Continue, r)
  | required =>
      let token := header (Headers (req r)) "Authorization" in
      if String.eqb token "" then refuse 401 ErrUnauthorized r
      else
        match jwt d with
        | None => Panic "nil pointer dereference"
        | Some validate =>
            match validate (stripBearerPrefix token) with
            | Err _ => refuse 401 ErrUnauthorized r
            | Ok claims =>
                let r := on_lc (fun l => lc_request (set_Claims (Some claims) (Request l)) l) r in
                if hasRequiredRole (Roles claims) required then Ret (Continue, r)
                else refuse 403 ErrForbidden r
            end
        end
  end.

Definition validateSchema (d : Dispatcher) : Stage := fun r =>
  if negb (String.eqb (re_validate (route r)) "") && (0 <? length (Body (req r)))%nat then
    match schema d with
    | None => Panic "nil pointer dereference"
    | Some validate =>
        match validate (re_validate (route r)) (Body (req r)) with
        | Some err => refuse 400 (WrapErr "" ErrSchemaValidation (": " +:+ err_text err)) r
        | None => Ret (Continue, r)
        end
    end
  else Ret (Continue, r).

(** The hooks get a copy of the route, the same one for all of them. *)
Fixpoint preDispatch_loop (now : Z) (hs : list (RequestLifecycle H)) (rt : RouteEntry) : Stage := fun r =>
  match hs with
  | [] => Ret (Continue, r)
  | hk :: hs' =>
      let '(err, rq, rt', h) := OnBeforeDispatch hk now (req r) rt (ext (wd r)) in
      let r := mkRun (w_ext h (wd r)) (lc_request rq (lc r)) (code r) in
      match err with
      | Some e => Ret (Stop None, on_lc (lc_err e) (status 400 r))
      | None => preDispatch_loop now hs' rt' r
      end
  end.
Definition runPreDispatchHooks (now : Z) (d : Dispatcher) : Stage := fun r =>
  preDispatch_loop now (hooks d) (route r) (on_lc (lc_phase PhasePreDispatch) r).

(** *** Sending *)

(** [selectWorker] advances the pool's round-robin counter. *)
Definition selectWorker (workerID : string) (w : World) : outcome (string * World) :=
  match poolMgr w with
  | None => Ret (workerID, w)
  | Some m =>
      let prefix := extractPrefix workerID in
      match GetPool prefix m with
      | None => Ret (workerID, w)
      | Some p =>
          match SelectWorker (workers w) p with
          | Panic e => Panic e
          | Ret (sel, p') =>
              let w' := w_poolMgr (Some (set_pool prefix p' m)) w in
              match sel with
              | None => Ret (workerID, w')
              | Some l => Ret (ID (deref (workers w) l), w')
              end
          end
      end
  end.

Definition buildIPCPayload (d : Dispatcher) (rq : GatewayRequest) (correlationID : string)
    : result bytes :=
  marshal enc (mkPayload (Method rq) (Path rq) (Headers rq) (Query rq) (Params rq) (Body rq)
                 (rclaims rq) (ClientIP rq) correlationID (duration_string enc (timeout d))).

(** The active-request count of the worker's pool, when it has one. *)
Definition track (f : string -> Pool -> Pool) (workerID : string) (w : World) : World :=
  match poolMgr w with
  | None => w
  | Some m =>
      match GetPool (extractPrefix workerID) m with
      | None => w
      | Some p => w_poolMgr (Some (set_pool (extractPrefix workerID) (f workerID p) m)) w
      end
  end.

Definition acquire (workerID : string) (r : Run) : outcome Run :=
  match drainer (wd r) with
  | None => Ret r
  | Some dr =>
      match Acquire workerID dr with
      | Panic e => Panic e
      | Ret dr' => Ret (on_lc (lc_worker workerID) (on_wd (w_drainer (Some dr')) r))
      end
  end.

Definition releaseInFlight (r : Run) : outcome Run :=
  match drainer (wd r) with
  | None => Ret r
  | Some dr =>
      if String.eqb (lcWorkerID (lc r)) "" then Ret r
      else match Release (lcWorkerID (lc r)) dr with
           | Panic e => Panic e
           | Ret dr' => Ret (on_wd (w_drainer (Some dr')) r)
           end
  end.

Fixpoint workerError_loop (hs : list (RequestLifecycle H)) (workerID : string) (e : error) (r : Run) : Run :=
  match hs with
  | [] => r
  | hk :: hs' =>
      let '(rq, h) := OnWorkerError hk workerID (req r) e (ext (wd r)) in
      workerError_loop hs' workerID e (mkRun (w_ext h (wd r)) (lc_request rq (lc r)) (code r))
  end.

(** The part the three error handlers share: hooks, then the breaker. *)
Definition worker_failed (d : Dispatcher) (now : Z) (key workerID : string) (e : error) (r : Run) : Run :=
  on_wd (record_failure now key) (workerError_loop (hooks d) workerID e r).

Definition handleSendError (d : Dispatcher) (now : Z) (key workerID : string) (err : error) (r : Run) : Run :=
  let e := WrapErr ("gateway: send to worker " +:+ workerID +:+ ": ") err "" in
  worker_failed d now key workerID e
    (on_lc (fun l => lc_phase PhasePreDispatch (lc_err e l)) (status 502 r)).

Definition handleReceiveError (d : Dispatcher) (now : Z) (key workerID : string) (expired : bool)
    (err : error) (r : Run) : Run :=
  let e := if expired then ErrUpstreamTimeout
           else WrapErr ("gateway: receive from worker " +:+ workerID +:+ ": ") err "" in
  worker_failed d now key workerID e
    (on_lc (fun l => lc_phase PhasePostDispatch (lc_err e l)) (status (if expired then 504 else 502) r)).

(** [string(payload)] of an error frame. *)
Definition handleWorkerError (d : Dispatcher) (now : Z) (key workerID : string) (respMsg : Message) (r : Run)
    : option GatewayResponse * Run :=
  let e := NewErr ("worker error: " +:+ String.string_of_list_ascii (Payload respMsg)) in
  let r := worker_failed d now key workerID e (on_lc (lc_err e) (status 502 r)) in
  (Some (mkResponse 502 ∅ (Payload respMsg) (req_correlation r)), r).

Inductive received :=
  | Decoded (resp : WorkerResponse)
  | Failed (resp : option GatewayResponse).

(** A payload that does not parse is passed through with status 200. *)
Definition decodeWorkerResponse (respMsg : Message) (correlationID : string) : received :=
  match unmarshal enc (Payload respMsg) with
  | Err _ => Failed (Some (mkResponse 200 ∅ (Payload respMsg) correlationID))
  | Ok wr =>
      Decoded (mkWorkerResponse (if w_StatusCode wr =? 0 then 200 else w_StatusCode wr)
                 (w_Headers wr) (w_Body wr) (w_CorrelationID wr))
  end.

(** The exchange with the worker, between the two updates of the pool. *)
Definition exchange (d : Dispatcher) (now : Z) (key workerID : string) (payload : bytes)
    (correlationID : string) (r : Run) : received * Run :=
  let '(serr, t1) := Send workerID (mkMessage TypeRequest payload) (wire (wd r)) in
  let r := on_wd (w_wire t1) r in
  match serr with
  | Some err => (Failed None, handleSendError d now key workerID err r)
  | None =>
      let '(rmsg, expired, t2) := ReceiveResponse workerID (wire (wd r)) in
      let r := on_wd (w_wire t2) r in
      match rmsg with
      | Err err => (Failed None, handleReceiveError d now key workerID expired err r)
      | Ok msg =>
          if decide (mtype msg = TypeError) then
            let '(resp, r) := handleWorkerError d now key workerID msg r in (Failed resp, r)
          else (decodeWorkerResponse msg correlationID, r)
      end
  end.

Definition sendAndReceive (d : Dispatcher) (now : Z) (key : string) (r : Run)
    : outcome (received * Run) :=
  let correlationID := req_correlation r in
  let r := on_wd (fun w => (on_breaker key (fun b => (tt, b)) w).2) r in
  match selectWorker (re_workerID (route r)) (wd r) with
  | Panic e => Panic e
  | Ret (sel, w) =>
      let workerID := if String.eqb sel "" then re_workerID (route r) else sel in
      let r := mkRun w (lc r) (code r) in
      match buildIPCPayload d (req r) correlationID with
      | Err _ => Ret (Failed None, set_code 500 r)
      | Ok payload =>
          match acquire workerID r with
          | Panic e => Panic e
          | Ret r =>
              let r := on_wd (track IncrementActiveReqs workerID) r in
              let '(res, r) := exchange d now key workerID payload correlationID r in
              Ret (res, on_wd (track DecrementActiveReqs workerID) r)
          end
      end
  end.

Fixpoint afterDispatch_loop (now : Z) (hs : list (RequestLifecycle H)) (resp : GatewayResponse) (r : Run)
    : GatewayResponse * Run :=
  match hs with
  | [] => (resp, r)
  | hk :: hs' =>
      let '(resp, h) := OnAfterDispatch hk now (req r) resp (ext (wd r)) in
      afterDispatch_loop now hs' resp (on_wd (w_ext h) r)
  end.

Definition recordCircuitBreakerResult (now : Z) (key : string) (statusCode : Z) (w : World) : World :=
  if 500 <=? statusCode then record_failure now key w else record_success now key w.

Definition processWorkerResponse (d : Dispatcher) (now : Z) (key correlationID : string)
    (wr : WorkerResponse) (r : Run) : GatewayResponse * Run :=
  let r := on_lc (lc_phase PhasePostDispatch) (status (w_StatusCode wr) r) in
  let resp := mkResponse (w_StatusCode wr) (w_Headers wr) (w_Body wr)
                (resolveCorrelationID (w_CorrelationID wr) correlationID) in
  let '(resp, r) := afterDispatch_loop now (hooks d) resp r in
  (resp, on_wd (recordCircuitBreakerResult now key (w_StatusCode wr)) r).

(** The deferred notifications. *)
Fixpoint notify_loop (latency : Z) (ls : list (ProxyListener H)) (r : Run) : Run :=
  match ls with
  | [] => r
  | l :: ls' =>
      let r :=
        if (400 <=? code r) || bool_decide (lcErr (lc r) <> None) then
          let '(c, h) := OnError l (lcPhase (lc r)) (lc r) (ext (wd r)) in
          mkRun (w_ext h (wd r)) c (code r)
        else r in
      let '(c, h) := OnPostDispatch l latency (lc r) (ext (wd r)) in
      notify_loop latency ls' (mkRun (w_ext h (wd r)) c (code r))
  end.
Definition notifyListeners (latency : Z) (d : Dispatcher) (r : Run) : Run :=
  notify_loop latency (listeners d) r.

(** ** The pipeline

    [clk] gives the readings of the clock: at the start, by the breaker, by
    the hooks before and after the exchange, by the breaker again and at the
    end.  [uuid] is the identifier drawn for a request without one. *)
Definition checks (clk : nat -> Z) (d : Dispatcher) (key : string) : Stage :=
  seq (checkCircuitBreaker (clk 1%nat) key)
    (seq (runRouteMatchHooks d)
      (seq checkDrainStatus
        (seq (validateJWT d)
          (seq (validateSchema d)
            (runPreDispatchHooks (clk 2%nat) d))))).

Record Reply := mkReply {
  response : option GatewayResponse;
  err : option error;
  final : Run;
}.

(** The body between the route lookup and the deferred calls. *)
Definition serve (clk : nat -> Z) (d : Dispatcher) (key correlationID : string) (r : Run)
    : outcome Reply :=
  match checks clk d key r with
  | Panic e => Panic e
  | Ret (Stop resp, r) => Ret (mkReply resp (lcErr (lc r)) r)
  | Ret (Continue, r) =>
      match sendAndReceive d (clk 3%nat) key r with
      | Panic e => Panic e
      | Ret (Failed resp, r) =>
          match releaseInFlight r with
          | Panic e => Panic e
          | Ret r => Ret (mkReply resp (lcErr (lc r)) r)
          end
      | Ret (Decoded wr, r) =>
          let '(resp, r) := processWorkerResponse d (clk 4%nat) key correlationID wr r in
          match releaseInFlight r with
          | Panic e => Panic e
          | Ret r => Ret (mkReply (Some resp) None r)
          end
      end
  end.

Definition Dispatch (clk : nat -> Z) (uuid : string) (d : Dispatcher) (rq : GatewayRequest)
    (w : World) : outcome Reply :=
  let '(correlationID, rq) := initCorrelationID uuid rq in
  let r := mkRun w (lc_correlation correlationID (NewLifecycleContext rq)) 0 in
  let finish o :=
    match o with
    | Panic e => Panic e
    | Ret reply =>
        Ret (mkReply (response reply) (err reply)
               (notifyListeners (time_sub (clk 5%nat) (clk 0%nat)) d (final reply)))
    end in
  match lookupRoute d r with
  | (None, r) => finish (Ret (mkReply None (Some ErrRouteNotFound) r))
  | (Some rt, r) =>
      let r := on_lc (fun l => lc_request (set_Params (RouteParams l) (Request l)) l) r in
      let key := routeKey (Method (req r)) (re_path rt) in
      (* [Get] and [Stats] for the state gauge *)
      let r := on_wd (fun w => (on_breaker key (fun b => (tt, b)) w).2) r in
      finish (serve clk d key correlationID r)
  end.

(** ** Construction

    The variadic options are [interface{}] values; the type switch of
    [NewDispatcher] knows two of their dynamic types. *)
Definition DispatcherOption := Dispatcher -> Dispatcher.
Inductive anyOption :=
  | ACircuit (c : Circuit.Config)
  | AOption (o : DispatcherOption)
  | ASlice (os : list DispatcherOption).

Definition WithProxyListeners (ls : list (ProxyListener H)) : DispatcherOption := fun d =>
  mkDispatcher (routes d) (jwt d) (schema d) (timeout d) (listeners d ++ ls) (hooks d).
Definition WithLifecycleHooks (hs : list (RequestLifecycle H)) : DispatcherOption := fun d =>
  mkDispatcher (routes d) (jwt d) (schema d) (timeout d) (listeners d) (hooks d ++ hs).

Record DispatcherConfig := mkDispatcherConfig {
  c_Routes : RouteMap;
  c_JWT : option (string -> result Claims);
  c_Schema : option (string -> bytes -> option error);
  c_Timeout : Z;
}.

(** The dispatcher and the registry of its breakers; [accessLog] is the hook
    every dispatcher starts with. *)
Definition NewDispatcher (accessLog : RequestLifecycle H) (cfg : DispatcherConfig)
    (opts : list anyOption) : Dispatcher * Registry :=
  let '(circuitConfig, dispatcherOpts) :=
    foldl (fun acc opt =>
      match opt with
      | ACircuit c => (c, acc.2)
      | AOption o => (acc.1, acc.2 ++ [o])
      | ASlice _ => acc
      end) (Circuit.mkConfig 0 0 0, []) opts in
  let d := mkDispatcher (c_Routes cfg) (c_JWT cfg) (c_Schema cfg) (c_Timeout cfg) [] [accessLog] in
  (foldl (fun d o => o d) d dispatcherOpts, NewRegistry circuitConfig true).

(** The options go in as one argument, a slice. *)
Definition NewDispatcherFromParams (accessLog : RequestLifecycle H) (cfg : DispatcherConfig)
    (circuitConfig : Circuit.Config) (opts : list DispatcherOption) : Dispatcher * Registry :=
  NewDispatcher accessLog cfg [ACircuit circuitConfig; ASlice opts].

(** The options given to [NewDispatcherFromParams] are dropped: whatever
    listeners and hooks they add, the dispatcher it returns has no listener
    and the access log as its only hook, while the same options passed to
    [NewDispatcher] one by one are all applied, in order. *)
Theorem NewDispatcherFromParams_drops_options accessLog cfg circuitConfig opts :
  let base := mkDispatcher (c_Routes cfg) (c_JWT cfg) (c_Schema cfg) (c_Timeout cfg) [] [accessLog] in
  NewDispatcherFromParams accessLog cfg circuitConfig opts = (base, NewRegistry circuitConfig true) /\
  NewDispatcher accessLog cfg (ACircuit circuitConfig :: (AOption <$> opts))
    = (foldl (fun d o => o d) base opts, NewRegistry circuitConfig true).
Proof.
  intros base. split; [done|]. unfold NewDispatcher. cbn [foldl fst snd].
  assert (forall os acc, foldl (fun acc opt =>
      match opt with
      | ACircuit c => (c, acc.2)
      | AOption o => (acc.1, acc.2 ++ [o])
      | ASlice _ => acc
      end) acc (AOption <$> os) = (acc.1, acc.2 ++ os)) as Hf.
  { induction os as [|o os IH]; intros [c l]; [by rewrite app_nil_r|].
    rewrite fmap_cons. cbn [foldl]. rewrite IH. cbn [fst snd]. by rewrite <-app_assoc. }
  by rewrite Hf.
Qed.
End Pipeline.
