(* ===== verification/DispatchFacts.v ===== *)
(** * What the dispatch pipeline guarantees

    Theorems about [Dispatcher.v]: which checks a request has passed when a
    worker sees it, that the in-flight counters balance, how exchanges are
    recorded in the circuit breaker, and how a breaker can be wedged. *)
From S2P Require Import Prelude GoStrings Ipc RouteMap Circuit Worker Pool PoolManager Drainer Gateway Dispatcher.
Local Open Scope string_scope.
Local Open Scope list_scope.
Local Open Scope Z_scope.

(** ** The registry seen as a map from keys to breakers *)

Definition reg_breaker (key : string) (r : Registry) : option Breaker :=
  breakers r !! key ≫= fun p => store r !! p.

(** Creating the breaker of a key that has none. *)
Definition fresh_breaker (key : string) (r : Registry) : Breaker :=
  SetRouteID key (Circuit.New (reg_config r) (reg_log r)).
Definition breaker_at (key : string) (r : Registry) : Breaker :=
  default (fresh_breaker key r) (reg_breaker key r).

Lemma Get_breaker key r :
  registry_ok r ->
  let '(p, r1) := Circuit.Get key r in
  registry_ok r1 /\ breakers r1 !! key = Some p /\ store r1 !! p = Some (breaker_at key r) /\
  routeID (breaker_at key r) = key /\
  reg_config r1 = reg_config r /\ reg_log r1 = reg_log r /\
  (forall k, k <> key -> reg_breaker k r1 = reg_breaker k r).
Proof.
  intros Hok. pose proof (Get_registry_ok key r Hok) as Hok1. revert Hok1.
  unfold Circuit.Get, breaker_at, reg_breaker. destruct (breakers r !! key) as [p|] eqn:E; intros Hok1.
  - destruct (Hok _ _ E) as (b & Hb & Hr). simpl in *. rewrite Hb. simpl. rewrite E. split_and!; done.
  - simpl in *. split_and!; try done.
    + apply lookup_insert_eq.
    + by rewrite lookup_app_r, Nat.sub_diag by done.
    + intros k Hk. rewrite lookup_insert_ne by done.
      destruct (breakers r !! k) as [q|] eqn:Eq; [|done]. simpl.
      destruct (Hok _ _ Eq) as (b & Hb & _). by rewrite Hb, (lookup_app_l_Some _ _ _ _ Hb).
Qed.

Section Facts.
Context {T : Type} `{TR : !Transport T} {H : Type} (enc : Encoding).
Implicit Types (w : World (T:=T) (H:=H)) (r : Run (T:=T) (H:=H)) (d : Dispatcher (H:=H)).

(** [on_breaker] reads and writes the breaker of its key and no other. *)
Lemma on_breaker_spec {A} key (f : Breaker -> A * Breaker) w :
  registry_ok (circuits w) -> (forall b, routeID (f b).2 = routeID b) ->
  let '(a, w') := on_breaker key f w in
  a = (f (breaker_at key (circuits w))).1 /\
  registry_ok (circuits w') /\
  reg_breaker key (circuits w') = Some (f (breaker_at key (circuits w))).2 /\
  reg_config (circuits w') = reg_config (circuits w) /\ reg_log (circuits w') = reg_log (circuits w) /\
  (forall k, k <> key -> reg_breaker k (circuits w') = reg_breaker k (circuits w)) /\
  w' = w_circuits (circuits w') w.
Proof.
  intros Hok Hf. unfold on_breaker. pose proof (Get_breaker key (circuits w) Hok) as HG.
  destruct (Circuit.Get key (circuits w)) as [p r1].
  destruct HG as (Hok1 & Hp & Hb & Hid & Hcfg & Hlog & Hne).
  rewrite Hb. simpl. specialize (Hf (breaker_at key (circuits w))).
  destruct (f (breaker_at key (circuits w))) as [a b'] eqn:Ef. simpl in *.
  assert (registry_ok (update_at p b' r1)) as Hok2 by (eapply update_at_ok; done).
  split_and!; try done.
  - unfold reg_breaker. simpl. rewrite Hp. simpl. apply list_lookup_insert_eq. by eapply lookup_lt_Some.
  - intros k Hk. rewrite <-Hne by done. unfold reg_breaker. simpl.
    destruct (breakers r1 !! k) as [q|] eqn:Eq; [|done]. simpl.
    destruct (Hok1 _ _ Eq) as (c & Hc & Hck). apply list_lookup_insert_ne. intros ->.
    rewrite Hb in Hc. simplify_eq.
Qed.

(** Two states of the core that differ in the extensions only. *)
Definition core_eq w w' : Prop := w' = w_ext (ext w') w.

Lemma core_eq_refl w : core_eq w w.
Proof. by destruct w. Qed.
Lemma core_eq_trans w1 w2 w3 : core_eq w1 w2 -> core_eq w2 w3 -> core_eq w1 w3.
Proof. unfold core_eq. intros -> ->. done. Qed.
Lemma core_eq_ext w h : core_eq w (w_ext h w).
Proof. done. Qed.

Lemma core_eq_fields w w' :
  core_eq w w' -> circuits w' = circuits w /\ drainer w' = drainer w /\
    poolMgr w' = poolMgr w /\ workers w' = workers w /\ wire w' = wire w.
Proof. unfold core_eq. intros ->. done. Qed.

(** A listener that may answer early or keep notes, and leaves the request,
    the route and the worker of the context alone. *)
Definition transparent (l : ProxyListener H) : Prop :=
  forall c h, let c' := (OnRouteMatch l c h).1 in
    Request c' = Request c /\ Route c' = Route c /\ lcWorkerID c' = lcWorkerID c.

Lemma routeMatch_loop_spec ls r v r' :
  Forall transparent ls -> routeMatch_loop ls r = Ret (v, r') ->
  core_eq (wd r) (wd r') /\ Request (lc r') = Request (lc r) /\ Route (lc r') = Route (lc r) /\
  lcWorkerID (lc r') = lcWorkerID (lc r).
Proof.
  intros Hls. revert r. induction Hls as [|l ls Hl Hls IH]; intros r; cbn [routeMatch_loop].
  - intros [= <- <-]. split_and!; [apply core_eq_refl|done..].
  - specialize (Hl (lc r) (ext (wd r))). destruct (OnRouteMatch l (lc r) (ext (wd r))) as [c h].
    destruct Hl as (H1 & H2 & H3). simpl in *. destruct (EarlyResponse c).
    + intros [= <- <-]. simpl. split_and!; [apply core_eq_ext|done..].
    + intros Hr. destruct (IH _ Hr) as (? & ? & ? & ?). simpl in *.
      split_and!; [eapply core_eq_trans; [apply core_eq_ext|done]|congruence..].
Qed.

Lemma preDispatch_loop_core now hs rt r v r' :
  preDispatch_loop now hs rt r = Ret (v, r') ->
  core_eq (wd r) (wd r') /\ Route (lc r') = Route (lc r) /\ lcWorkerID (lc r') = lcWorkerID (lc r).
Proof.
  revert r rt. induction hs as [|hk hs IH]; intros r rt; cbn [preDispatch_loop].
  - intros [= <- <-]. split_and!; [apply core_eq_refl|done..].
  - destruct (OnBeforeDispatch hk now (req r) rt (ext (wd r))) as [[[err rq] rt'] h].
    destruct err as [e|].
    + intros [= <- <-]. simpl. split_and!; [apply core_eq_ext|done..].
    + intros Hr. destruct (IH _ _ Hr) as (? & ? & ?). simpl in *.
      split_and!; [eapply core_eq_trans; [apply core_eq_ext|done]|done..].
Qed.

(** The stages that only look. *)
Lemma checkDrainStatus_spec r v r' :
  checkDrainStatus r = Ret (v, r') ->
  wd r' = wd r /\ Request (lc r') = Request (lc r) /\ Route (lc r') = Route (lc r) /\
  lcWorkerID (lc r') = lcWorkerID (lc r) /\
  (v = Continue -> forall dr, drainer (wd r) = Some dr -> IsDraining (re_workerID (route r)) dr = false).
Proof.
  unfold checkDrainStatus. destruct (drainer (wd r)) as [dr|] eqn:E; [case_if|];
    intros [= <- <-]; split_and!; try done; naive_solver.
Qed.

(** What [validateJWT] lets through. *)
Definition authorised d (rq : GatewayRequest) (rt : RouteEntry) : Prop :=
  re_authRoles rt = [] \/
  exists validate claims role, jwt d = Some validate /\
    header (Headers rq) "Authorization" <> "" /\
    validate (stripBearerPrefix (header (Headers rq) "Authorization")) = Ok claims /\
    role ∈ Roles claims /\ role ∈ re_authRoles rt.

Lemma hasRequiredRole_spec caller required :
  hasRequiredRole caller required = true <-> exists role, role ∈ caller /\ role ∈ required.
Proof.
  unfold hasRequiredRole. rewrite existsb_exists. split.
  - intros (x & Hx & Hb). bool_to_prop. exists x. rewrite elem_of_list_to_set in Hb.
    split; [done|]. by rewrite list_elem_of_In.
  - intros (x & Hc & Hr). exists x. rewrite <-list_elem_of_In. split; [done|].
    apply bool_decide_eq_true_2. by apply elem_of_list_to_set.
Qed.

Lemma validateJWT_spec d r v r' :
  validateJWT d r = Ret (v, r') ->
  wd r' = wd r /\ Body (Request (lc r')) = Body (Request (lc r)) /\ Route (lc r') = Route (lc r) /\
  lcWorkerID (lc r') = lcWorkerID (lc r) /\
  (v = Continue -> authorised d (Request (lc r)) (route r)).
Proof.
  unfold validateJWT, authorised. destruct (re_authRoles (route r)) as [|role roles] eqn:Er.
  - intros [= <- <-]. split_and!; try done. by left.
  - unfold refuse. destruct (String.eqb _ "") eqn:Et; bool_to_prop.
    + intros [= <- <-]. done.
    + destruct (jwt d) as [validate|]; [|done].
      destruct (validate _) as [claims|e] eqn:Ev; [|by intros [= <- <-]].
      destruct (hasRequiredRole _ _) eqn:Eh; intros [= <- <-]; split_and!; try done.
      intros _. right. apply hasRequiredRole_spec in Eh as (x & ? & ?).
      exists validate, claims, x. unfold req in *. done.
Qed.

Definition schema_accepts d (rq : GatewayRequest) (rt : RouteEntry) : Prop :=
  re_validate rt = "" \/ Body rq = [] \/
  exists validate, schema d = Some validate /\ validate (re_validate rt) (Body rq) = None.

Lemma validateSchema_spec d r v r' :
  validateSchema d r = Ret (v, r') ->
  wd r' = wd r /\ Route (lc r') = Route (lc r) /\ lcWorkerID (lc r') = lcWorkerID (lc r) /\
  (v = Continue -> schema_accepts d (Request (lc r)) (route r)).
Proof.
  unfold validateSchema, schema_accepts, req.
  destruct (String.eqb_spec (re_validate (route r)) ""); simpl.
  - intros [= <- <-]. naive_solver.
  - destruct (Body (Request (lc r))) as [|b bs] eqn:Eb; simpl.
    + intros [= <- <-]. naive_solver.
    + destruct (schema d) as [validate|]; [|done]. destruct (validate _ _) eqn:Ev;
        intros [= <- <-]; split_and!; try done. naive_solver.
Qed.

Lemma seq_inv (s1 s2 : Stage) r v r' :
  seq s1 s2 r = Ret (v, r') ->
  (exists r1, s1 r = Ret (Continue, r1) /\ s2 r1 = Ret (v, r')) \/
  (exists resp, v = Stop resp /\ s1 r = Ret (v, r')).
Proof.
  unfold seq. destruct (s1 r) as [[[|resp] r1]|]; [| |done].
  - intros Hs. left. by exists r1.
  - intros [= <- <-]. right. by exists resp.
Qed.

(** Everything but the breakers and the extensions is as before. *)
Definition only_circuits w w' : Prop := w' = w_ext (ext w') (w_circuits (circuits w') w).

Lemma only_circuits_core w1 w2 w3 : only_circuits w1 w2 -> core_eq w2 w3 -> only_circuits w1 w3.
Proof. unfold only_circuits, core_eq. intros -> ->. done. Qed.

Lemma only_circuits_fields w w' :
  only_circuits w w' -> drainer w' = drainer w /\ poolMgr w' = poolMgr w /\
    workers w' = workers w /\ wire w' = wire w.
Proof. unfold only_circuits. intros ->. done. Qed.

(** The breaker of [key] is [b] and every other one is as in [w]. *)
Definition only_breaker (key : string) (b : Breaker) w w' : Prop :=
  registry_ok (circuits w') /\ reg_breaker key (circuits w') = Some b /\
  reg_config (circuits w') = reg_config (circuits w) /\ reg_log (circuits w') = reg_log (circuits w) /\
  (forall k, k <> key -> reg_breaker k (circuits w') = reg_breaker k (circuits w)).

Lemma Allow_routeID now b : routeID (Allow now b).1.2 = routeID b.
Proof. exact (step_routeID b (OpAllow now)). Qed.

Lemma checkCircuitBreaker_spec now key r v r' :
  registry_ok (circuits (wd r)) -> checkCircuitBreaker now key r = Ret (v, r') ->
  let b := breaker_at key (circuits (wd r)) in
  only_circuits (wd r) (wd r') /\ only_breaker key (Allow now b).1.2 (wd r) (wd r') /\
  Request (lc r') = Request (lc r) /\ Route (lc r') = Route (lc r) /\
  lcWorkerID (lc r') = lcWorkerID (lc r) /\
  if (Allow now b).1.1 then v = Continue else
    v = Stop (Some (breaker_open_response (state (Allow now b).1.2) r)) /\
    lcErr (lc r') = Some (NewErr ("circuit breaker open for route " +:+ key +:+ " (state: "
      +:+ Circuit.State_String (state (Allow now b).1.2) +:+ ")")) /\ code r' = 503.
Proof.
  intros Hok. unfold checkCircuitBreaker.
  pose proof (on_breaker_spec key
    (fun b => let '(ok, b', _) := Allow now b in ((ok, state b'), b')) (wd r) Hok) as Hb.
  assert (forall b, routeID (let '(ok, b', _) := Allow now b in ((ok, state b'), b')).2 = routeID b) as Hid.
  { intros b. pose proof (Allow_routeID now b). by destruct (Allow now b) as [[ok b'] ev]. }
  specialize (Hb Hid). destruct (on_breaker _ _ _) as [[ok st] w'].
  destruct Hb as (Ha & Hok' & Hb & Hc1 & Hc2 & Hne & Hw).
  destruct (Allow now (breaker_at key (circuits (wd r)))) as [[ok' b'] ev] eqn:EA. simpl in *.
  injection Ha as -> ->.
  assert (only_circuits (wd r) w') as Honly by (unfold only_circuits; rewrite Hw; by destruct (wd r)).
  destruct ok'; intros [= <- <-]; simpl; split_and!; done.
Qed.

Lemma checkCircuitBreaker_total now key r : exists v r', checkCircuitBreaker now key r = Ret (v, r').
Proof.
  unfold checkCircuitBreaker.
  destruct (on_breaker key (fun b => let '(ok, b', _) := Allow now b in ((ok, state b'), b')) (wd r))
    as [[ok st] w']. destruct ok; eauto.
Qed.

(** What has been checked when a request is let through to the worker. *)
Definition admitted_checks (now : Z) d (rq : GatewayRequest) (rt : RouteEntry) (key : string) w : Prop :=
  (Allow now (breaker_at key (circuits w))).1.1 = true /\
  (forall dr, drainer w = Some dr -> IsDraining (re_workerID rt) dr = false) /\
  authorised d rq rt /\ schema_accepts d rq rt.

Lemma checks_spec clk d key r v r' :
  registry_ok (circuits (wd r)) -> Forall transparent (listeners d) ->
  checks clk d key r = Ret (v, r') ->
  only_circuits (wd r) (wd r') /\
  only_breaker key (Allow (clk 1%nat) (breaker_at key (circuits (wd r)))).1.2 (wd r) (wd r') /\
  lcWorkerID (lc r') = lcWorkerID (lc r) /\ Route (lc r') = Route (lc r) /\
  (v = Continue ->
    admitted_checks (clk 1%nat) d (Request (lc r)) (route r) key (wd r)).
Proof.
  intros Hok Hls. unfold checks. intros Hs.
  assert (forall (r1 r2 : Run (T:=T) (H:=H)), only_circuits (wd r) (wd r1) ->
    only_breaker key (Allow (clk 1%nat) (breaker_at key (circuits (wd r)))).1.2 (wd r) (wd r1) ->
    core_eq (wd r1) (wd r2) ->
    only_circuits (wd r) (wd r2) /\
    only_breaker key (Allow (clk 1%nat) (breaker_at key (circuits (wd r)))).1.2 (wd r) (wd r2)) as Hcore.
  { intros r1 r2 H1 H2 H3. split; [by eapply only_circuits_core|].
    unfold only_breaker. by destruct (core_eq_fields _ _ H3) as (-> & _). }
  apply seq_inv in Hs as [(r1 & Hs1 & Hs)|(resp & -> & Hs1)];
    destruct (checkCircuitBreaker_spec _ _ _ _ _ Hok Hs1) as (Ho1 & Hb1 & Hq1 & Hr1 & Hw1 & Hv1);
    [|by split_and!].
  assert ((Allow (clk 1%nat) (breaker_at key (circuits (wd r)))).1.1 = true) as HA.
  { destruct (Allow _ _).1.1; [done|]. by destruct Hv1. }
  unfold runRouteMatchHooks in Hs.
  apply seq_inv in Hs as [(r2 & Hs2 & Hs)|(resp & -> & Hs2)];
    destruct (routeMatch_loop_spec _ _ _ _ Hls Hs2) as (Hc2 & Hq2 & Hr2 & Hw2);
    destruct (Hcore _ _ Ho1 Hb1 Hc2) as [Ho2 Hb2]; [|split_and!; try done; congruence].
  assert (route r2 = route r) as Hrt by (unfold route; congruence).
  destruct (only_circuits_fields _ _ Ho2) as (Hd2 & _).
  apply seq_inv in Hs as [(r3 & Hs3 & Hs)|(resp & -> & Hs3)];
    destruct (checkDrainStatus_spec _ _ _ Hs3) as (Hc3 & Hq3 & Hr3 & Hw3 & Hv3);
    [|rewrite Hc3; split_and!; try done; congruence].
  specialize (Hv3 eq_refl). rewrite Hrt, Hd2 in Hv3.
  apply seq_inv in Hs as [(r4 & Hs4 & Hs)|(resp & -> & Hs4)];
    destruct (validateJWT_spec _ _ _ _ Hs4) as (Hc4 & Hq4 & Hr4 & Hw4 & Hv4);
    [|rewrite Hc4, Hc3; split_and!; try done; congruence].
  specialize (Hv4 eq_refl).
  apply seq_inv in Hs as [(r5 & Hs5 & Hs)|(resp & -> & Hs5)];
    destruct (validateSchema_spec _ _ _ _ Hs5) as (Hc5 & Hr5 & Hw5 & Hv5);
    [|rewrite Hc5, Hc4, Hc3; split_and!; try done; congruence].
  specialize (Hv5 eq_refl).
  destruct (preDispatch_loop_core _ _ _ _ _ _ Hs) as (Hc6 & Hr6 & Hw6). simpl in *.
  assert (route r3 = route r /\ route r4 = route r) as [Hrt3 Hrt4] by (unfold route; split; congruence).
  destruct (Hcore r2 r') as [Ho6 Hb6]; [done|done|by rewrite <-Hc3, <-Hc4, <-Hc5|].
  split_and!; [done|done|congruence|congruence|]. intros _. split_and!; try done.
  - rewrite <-Hrt3. by rewrite <-Hq1, <-Hq2, <-Hq3.
  - rewrite Hrt4 in Hv5. revert Hv5. unfold schema_accepts.
    by rewrite Hq4, Hq3, Hq2, Hq1.
Qed.

(** ** What the rest of the pipeline leaves alone *)

Lemma notify_loop_core latency ls r : core_eq (wd r) (wd (notify_loop latency ls r)).
Proof.
  revert r. induction ls as [|l ls IH]; intros r; cbn [notify_loop]; [apply core_eq_refl|].
  case_if.
  - destruct (OnError l _ _ _) as [c h]. cbn [lc wd]. destruct (OnPostDispatch l _ _ _) as [c' h'].
    eapply core_eq_trans; [|apply IH]. done.
  - destruct (OnPostDispatch l _ _ _) as [c' h']. eapply core_eq_trans; [|apply IH]. done.
Qed.

Lemma workerError_loop_core hs workerID e r :
  core_eq (wd r) (wd (workerError_loop hs workerID e r)) /\
  lcWorkerID (lc (workerError_loop hs workerID e r)) = lcWorkerID (lc r) /\
  lcErr (lc (workerError_loop hs workerID e r)) = lcErr (lc r) /\
  code (workerError_loop hs workerID e r) = code r.
Proof.
  revert r. induction hs as [|hk hs IH]; intros r; cbn [workerError_loop].
  - split_and!; [apply core_eq_refl|done..].
  - destruct (OnWorkerError hk _ _ _ _) as [rq h].
    destruct (IH (mkRun (w_ext h (wd r)) (lc_request rq (lc r)) (code r))) as (? & ? & ? & ?).
    split_and!; [|done..]. eapply core_eq_trans; [|done]. done.
Qed.

Lemma afterDispatch_loop_core now hs resp r :
  let '(_, r') := afterDispatch_loop now hs resp r in
  core_eq (wd r) (wd r') /\ lc r' = lc r /\ code r' = code r.
Proof.
  revert resp r. induction hs as [|hk hs IH]; intros resp r; cbn [afterDispatch_loop].
  - split_and!; [apply core_eq_refl|done..].
  - destruct (OnAfterDispatch hk _ _ _ _) as [resp' h]. specialize (IH resp' (on_wd (w_ext h) r)).
    destruct (afterDispatch_loop _ _ _ _) as [resp'' r'']. destruct IH as (? & ? & ?).
    split_and!; [|done..]. eapply core_eq_trans; [|done]. done.
Qed.

(** [only_circuits] up to the wire: the drainer, the pools and the heap. *)
Definition counters_same w w' : Prop :=
  drainer w' = drainer w /\ poolMgr w' = poolMgr w /\ workers w' = workers w.

Lemma counters_core w w' : core_eq w w' -> counters_same w w'.
Proof. unfold core_eq. by intros ->. Qed.
Lemma counters_trans w1 w2 w3 : counters_same w1 w2 -> counters_same w2 w3 -> counters_same w1 w3.
Proof. unfold counters_same. naive_solver congruence. Qed.
Lemma counters_breaker {A} key (f : Breaker -> A * Breaker) w : counters_same w (on_breaker key f w).2.
Proof.
  unfold on_breaker. destruct (Circuit.Get _ _) as [p reg]. by destruct (f _).
Qed.

Lemma worker_failed_frame d now key workerID e r :
  let r' := worker_failed d now key workerID e r in
  counters_same (wd r) (wd r') /\ wire (wd r') = wire (wd r) /\
  circuits (wd r') = circuits (record_failure now key (wd r)) /\
  lcWorkerID (lc r') = lcWorkerID (lc r) /\ lcErr (lc r') = lcErr (lc r) /\ code r' = code r.
Proof.
  unfold worker_failed. destruct (workerError_loop_core (hooks d) workerID e r) as (Hc & ? & ? & ?).
  cbn [on_wd wd lc code].
  assert (forall w, wire (record_failure now key w) = wire w) as Hwire.
  { intros w. unfold record_failure, on_breaker. by destruct (Circuit.Get _ _). }
  split_and!; try done.
  - eapply counters_trans; [by apply counters_core|apply counters_breaker].
  - rewrite Hwire. by destruct (core_eq_fields _ _ Hc) as (_ & _ & _ & _ & ?).
  - unfold record_failure, on_breaker. destruct (core_eq_fields _ _ Hc) as (-> & _).
    by destruct (Circuit.Get _ _).
Qed.

(** How an exchange with a worker ends, as far as the breaker goes: with a
    success, a failure, or a payload that does not parse. *)
Definition exchange_report (workerID : string) (payload : bytes) (t : T) : option bool :=
  match Send workerID (mkMessage TypeRequest payload) t with
  | (Some _, _) => Some false
  | (None, t1) =>
      match (ReceiveResponse workerID t1).1.1 with
      | Err _ => Some false
      | Ok msg =>
          if decide (mtype msg = TypeError) then Some false
          else match unmarshal enc (Payload msg) with
               | Err _ => None
               | Ok wr => Some (negb (500 <=? (if w_StatusCode wr =? 0 then 200 else w_StatusCode wr)))
               end
      end
  end.

(** The exchange keeps the counters; it has recorded the failures it
    returns, and left the breakers alone otherwise. *)
Lemma exchange_frame d now key workerID payload cid r :
  let '(res, r') := exchange enc d now key workerID payload cid r in
  counters_same (wd r) (wd r') /\ lcWorkerID (lc r') = lcWorkerID (lc r) /\
  match res with
  | Decoded wr =>
      circuits (wd r') = circuits (wd r) /\
      exchange_report workerID payload (wire (wd r)) = Some (negb (500 <=? w_StatusCode wr))
  | Failed _ =>
      match exchange_report workerID payload (wire (wd r)) with
      | Some false => circuits (wd r') = circuits (record_failure now key (wd r))
      | Some true => False
      | None => circuits (wd r') = circuits (wd r)
      end
  end.
Proof.
  assert (forall t w, circuits (record_failure now key (w_wire t w)) = circuits (record_failure now key w)) as Hrec.
  { intros t w. unfold record_failure, on_breaker. simpl. by destruct (Circuit.Get _ _). }
  unfold exchange, exchange_report.
  destruct (Send _ _ _) as [[se|] t1].
  - unfold handleSendError. pose proof (worker_failed_frame d now key workerID
      (WrapErr ("gateway: send to worker " +:+ workerID +:+ ": ") se "")) as Hw.
    edestruct Hw as (Ha & ? & Hc & Hb & ? & ?). split; [exact Ha|]; split; [exact Hb|].
    rewrite Hc. simpl. apply Hrec.
  - cbn [wd on_wd wire w_wire]. destruct (ReceiveResponse _ _) as [[rmsg expired] t2]. cbn [fst].
    destruct rmsg as [msg|e].
    + destruct (decide (mtype msg = TypeError)).
      * unfold handleWorkerError. cbv zeta.
        edestruct (worker_failed_frame d now key workerID
          (NewErr ("worker error: " +:+ String.string_of_list_ascii (Payload msg))))
          as (Ha & ? & Hc & Hb & ? & ?). split; [exact Ha|]; split; [exact Hb|].
        rewrite Hc. simpl. by rewrite !Hrec.
      * unfold decodeWorkerResponse. by destruct (unmarshal enc (Payload msg)).
    + unfold handleReceiveError.
      edestruct (worker_failed_frame d now key workerID) as (Ha & ? & Hc & Hb & ? & ?).
      split; [exact Ha|]; split; [exact Hb|]. rewrite Hc. simpl. by rewrite !Hrec.
Qed.

(** ** The counters around an exchange *)

(** The active requests of every worker, by pool. *)
Definition loads (m : option Manager) : gmap string (gmap string Z) :=
  match m with
  | None => ∅
  | Some m => (fun p => activeReqs <$> Pool.workers p) <$> pools m
  end.
Definition loads_int64 (m : option Manager) : Prop :=
  map_Forall (fun _ p => map_Forall (fun _ n => int64 n) p) (loads m).

Lemma SelectWorker_workers h p sel p' :
  SelectWorker h p = Ret (sel, p') -> Pool.workers p' = Pool.workers p.
Proof.
  unfold SelectWorker, selectRoundRobin. destruct (HealthyWorkers h p) as [|w ws]; [by intros [= <- <-]|].
  case_if; [by intros [= <- <-]|]. case_if; [done|]. destruct (_ !! _); [|done]. by intros [= <- <-].
Qed.

Lemma loads_set_pool prefix p p' m :
  pools m !! prefix = Some p -> Pool.workers p' = Pool.workers p ->
  loads (Some (set_pool prefix p' m)) = loads (Some m).
Proof.
  intros Hp Hw. simpl. rewrite fmap_insert, Hw. apply insert_id. by rewrite lookup_fmap, Hp.
Qed.

Lemma selectWorker_spec id w sel w' :
  selectWorker id w = Ret (sel, w') ->
  w' = w_poolMgr (poolMgr w') w /\ loads (poolMgr w') = loads (poolMgr w).
Proof.
  unfold selectWorker, GetPool. destruct (poolMgr w) as [m|] eqn:Em;
    [|intros [= <- <-]; rewrite Em; by destruct w; simpl in *; subst].
  destruct (pools m !! extractPrefix id) as [p|] eqn:Ep;
    [|intros [= <- <-]; rewrite Em; by destruct w; simpl in *; subst].
  destruct (SelectWorker _ p) as [[s p']|] eqn:Es; [|done].
  pose proof (loads_set_pool _ _ p' m Ep (SelectWorker_workers _ _ _ _ Es)) as Hl.
  destruct s; intros [= <- <-]; simpl in *; done.
Qed.

(** Incrementing and decrementing around [g], which keeps the counters. *)
Lemma track_roundtrip id w w1 :
  loads_int64 (poolMgr w) -> counters_same (track IncrementActiveReqs id w) w1 ->
  let w2 := track DecrementActiveReqs id w1 in
  loads (poolMgr w2) = loads (poolMgr w) /\ drainer w2 = drainer w /\ workers w2 = workers w.
Proof.
  intros Hint (Hd & Hp & Hw). unfold track, GetPool in *.
  destruct (poolMgr w) as [m|] eqn:Em; [|rewrite Em in Hp; rewrite Hp; by rewrite Hp].
  destruct (pools m !! extractPrefix id) as [p|] eqn:Ep;
    [|rewrite Em in Hp; rewrite Hp, Ep; by rewrite Hp].
  simpl in *. rewrite Hp. simpl. rewrite lookup_insert_eq. cbn [poolMgr w_poolMgr drainer workers].
  split_and!; [|done|done].
  simpl. rewrite !fmap_insert, insert_insert_eq. apply insert_id. rewrite lookup_fmap, Ep. simpl. f_equal.
  unfold IncrementActiveReqs, DecrementActiveReqs, addActiveReqs.
  destruct (Pool.workers p !! id) as [st|] eqn:Est; [|by rewrite Est].
  cbn [Pool.workers]. rewrite lookup_insert_eq. cbn [Pool.workers activeReqs worker].
  rewrite insert_insert_eq, fmap_insert. symmetry. apply insert_id. rewrite lookup_fmap, Est. simpl. f_equal.
  assert (int64 (activeReqs st)) as Hi.
  { refine (Hint (extractPrefix id) (activeReqs <$> Pool.workers p) _ id (activeReqs st) _).
    - simpl. by rewrite lookup_fmap, Ep.
    - by rewrite lookup_fmap, Est. }
  revert Hi. unfold int64, wrap64. intros. Z.to_euclidean_division_equations; lia.
Qed.

Lemma sendAndReceive_spec d now key r res r' :
  sendAndReceive enc d now key r = Ret (res, r') ->
  lcWorkerID (lc r) = "" -> re_workerID (route r) <> "" -> loads_int64 (poolMgr (wd r)) ->
  loads (poolMgr (wd r')) = loads (poolMgr (wd r)) /\
  ((lcWorkerID (lc r') = "" /\ drainer (wd r') = drainer (wd r)) \/
   (exists dr dr', drainer (wd r) = Some dr /\ Acquire (lcWorkerID (lc r')) dr = Ret dr' /\
      drainer (wd r') = Some dr' /\ lcWorkerID (lc r') <> "")).
Proof.
  intros Hs Hlc Hrt Hint. unfold sendAndReceive in Hs.
  set (r0 := on_wd (fun w => (on_breaker key (fun b => (tt, b)) w).2) r) in *.
  assert (counters_same (wd r) (wd r0)) as (Hd0 & Hp0 & Hw0) by apply counters_breaker.
  destruct (selectWorker _ _) as [[sel w1]|] eqn:Es; [|done].
  destruct (selectWorker_spec _ _ _ _ Es) as [Hw1 Hl1].
  assert (drainer w1 = drainer (wd r)) as Hd1 by (rewrite Hw1; exact Hd0).
  rewrite Hp0 in Hl1.
  set (id := if String.eqb sel "" then re_workerID (route r0) else sel) in *.
  assert (id <> "") as Hid.
  { subst id. destruct (String.eqb_spec sel ""); [exact Hrt|done]. }
  destruct (buildIPCPayload _ _ _ _) as [payload|].
  2: { injection Hs as <- <-. simpl. split; [done|]. by left. }
  destruct (acquire id _) as [r2|] eqn:Ea; [|done].
  assert (poolMgr (wd r2) = poolMgr w1 /\
    ((lcWorkerID (lc r2) = "" /\ drainer (wd r2) = drainer (wd r)) \/
     (exists dr dr', drainer (wd r) = Some dr /\ Acquire id dr = Ret dr' /\
        drainer (wd r2) = Some dr' /\ lcWorkerID (lc r2) = id))) as [Hp2 Hacq].
  { unfold acquire in Ea. simpl in Ea. destruct (drainer w1) as [dr|] eqn:Edr.
    - destruct (Acquire id dr) as [dr'|] eqn:EA; [|done]. injection Ea as <-. split; [done|].
      right. exists dr, dr'. by rewrite <-Hd1.
    - injection Ea as <-. split; [done|]. left. split; [exact Hlc|]. simpl. congruence. }
  pose proof (exchange_frame d now key id payload (req_correlation r)
    (on_wd (track IncrementActiveReqs id) r2)) as Hex.
  destruct (exchange _ _ _ _ _ _ _ _) as [res3 r3]. destruct Hex as (Hc3 & Hl3 & _).
  injection Hs as <- <-. cbn [on_wd wd lc] in *.
  destruct (track_roundtrip id (wd r2) (wd r3)) as (Hl & Hd & _).
  { rewrite Hp2. unfold loads_int64. rewrite Hl1. exact Hint. }
  { exact Hc3. }
  rewrite Hl, Hp2, Hl1, Hd, Hl3. split; [done|].
  destruct Hacq as [[? ?]|(dr & dr' & ? & HA & ? & Hlcid)]; [by left|].
  right. exists dr, dr'. rewrite Hlcid. done.
Qed.

(** ** The whole pipeline *)

(** The run a routed request starts with. *)
Record start_ok (uuid : string) (rq : GatewayRequest) (res : LookupResult) w r : Prop := {
  st_wd : wd r = (on_breaker (routeKey (Method rq) (re_path (lr_entry res))) (fun b => (tt, b)) w).2;
  st_route : route r = lr_entry res;
  st_worker : lcWorkerID (lc r) = "";
  st_auth : header (Headers (Request (lc r))) "Authorization" = header (Headers rq) "Authorization";
  st_body : Body (Request (lc r)) = Body rq;
  st_err : lcErr (lc r) = None;
  st_correlation : req_correlation r = (initCorrelationID uuid rq).1;
}.

Lemma Dispatch_eq clk uuid d rq w :
  match Lookup (routes d) (Method rq) (Path rq) with
  | None => exists reply, Dispatch enc clk uuid d rq w = Ret reply /\
      core_eq w (wd (final reply)) /\ response reply = None /\ err reply = Some ErrRouteNotFound
  | Some res =>
      exists r0, start_ok uuid rq res w r0 /\
        Dispatch enc clk uuid d rq w =
        match serve enc clk d (routeKey (Method rq) (re_path (lr_entry res)))
                (initCorrelationID uuid rq).1 r0 with
        | Panic e => Panic e
        | Ret reply => Ret (mkReply (response reply) (err reply)
                              (notifyListeners (time_sub (clk 5%nat) (clk 0%nat)) d (final reply)))
        end
  end.
Proof.
  unfold Dispatch, lookupRoute, req. cbn [initCorrelationID lc Request lc_correlation NewLifecycleContext].
  cbn [Method Path set_Headers].
  destruct (Lookup (routes d) (Method rq) (Path rq)) as [res|] eqn:EL.
  - eexists. split; [|reflexivity]. split; try done.
    + unfold header. cbn. by rewrite lookup_insert_ne.
    + unfold req_correlation, req, header. simpl. by rewrite lookup_insert_eq.
  - eexists. split; [reflexivity|]. cbn [final response err].
    split_and!; try done. eapply core_eq_trans; [|apply notify_loop_core]. destruct w; done.
Qed.

Lemma breaker_at_get key w :
  registry_ok (circuits w) ->
  let w' := (on_breaker key (fun b => (tt, b)) w).2 in
  only_circuits w w' /\ registry_ok (circuits w') /\
  only_breaker key (breaker_at key (circuits w)) w w' /\
  breaker_at key (circuits w') = breaker_at key (circuits w).
Proof.
  intros Hok. pose proof (on_breaker_spec key (fun b => (tt, b)) w Hok ltac:(done)) as Hs.
  destruct (on_breaker _ _ _) as [u w']. cbn [snd] in *.
  destruct Hs as (_ & Hok' & Hb & ? & ? & ? & Hw). split_and!; try done.
  - unfold only_circuits. rewrite Hw. by destruct w.
  - unfold breaker_at. by rewrite Hb.
Qed.

Lemma releaseInFlight_frame r r' :
  releaseInFlight r = Ret r' ->
  wd r' = w_drainer (drainer (wd r')) (wd r) /\ lc r' = lc r /\ code r' = code r.
Proof.
  unfold releaseInFlight. destruct (drainer (wd r)) as [dr|] eqn:E.
  - case_if; [intros [= <-]; split_and!; [by destruct (wd r)|done|done]|].
    destruct (Release _ _); [|done]. by intros [= <-].
  - intros [= <-]. split_and!; [by destruct (wd r)|done|done].
Qed.

Lemma processWorkerResponse_frame d now key cid wr r :
  let '(_, r') := processWorkerResponse d now key cid wr r in
  counters_same (wd r) (wd r') /\ wire (wd r') = wire (wd r) /\ lcWorkerID (lc r') = lcWorkerID (lc r) /\
  circuits (wd r') = circuits (recordCircuitBreakerResult now key (w_StatusCode wr) (wd r)).
Proof.
  unfold processWorkerResponse.
  set (r1 := on_lc _ _).
  pose proof (afterDispatch_loop_core now (hooks d) (mkResponse (w_StatusCode wr) (w_Headers wr)
    (w_Body wr) (resolveCorrelationID (w_CorrelationID wr) cid)) r1) as Ha.
  destruct (afterDispatch_loop _ _ _ _) as [resp r2]. destruct Ha as (Hc & Hlc & _).
  cbn [on_wd wd lc]. rewrite Hlc.
  assert (forall w, counters_same w (recordCircuitBreakerResult now key (w_StatusCode wr) w) /\
    wire (recordCircuitBreakerResult now key (w_StatusCode wr) w) = wire w) as Hrec.
  { intros w. unfold recordCircuitBreakerResult, record_failure, record_success.
    case_if; (split; [apply counters_breaker|]); unfold on_breaker; by destruct (Circuit.Get _ _). }
  destruct (Hrec (wd r2)) as [Hr1 Hr2]. destruct (core_eq_fields _ _ Hc) as (Hci & _ & _ & _ & Hwi).
  split_and!; [|by rewrite Hr2, Hwi|done|].
  - eapply counters_trans; [by apply (counters_core (wd r1))|done].
  - unfold recordCircuitBreakerResult, record_failure, record_success, on_breaker. rewrite Hci.
    case_if; by destruct (Circuit.Get _ _).
Qed.

(** Releasing what was just acquired, with other drainer state in between
    untouched. *)
Lemma acquire_release id dr dr' :
  drainer_ok dr -> Acquire id dr = Ret dr' ->
  exists dr2, Release id dr' = Ret dr2 /\ drainer_ok dr2 /\
    forall x, default 0 (count x dr2) = default 0 (count x dr).
Proof.
  intros Hok HA. destruct (drainer_step_ok dr (OAcquire id) dr' Hok HA) as [Hok' Hc].
  destruct (drainer_step_total dr' (ORelease id) Hok') as [[dr2 Hr]|(x & [= ->] & Hx & _)].
  - exists dr2. destruct (drainer_step_ok dr' (ORelease id) dr2 Hok' Hr) as [Hok2 Hc2].
    split_and!; [done|done|]. intros x. rewrite Hc2, Hc. simpl.
    destruct (String.eqb_spec id x) as [->|]; [|done]. simpl. lia.
  - rewrite Hc in Hx. simpl in Hx. rewrite String.eqb_refl in Hx.
    assert (0 <= default 0 (count x dr)).
    { unfold count. destruct (inflight dr !! x); simpl; [apply Hok|done]. }
    injection Hx. lia.
Qed.

(** The counters of two worlds agree: requests in flight per worker, active
    requests per pooled worker. *)
Definition balanced w w' : Prop :=
  loads (poolMgr w') = loads (poolMgr w) /\
  match drainer w with
  | None => drainer w' = None
  | Some dr => exists dr', drainer w' = Some dr' /\ drainer_ok dr' /\
      forall id, default 0 (count id dr') = default 0 (count id dr)
  end.

Lemma balanced_counters w w' :
  (forall dr, drainer w = Some dr -> drainer_ok dr) -> drainer w' = drainer w ->
  loads (poolMgr w') = loads (poolMgr w) -> balanced w w'.
Proof.
  intros Hok Hd Hp. split; [done|]. rewrite Hd. destruct (drainer w) as [dr|]; [|done].
  exists dr. auto.
Qed.

(** The end of [serve]: release after an exchange. *)
Lemma release_balances w r1 r2 :
  (forall dr, drainer w = Some dr -> drainer_ok dr) ->
  loads (poolMgr (wd r1)) = loads (poolMgr w) ->
  ((lcWorkerID (lc r1) = "" /\ drainer (wd r1) = drainer w) \/
   (exists dr dr', drainer w = Some dr /\ Acquire (lcWorkerID (lc r1)) dr = Ret dr' /\
      drainer (wd r1) = Some dr' /\ lcWorkerID (lc r1) <> "")) ->
  counters_same (wd r1) (wd r2) -> lcWorkerID (lc r2) = lcWorkerID (lc r1) ->
  exists r3, releaseInFlight r2 = Ret r3 /\ balanced w (wd r3).
Proof.
  intros Hok Hl Hacq (Hd2 & Hp2 & _) Hlc. unfold releaseInFlight. rewrite Hd2, Hlc.
  destruct Hacq as [[Hid Hd]|(dr & dr' & Hd & HA & Hd' & Hid)].
  - rewrite Hid, Hd. simpl. destruct (drainer w) as [dr|] eqn:E;
      (eexists; split; [done|]); apply balanced_counters; try (by rewrite E); try congruence;
      by rewrite E, Hd2.
  - rewrite Hd'. rewrite (proj2 (String.eqb_neq _ _) Hid).
    destruct (acquire_release _ _ _ (Hok _ Hd) HA) as (dr2 & -> & Hok2 & Hc).
    eexists. split; [done|]. split; [simpl; congruence|]. rewrite Hd. exists dr2. done.
Qed.

(** Where the pipeline can panic. *)
Lemma validateJWT_panic d r e : validateJWT d r = Panic e -> e = "nil pointer dereference".
Proof.
  unfold validateJWT, refuse. destruct (re_authRoles (route r)); [done|]. case_if; [done|].
  destruct (jwt d) as [validate|]; [|by intros [= <-]]. destruct (validate _); [|done]. by case_if.
Qed.
Lemma validateSchema_panic d r e : validateSchema d r = Panic e -> e = "nil pointer dereference".
Proof.
  unfold validateSchema, refuse. case_if; [|done].
  destruct (schema d) as [validate|]; [|by intros [= <-]]. by destruct (validate _ _).
Qed.
Lemma seq_panic (s1 s2 : Stage) r e :
  seq s1 s2 r = Panic e -> s1 r = Panic e \/ exists r1, s2 r1 = Panic e.
Proof. unfold seq. destruct (s1 r) as [[[|]]|]; eauto. Qed.
Lemma routeMatch_loop_total ls r : exists v r', routeMatch_loop (T:=T) (H:=H) ls r = Ret (v, r').
Proof.
  revert r. induction ls as [|l ls IH]; intros r; cbn [routeMatch_loop]; [eauto|].
  destruct (OnRouteMatch _ _ _). destruct (EarlyResponse _); eauto.
Qed.
Lemma preDispatch_loop_total now hs rt r : exists v r', preDispatch_loop (T:=T) (H:=H) now hs rt r = Ret (v, r').
Proof.
  revert rt r. induction hs as [|hk hs IH]; intros rt r; cbn [preDispatch_loop]; [eauto|].
  destruct (OnBeforeDispatch _ _ _ _ _) as [[[[e|] ?] ?] ?]; eauto.
Qed.

Lemma checkCircuitBreaker_panic now key r e : checkCircuitBreaker now key r <> Panic e.
Proof. destruct (checkCircuitBreaker_total now key r) as (v & r' & ->). done. Qed.
Lemma runRouteMatchHooks_panic d r e : runRouteMatchHooks d r <> Panic e.
Proof. unfold runRouteMatchHooks. destruct (routeMatch_loop_total (listeners d) r) as (v & r' & ->). done. Qed.
Lemma checkDrainStatus_panic r e : checkDrainStatus (T:=T) (H:=H) r <> Panic e.
Proof. unfold checkDrainStatus. destruct (drainer _); [by case_if|done]. Qed.
Lemma runPreDispatchHooks_panic now d r e : runPreDispatchHooks (T:=T) now d r <> Panic e.
Proof.
  unfold runPreDispatchHooks.
  destruct (preDispatch_loop_total now (hooks d) (route r) (on_lc (lc_phase PhasePreDispatch) r)) as (v & r' & ->). done.
Qed.

Lemma checks_panic clk d key r e : checks clk d key r = Panic e -> e = "nil pointer dereference".
Proof.
  unfold checks. intros [Hp|(r1 & Hp)]%seq_panic; [by apply checkCircuitBreaker_panic in Hp|].
  apply seq_panic in Hp as [Hp|(r2 & Hp)]; [by apply runRouteMatchHooks_panic in Hp|].
  apply seq_panic in Hp as [Hp|(r3 & Hp)]; [by apply checkDrainStatus_panic in Hp|].
  apply seq_panic in Hp as [Hp|(r4 & Hp)]; [by eapply validateJWT_panic|].
  apply seq_panic in Hp as [Hp|(r5 & Hp)]; [by eapply validateSchema_panic|].
  by apply runPreDispatchHooks_panic in Hp.
Qed.

Lemma Acquire_total id dr : drainer_ok dr -> exists dr', Acquire id dr = Ret dr'.
Proof.
  intros Hok. destruct (drainer_step_total dr (OAcquire id) Hok) as [?|(? & [=] & _)]. done.
Qed.

Lemma selectWorker_panic id w e : selectWorker id w = Panic e -> e = "index out of range".
Proof.
  unfold selectWorker. destruct (poolMgr _); [|done]. destruct (GetPool _ _) as [p|]; [|done].
  destruct (SelectWorker _ _) as [[[l|] p']|e2] eqn:ES; [done|done|]. intros [= <-].
  revert ES. unfold SelectWorker, selectRoundRobin. destruct (HealthyWorkers _ _); [done|].
  case_if; [done|]. case_if; [by intros [= <-]|]. destruct (_ !! _); [done|by intros [= <-]].
Qed.

Lemma sendAndReceive_panic d now key r e :
  sendAndReceive enc d now key r = Panic e ->
  (forall dr, drainer (wd r) = Some dr -> drainer_ok dr) ->
  e <> "sync: negative WaitGroup counter".
Proof.
  unfold sendAndReceive. set (r0 := on_wd _ r).
  assert (drainer (wd r0) = drainer (wd r)) as Hd0 by (apply counters_breaker).
  intros Hs Hok. destruct (selectWorker _ _) as [[sel w1]|e1] eqn:Es.
  - destruct (selectWorker_spec _ _ _ _ Es) as [Hw1 _].
    destruct (buildIPCPayload _ _ _ _); [|done].
    unfold acquire in Hs. cbn [wd] in Hs.
    destruct (drainer w1) as [dr|] eqn:Edr; [|by destruct (exchange _ _ _ _ _ _ _ _)].
    destruct (Acquire_total (if String.eqb sel "" then re_workerID (route r0) else sel) dr) as [dr' HA].
    { apply Hok. rewrite <-Hd0, <-Edr, Hw1. done. }
    rewrite HA in Hs. by destruct (exchange _ _ _ _ _ _ _ _).
  - injection Hs as <-. apply selectWorker_panic in Es. by subst.
Qed.

(** A request leaves the counters as it found them.  Whatever happens to
    it - refused, failed to send, timed out, error frame, undecodable or
    decoded answer - when [Dispatch] returns, every worker has the number of
    requests in flight it had before and every pooled worker its number of
    active requests; and the drainer never panics. *)
Theorem dispatch_balances_counters clk uuid d rq w :
  registry_ok (circuits w) -> (forall dr, drainer w = Some dr -> drainer_ok dr) ->
  loads_int64 (poolMgr w) -> Forall transparent (listeners d) ->
  (forall res, Lookup (routes d) (Method rq) (Path rq) = Some res -> re_workerID (lr_entry res) <> "") ->
  match Dispatch enc clk uuid d rq w with
  | Ret reply => balanced w (wd (final reply))
  | Panic e => e <> "sync: negative WaitGroup counter"
  end.
Proof.
  intros Hok Hdok Hint Hls Hid. pose proof (Dispatch_eq clk uuid d rq w) as HE.
  assert (forall w1 w2, core_eq w1 w2 -> balanced w w1 -> balanced w w2) as Hcb.
  { intros w1 w2 (_ & Hd & Hp & _)%core_eq_fields. unfold balanced. by rewrite Hd, Hp. }
  destruct (Lookup (routes d) (Method rq) (Path rq)) as [res|] eqn:EL.
  2: { destruct HE as (reply' & -> & Hc & _). apply (Hcb w); [done|]. by apply balanced_counters. }
  destruct HE as (r0 & [Hwd Hrt Hlw _ _ _ _] & ->). specialize (Hid res eq_refl).
  set (key := routeKey _ _) in *.
  destruct (breaker_at_get key w Hok) as (Ho & Hok0 & _ & _). rewrite <-Hwd in Ho, Hok0.
  destruct (only_circuits_fields _ _ Ho) as (Hdr & Hpm & _ & _).
  unfold serve. destruct (checks clk d key r0) as [[v r1]|e] eqn:EC.
  2: { apply checks_panic in EC. by intros ->. }
  destruct (checks_spec _ _ _ _ _ _ Hok0 Hls EC) as (Ho1 & _ & Hlw1 & Hrt1 & _).
  destruct (only_circuits_fields _ _ Ho1) as (Hdr1 & Hpm1 & _ & _).
  destruct v as [|resp]; cbn [final].
  2: { apply (Hcb (wd r1)); [apply notify_loop_core|]. apply balanced_counters; [done|congruence|congruence]. }
  destruct (sendAndReceive _ _ _ _ _) as [[rcv r2]|e] eqn:ES.
  2: { apply sendAndReceive_panic in ES; [done|]. intros dr Hdr'. apply Hdok. congruence. }
  destruct (sendAndReceive_spec _ _ _ _ _ _ ES) as [Hl2 Hacq2].
  { congruence. }
  { unfold route in *. by rewrite Hrt1, Hrt. }
  { by rewrite Hpm1, Hpm. }
  rewrite Hdr1, Hdr in Hacq2. rewrite Hpm1, Hpm in Hl2.
  destruct rcv as [wr|resp].
  - pose proof (processWorkerResponse_frame d (clk 4%nat) key (initCorrelationID uuid rq).1 wr r2) as Hp.
    destruct (processWorkerResponse _ _ _ _ _ _) as [resp r3]. destruct Hp as (Hc3 & _ & Hlw3 & _).
    destruct (release_balances w r2 r3 Hdok Hl2 Hacq2 Hc3 Hlw3) as (r4 & -> & Hb). cbn [final].
    apply (Hcb (wd r4)); [apply notify_loop_core|done].
  - destruct (release_balances w r2 r2 Hdok Hl2 Hacq2 ltac:(done) eq_refl) as (r4 & -> & Hb). cbn [final].
    apply (Hcb (wd r4)); [apply notify_loop_core|done].
Qed.

(** ** The breaker's view of a request *)

Definition apply_report (now : Z) (report : option bool) (b : Breaker) : Breaker :=
  match report with
  | Some true => (RecordSuccess now b).1
  | Some false => (RecordFailure now b).1
  | None => b
  end.

Lemma only_breaker_trans key b1 b2 w1 w2 w3 :
  only_breaker key b1 w1 w2 -> only_breaker key b2 w2 w3 -> only_breaker key b2 w1 w3.
Proof.
  intros (_ & _ & Hc1 & Hl1 & Hn1) (Hok & Hb & Hc2 & Hl2 & Hn2). split_and!; [done|done|congruence|congruence|].
  intros k Hk. by rewrite Hn2, Hn1.
Qed.
Lemma only_breaker_circuits key b w1 w2 w2' :
  circuits w2' = circuits w2 -> only_breaker key b w1 w2 -> only_breaker key b w1 w2'.
Proof. unfold only_breaker. by intros ->. Qed.
Lemma only_breaker_at key b w w' : only_breaker key b w w' -> breaker_at key (circuits w') = b.
Proof. intros (_ & Hb & _). unfold breaker_at. by rewrite Hb. Qed.

Lemma record_failure_spec now key w :
  registry_ok (circuits w) ->
  only_breaker key (RecordFailure now (breaker_at key (circuits w))).1 w (record_failure now key w).
Proof.
  intros Hok. unfold record_failure.
  pose proof (on_breaker_spec key (fun b => (tt, (RecordFailure now b).1)) w Hok
    (fun b => step_routeID b (OpFailure now))) as Hs.
  destruct (on_breaker _ _ _) as [u w']. destruct Hs as (_ & ? & ? & ? & ? & ? & _). by split_and!.
Qed.
Lemma record_success_spec now key w :
  registry_ok (circuits w) ->
  only_breaker key (RecordSuccess now (breaker_at key (circuits w))).1 w (record_success now key w).
Proof.
  intros Hok. unfold record_success.
  pose proof (on_breaker_spec key (fun b => (tt, (RecordSuccess now b).1)) w Hok
    (fun b => step_routeID b (OpSuccess now))) as Hs.
  destruct (on_breaker _ _ _) as [u w']. destruct Hs as (_ & ? & ? & ? & ? & ? & _). by split_and!.
Qed.

(** [sendAndReceive] from a world where the breaker of [key] is [b]. *)
Lemma sendAndReceive_breaker d now key r res r' b w0 :
  only_breaker key b w0 (wd r) -> sendAndReceive enc d now key r = Ret (res, r') ->
  (exists resp, res = Failed resp /\ only_breaker key b w0 (wd r') /\ wire (wd r') = wire (wd r)) \/
  exists workerID payload,
    match res with
    | Decoded wr => only_breaker key b w0 (wd r') /\
        exchange_report workerID payload (wire (wd r)) = Some (negb (500 <=? w_StatusCode wr))
    | Failed _ =>
        only_breaker key (apply_report now (exchange_report workerID payload (wire (wd r))) b) w0 (wd r')
    end.
Proof.
  intros Hb Hs. unfold sendAndReceive in Hs.
  destruct (breaker_at_get key (wd r) (proj1 Hb)) as (Ho & _ & Hb0 & _).
  rewrite (only_breaker_at _ _ _ _ Hb) in Hb0.
  pose proof (only_breaker_trans _ _ _ _ _ _ Hb Hb0) as Hb1.
  destruct (only_circuits_fields _ _ Ho) as (_ & _ & _ & Hwire).
  set (r0 := on_wd _ r) in *. change (only_breaker key b w0 (wd r0)) in Hb1.
  change (wire (wd r0) = wire (wd r)) in Hwire.
  destruct (selectWorker _ _) as [[sel w1]|] eqn:Es; [|done].
  destruct (selectWorker_spec _ _ _ _ Es) as [Hw1 _].
  assert (circuits w1 = circuits (wd r0) /\ wire w1 = wire (wd r0)) as [Hc1 Hwi1] by (by rewrite Hw1).
  destruct (buildIPCPayload _ _ _ _) as [payload|].
  2: { injection Hs as <- <-. left. eexists. split_and!; [done| |by rewrite <-Hwire].
       by eapply only_breaker_circuits. }
  set (id := if String.eqb sel "" then _ else sel) in *.
  destruct (acquire id _) as [r2|] eqn:Ea; [|done].
  assert (circuits (wd r2) = circuits w1 /\ wire (wd r2) = wire w1) as [Hc2 Hwi2].
  { unfold acquire in Ea. simpl in Ea. destruct (drainer w1); [destruct (Acquire _ _); [|done]|];
      by injection Ea as <-. }
  assert (forall f w, circuits (track f id w) = circuits w /\ wire (track f id w) = wire w) as Htr.
  { intros f w. unfold track. destruct (poolMgr w); [|done]. by destruct (GetPool _ _). }
  pose proof (exchange_frame d now key id payload (req_correlation r)
    (on_wd (track IncrementActiveReqs id) r2)) as Hex.
  destruct (exchange _ _ _ _ _ _ _ _) as [res3 r3]. destruct Hex as (_ & _ & Hex).
  injection Hs as <- <-. right. exists id, payload. cbn [on_wd wd] in *.
  destruct (Htr IncrementActiveReqs (wd r2)) as [Hci Hwi]. destruct (Htr DecrementActiveReqs (wd r3)) as [Hcd _].
  rewrite Hwi, Hwi2, Hwi1, Hwire in Hex.
  assert (only_breaker key b w0 (track IncrementActiveReqs id (wd r2))) as Hb2.
  { eapply only_breaker_circuits; [|exact Hb1]. congruence. }
  destruct res3 as [wr|resp].
  - destruct Hex as [Hc3 Hrep]. split; [|done].
    eapply only_breaker_circuits; [|exact Hb2]. congruence.
  - destruct (exchange_report _ _ _) as [[|]|]; [done| |].
    + eapply only_breaker_circuits; [rewrite Hcd; exact Hex|].
      pose proof (record_failure_spec now key _ (proj1 Hb2)) as Hr.
      rewrite (only_breaker_at _ _ _ _ Hb2) in Hr. by eapply only_breaker_trans.
    + eapply only_breaker_circuits; [|exact Hb2]. congruence.
Qed.

(** What a routed request does to the breakers. *)
(** What the end of a request does to the breakers. *)
Lemma notified_breaker latency d key b w (r : Run (T:=T) (H:=H)) :
  only_breaker key b w (wd r) -> only_breaker key b w (wd (notifyListeners latency d r)).
Proof.
  apply only_breaker_circuits. by destruct (core_eq_fields _ _ (notify_loop_core latency (listeners d) r)).
Qed.
Lemma notified_wire latency d (r : Run (T:=T) (H:=H)) : wire (wd (notifyListeners latency d r)) = wire (wd r).
Proof. by destruct (core_eq_fields _ _ (notify_loop_core latency (listeners d) r)) as (_ & _ & _ & _ & ?). Qed.
Lemma released_breaker (r r' : Run (T:=T) (H:=H)) :
  releaseInFlight r = Ret r' -> circuits (wd r') = circuits (wd r) /\ wire (wd r') = wire (wd r).
Proof. intros Hr. destruct (releaseInFlight_frame _ _ Hr) as (-> & _). done. Qed.
Lemma recorded_breaker now key statusCode b w w' :
  only_breaker key b w w' ->
  only_breaker key (apply_report now (Some (negb (500 <=? statusCode))) b) w
    (recordCircuitBreakerResult now key statusCode w').
Proof.
  intros Hb. unfold recordCircuitBreakerResult. destruct (500 <=? statusCode); simpl.
  - pose proof (record_failure_spec now key _ (proj1 Hb)) as Hr.
    rewrite (only_breaker_at _ _ _ _ Hb) in Hr. by eapply only_breaker_trans.
  - pose proof (record_success_spec now key _ (proj1 Hb)) as Hr.
    rewrite (only_breaker_at _ _ _ _ Hb) in Hr. by eapply only_breaker_trans.
Qed.

Lemma Dispatch_breaker clk uuid d rq w reply res :
  registry_ok (circuits w) -> Forall transparent (listeners d) ->
  Dispatch enc clk uuid d rq w = Ret reply ->
  Lookup (routes d) (Method rq) (Path rq) = Some res ->
  let key := routeKey (Method rq) (re_path (lr_entry res)) in
  let allowed := Allow (clk 1%nat) (breaker_at key (circuits w)) in
  exists b', only_breaker key b' w (wd (final reply)) /\
    ((b' = allowed.1.2 /\ wire (wd (final reply)) = wire w) \/
     (admitted_checks (clk 1%nat) d rq (lr_entry res) key w /\ exists workerID payload now,
        b' = apply_report now (exchange_report workerID payload (wire w)) allowed.1.2)).
Proof.
  intros Hok Hls HD EL key allowed. pose proof (Dispatch_eq clk uuid d rq w) as HE. rewrite EL in HE.
  destruct HE as (r0 & [Hwd Hrt Hlw Hau Hbo _ _] & HE). rewrite HE in HD. clear HE. fold key in HD, Hwd.
  destruct (breaker_at_get key w Hok) as (Ho & Hok0 & Hb0 & Hbk). rewrite <-Hwd in Ho, Hok0, Hb0, Hbk.
  destruct (only_circuits_fields _ _ Ho) as (Hdr & _ & _ & Hwire).
  unfold serve in HD. destruct (checks clk d key r0) as [[v r1]|e] eqn:EC; [|done].
  destruct (checks_spec _ _ _ _ _ _ Hok0 Hls EC) as (Ho1 & Hb1 & _ & _ & Hadm).
  rewrite Hbk in Hb1. fold allowed in Hb1. pose proof (only_breaker_trans _ _ _ _ _ _ Hb0 Hb1) as Hb.
  destruct (only_circuits_fields _ _ Ho1) as (_ & _ & _ & Hwire1).
  destruct v as [|resp].
  2: { injection HD as <-. exists allowed.1.2. cbn [final]. split; [by apply notified_breaker|]. left. split; [done|].
       rewrite notified_wire. congruence. }
  assert (admitted_checks (clk 1%nat) d rq (lr_entry res) key w) as HA.
  { destruct (Hadm eq_refl) as (HA & HD' & HJ & HS).
    rewrite Hbk in HA. rewrite Hdr in HD'. rewrite Hrt in HD', HJ, HS. split_and!; [done|done| |].
    - revert HJ. unfold authorised. by rewrite Hau.
    - revert HS. unfold schema_accepts. by rewrite Hbo. }
  destruct (sendAndReceive _ _ _ _ _) as [[rcv r2]|e] eqn:ES; [|done].
  pose proof (sendAndReceive_breaker _ _ _ _ _ _ _ _ Hb ES) as HS.
  rewrite Hwire1, Hwire in HS.
  destruct rcv as [wr|resp].
  - destruct HS as [(? & [=] & _)|(wid & payload & Hb2 & Hrep)].
    pose proof (processWorkerResponse_frame d (clk 4%nat) key (initCorrelationID uuid rq).1 wr r2) as Hp.
    destruct (processWorkerResponse _ _ _ _ _ _) as [resp r3]. destruct Hp as (_ & _ & _ & Hc3).
    destruct (releaseInFlight r3) as [r4|] eqn:ER; [|done]. injection HD as <-. cbn [final].
    destruct (released_breaker _ _ ER) as [Hc4 _].
    exists (apply_report (clk 4%nat) (exchange_report wid payload (wire w)) allowed.1.2).
    split; [|right; split; [done|]; by exists wid, payload, (clk 4%nat)].
    apply notified_breaker. eapply only_breaker_circuits; [by rewrite Hc4; exact Hc3|].
    rewrite Hrep. by apply recorded_breaker.
  - destruct (releaseInFlight r2) as [r4|] eqn:ER; [|done]. injection HD as <-. cbn [final].
    destruct (released_breaker _ _ ER) as [Hc4 Hw4].
    destruct HS as [(? & _ & Hb2 & Hw2)|(wid & payload & Hb2)].
    + exists allowed.1.2. split; [apply notified_breaker; by eapply only_breaker_circuits|]. left. split; [done|].
      rewrite notified_wire. congruence.
    + eexists. split; [apply notified_breaker; eapply only_breaker_circuits; [done|exact Hb2]|].
      right. split; [done|]. by exists wid, payload, (clk 3%nat).
Qed.
(** C3: What a request has passed when a worker hears of it.  Either the
    transport is exactly as it was, or the route exists, its breaker admitted
    the request, its worker is not draining, the caller's token was accepted
    and carries one of the roles the route asks for (if it asks for any), and
    the body satisfies the route's schema (if it has one).  This holds for
    any transport, validators and hooks, and for listeners that may answer
    early but do not rewrite the request or the route. *)
Theorem worker_sees_checked_requests clk uuid d rq w reply :
  registry_ok (circuits w) -> Forall transparent (listeners d) ->
  Dispatch enc clk uuid d rq w = Ret reply ->
  wire (wd (final reply)) = wire w \/
  exists res, Lookup (routes d) (Method rq) (Path rq) = Some res /\
    admitted_checks (clk 1%nat) d rq (lr_entry res) (routeKey (Method rq) (re_path (lr_entry res))) w.
Proof.
  intros Hok Hls HD. destruct (Lookup (routes d) (Method rq) (Path rq)) as [res|] eqn:EL.
  - destruct (Dispatch_breaker _ _ _ _ _ _ _ Hok Hls HD EL) as (b & _ & [[_ ?]|[Hadm _]]); [by left|].
    right. by exists res.
  - left. pose proof (Dispatch_eq clk uuid d rq w) as HE. rewrite EL in HE.
    destruct HE as (reply' & HE & Hc & _). rewrite HE in HD. injection HD as <-.
    by destruct (core_eq_fields _ _ Hc) as (_ & _ & _ & _ & ->).
Qed.

(** C21: One report per exchange.  A routed request touches no breaker but the
    one of its own method and route; if it was refused, that breaker has only
    been asked ([Allow]) and the transport was left alone; if it reached the
    exchange, the breaker then records exactly one result - a failure when
    sending or receiving failed, for an error frame or a status from 500, a
    success for any other decoded answer - except that an answer that does
    not parse is recorded as neither. *)
Theorem exchange_recorded_once clk uuid d rq w reply res :
  registry_ok (circuits w) -> Forall transparent (listeners d) ->
  Dispatch enc clk uuid d rq w = Ret reply ->
  Lookup (routes d) (Method rq) (Path rq) = Some res ->
  let key := routeKey (Method rq) (re_path (lr_entry res)) in
  let asked := (Allow (clk 1%nat) (breaker_at key (circuits w))).1.2 in
  (forall k, k <> key -> reg_breaker k (circuits (wd (final reply))) = reg_breaker k (circuits w)) /\
  ((reg_breaker key (circuits (wd (final reply))) = Some asked /\ wire (wd (final reply)) = wire w) \/
   exists workerID payload now,
     reg_breaker key (circuits (wd (final reply))) = Some
       match exchange_report workerID payload (wire w) with
       | Some true => (RecordSuccess now asked).1
       | Some false => (RecordFailure now asked).1
       | None => asked
       end).
Proof.
  intros Hok Hls HD EL key asked.
  destruct (Dispatch_breaker _ _ _ _ _ _ _ Hok Hls HD EL) as (b & (_ & Hb & _ & _ & Hne) & Hcase).
  split; [done|]. destruct Hcase as [[-> ?]|(_ & wid & payload & now & ->)]; [by left|].
  right. exists wid, payload, now. exact Hb.
Qed.

(** A request for a draining worker goes no further: the response is a 503,
    and there is an error with it exactly when the breaker refuses. *)
Lemma Dispatch_draining clk uuid d rq w res dr :
  registry_ok (circuits w) -> listeners d = [] ->
  Lookup (routes d) (Method rq) (Path rq) = Some res ->
  drainer w = Some dr -> IsDraining (re_workerID (lr_entry res)) dr = true ->
  exists reply resp, Dispatch enc clk uuid d rq w = Ret reply /\
    response reply = Some resp /\ StatusCode resp = 503 /\ wire (wd (final reply)) = wire w /\
    if (Allow (clk 1%nat) (breaker_at (routeKey (Method rq) (re_path (lr_entry res))) (circuits w))).1.1
    then err reply = None else exists text, err reply = Some (NewErr text).
Proof.
  intros Hok Hls EL Hd Hdr. pose proof (Dispatch_eq clk uuid d rq w) as HE. rewrite EL in HE.
  destruct HE as (r0 & [Hwd Hrt _ _ _ He0 _] & HE). set (key := routeKey _ _) in *.
  destruct (breaker_at_get key w Hok) as (Hc0 & Hok0 & _ & Hb0). rewrite <-Hwd in Hc0, Hok0, Hb0.
  assert (exists reply resp, serve enc clk d key (initCorrelationID uuid rq).1 r0 = Ret reply /\
    response reply = Some resp /\ StatusCode resp = 503 /\
    if (Allow (clk 1%nat) (breaker_at key (circuits w))).1.1 then err reply = None
    else exists text, err reply = Some (NewErr text)) as (reply & resp & Hserve & Hresp & Hcode & Herr).
  { unfold serve, checks, seq. destruct (checkCircuitBreaker_total (clk 1%nat) key r0) as (v & r1 & EC).
    rewrite EC. destruct (checkCircuitBreaker_spec _ _ _ _ _ Hok0 EC) as (Ho & _ & _ & Hr & _ & Hv).
    rewrite <-Hb0. destruct (Allow _ _).1.1.
    2: { destruct Hv as (-> & He & _). do 2 eexists. split_and!; [done..|]. cbn [err]. rewrite He. by eexists. }
    subst v. assert (lcErr (lc r1) = None) as He1.
    { clear Hwd. revert EC. unfold checkCircuitBreaker. destruct (on_breaker _ _ _) as [[[] st] w1]; [|done]. by intros [= <-]. }
    unfold runRouteMatchHooks. rewrite Hls. cbn [routeMatch_loop]. unfold checkDrainStatus.
    assert (drainer (wd r1) = Some dr) as ->.
    { destruct (only_circuits_fields _ _ Ho) as (-> & _). by destruct (only_circuits_fields _ _ Hc0) as (-> & _). }
    assert (route r1 = lr_entry res) as -> by (unfold route in *; congruence).
    rewrite Hdr. do 2 eexists. split_and!; [done..|]. exact He1. }
  rewrite Hserve in HE. do 2 eexists. split; [exact HE|]. split_and!; [exact Hresp|done| |exact Herr].
  destruct (Dispatch_breaker _ _ _ _ _ _ _ Hok ltac:(rewrite Hls; constructor) HE EL)
    as (b & _ & [[_ ?]|[(_ & Hadm & _) _]]); [done|]. by rewrite (Hadm _ Hd) in Hdr.
Qed.

(** ** Wedging a breaker *)

(** Half-open with its probes used up. *)
Definition wedged (key : string) w : Prop :=
  exists b, reg_breaker key (circuits w) = Some b /\ state b = StateHalfOpen /\
    cfg_halfOpenMax (config b) <= halfOpenProbes b.

Lemma Allow_wedged now b :
  state b = StateHalfOpen -> cfg_halfOpenMax (config b) <= halfOpenProbes b ->
  Allow now b = (false, b, []).
Proof. intros Hs Hp. unfold Allow. rewrite Hs. by rewrite (proj2 (Z.ltb_ge _ _)). Qed.

(** Requests one after the other. *)
Record Query := mkQuery { q_clk : nat -> Z; q_uuid : string; q_req : GatewayRequest }.
Fixpoint dispatch_all d (qs : list Query) w : outcome (list (Reply (T:=T) (H:=H)) * World (T:=T) (H:=H)) :=
  match qs with
  | [] => Ret ([], w)
  | q :: qs' =>
      match Dispatch enc (q_clk q) (q_uuid q) d (q_req q) w with
      | Panic e => Panic e
      | Ret reply =>
          match dispatch_all d qs' (wd (final reply)) with
          | Panic e => Panic e
          | Ret (replies, w') => Ret (reply :: replies, w')
          end
      end
  end.

(** The request is routed to the breaker [key]. *)
Definition goes_to d (key : string) (rq : GatewayRequest) : Prop :=
  exists res, Lookup (routes d) (Method rq) (Path rq) = Some res /\
    routeKey (Method rq) (re_path (lr_entry res)) = key.

Definition refused_by_breaker (reply : Reply (T:=T) (H:=H)) : Prop :=
  (exists resp, response reply = Some resp /\ StatusCode resp = 503) /\
  exists text, err reply = Some (NewErr text).

Lemma Dispatch_unrouted_core clk uuid d rq w reply :
  Dispatch enc clk uuid d rq w = Ret reply -> Lookup (routes d) (Method rq) (Path rq) = None ->
  core_eq w (wd (final reply)).
Proof.
  intros HD EL. pose proof (Dispatch_eq clk uuid d rq w) as HE. rewrite EL in HE.
  destruct HE as (reply' & HE & Hc & _). rewrite HE in HD. by injection HD as <-.
Qed.

Lemma Dispatch_registry_ok clk uuid d rq w reply :
  registry_ok (circuits w) -> Forall transparent (listeners d) ->
  Dispatch enc clk uuid d rq w = Ret reply -> registry_ok (circuits (wd (final reply))).
Proof.
  intros Hok Hls HD. destruct (Lookup (routes d) (Method rq) (Path rq)) as [res|] eqn:EL.
  - by destruct (Dispatch_breaker _ _ _ _ _ _ _ Hok Hls HD EL) as (b & (? & _) & _).
  - destruct (core_eq_fields _ _ (Dispatch_unrouted_core _ _ _ _ _ _ HD EL)) as (-> & _). done.
Qed.

(** A refused request gets the breaker's answer. *)
Lemma Dispatch_refused clk uuid d rq w key :
  registry_ok (circuits w) -> goes_to d key rq ->
  (Allow (clk 1%nat) (breaker_at key (circuits w))).1.1 = false ->
  exists reply, Dispatch enc clk uuid d rq w = Ret reply /\ refused_by_breaker reply.
Proof.
  intros Hok (res & EL & <-) HA. pose proof (Dispatch_eq clk uuid d rq w) as HE. rewrite EL in HE.
  destruct HE as (r0 & [Hwd _ _ _ _ _ _] & HE). rewrite HE. clear HE. set (key := routeKey _ _) in *.
  destruct (breaker_at_get key w Hok) as (_ & Hok0 & _ & Hbk). rewrite <-Hwd in Hok0, Hbk.
  unfold serve, checks, seq. pose proof (checkCircuitBreaker_spec (clk 1%nat) key r0) as Hcb.
  destruct (checkCircuitBreaker_total (clk 1%nat) key r0) as (v & r1 & EC). rewrite EC. destruct (Hcb _ _ Hok0 EC) as (_ & _ & _ & _ & _ & Hv). rewrite Hbk, HA in Hv.
  destruct Hv as (-> & He & _). eexists. split; [reflexivity|]. split; cbn [response err].
  - by eexists.
  - by eexists.
Qed.

Lemma Dispatch_wedged clk uuid d rq w key reply :
  registry_ok (circuits w) -> Forall transparent (listeners d) -> wedged key w ->
  Dispatch enc clk uuid d rq w = Ret reply ->
  wedged key (wd (final reply)) /\
  (goes_to d key rq -> refused_by_breaker reply /\ wire (wd (final reply)) = wire w).
Proof.
  intros Hok Hls (b & Hb & Hs & Hp) HD.
  assert (breaker_at key (circuits w) = b) as Hat by (unfold breaker_at; by rewrite Hb).
  destruct (Lookup (routes d) (Method rq) (Path rq)) as [res|] eqn:EL.
  - destruct (Dispatch_breaker _ _ _ _ _ _ _ Hok Hls HD EL) as (b' & (_ & Hb' & _ & _ & Hne) & Hcase).
    destruct (decide (routeKey (Method rq) (re_path (lr_entry res)) = key)) as [Hk|Hk].
    + rewrite Hk, Hat in Hcase. rewrite Hk in Hb'.
      assert (b' = b /\ wire (wd (final reply)) = wire w) as [-> Hw].
      { destruct Hcase as [[-> ?]|[(HA & _) _]].
        - by rewrite Allow_wedged.
        - rewrite Hat, Allow_wedged in HA; done. }
      split; [by exists b|]. intros _. split; [|done].
      destruct (Dispatch_refused clk uuid d rq w key Hok) as (reply' & HD' & Href).
      { by exists res. }
      { by rewrite Hat, Allow_wedged. }
      rewrite HD in HD'. by injection HD' as <-.
    + split; [exists b; by rewrite Hne by congruence|]. intros (res' & EL' & <-). congruence.
  - destruct (core_eq_fields _ _ (Dispatch_unrouted_core _ _ _ _ _ _ HD EL)) as (Hc & _).
    split; [exists b; by rewrite Hc|]. intros (res' & EL' & _). congruence.
Qed.

(** A wedged route never recovers by itself.  Once a route's breaker is
    half-open with its probes used up and no result outstanding, it stays so
    through any number of later requests, at any times: every request to the
    route is refused by the breaker without reaching a worker, while the
    rest of the gateway goes on. *)
Theorem wedged_route_never_recovers d (qs : list Query) w key :
  registry_ok (circuits w) -> Forall transparent (listeners d) -> wedged key w ->
  match dispatch_all d qs w with
  | Ret (replies, w') =>
      wedged key w' /\
      Forall2 (fun q reply => goes_to d key (q_req q) -> refused_by_breaker reply) qs replies /\
      (Forall (fun q => goes_to d key (q_req q)) qs -> wire w' = wire w)
  | Panic _ => True
  end.
Proof.
  intros Hok Hls. revert w Hok. induction qs as [|q qs IH]; intros w Hok Hw; cbn [dispatch_all].
  - split_and!; [done|constructor|done].
  - destruct (Dispatch enc _ _ _ _ _) as [reply|e] eqn:ED; [|done].
    destruct (Dispatch_wedged _ _ _ _ _ _ _ Hok Hls Hw ED) as [Hw1 Hr].
    specialize (IH _ (Dispatch_registry_ok _ _ _ _ _ _ Hok Hls ED) Hw1).
    destruct (dispatch_all d qs _) as [[replies w']|]; [|done].
    destruct IH as (? & ? & Hwire). split_and!; [done| |].
    + constructor; [by intros [? _]%Hr|done].
    + intros Hall. apply Forall_cons in Hall as [[_ Hq]%Hr Hqs]. by rewrite (Hwire Hqs).
Qed.

(** A request without a token, to a route of [key] that asks for roles. *)
Definition unauthenticated_to d (key : string) (rq : GatewayRequest) : Prop :=
  header (Headers rq) "Authorization" = "" /\
  exists res, Lookup (routes d) (Method rq) (Path rq) = Some res /\
    routeKey (Method rq) (re_path (lr_entry res)) = key /\ re_authRoles (lr_entry res) <> [].

Lemma checks_unauthenticated clk d key r :
  registry_ok (circuits (wd r)) -> Forall transparent (listeners d) ->
  header (Headers (Request (lc r))) "Authorization" = "" -> re_authRoles (route r) <> [] ->
  exists resp r', checks clk d key r = Ret (Stop resp, r').
Proof.
  intros Hok Hls Hh Hr. unfold checks, seq.
  destruct (checkCircuitBreaker_total (clk 1%nat) key r) as (v1 & r1 & E1). rewrite E1.
  destruct (checkCircuitBreaker_spec _ _ _ _ _ Hok E1) as (_ & _ & Hq1 & Hr1 & _).
  destruct v1 as [|resp]; [|eauto].
  unfold runRouteMatchHooks. destruct (routeMatch_loop_total (listeners d) r1) as (v2 & r2 & E2). rewrite E2.
  destruct (routeMatch_loop_spec _ _ _ _ Hls E2) as (_ & Hq2 & Hr2 & _).
  destruct v2 as [|resp]; [|eauto].
  assert (exists v r', checkDrainStatus r2 = Ret (v, r')) as (v3 & r3 & E3).
  { unfold checkDrainStatus. destruct (drainer (wd r2)); [case_if|]; eauto. }
  rewrite E3. destruct (checkDrainStatus_spec _ _ _ E3) as (_ & Hq3 & Hr3 & _).
  destruct v3 as [|resp]; [|eauto].
  unfold validateJWT, refuse. assert (route r3 = route r) as -> by (unfold route; congruence).
  destruct (re_authRoles (route r)) as [|role roles]; [done|].
  unfold req. rewrite Hq3, Hq2, Hq1, Hh. simpl. eauto.
Qed.

Lemma Dispatch_unauthenticated clk uuid d rq w key :
  registry_ok (circuits w) -> Forall transparent (listeners d) -> unauthenticated_to d key rq ->
  exists reply, Dispatch enc clk uuid d rq w = Ret reply /\ wire (wd (final reply)) = wire w /\
    only_breaker key (Allow (clk 1%nat) (breaker_at key (circuits w))).1.2 w (wd (final reply)).
Proof.
  intros Hok Hls (Hh & res & EL & <- & Hroles). pose proof (Dispatch_eq clk uuid d rq w) as HE.
  rewrite EL in HE. destruct HE as (r0 & [Hwd Hrt _ Hau _ _ _] & HE).
  destruct (breaker_at_get (routeKey (Method rq) (re_path (lr_entry res))) w Hok) as (_ & Hok0 & _).
  rewrite <-Hwd in Hok0.
  destruct (checks_unauthenticated clk d (routeKey (Method rq) (re_path (lr_entry res))) r0 Hok0 Hls)
    as (resp & r1 & EC); [by rewrite Hau|by rewrite Hrt|].
  unfold serve in HE. rewrite EC in HE. eexists. split; [exact HE|].
  destruct (Dispatch_breaker _ _ _ _ _ _ _ Hok Hls HE EL) as (b & Hb & [[-> Hw]|[Hadm _]]); [done|].
  exfalso. destruct Hadm as (_ & _ & [?|(validate & claims & role & _ & Hne & _)] & _); done.
Qed.

Lemma dispatch_all_unauthenticated d (qs : list Query) w key b :
  registry_ok (circuits w) -> Forall transparent (listeners d) ->
  Forall (fun q => unauthenticated_to d key (q_req q)) qs ->
  reg_breaker key (circuits w) = Some b ->
  exists replies w', dispatch_all d qs w = Ret (replies, w') /\ wire w' = wire w /\
    reg_breaker key (circuits w') = Some (run Circuit.step (OpAllow <$> ((fun q => q_clk q 1%nat) <$> qs)) b).
Proof.
  intros Hok Hls Hqs. revert w b Hok. induction Hqs as [|q qs Hq Hqs IH]; intros w b Hok Hb; cbn [dispatch_all].
  - by exists [], w.
  - destruct (Dispatch_unauthenticated (q_clk q) (q_uuid q) d (q_req q) w key Hok Hls Hq)
      as (reply & -> & Hw & (Hok1 & Hb1 & _)).
    assert (breaker_at key (circuits w) = b) as Hat by (unfold breaker_at; by rewrite Hb).
    rewrite Hat in Hb1.
    destruct (IH _ _ Hok1 Hb1) as (replies & w' & -> & Hw' & Hb').
    exists (reply :: replies), w'. split_and!; [done|congruence|exact Hb'].
Qed.

(** Requests without a token can take a protected route down for good.
    When its breaker is open and the cooldown is over, [HalfOpenMax + 1]
    requests that carry no token are let in as probes, turned away with 401
    after the breaker has counted them, and never reported back: the breaker
    ends half-open with no probe left, although no worker was asked. *)
Theorem unauthenticated_requests_wedge_breaker d (qs : list Query) w key b :
  registry_ok (circuits w) -> Forall transparent (listeners d) ->
  reg_breaker key (circuits w) = Some b -> breaker_ok b -> state b = StateOpen ->
  Forall (fun q => cfg_cooldown (config b) <= q_clk q 1%nat - openedAt b) qs ->
  Forall (fun q => unauthenticated_to d key (q_req q)) qs ->
  cfg_halfOpenMax (config b) + 1 <= Z.of_nat (length qs) ->
  exists replies w', dispatch_all d qs w = Ret (replies, w') /\ wire w' = wire w /\ wedged key w'.
Proof.
  intros Hok Hls Hb Hbok Hs Hcool Hqs Hlen.
  destruct (dispatch_all_unauthenticated d qs w key b Hok Hls Hqs Hb) as (replies & w' & HD & Hw & Hb').
  exists replies, w'. split_and!; [done|done|].
  destruct Hbok as [[Hc1 [Hc2 Hc3]] Hp Hi Hcl]. destruct qs as [|q qs]; [simpl in Hlen; lia|].
  apply Forall_cons in Hcool as [Hq _].
  destruct (open_then_probes b (q_clk q 1%nat) ((fun q => q_clk q 1%nat) <$> qs)) as (H1 & H2 & H3);
    [by split|done|done|].
  eexists. split; [exact Hb'|]. rewrite !fmap_cons in *. split; [exact H1|].
  cbn [length] in Hlen. rewrite length_fmap in H3. rewrite H2, H3. lia.
Qed.
End Facts.

(** ** A concrete gateway *)

Lemma NewRegistry_ok cfg log : registry_ok (NewRegistry cfg log).
Proof. intros route p Hp. simpl in Hp. by rewrite lookup_empty in Hp. Qed.

(** The transport keeps the messages sent and answers with an empty payload. *)
#[export] Instance wiretap : Transport (list (string * Message)) := {
  Send id m t := (None, t ++ [(id, m)]);
  ReceiveResponse id t := (Ok (mkMessage TypeResponse []), false, t);
}.

Definition demo_enc : Encoding :=
  mkEncoding (fun p => Ok (of_string (p_Path p)))
    (fun b => if decide (b = []) then Ok (mkWorkerResponse 0 ∅ [] "") else Err (NewErr "invalid"))
    (fun _ => "30s").

Definition demo_routes : list RouteEntry :=
  [mkRouteEntry "/admin/:id" "GET" "node:admin" ["admin"] "" "";
   mkRouteEntry "/health" "GET" "node:admin" [] "" ""].
Definition demo_jwt (token : string) : result Claims :=
  if String.eqb token "good" then Ok (mkClaims "u1" ["user"; "admin"]) else Err (NewErr "bad token").
Definition demo_dispatcher : Dispatcher (H:=AccessLog) :=
  (NewDispatcher NewAccessLogLifecycle
     (mkDispatcherConfig (NewRouteMap demo_routes) (Some demo_jwt) None (30 * second)) []).1.

Definition demo_world : World (T:=list (string * Message)) (H:=AccessLog) :=
  mkWorld (NewRegistry demo_config false) (Some NewWorkerDrainer) None demo_heap []
    (mkAccessLog ∅ []).
Definition ask (path token : string) : GatewayRequest :=
  mkRequest "GET" path (if String.eqb token "" then ∅ else {["Authorization" := token]}) ∅ None [] None
    "10.0.0.1".
Definition clock (t : Z) : nat -> Z := fun _ => t.

Definition demo_reply (path token : string) : outcome (Reply (T:=list (string * Message)) (H:=AccessLog)) :=
  Dispatch demo_enc (clock 5) "uuid" demo_dispatcher (ask path token) demo_world.

(** A token is checked, the worker answers, the hook has logged it. *)
Example admitted :
  match demo_reply "/admin/7" "Bearer good" with
  | Ret r => (StatusCode <$> response r, err r, wire (wd (final r)),
              size (startTimes (ext (wd (final r)))), length (lines (ext (wd (final r)))))
  | Panic _ => (None, None, [], 0%nat, 0%nat)
  end = (Some 200, None, [("node:admin", mkMessage TypeRequest (of_string "/admin/7"))], 0%nat, 1%nat).
Proof. vm_compute. reflexivity. Qed.
Example refused :
  match demo_reply "/admin/7" "Bearer bad" with
  | Ret r => (StatusCode <$> response r, err r, wire (wd (final r)))
  | Panic _ => (None, None, [])
  end = (None, Some ErrUnauthorized, []).
Proof. vm_compute. reflexivity. Qed.

Lemma worker_sees_checked_requests_witness :
  exists reply, demo_reply "/admin/7" "Bearer good" = Ret reply /\
    (wire (wd (final reply)) = [] \/
     exists res, Lookup (routes demo_dispatcher) "GET" "/admin/7" = Some res /\
       admitted_checks 5 demo_dispatcher (ask "/admin/7" "Bearer good") (lr_entry res)
         (routeKey "GET" (re_path (lr_entry res))) demo_world).
Proof.
  destruct (demo_reply "/admin/7" "Bearer good") as [reply|] eqn:E; [|vm_compute in E; discriminate E].
  exists reply. split; [reflexivity|].
  apply (worker_sees_checked_requests demo_enc (clock 5) "uuid" demo_dispatcher
    (ask "/admin/7" "Bearer good") demo_world reply); [apply NewRegistry_ok|constructor|exact E].
Defined.

Lemma dispatch_balances_counters_witness :
  match demo_reply "/admin/7" "Bearer good" with
  | Ret reply => balanced demo_world (wd (final reply))
  | Panic e => e <> "sync: negative WaitGroup counter"
  end.
Proof.
  apply (dispatch_balances_counters demo_enc (clock 5) "uuid" demo_dispatcher
    (ask "/admin/7" "Bearer good") demo_world).
  - apply NewRegistry_ok.
  - intros dr [= <-]. apply NewWorkerDrainer_ok.
  - intros k p Hp. simpl in Hp. by rewrite lookup_empty in Hp.
  - constructor.
  - intros res Hres. vm_compute in Hres. injection Hres as <-. discriminate.
Defined.

Lemma exchange_recorded_once_witness :
  exists reply res, demo_reply "/admin/7" "Bearer good" = Ret reply /\
    Lookup (routes demo_dispatcher) "GET" "/admin/7" = Some res /\
    reg_breaker "GET:/admin/:id" (circuits (wd (final reply))) <> None.
Proof.
  destruct (demo_reply "/admin/7" "Bearer good") as [reply|] eqn:E; [|vm_compute in E; discriminate E].
  destruct (Lookup (routes demo_dispatcher) "GET" "/admin/7") as [res|] eqn:EL;
    [|vm_compute in EL; discriminate EL].
  exists reply, res. split; [reflexivity|]. split; [reflexivity|].
  pose proof (exchange_recorded_once demo_enc (clock 5) "uuid" demo_dispatcher
    (ask "/admin/7" "Bearer good") demo_world reply res (NewRegistry_ok _ _) (List.Forall_nil _) E EL)
    as [_ Hcase].
  assert (routeKey "GET" (re_path (lr_entry res)) = "GET:/admin/:id") as Hk.
  { vm_compute in EL. injection EL as <-. reflexivity. }
  cbn [Method ask] in Hcase. rewrite Hk in Hcase.
  destruct Hcase as [[-> _]|(? & ? & ? & ->)]; discriminate.
Defined.

(** The breaker of the admin route has tripped; the cooldown is ten seconds. *)
Definition tripped_world : World (T:=list (string * Message)) (H:=AccessLog) :=
  w_circuits
    (mkRegistry [SetRouteID "GET:/admin/:id" demo_open] {["GET:/admin/:id" := 0%nat]} demo_config false)
    demo_world.
Definition anonymous : list Query :=
  [mkQuery (clock (20 * second)) "u1" (ask "/admin/1" "");
   mkQuery (clock (21 * second)) "u2" (ask "/admin/2" "")].

Lemma tripped_registry_ok : registry_ok (circuits tripped_world).
Proof.
  intros route p. simpl. intros [<- <-]%lookup_singleton_Some. by eexists.
Qed.

Lemma unauthenticated_requests_wedge_breaker_witness :
  exists replies w', dispatch_all demo_enc demo_dispatcher anonymous tripped_world = Ret (replies, w') /\
    wire w' = [] /\ wedged "GET:/admin/:id" w'.
Proof.
  apply (unauthenticated_requests_wedge_breaker demo_enc demo_dispatcher anonymous tripped_world
    "GET:/admin/:id" (SetRouteID "GET:/admin/:id" demo_open)).
  - apply tripped_registry_ok.
  - constructor.
  - reflexivity.
  - destruct demo_open_ok as [H1 H2 H3 H4]. split; assumption.
  - reflexivity.
  - repeat constructor; by_compute.
  - constructor; [|constructor; [|constructor]]; (split; [vm_compute; reflexivity|]); eexists;
      (split; [vm_compute; reflexivity|]); (split; [vm_compute; reflexivity|discriminate]).
  - by_compute.
Defined.

(** One request too late: a valid token no longer helps. *)
Definition late : list Query := [mkQuery (clock (3600 * second)) "u3" (ask "/admin/3" "Bearer good")].
Definition wedged_world : World (T:=list (string * Message)) (H:=AccessLog) :=
  match dispatch_all demo_enc demo_dispatcher anonymous tripped_world with
  | Ret (_, w) => w
  | Panic _ => tripped_world
  end.

Lemma wedged_world_ok : registry_ok (circuits wedged_world) /\ wedged "GET:/admin/:id" wedged_world.
Proof.
  split.
  - intros route p Hp. vm_compute in Hp.
    assert (breakers (circuits wedged_world) = {["GET:/admin/:id" := 0%nat]}) as Hb by (vm_compute; reflexivity).
    change (breakers (circuits wedged_world) !! route = Some p) in Hp. rewrite Hb in Hp.
    apply lookup_singleton_Some in Hp as [<- <-]. eexists. split; vm_compute; reflexivity.
  - eexists. split; [vm_compute; reflexivity|]. split; [reflexivity|]. vm_compute. discriminate.
Qed.

Lemma wedged_route_never_recovers_witness :
  match dispatch_all demo_enc demo_dispatcher late wedged_world with
  | Ret (replies, w') => wedged "GET:/admin/:id" w' /\ wire w' = wire wedged_world
  | Panic _ => True
  end.
Proof.
  pose proof (wedged_route_never_recovers demo_enc demo_dispatcher late wedged_world "GET:/admin/:id"
    (proj1 wedged_world_ok) (List.Forall_nil _) (proj2 wedged_world_ok)) as H.
  destruct (dispatch_all demo_enc demo_dispatcher late wedged_world) as [[replies w']|]; [|exact I].
  destruct H as (Hw & _ & Hwire). split; [exact Hw|]. apply Hwire.
  constructor; [|constructor]. eexists. split; vm_compute; reflexivity.
Defined.
