(* ===== verification/Metrics.v ===== *)
(** * Metrics ([src/core/domain/metrics], [src/core/infrastructure/metrics])

    The instrumentation interfaces, their silent and their Prometheus
    implementation, and what the dispatcher records.  A call of an instrument
    changes the state [M] of the world behind it and may panic.  The client
    library of Prometheus is a class; what is used of its documented behaviour
    is that a vector accepts exactly its own label names and that an
    operation is applied to one series.  A [float64] is a value of [F]. *)
From S2P Require Import Prelude GoStrings Ipc RouteMap Circuit Worker Pool PoolManager Drainer Gateway Dispatcher DispatchFacts.
Local Open Scope string_scope.
Local Open Scope list_scope.
Local Open Scope Z_scope.

(** ** Names *)

Definition HTTPRequestTotal := "vyx_http_requests_total".
Definition HTTPRequestDuration := "vyx_http_request_duration_seconds".
Definition HTTPRequestInFlight := "vyx_http_requests_in_flight".
Definition WorkerRequestTotal := "vyx_worker_requests_total".
Definition WorkerRequestDuration := "vyx_worker_request_duration_seconds".
Definition WorkerErrorsTotal := "vyx_worker_errors_total".
Definition PoolSize := "vyx_worker_pool_size".
Definition PoolActive := "vyx_worker_pool_active".
Definition PoolIdle := "vyx_worker_pool_idle".
Definition PoolReplenished := "vyx_worker_pool_replenished_total".
Definition CircuitBreakerState := "vyx_circuit_breaker_state".
Definition CircuitBreakerTrips := "vyx_circuit_breaker_trips_total".

Definition LabelMethod := "method".
Definition LabelPath := "path".
Definition LabelStatus := "status".
Definition LabelWorker := "worker".
Definition LabelState := "state".
Definition LabelPhase := "phase".
Definition PhaseDispatch := "dispatch".

(** A Go map of labels; [None] is the nil map. *)
Definition Labels := option (gmap string string).

(** ** Interfaces *)

Section Interfaces.
Context (F M : Type).

Record Counter := mkCounter { c_Inc : Labels -> M -> outcome M; c_Add : F -> Labels -> M -> outcome M }.
Record Gauge := mkGauge {
  g_Set : F -> Labels -> M -> outcome M;
  g_Inc : Labels -> M -> outcome M;
  g_Dec : Labels -> M -> outcome M;
  g_Add : F -> Labels -> M -> outcome M;
  g_Sub : F -> Labels -> M -> outcome M;
}.
Record Histogram := mkHistogram { h_Observe : F -> Labels -> M -> outcome M }.
Record Provider := mkProvider {
  NewCounter : string -> string -> M -> outcome (Counter * M);
  NewGauge : string -> string -> M -> outcome (Gauge * M);
  NewHistogram : string -> string -> M -> outcome (Histogram * M);
  NewHistogramWithBuckets : string -> string -> list F -> M -> outcome (Histogram * M);
}.

Definition noopCounter : Counter := mkCounter (fun _ => Ret) (fun _ _ => Ret).
Definition noopGauge : Gauge :=
  mkGauge (fun _ _ => Ret) (fun _ => Ret) (fun _ => Ret) (fun _ _ => Ret) (fun _ _ => Ret).
Definition noopHistogram : Histogram := mkHistogram (fun _ _ => Ret).
Definition Noop : Provider :=
  mkProvider (fun _ _ m => Ret (noopCounter, m)) (fun _ _ m => Ret (noopGauge, m))
    (fun _ _ m => Ret (noopHistogram, m)) (fun _ _ _ m => Ret (noopHistogram, m)).

(** [DurationSince]: [elapsed] is what [time.Since(start).Seconds()] gives. *)
Definition DurationSince (elapsed : F) (h : Histogram) (labels : Labels) : M -> outcome M :=
  h_Observe h elapsed labels.
End Interfaces.
Arguments mkCounter {F M}. Arguments c_Inc {F M}. Arguments c_Add {F M}.
Arguments mkGauge {F M}. Arguments g_Set {F M}. Arguments g_Inc {F M}. Arguments g_Dec {F M}.
Arguments g_Add {F M}. Arguments g_Sub {F M}.
Arguments mkHistogram {F M}. Arguments h_Observe {F M}.
Arguments mkProvider {F M}. Arguments NewCounter {F M}. Arguments NewGauge {F M}.
Arguments NewHistogram {F M}. Arguments NewHistogramWithBuckets {F M}.
Arguments Noop {F M}. Arguments DurationSince {F M}.

(** ** The Prometheus library *)

Inductive kind (F : Type) := KCounter | KGauge | KHistogram (buckets : list F).
Arguments KCounter {F}. Arguments KGauge {F}. Arguments KHistogram {F}.
Inductive op (F : Type) := Inc | Dec | Add (v : F) | Sub (v : F) | SetTo (v : F) | Observe (v : F).
Arguments Inc {F}. Arguments Dec {F}. Arguments Add {F}. Arguments Sub {F}. Arguments SetTo {F}. Arguments Observe {F}.

(** [With v labels op] is [v.With(labels)] followed by the operation on the
    series; [P] is the state of the library with its one registry. *)
Class Prometheus (F P : Type) := {
  Vec : Type;
  NewRegistry : P;
  NewVec : kind F -> string -> string -> list string -> P -> Vec * P;
  MustRegister : Vec -> P -> outcome P;
  With : Vec -> gmap string string -> op F -> P -> outcome P;
}.

(** What the library documents.  [history v labels p] are the operations made
    on a series so far: its value is a function of them. *)
Class PromLaws (F P : Type) `{!Prometheus F P} := {
  vec_name : Vec -> string;
  vec_labels : Vec -> list string;
  taken : P -> gset string;
  history : Vec -> gmap string string -> P -> list (op F);
  NewRegistry_empty : taken NewRegistry = ∅;
  NewVec_vec k name help ls p :
    vec_name (NewVec k name help ls p).1 = name /\ vec_labels (NewVec k name help ls p).1 = ls;
  NewVec_taken k name help ls p : taken (NewVec k name help ls p).2 = taken p;
  NewVec_history k name help ls p v l :
    vec_name v <> name -> history v l (NewVec k name help ls p).2 = history v l p;
  NewVec_fresh k name help ls p l :
    history (NewVec k name help ls p).1 l (NewVec k name help ls p).2 = [];
  MustRegister_free v p : vec_name v ∉ taken p ->
    exists p', MustRegister v p = Ret p' /\ taken p' = {[vec_name v]} ∪ taken p /\
      forall v' l, history v' l p' = history v' l p;
  With_match v l o p : dom l = list_to_set (vec_labels v) ->
    exists p', With v l o p = Ret p' /\ taken p' = taken p /\
      history v l p' = history v l p ++ [o] /\
      forall v' l', vec_name v' <> vec_name v \/ l' <> l -> history v' l' p' = history v' l' p;
  With_mismatch v l o p : dom l <> list_to_set (vec_labels v) -> exists e, With v l o p = Panic e;
}.

(** ** The Prometheus provider *)

Section PromProvider.
Context {F P : Type} `{PR : !Prometheus F P} (DefBuckets : list F).

Record PromProvider := mkProm {
  counters : gmap string Vec;
  gauges : gmap string Vec;
  histograms : gmap string Vec;
  registry : P;
}.
Definition NewPromProvider : PromProvider := mkProm ∅ ∅ ∅ NewRegistry.
Definition set_registry (r : P) (p : PromProvider) : PromProvider := mkProm (counters p) (gauges p) (histograms p) r.

Definition promLabels (l : Labels) : gmap string string := default ∅ l.

Definition on_series (v : Vec) (labels : gmap string string) (o : op F) (p : PromProvider) : outcome PromProvider :=
  match With v labels o (registry p) with
  | Ret r => Ret (set_registry r p)
  | Panic e => Panic e
  end.

Definition promCounter (v : Vec) : Counter F PromProvider :=
  let apply l o := match l with None => on_series v ∅ o | Some _ => on_series v (promLabels l) o end in
  mkCounter (fun l => apply l Inc) (fun x l => apply l (Add x)).
Definition promGauge (v : Vec) : Gauge F PromProvider :=
  mkGauge (fun x l => on_series v (promLabels l) (SetTo x)) (fun l => on_series v (promLabels l) Inc)
    (fun l => on_series v (promLabels l) Dec) (fun x l => on_series v (promLabels l) (Add x))
    (fun x l => on_series v (promLabels l) (Sub x)).
Definition promHistogram (v : Vec) : Histogram F PromProvider :=
  mkHistogram (fun x l => on_series v (promLabels l) (Observe x)).

(** The label names a vector is registered with, by the name of the metric. *)
Definition counter_labels (name : string) : list string :=
  if String.eqb name HTTPRequestTotal then [LabelMethod; LabelPath; LabelStatus]
  else if String.eqb name WorkerRequestTotal then [LabelWorker; LabelMethod]
  else if String.eqb name WorkerErrorsTotal then [LabelWorker; LabelPhase]
  else if String.eqb name CircuitBreakerTrips then [LabelWorker]
  else [].
Definition gauge_labels (name : string) : list string :=
  if String.eqb name HTTPRequestInFlight then [LabelMethod; LabelPath]
  else if String.eqb name PoolSize || String.eqb name PoolActive || String.eqb name PoolIdle then [LabelWorker]
  else if String.eqb name CircuitBreakerState then [LabelWorker; LabelState]
  else [].
Definition histogram_labels (name : string) : list string :=
  if String.eqb name HTTPRequestDuration then [LabelMethod; LabelPath; LabelStatus]
  else if String.eqb name WorkerRequestDuration then [LabelWorker; LabelMethod]
  else [].

(** A vector of a new name is created and registered, which panics when the
    registry knows the name already. *)
Definition newVec (k : kind F) (name help : string) (labels : list string) (p : PromProvider)
    : outcome (Vec * PromProvider) :=
  let '(v, r) := NewVec k name help labels (registry p) in
  match MustRegister v r with
  | Ret r => Ret (v, set_registry r p)
  | Panic e => Panic e
  end.

Definition prom_NewCounter (name help : string) (p : PromProvider) : outcome (Counter F PromProvider * PromProvider) :=
  match counters p !! name with
  | Some existing => Ret (promCounter existing, p)
  | None =>
      match newVec KCounter name help (counter_labels name) p with
      | Panic e => Panic e
      | Ret (cv, p) => Ret (promCounter cv, mkProm (<[name := cv]> (counters p)) (gauges p) (histograms p) (registry p))
      end
  end.
Definition prom_NewGauge (name help : string) (p : PromProvider) : outcome (Gauge F PromProvider * PromProvider) :=
  match gauges p !! name with
  | Some existing => Ret (promGauge existing, p)
  | None =>
      match newVec KGauge name help (gauge_labels name) p with
      | Panic e => Panic e
      | Ret (gv, p) => Ret (promGauge gv, mkProm (counters p) (<[name := gv]> (gauges p)) (histograms p) (registry p))
      end
  end.
Definition prom_NewHistogramWithBuckets (name help : string) (buckets : list F) (p : PromProvider)
    : outcome (Histogram F PromProvider * PromProvider) :=
  match histograms p !! name with
  | Some existing => Ret (promHistogram existing, p)
  | None =>
      match newVec (KHistogram buckets) name help (histogram_labels name) p with
      | Panic e => Panic e
      | Ret (hv, p) => Ret (promHistogram hv, mkProm (counters p) (gauges p) (<[name := hv]> (histograms p)) (registry p))
      end
  end.
Definition prom_NewHistogram (name help : string) : PromProvider -> outcome (Histogram F PromProvider * PromProvider) :=
  prom_NewHistogramWithBuckets name help DefBuckets.

Definition prom_provider : Provider F PromProvider :=
  mkProvider prom_NewCounter prom_NewGauge prom_NewHistogram prom_NewHistogramWithBuckets.
End PromProvider.

(** ** What the dispatcher records *)

Section Recording.
Context {F M : Type} (provider : Provider F M).
Context (of_Z : Z -> F).   (* integer literals as [float64] *)

Record Instruments := mkInstruments {
  httpReqs : Counter F M;
  httpDuration : Histogram F M;
  httpInFlight : Gauge F M;
  workerReqs : Counter F M;
  workerDur : Histogram F M;
  workerErrs : Counter F M;
  cbState : Gauge F M;
  cbTrips : Counter F M;
}.

Definition initMetrics (m : M) : outcome (Instruments * M) :=
  '(reqs, m) ← NewCounter provider HTTPRequestTotal "Total HTTP requests processed" m;
  '(dur, m) ← NewHistogram provider HTTPRequestDuration "HTTP request duration in seconds" m;
  '(flight, m) ← NewGauge provider HTTPRequestInFlight "In-flight HTTP requests" m;
  '(wreqs, m) ← NewCounter provider WorkerRequestTotal "Total requests dispatched to workers" m;
  '(wdur, m) ← NewHistogram provider WorkerRequestDuration "Worker request duration in seconds" m;
  '(werrs, m) ← NewCounter provider WorkerErrorsTotal "Total worker errors by phase" m;
  '(state, m) ← NewGauge provider CircuitBreakerState
                  "Circuit breaker state per route (0=Closed, 1=Open, 2=HalfOpen)" m;
  '(trips, m) ← NewCounter provider CircuitBreakerTrips "Total circuit breaker trips" m;
  Ret (mkInstruments reqs dur flight wreqs wdur werrs state trips, m).

(** The callback of the breakers: a trip is counted. *)
Definition onStateChange (sc : StateChange) (m : M) : outcome M :=
  if decide (sc_to sc = StateOpen) then
    '(trips, m) ← NewCounter provider CircuitBreakerTrips "Circuit breaker trips" m;
    c_Inc trips (Some {[LabelWorker := sc_routeID sc]}) m
  else Ret m.

Context (i : Instruments).

Definition recordHTTPMetrics (method path status : string) (elapsed : F) (m : M) : outcome M :=
  let labels := Some (<[LabelMethod := method]> (<[LabelPath := path]> {[LabelStatus := status]})) in
  m ← c_Inc (httpReqs i) labels m;
  m ← h_Observe (httpDuration i) elapsed labels m;
  g_Dec (httpInFlight i) (Some (<[LabelMethod := method]> {[LabelPath := path]})) m.

Definition trackWorkerDispatch (workerID method : string) (elapsed : F) (err : option error) (m : M) : outcome M :=
  let wLabels := Some (<[LabelWorker := workerID]> {[LabelMethod := method]}) in
  m ← c_Inc (workerReqs i) wLabels m;
  m ← (if decide (err = None) then Ret m
       else c_Inc (workerErrs i) (Some (<[LabelWorker := workerID]> {[LabelPhase := PhaseDispatch]})) m);
  h_Observe (workerDur i) elapsed wLabels m.

Definition trackCircuitBreakerState (routeKey : string) (state : Circuit.State) (m : M) : outcome M :=
  let stateVal := of_Z (match state with StateClosed => 0 | StateOpen => 1 | StateHalfOpen => 2 end) in
  g_Set (cbState i) stateVal
    (Some (<[LabelWorker := routeKey]> {[LabelState := State_String state]})) m.

(** ** A request under measurement

    The points of [Dispatch] at which something is recorded: at its start, after the lookup, when a
    breaker reports a change, and in the deferred function. *)
Inductive mark :=
  | Started (method path : string)
  | Looked (routeKey : string) (state : Circuit.State)
  | Changed (sc : StateChange)
  | Ended (method path status : string) (elapsed : F).

Definition record_mark (k : mark) (m : M) : outcome M :=
  match k with
  | Started method path => g_Inc (httpInFlight i) (Some (<[LabelMethod := method]> {[LabelPath := path]})) m
  | Looked key state => trackCircuitBreakerState key state m
  | Changed sc => onStateChange sc m
  | Ended method path status elapsed => recordHTTPMetrics method path status elapsed m
  end.
Fixpoint record_marks (ks : list mark) (m : M) : outcome M :=
  match ks with
  | [] => Ret m
  | k :: ks => m ← record_mark k m; record_marks ks m
  end.
End Recording.
Arguments mark : clear implicits.

Section Metered.
Context {T : Type} `{TR : !Transport T} {H : Type} (enc : Encoding).
Context {F M : Type} (provider : Provider F M) (of_Z : Z -> F) (i : Instruments (F:=F) (M:=M)).

(** [changes] are what the breakers report while the request is served. *)
Definition marks_before (rq : GatewayRequest) : list (mark F) := [Started (Method rq) (Path rq)].
Definition route_path (d : Dispatcher (H:=H)) (rq : GatewayRequest) : string :=
  match Lookup (routes d) (Method rq) (Path rq) with Some res => re_path (lr_entry res) | None => "" end.
Definition marks_after (d : Dispatcher (H:=H)) (rq : GatewayRequest) (w : World (T:=T) (H:=H))
    (changes : list StateChange) (code : Z) (elapsed : F) : list (mark F) :=
  match Lookup (routes d) (Method rq) (Path rq) with
  | Some res =>
      let key := routeKey (Method rq) (re_path (lr_entry res)) in
      [Looked key (on_breaker key (fun b => (state b, b)) w).1]
  | None => []
  end ++ (Changed <$> changes) ++ [Ended (Method rq) (route_path d rq) (pretty code) elapsed].

Definition Dispatch_metered (clk : nat -> Z) (uuid : string) (d : Dispatcher) (rq : GatewayRequest) (elapsed : F)
    (changes : list StateChange) (w : World) (m : M) : outcome (Reply (T:=T) (H:=H) * M) :=
  m ← record_marks provider of_Z i (marks_before rq) m;
  reply ← Dispatch enc clk uuid d rq w;
  m ← record_marks provider of_Z i (marks_after d rq w changes (code (final reply)) elapsed) m;
  Ret (reply, m).
End Metered.

(** ** Facts: instruments of the Prometheus provider *)

Lemma level_label_inj (k1 k2 a1 b1 a2 b2 : string) : k1 <> k2 ->
  <[k1 := a1]> {[k2 := b1]} = (<[k1 := a2]> {[k2 := b2]} : gmap string string) -> a1 = a2 /\ b1 = b2.
Proof.
  intros Hk He. pose proof (f_equal (.!! k1) He) as H1. pose proof (f_equal (.!! k2) He) as H2. simpl in *.
  rewrite !lookup_insert_eq in H1. rewrite !lookup_insert_ne, !lookup_singleton_eq in H2 by done. by simplify_eq.
Qed.

Section Facts.
Context {F P : Type} `{PR : !Prometheus F P} `{PL : !PromLaws F P} (DefBuckets : list F).
Context (of_Z : Z -> F).
Implicit Types (p : PromProvider (F:=F) (P:=P)) (v : Vec) (l : gmap string string).

Definition hist v l p : list (op F) := history v l (registry p).

Lemma newVec_ok k name help ls p :
  name ∉ taken (registry p) ->
  exists v p', newVec k name help ls p = Ret (v, p') /\ vec_name v = name /\ vec_labels v = ls /\
    taken (registry p') = {[name]} ∪ taken (registry p) /\
    counters p' = counters p /\ gauges p' = gauges p /\ histograms p' = histograms p /\
    (forall l, hist v l p' = []) /\ (forall v' l, vec_name v' <> name -> hist v' l p' = hist v' l p).
Proof.
  intros Hn. unfold newVec, hist. pose proof (NewVec_vec k name help ls (registry p)) as [Hv Hl].
  pose proof (NewVec_taken k name help ls (registry p)) as Ht.
  pose proof (NewVec_fresh k name help ls (registry p)) as Hf.
  pose proof (NewVec_history k name help ls (registry p)) as Hh.
  destruct (NewVec k name help ls (registry p)) as [v r]. cbn [fst snd] in *.
  destruct (MustRegister_free v r) as (r' & -> & Ht' & Hs); [by rewrite Hv, Ht|].
  exists v, (set_registry r' p). rewrite Hv, Ht in Ht'. repeat (split; [done|]). cbn [registry set_registry].
  split; [by intros l; rewrite Hs|]. intros v' l Hv'. by rewrite Hs, Hh.
Qed.

Lemma on_series_ok v l o p :
  dom l = list_to_set (vec_labels v) ->
  exists p', on_series v l o p = Ret p' /\ counters p' = counters p /\ gauges p' = gauges p /\
    hist v l p' = hist v l p ++ [o] /\
    (forall v' l', vec_name v' <> vec_name v \/ l' <> l -> hist v' l' p' = hist v' l' p).
Proof.
  intros Hd. unfold on_series, hist. destruct (With_match v l o (registry p) Hd) as (r & -> & _ & Hh & Ho).
  by exists (set_registry r p).
Qed.

(** The vectors behind the dispatcher's instruments, under the label names
    the dispatcher uses. *)
Record Vecs := mkVecs { vq : Vec; vd : Vec; vf : Vec; vwr : Vec; vwd : Vec; vwe : Vec; vs : Vec; vt : Vec }.
Record wired (x : Vecs) (i : Instruments (F:=F) (M:=PromProvider)) p : Prop := {
  wired_instruments : i = mkInstruments (promCounter (vq x)) (promHistogram (vd x)) (promGauge (vf x))
    (promCounter (vwr x)) (promHistogram (vwd x)) (promCounter (vwe x)) (promGauge (vs x)) (promCounter (vt x));
  wired_names : vec_name <$> [vq x; vd x; vf x; vwr x; vwd x; vwe x; vs x; vt x]
    = [HTTPRequestTotal; HTTPRequestDuration; HTTPRequestInFlight; WorkerRequestTotal;
       WorkerRequestDuration; WorkerErrorsTotal; CircuitBreakerState; CircuitBreakerTrips];
  wired_labels : vec_labels <$> [vq x; vd x; vf x; vwr x; vwd x; vwe x; vs x; vt x]
    = [[LabelMethod; LabelPath; LabelStatus]; [LabelMethod; LabelPath; LabelStatus]; [LabelMethod; LabelPath];
       [LabelWorker; LabelMethod]; [LabelWorker; LabelMethod]; [LabelWorker; LabelPhase];
       [LabelWorker; LabelState]; [LabelWorker]];
  wired_total : counters p !! HTTPRequestTotal = Some (vq x);
  wired_flight : gauges p !! HTTPRequestInFlight = Some (vf x);
  wired_trips : counters p !! CircuitBreakerTrips = Some (vt x);
}.

(** Asking for an instrument of a new name creates its vector. *)
Definition fresh_vec (name : string) (labels : list string) v p p' : Prop :=
  vec_name v = name /\ vec_labels v = labels /\ taken (registry p') = {[name]} ∪ taken (registry p) /\
  (forall l, hist v l p' = []) /\ (forall v' l, vec_name v' <> name -> hist v' l p' = hist v' l p).

Lemma NewCounter_new name help p :
  counters p !! name = None -> name ∉ taken (registry p) ->
  exists v p', prom_NewCounter name help p = Ret (promCounter v, p') /\
    fresh_vec name (counter_labels name) v p p' /\
    counters p' = <[name := v]> (counters p) /\ gauges p' = gauges p /\ histograms p' = histograms p.
Proof.
  intros Hc Ht. unfold prom_NewCounter. rewrite Hc.
  destruct (newVec_ok KCounter name help (counter_labels name) p Ht) as (v & q & -> & ? & ? & ? & E1 & E2 & E3 & ? & ?).
  eexists v, _. split; [done|]. cbn [counters gauges histograms]. by rewrite E1.
Qed.
Lemma NewGauge_new name help p :
  gauges p !! name = None -> name ∉ taken (registry p) ->
  exists v p', prom_NewGauge name help p = Ret (promGauge v, p') /\
    fresh_vec name (gauge_labels name) v p p' /\
    counters p' = counters p /\ gauges p' = <[name := v]> (gauges p) /\ histograms p' = histograms p.
Proof.
  intros Hc Ht. unfold prom_NewGauge. rewrite Hc.
  destruct (newVec_ok KGauge name help (gauge_labels name) p Ht) as (v & q & -> & ? & ? & ? & E1 & E2 & E3 & ? & ?).
  eexists v, _. split; [done|]. cbn [counters gauges histograms]. by rewrite E2.
Qed.
Lemma NewHistogram_new name help p :
  histograms p !! name = None -> name ∉ taken (registry p) ->
  exists v p', prom_NewHistogram DefBuckets name help p = Ret (promHistogram v, p') /\
    fresh_vec name (histogram_labels name) v p p' /\
    counters p' = counters p /\ gauges p' = gauges p /\ histograms p' = <[name := v]> (histograms p).
Proof.
  intros Hc Ht. unfold prom_NewHistogram, prom_NewHistogramWithBuckets. rewrite Hc.
  destruct (newVec_ok (KHistogram DefBuckets) name help (histogram_labels name) p Ht) as (v & q & -> & ? & ? & ? & E1 & E2 & E3 & ? & ?).
  eexists v, _. split; [done|]. cbn [counters gauges histograms]. by rewrite E3.
Qed.

Ltac follow := repeat match goal with
  | E : counters ?p = _ |- context [counters ?p] => rewrite E
  | E : gauges ?p = _ |- context [gauges ?p] => rewrite E
  | E : histograms ?p = _ |- context [histograms ?p] => rewrite E
  | E : taken (registry ?p) = _ |- context [taken (registry ?p)] => rewrite E
  | E : vec_name ?v = _ |- context [vec_name ?v] => rewrite E
  | E : vec_labels ?v = _ |- context [vec_labels ?v] => rewrite E
  end.
Ltac other_name := match goal with
  | E : vec_name ?v = _ |- vec_name ?v <> _ => rewrite E; apply (bool_decide_unpack _); vm_compute; exact I
  end.
Ltac older := repeat match goal with
  | E : forall l, hist ?v l ?p = [] |- hist ?v _ ?p = [] => apply E
  | E : forall v' l, _ -> hist v' l ?p = _ |- context [hist _ _ ?p] => rewrite E by other_name
  end.
Ltac new_one lem name help p :=
  let E := fresh "E" in
  edestruct (lem name help p) as (? & ? & E & (? & ? & ? & ? & ?) & ? & ? & ?);
  [follow; by simplify_map_eq
  |follow; apply (bool_decide_unpack _); vm_compute; exact I
  |rewrite E; clear E;
   cbn [mbind outcome_mbind outcome_bind]].

Lemma initMetrics_wired :
  exists x i p0, initMetrics (prom_provider DefBuckets) NewPromProvider = Ret (i, p0) /\ wired x i p0 /\
    (forall l, hist (vq x) l p0 = []) /\ (forall l, hist (vf x) l p0 = []).
Proof.
  assert (counters NewPromProvider = ∅) by done. assert (gauges NewPromProvider = ∅) by done.
  assert (histograms NewPromProvider = ∅) by done. assert (taken (registry NewPromProvider) = ∅) by apply NewRegistry_empty.
  unfold initMetrics. cbn [prom_provider NewCounter NewGauge NewHistogram].
  match goal with |- context [prom_NewCounter ?n ?h ?p] => new_one NewCounter_new n h p end.
  match goal with |- context [prom_NewHistogram _ ?n ?h ?p] => new_one NewHistogram_new n h p end.
  match goal with |- context [prom_NewGauge ?n ?h ?p] => new_one NewGauge_new n h p end.
  match goal with |- context [prom_NewCounter ?n ?h ?p] => new_one NewCounter_new n h p end.
  match goal with |- context [prom_NewHistogram _ ?n ?h ?p] => new_one NewHistogram_new n h p end.
  match goal with |- context [prom_NewCounter ?n ?h ?p] => new_one NewCounter_new n h p end.
  match goal with |- context [prom_NewGauge ?n ?h ?p] => new_one NewGauge_new n h p end.
  match goal with |- context [prom_NewCounter ?n ?h ?p] => new_one NewCounter_new n h p end.
  eexists (mkVecs _ _ _ _ _ _ _ _), _, _. split; [reflexivity|]. split; [split|].
  1: reflexivity.
  1, 2: cbn [fmap list_fmap vq vd vf vwr vwd vwe vs vt]; follow; reflexivity.
  1-3: cbn [vq vf vt]; follow; by simplify_map_eq.
  cbn [vq vf vt]. split; intros l; older.
Qed.

(** The effect of a mark on the series of the two HTTP metrics. *)
Definition flight_series (method path : string) : gmap string string := <[LabelMethod := method]> {[LabelPath := path]}.
Definition total_series (method path status : string) : gmap string string :=
  <[LabelMethod := method]> (<[LabelPath := path]> {[LabelStatus := status]}).
Definition flight_ops (method path : string) (k : mark F) : list (op F) :=
  match k with
  | Started m q => if decide (m = method /\ q = path) then [Inc] else []
  | Ended m q _ _ => if decide (m = method /\ q = path) then [Dec] else []
  | _ => []
  end.
Definition total_ops (method path status : string) (k : mark F) : list (op F) :=
  match k with
  | Ended m q st _ => if decide (m = method /\ q = path /\ st = status) then [Inc] else []
  | _ => []
  end.

Lemma flight_series_inj m q m' q' : flight_series m q = flight_series m' q' -> m = m' /\ q = q'.
Proof. by apply level_label_inj. Qed.
Lemma total_series_inj m q st m' q' st' :
  total_series m q st = total_series m' q' st' -> m = m' /\ q = q' /\ st = st'.
Proof.
  unfold total_series. intros He.
  pose proof (f_equal (.!! LabelMethod) He) as H1. pose proof (f_equal (.!! LabelPath) He) as H2.
  pose proof (f_equal (.!! LabelStatus) He) as H3. simpl in *.
  rewrite !lookup_insert_eq in H1. rewrite !lookup_insert_ne, !lookup_insert_eq in H2 by done.
  rewrite !lookup_insert_ne, !lookup_singleton_eq in H3 by done. by simplify_eq.
Qed.

(** [moved]: from [p] to [p'] the series of the two HTTP metrics got the
    operations [fo] and [to_] and the dispatcher's vectors are the same. *)
Definition moved (x : Vecs) p p' (fo : string -> string -> list (op F)) (to_ : string -> string -> string -> list (op F)) : Prop :=
  counters p' = counters p /\ gauges p' = gauges p /\
  (forall m q, hist (vf x) (flight_series m q) p' = hist (vf x) (flight_series m q) p ++ fo m q) /\
  (forall m q st, hist (vq x) (total_series m q st) p' = hist (vq x) (total_series m q st) p ++ to_ m q st).

Lemma moved_trans x p1 p2 p3 f1 t1 f2 t2 :
  moved x p1 p2 f1 t1 -> moved x p2 p3 f2 t2 ->
  moved x p1 p3 (fun m q => f1 m q ++ f2 m q) (fun m q st => t1 m q st ++ t2 m q st).
Proof.
  intros (Ec1 & Eg1 & Hf1 & Ht1) (Ec2 & Eg2 & Hf2 & Ht2). split; [congruence|]. split; [congruence|].
  split; intros; rewrite ?Hf2, ?Hf1, ?Ht2, ?Ht1; by rewrite app_assoc.
Qed.
Lemma moved_wired x i p p' f t : wired x i p -> moved x p p' f t -> wired x i p'.
Proof. intros [] (Ec & Eg & _). split; [done..|by rewrite Ec|by rewrite Eg|by rewrite Ec]. Qed.

Section Wired.
Context (x : Vecs) (i : Instruments (F:=F) (M:=PromProvider)).

Lemma move_other v l o p :
  dom l = list_to_set (vec_labels v) -> vec_name (vf x) <> vec_name v -> vec_name (vq x) <> vec_name v ->
  exists p', on_series v l o p = Ret p' /\ moved x p p' (fun _ _ => []) (fun _ _ _ => []).
Proof.
  intros Hd Hf Hq. destruct (on_series_ok v l o p Hd) as (p' & -> & Ec & Eg & _ & Ho).
  exists p'. split; [done|]. split; [done|]. split; [done|].
  split; intros; rewrite app_nil_r; apply Ho; by left.
Qed.
Lemma move_flight m q o p :
  vec_labels (vf x) = [LabelMethod; LabelPath] -> vec_name (vq x) <> vec_name (vf x) ->
  exists p', on_series (vf x) (flight_series m q) o p = Ret p' /\
    moved x p p' (fun m' q' => if decide (m = m' /\ q = q') then [o] else []) (fun _ _ _ => []).
Proof.
  intros Hl Hq. destruct (on_series_ok (vf x) (flight_series m q) o p) as (p' & -> & Ec & Eg & Hh & Ho).
  { rewrite Hl. unfold flight_series. rewrite dom_insert_L, dom_singleton_L. set_solver. }
  exists p'. split; [done|]. split; [done|]. split; [done|]. split.
  - intros m' q'. case_decide as Hd; [by destruct Hd as [<- <-]|]. rewrite app_nil_r. apply Ho. right.
    intros He%flight_series_inj. naive_solver.
  - intros. rewrite app_nil_r. apply Ho. by left.
Qed.
Lemma move_total m q st o p :
  vec_labels (vq x) = [LabelMethod; LabelPath; LabelStatus] -> vec_name (vf x) <> vec_name (vq x) ->
  exists p', on_series (vq x) (total_series m q st) o p = Ret p' /\
    moved x p p' (fun _ _ => []) (fun m' q' st' => if decide (m = m' /\ q = q' /\ st = st') then [o] else []).
Proof.
  intros Hl Hq. destruct (on_series_ok (vq x) (total_series m q st) o p) as (p' & -> & Ec & Eg & Hh & Ho).
  { rewrite Hl. unfold total_series. rewrite !dom_insert_L, dom_singleton_L. set_solver. }
  exists p'. split; [done|]. split; [done|]. split; [done|]. split.
  - intros. rewrite app_nil_r. apply Ho. by left.
  - intros m' q' st'. case_decide as Hd; [by destruct Hd as (<- & <- & <-)|]. rewrite app_nil_r. apply Ho. right.
    intros He%total_series_inj. naive_solver.
Qed.

Lemma moved_same p p' f t f' t' :
  moved x p p' f t -> (forall m q, f m q = f' m q) -> (forall m q st, t m q st = t' m q st) -> moved x p p' f' t'.
Proof. intros (? & ? & Hf & Ht) Ef Et. repeat split; try done; intros; rewrite <-?Ef, <-?Et; [apply Hf|apply Ht]. Qed.

Ltac dom_labels := match goal with E : vec_labels ?v = _ |- dom _ = list_to_set (vec_labels ?v) => rewrite E end;
  rewrite ?dom_insert_L, dom_singleton_L; set_solver.
Ltac names_differ := repeat match goal with E : vec_name ?v = _ |- context [vec_name ?v] => rewrite E end;
  apply (bool_decide_unpack _); vm_compute; exact I.
Lemma record_mark_ok k p :
  wired x i p ->
  exists p', record_mark (prom_provider DefBuckets) of_Z i k p = Ret p' /\
    moved x p p' (fun m q => flight_ops m q k) (fun m q st => total_ops m q st k).
Proof.
  intros [-> Hn Hl Hq Hf Ht]. cbn [fmap list_fmap] in Hn, Hl. injection Hn as ????????. injection Hl as ????????.
  destruct k as [m q|key st|sc|m q st el]; cbn [record_mark flight_ops total_ops].
  - apply move_flight; [done|names_differ].
  - unfold trackCircuitBreakerState. cbn [cbState promGauge g_Set promLabels default id].
    apply move_other; [dom_labels|names_differ|names_differ].
  - unfold onStateChange. case_decide; cbn [prom_provider NewCounter];
      [|exists p; split; [done|]; split_and!; intros; by rewrite ?app_nil_r].
    unfold prom_NewCounter. rewrite Ht. cbn [mbind outcome_mbind outcome_bind promCounter c_Inc promLabels default id].
    apply move_other; [dom_labels|names_differ|names_differ].
  - unfold recordHTTPMetrics. cbn [httpReqs httpDuration httpInFlight promCounter promHistogram promGauge c_Inc h_Observe g_Dec promLabels default id].
    destruct (move_total m q st Inc p) as (p1 & E1 & M1); [done|names_differ|]. unfold total_series in E1. rewrite E1.
    cbn [mbind outcome_mbind outcome_bind].
    destruct (move_other (vd x) (total_series m q st) (Observe el) p1) as (p2 & E2 & M2);
      [unfold total_series; dom_labels|names_differ|names_differ|]. unfold total_series in E2. rewrite E2.
    cbn [mbind outcome_mbind outcome_bind].
    destruct (move_flight m q Dec p2) as (p3 & E3 & M3); [done|names_differ|]. unfold flight_series in E3. rewrite E3.
    exists p3. split; [done|]. eapply moved_same; [apply (moved_trans _ _ _ _ _ _ _ _ (moved_trans _ _ _ _ _ _ _ _ M1 M2) M3)|..];
      intros; cbn; by rewrite ?app_nil_r.
Qed.

Lemma record_marks_ok ks p :
  wired x i p ->
  exists p', record_marks (prom_provider DefBuckets) of_Z i ks p = Ret p' /\
    moved x p p' (fun m q => ks ≫= flight_ops m q) (fun m q st => ks ≫= total_ops m q st).
Proof.
  revert p. induction ks as [|k ks IH]; intros p Hw; cbn [record_marks].
  { exists p. split; [done|]. split_and!; intros; by rewrite ?app_nil_r. }
  destruct (record_mark_ok k p Hw) as (p1 & -> & M1). cbn [mbind outcome_mbind outcome_bind].
  destruct (IH p1) as (p2 & -> & M2); [by eapply moved_wired|]. exists p2. split; [done|].
  exact (moved_trans _ _ _ _ _ _ _ _ M1 M2).
Qed.
End Wired.
End Facts.

(** ** The gauge of requests in flight *)

Definition level {F} (h : list (op F)) : Z :=
  foldr (fun o n => match o with Inc => n + 1 | Dec => n - 1 | _ => n end) 0 h.
Definition is_inc {F} (o : op F) : bool := match o with Inc => true | _ => false end.
Definition incs {F} (h : list (op F)) : nat := length (filter (fun o => is_inc o = true) h).

Lemma level_app {F} (h1 h2 : list (op F)) : level (h1 ++ h2) = level h1 + level h2.
Proof.
  unfold level. induction h1 as [|o h1 IH]; [done|]. cbn [app foldr]. rewrite IH. destruct o; lia.
Qed.
#[export] Instance level_perm {F} : Proper ((≡ₚ) ==> (=)) (@level F).
Proof. induction 1; cbn; unfold level in *; repeat case_match; lia. Qed.
#[export] Instance incs_perm {F} : Proper ((≡ₚ) ==> (=)) (@incs F).
Proof. intros h1 h2 Hp. unfold incs. by rewrite Hp. Qed.

Section Drift.
Context {T : Type} `{TR : !Transport T} {H : Type} (enc : Encoding).
Context {F P : Type} `{PR : !Prometheus F P} `{PL : !PromLaws F P} (DefBuckets : list F) (of_Z : Z -> F).
Context (d : Dispatcher (H:=H)).

(** A request the dispatcher served, in whatever world and with whatever
    breaker changes meanwhile, and the status code it ended with. *)
Record served := mkServed {
  s_rq : GatewayRequest;
  s_world : World (T:=T) (H:=H);
  s_changes : list StateChange;
  s_code : Z;
  s_elapsed : F;
}.
Definition was_served (s : served) : Prop :=
  exists clk uuid reply, Dispatch enc clk uuid d (s_rq s) (s_world s) = Ret reply /\ s_code s = code (final reply).
Definition marks (s : served) : list (mark F) :=
  marks_before (s_rq s) ++ marks_after d (s_rq s) (s_world s) (s_changes s) (s_code s) (s_elapsed s).

Definition in_flight (p : PromProvider (F:=F) (P:=P)) (method path : string) : Z :=
  match gauges p !! HTTPRequestInFlight with
  | Some v => level (hist v (flight_series method path) p)
  | None => 0
  end.
Definition requests_total (p : PromProvider (F:=F) (P:=P)) (method path status : string) : nat :=
  match counters p !! HTTPRequestTotal with
  | Some v => incs (hist v (total_series method path status) p)
  | None => 0
  end.

Definition asked (method path : string) (rs : list served) : nat :=
  length (filter (fun s => Method (s_rq s) = method /\ Path (s_rq s) = path) rs).
Definition filed (method path : string) (rs : list served) : nat :=
  length (filter (fun s => Method (s_rq s) = method /\ route_path d (s_rq s) = path) rs).
Definition unmatched (method : string) (rs : list served) : nat :=
  length (filter (fun s => Method (s_rq s) = method /\ Lookup (routes d) (Method (s_rq s)) (Path (s_rq s)) = None) rs).

Lemma notify_loop_code latency ls (r : Run (T:=T) (H:=H)) : code (notify_loop latency ls r) = code r.
Proof.
  revert r. induction ls as [|l ls IH]; intros r; cbn [notify_loop]; [done|]. case_match. rewrite IH. cbn [code].
  destruct (_ || _); [|done]. by destruct (OnError _ _ _ _).
Qed.

(** A request no route matches ends with status code 0. *)
Lemma unmatched_code clk uuid rq w reply :
  Dispatch enc clk uuid d rq w = Ret reply -> Lookup (routes d) (Method rq) (Path rq) = None ->
  code (final reply) = 0.
Proof.
  unfold Dispatch. destruct (initCorrelationID uuid rq) as [cid rq'] eqn:Ei. intros HD Hn.
  assert (Method rq' = Method rq /\ Path rq' = Path rq) as [Em Ep].
  { unfold initCorrelationID in Ei. case_match; simplify_eq/=; done. }
  unfold lookupRoute in HD. cbn in HD. rewrite Em, Ep, Hn in HD. injection HD as <-. cbn. unfold notifyListeners. by rewrite notify_loop_code.
Qed.

Lemma marks_flight method path s :
  level (marks s ≫= flight_ops method path)
  = (if decide (Method (s_rq s) = method /\ Path (s_rq s) = path) then 1 else 0)
    - (if decide (Method (s_rq s) = method /\ route_path d (s_rq s) = path) then 1 else 0).
Proof.
  assert (forall cs : list StateChange, (Changed <$> cs) ≫= flight_ops (F:=F) method path = []) as Hc.
  { intros cs. induction cs; [done|]. cbn. done. }
  unfold marks, marks_before, marks_after. rewrite !bind_app, Hc, !level_app. cbn [mbind list_bind].
  assert (level (match Lookup (routes d) (Method (s_rq s)) (Path (s_rq s)) with
    | Some res => [Looked (routeKey (Method (s_rq s)) (re_path (lr_entry res)))
                    (on_breaker (routeKey (Method (s_rq s)) (re_path (lr_entry res))) (fun b => (state b, b)) (s_world s)).1]
    | None => [] end ≫= flight_ops (F:=F) method path) = 0) as -> by (by destruct (Lookup _ _ _)).
  cbn. repeat case_decide; cbn; lia.
Qed.
Lemma rs_flight method path rs :
  level ((rs ≫= marks) ≫= flight_ops method path)
  = Z.of_nat (asked method path rs) - Z.of_nat (filed method path rs).
Proof.
  unfold asked, filed. induction rs as [|s rs IH]; [done|].
  cbn [mbind list_bind]. rewrite bind_app, level_app, IH, marks_flight, !filter_cons.
  repeat case_decide; cbn [length]; lia.
Qed.
Lemma rs_total method rs :
  Forall was_served rs -> (unmatched method rs <= incs ((rs ≫= marks) ≫= total_ops (F:=F) method "" "0"))%nat.
Proof.
  unfold unmatched. induction 1 as [|s rs Hs Hrs IH]; [cbn; lia|].
  cbn [mbind list_bind]. unfold incs in *. rewrite bind_app, filter_app, length_app, filter_cons.
  case_decide as Hu; [|lia]. cbn [length]. destruct Hu as [Hm HN].
  assert (pretty (s_code s) = "0") as HC.
  { destruct Hs as (clk & uuid & reply & HD & ->). by rewrite (unmatched_code _ _ _ _ _ HD HN). }
  assert (length (filter (fun o => is_inc o = true) (marks s ≫= total_ops (F:=F) method "" "0")) <> 0)%nat; [|lia].
  unfold marks, marks_before, marks_after, route_path. rewrite HN, HC, !bind_app, !filter_app, !length_app.
  assert (length (filter (fun o => is_inc o = true) ([Ended (Method (s_rq s)) "" "0" (s_elapsed s)] ≫= total_ops (F:=F) method "" "0")) = 1)%nat as HE.
  { cbn [mbind list_bind total_ops]. by rewrite decide_True. }
  rewrite HE. lia.
Qed.

(** The metrics of the dispatcher under the Prometheus provider, for any
    number of requests in any interleaving with each other and with reports
    of the breakers: no call ever panics - every label set is the one its
    vector was registered with - and the gauge of requests in flight, once
    all of them are answered, stands at the requests asked under the path
    minus those whose route has that path.  So it comes back to zero only
    for routes without parameters: a route with parameters drifts below zero
    by one a request, each path a client spells, matched or not, keeps a
    series of its own above zero for good, and every request no route
    matches is counted under the status 0. *)
Theorem in_flight_gauge_drifts (rs : list served) (es : list (mark F)) :
  Forall was_served rs -> es ≡ₚ rs ≫= marks ->
  exists i p0 p, initMetrics (prom_provider DefBuckets) NewPromProvider = Ret (i, p0) /\
    record_marks (prom_provider DefBuckets) of_Z i es p0 = Ret p /\
    (forall method path, in_flight p method path
       = Z.of_nat (asked method path rs) - Z.of_nat (filed method path rs)) /\
    (forall method, unmatched method rs <= requests_total p method "" "0")%nat.
Proof.
  intros Hs Hp. destruct (initMetrics_wired DefBuckets) as (x & i & p0 & EI & HW & Hq & Hf).
  destruct (record_marks_ok DefBuckets of_Z x i es p0 HW) as (p & EM & Ec & Eg & Mf & Mt).
  exists i, p0, p. split; [done|]. split; [done|]. split.
  - intros method path. unfold in_flight. rewrite Eg, (wired_flight _ _ _ HW), Mf, Hf. cbn [app].
    by rewrite Hp, rs_flight.
  - intros method. unfold requests_total. rewrite Ec, (wired_total _ _ _ HW), Mt, Hq. cbn [app].
    rewrite Hp. by apply rs_total.
Qed.
End Drift.

(** ** A library in memory, and a witness *)

Record library := mkLibrary { names_taken : gset string; made : list ((string * list string) * gmap string string * op Z) }.
Definition made_on (v : string * list string) (l : gmap string string) (h : list ((string * list string) * gmap string string * op Z))
    : list (op Z) := (filter (fun x => x.1 = (v, l)) h).*2.
#[export] Instance library_prometheus : Prometheus Z library := {
  Vec := string * list string;
  NewRegistry := mkLibrary ∅ [];
  NewVec _ name _ ls p := ((name, ls), mkLibrary (names_taken p) (filter (fun x => x.1.1 <> (name, ls)) (made p)));
  MustRegister v p :=
    if decide (v.1 ∈ names_taken p) then Panic "duplicate metrics collector registration attempted"
    else Ret (mkLibrary ({[v.1]} ∪ names_taken p) (made p));
  With v l o p :=
    if decide (dom l = list_to_set v.2) then Ret (mkLibrary (names_taken p) (made p ++ [(v, l, o)]))
    else Panic "inconsistent label cardinality";
}.

Lemma made_on_skip v l (h : list ((string * list string) * gmap string string * op Z)) u :
  made_on v l (filter (fun x => x.1.1 <> u) h) = if decide (v = u) then [] else made_on v l h.
Proof.
  unfold made_on. induction h as [|[[v' l'] o] h IH]; [by case_decide|].
  rewrite !filter_cons. cbn [fst]. destruct (decide (v' <> u)) as [Hu|Hu].
  - rewrite filter_cons. cbn [fst]. destruct (decide ((v', l') = (v, l))) as [He|He].
    + injection He as -> ->. rewrite decide_False in IH |- * by done. cbn. by rewrite IH.
    + apply IH.
  - apply dec_stable in Hu as ->. rewrite IH. case_decide as Hd; [done|].
    by rewrite decide_False by (intros [= Hx _]; congruence).
Qed.
#[export, refine] Instance library_laws : PromLaws Z library := {
  vec_name v := v.1;
  vec_labels v := v.2;
  taken := names_taken;
  history v l p := made_on v l (made p);
}.
Proof.
  - done.
  - done.
  - done.
  - intros k name help ls p v l Hv. cbn [NewVec library_prometheus fst snd made]. rewrite made_on_skip, decide_False; [done|]. by intros ->.
  - intros k name help ls p l. cbn [NewVec library_prometheus fst snd made]. by rewrite made_on_skip, decide_True.
  - intros v p Hv. cbn. rewrite decide_False by done. by eexists.
  - intros v l o p Hd. cbn [With library_prometheus]. rewrite decide_True by done. eexists. split; [done|]. split; [done|]. cbn [made].
    unfold made_on. split.
    + rewrite filter_app, fmap_app. f_equal. by rewrite filter_cons_True.
    + intros v' l' Hne. rewrite filter_app, fmap_app. rewrite (filter_cons_False _ (v, l, o)); [by rewrite app_nil_r|].
      cbn. intros [= -> ->]. by destruct Hne.
  - intros v l o p Hd. cbn. rewrite decide_False by done. by eexists.
Defined.

Definition two_requests : list (served (T:=list (string * Message)) (H:=AccessLog) (F:=Z)) :=
  [mkServed (ask "/admin/7" "Bearer good") demo_world [] 200 3; mkServed (ask "/nowhere" "") demo_world [] 0 3].

Lemma in_flight_gauge_drifts_witness :
  exists p : PromProvider (F:=Z) (P:=library),
    in_flight p "GET" "/admin/7" = 1 /\ in_flight p "GET" (route_path demo_dispatcher (ask "/admin/7" "")) = -1 /\
    (1 <= requests_total p "GET" "" "0")%nat.
Proof.
  destruct (in_flight_gauge_drifts demo_enc [] (fun z => z) demo_dispatcher two_requests
    (reverse (two_requests ≫= marks demo_dispatcher))) as (i & p0 & p & _ & _ & HF & HT).
  - assert (match demo_reply "/admin/7" "Bearer good" with Ret r => code (final r) | Panic _ => 1 end = 200) as H1 by (vm_compute; reflexivity).
    assert (match demo_reply "/nowhere" "" with Ret r => code (final r) | Panic _ => 1 end = 0) as H2 by (vm_compute; reflexivity).
    apply Forall_cons_2; [|apply Forall_cons_2; [|apply Forall_nil_2]].
    + destruct (demo_reply "/admin/7" "Bearer good") as [r|] eqn:E; [|discriminate H1]. exists (clock 5), "uuid", r. split; [exact E|by symmetry].
    + destruct (demo_reply "/nowhere" "") as [r|] eqn:E; [|discriminate H2]. exists (clock 5), "uuid", r. split; [exact E|by symmetry].
  - apply reverse_Permutation.
  - exists p. rewrite !HF. split; [vm_compute; reflexivity|]. split; [vm_compute; reflexivity|].
    etransitivity; [|apply HT]. apply (bool_decide_unpack _). vm_compute. exact I.
Defined.
