(* ===== verification/Arrow.v ===== *)
(** * The Arrow codec ([src/core/infrastructure/ipc/codec/arrow.go])

    Rows of untyped values as an Arrow record and back: the schema is
    inferred from the first value of each column, the values of the column
    are converted to that type.  The Arrow library is a class: builders give
    arrays whose cells read back, and what the writer writes the reader
    reads.  The formatting of values that are not strings and the arithmetic
    of floats are parameters. *)
From stdpp Require Import countable.
From S2P Require Import Prelude GoStrings Ipc Json.
Local Open Scope string_scope.
Local Open Scope list_scope.
Local Open Scope Z_scope.

(** ** Values and data types *)

Inductive intKind := KInt | KInt8 | KInt16 | KInt32 | KInt64 | KUint | KUint8 | KUint16 | KUint32 | KUint64.
#[export] Instance intKind_eq_dec : EqDecision intKind.
Proof. solve_decision. Defined.

(** [strconv.ParseInt(s, 10, 64)], whose result is used even when there is an
    error: 0 for what is no number, the nearest [int64] out of range. *)
Fixpoint digits_value (acc : Z) (s : string) : option Z :=
  match s with
  | EmptyString => Some acc
  | String c s' =>
      let d := Z.of_nat (nat_of_ascii c) - 48 in
      if (0 <=? d) && (d <=? 9) then digits_value (10 * acc + d) s' else None
  end.
Definition clamp (z : Z) : Z := Z.max (- 2 ^ 63) (Z.min (2 ^ 63 - 1) z).
Definition ParseInt (s : string) : Z :=
  let magnitude t := match t with EmptyString => 0 | _ => default 0 (digits_value 0 t) end in
  match s with
  | String "-" t => clamp (- magnitude t)
  | String "+" t => clamp (magnitude t)
  | _ => clamp (magnitude s)
  end.

(** The types of columns the codec uses. *)
Inductive dataType := Int32 | Int64 | Float64 | Boolean | StringT | Binary.
#[export] Instance dataType_eq_dec : EqDecision dataType.
Proof. solve_decision. Defined.
Record arrowField := mkField { Name : string; Type_ : dataType; Nullable : bool }.

Section Arrow.
(** [float64], [float32] and values of any other type. *)
Context (F F32 X : Type).

Inductive value :=
  | VNil
  | VInt (k : intKind) (z : Z)
  | VFloat32 (f : F32)
  | VFloat64 (f : F)
  | VBool (b : bool)
  | VString (s : string)
  | VBytes (b : bytes)
  | VOther (x : X).
Context (Sprint_other : value -> string).
Definition Sprint (v : value) : string := match v with VString s => s | _ => Sprint_other v end.

(** The argument of [Marshal]: rows, one row, or a value of another type. *)
Inductive any := ARows (rows : list (gmap string value)) | ARow (r : gmap string value) | AOf (type : string).

(** A value of an array. *)
Inductive scalar := SInt (z : Z) | SFloat (f : F) | SBool (b : bool) | SStr (s : string) | SBytes (b : bytes).
End Arrow.
Arguments VNil {F F32 X}. Arguments VInt {F F32 X}. Arguments VFloat32 {F F32 X}. Arguments VFloat64 {F F32 X}.
Arguments VBool {F F32 X}. Arguments VString {F F32 X}. Arguments VBytes {F F32 X}. Arguments VOther {F F32 X}.
Arguments ARows {F F32 X}. Arguments ARow {F F32 X}. Arguments AOf {F F32 X}.
Arguments SInt {F}. Arguments SFloat {F}. Arguments SBool {F}. Arguments SStr {F}. Arguments SBytes {F}.

(** ** The library

    [NewArray t cells] is a builder of type [t] given one [Append] or
    [AppendNull] for each cell and then asked for its array; [At] is
    [IsNull] and [Value], for an index below the length.  Builders and
    [NewRecord] can panic. *)
Class ArrowLib (F : Type) := {
  Array : Type;
  RecordT : Type;
  NewArray : dataType -> list (option (scalar F)) -> outcome Array;
  DataType : Array -> dataType;
  Len : Array -> Z;
  At : Array -> nat -> option (scalar F);
  NewRecord : list arrowField -> list Array -> Z -> outcome RecordT;
  Fields : RecordT -> list arrowField;
  Columns : RecordT -> list Array;
  NumRows : RecordT -> Z;
  Write : RecordT -> result bytes;
  ReadNext : bytes -> result (option RecordT);
}.

(** A cell that a builder of the type takes: its argument has that type. *)
Definition cell_ok {F} (t : dataType) (c : option (scalar F)) : Prop :=
  match c with
  | None => True
  | Some (SInt z) => (t = Int64 /\ int64 z) \/ (t = Int32 /\ - 2 ^ 31 <= z < 2 ^ 31)
  | Some (SFloat _) => t = Float64
  | Some (SBool _) => t = Boolean
  | Some (SStr _) => t = StringT
  | Some (SBytes _) => t = Binary
  end.
(** The bytes of a column of strings or byte strings, whose offsets have 32
    bits. *)
Definition cell_bytes {F} (c : option (scalar F)) : Z :=
  match c with
  | Some (SStr s) => Z.of_nat (String.length s)
  | Some (SBytes b) => Z.of_nat (length b)
  | _ => 0
  end.
Definition column_bytes {F} (cells : list (option (scalar F))) : Z := foldr (fun c n => cell_bytes c + n) 0 cells.

(** Two records are the same data when their schemas, sizes and cells are. *)
Definition same_data {F} `{!ArrowLib F} (r1 r2 : RecordT) : Prop :=
  Fields r1 = Fields r2 /\ NumRows r1 = NumRows r2 /\
  Forall2 (fun a b => DataType a = DataType b /\ forall i, Z.of_nat i < NumRows r1 -> At a i = At b i)
    (Columns r1) (Columns r2).

(** What the documentation says of it.  [NewRecord] panics if columns and
    schema are inconsistent, or a column is shorter than the number of
    rows. *)
Class ArrowLaws (F : Type) `{!ArrowLib F} := {
  NewArray_ok t cells :
    Forall (cell_ok t) cells -> column_bytes cells < 2 ^ 31 ->
    exists a, NewArray t cells = Ret a /\ DataType a = t /\ Len a = Z.of_nat (length cells) /\
      forall i, (i < length cells)%nat -> At a i = mjoin (cells !! i);
  NewRecord_ok fields cols n :
    0 <= n -> Forall2 (fun f a => Type_ f = DataType a /\ n <= Len a) fields cols ->
    exists r, NewRecord fields cols n = Ret r /\ Fields r = fields /\ Columns r = cols /\ NumRows r = n;
  Write_Read fields cols n r :
    NewRecord fields cols n = Ret r -> Forall (fun a => Len a = n) cols ->
    exists b r', Write r = Ok b /\ ReadNext b = Ok (Some r') /\ same_data r r';
}.

(** ** The codec *)

Section Codec.
Context {F F32 X : Type} `{AL : !ArrowLib F}.
Context (f_to_int64 : F -> Z) (f32_to_f64 : F32 -> F) (int_to_f64 : Z -> F) (ParseFloat : string -> F) (NaN : F).
Notation value := (value F F32 X).
Notation row := (gmap string value).
Context (f32_to_int64 : F32 -> Z).
Context (Sprint_other : value -> string) (SprintOne : scalar F -> string) (order : gset string -> list string).

Definition toRows (v : any F F32 X) : result (list row) :=
  match v with
  | ARows rows => Ok rows
  | ARow r => Ok [r]
  | AOf type => Err (NewErr ("unsupported type " +:+ type))
  end.

Definition emptyRecord : outcome RecordT :=
  arr ← NewArray Int32 [None]; NewRecord [mkField "_empty" Int32 false] [arr] 0.

(** The keys in the order they are first met. *)
Definition see (keys : list string) (k : string) : list string := if decide (k ∈ keys) then keys else keys ++ [k].
Definition all_keys (rows : list row) : list string :=
  foldl (fun keys (r : row) => foldl see keys (order (dom r))) [] rows.

Definition type_of (v : value) : dataType :=
  match v with
  | VInt _ _ => Int64
  | VFloat32 _ | VFloat64 _ => Float64
  | VBool _ => Boolean
  | VString _ => StringT
  | VBytes _ => Binary
  | _ => StringT
  end.
Fixpoint inferType (rows : list row) (key : string) : dataType :=
  match rows with
  | [] => StringT
  | r :: rows' =>
      match r !! key with
      | None | Some VNil => inferType rows' key
      | Some v => type_of v
      end
  end.
(** [row[k]] is nil for a key the row has not. *)
Definition cell (r : row) (k : string) : value := default VNil (r !! k).
Definition inferSchema (rows : list row) : list arrowField * list (list value) :=
  let keys := all_keys rows in
  ((fun k => mkField k (inferType rows k) true) <$> keys, (fun k => (fun r => cell r k) <$> rows) <$> keys).

Definition toInt64 (v : value) : Z :=
  match v with
  | VInt _ z => wrap64 z
  | VFloat32 f => f32_to_int64 f
  | VFloat64 f => f_to_int64 f
  | VString s => ParseInt s
  | _ => 0
  end.
Definition toFloat64 (v : value) : F :=
  match v with
  | VFloat32 f => f32_to_f64 f
  | VFloat64 f => f
  | VInt _ z => int_to_f64 z
  | VString s => ParseFloat s
  | _ => NaN
  end.

(** One cell of a column of type [dt]; a type assertion may panic. *)
Definition buildCell (dt : dataType) (v : value) : outcome (option (scalar F)) :=
  match v with
  | VNil => Ret None
  | _ =>
      match dt with
      | Int64 => Ret (Some (SInt (toInt64 v)))
      | Float64 => Ret (Some (SFloat (toFloat64 v)))
      | Boolean => match v with VBool b => Ret (Some (SBool b)) | _ => Panic "interface conversion: not a bool" end
      | Binary => match v with VBytes b => Ret (Some (SBytes b)) | _ => Panic "interface conversion: not a []uint8" end
      | _ => Ret (Some (SStr (Sprint _ _ _ Sprint_other v)))
      end
  end.
Fixpoint buildCells (dt : dataType) (col : list value) : outcome (list (option (scalar F))) :=
  match col with
  | [] => Ret []
  | v :: col' => c ← buildCell dt v; cs ← buildCells dt col'; Ret (c :: cs)
  end.
(** The type of the builder [buildColumn] picks. *)
Definition builder (dt : dataType) : dataType :=
  match dt with Int64 => Int64 | Float64 => Float64 | Boolean => Boolean | Binary => Binary | _ => StringT end.
Definition buildColumn (dt : dataType) (col : list value) : outcome Array :=
  cells ← buildCells dt col; NewArray (builder dt) cells.
Fixpoint buildColumns (fields : list arrowField) (cols : list (list value)) : outcome (list Array) :=
  match fields, cols with
  | f :: fields', col :: cols' => a ← buildColumn (Type_ f) col; r ← buildColumns fields' cols'; Ret (a :: r)
  | _, _ => Ret []
  end.
Definition buildRecord (fields : list arrowField) (cols : list (list value)) (numRows : Z) : outcome RecordT :=
  columns ← buildColumns fields cols; NewRecord fields columns numRows.

Definition recordToIPC (rec : RecordT) : result bytes :=
  match Write rec with Ok b => Ok b | Err e => Err (WrapErr "arrow: ipc write: " e "") end.
Definition ipcToRecord (data : bytes) : result RecordT :=
  match ReadNext data with
  | Err e => Err (WrapErr "arrow: ipc reader: " e "")
  | Ok None => Err (NewErr "arrow: no record in IPC data")
  | Ok (Some r) => Ok r
  end.

Definition Marshal (v : any F F32 X) : outcome (result bytes) :=
  match toRows v with
  | Err e => Ret (Err (WrapErr "arrow: marshal: " e ""))
  | Ok [] => rec ← emptyRecord; Ret (recordToIPC rec)
  | Ok rows =>
      let '(fields, cols) := inferSchema rows in
      rec ← buildRecord fields cols (Z.of_nat (length rows)); Ret (recordToIPC rec)
  end.

Definition extractValue (col : Array) (c : scalar F) : value :=
  match DataType col, c with
  | Int64, SInt z => VInt KInt64 z
  | Float64, SFloat f => VFloat64 f
  | Boolean, SBool b => VBool b
  | StringT, SStr s => VString s
  | Binary, SBytes b => VBytes b
  | _, _ => VString (SprintOne c)
  end.
Definition read (col : Array) (i : nat) : value :=
  match At col i with None => VNil | Some c => extractValue col c end.
Definition put_cell (name : string) (col : Array) (i : nat) (r : row) : row := <[name := read col i]> r.
Definition put_column (rows : list row) (fc : arrowField * Array) : list row :=
  imap (fun i r => put_cell (Name fc.1) fc.2 i r) rows.
Definition recordToRows (rec : RecordT) : list row :=
  if NumRows rec =? 0 then []
  else foldl put_column (replicate (Z.to_nat (NumRows rec)) ∅) (zip (Fields rec) (Columns rec)).

(** [target] tells whether the target is a pointer to rows. *)
Definition Unmarshal (data : bytes) (target : bool) : result (list row) :=
  match ipcToRecord data with
  | Err e => Err (WrapErr "arrow: unmarshal: " e "")
  | Ok rec =>
      let rows := recordToRows rec in
      if target then Ok rows else Err (NewErr "arrow: unmarshal target must be *[]map[string]any")
  end.

(** ** Facts *)

(** A value a column of the type refuses, and what a value it takes reads back
    as. *)
Definition bad (dt : dataType) (v : value) : bool :=
  match dt, v with
  | (Boolean | Binary), VNil | Boolean, VBool _ | Binary, VBytes _ => false
  | (Boolean | Binary), _ => true
  | _, _ => false
  end.
Definition stored (dt : dataType) (v : value) : value :=
  match v with
  | VNil => VNil
  | _ =>
      match dt with
      | Int64 => VInt KInt64 (toInt64 v)
      | Float64 => VFloat64 (toFloat64 v)
      | Boolean | Binary => v
      | _ => VString (Sprint _ _ _ Sprint_other v)
      end
  end.

Definition value_bytes (v : value) : Z :=
  match v with VString s => Z.of_nat (String.length s) | VBytes b => Z.of_nat (length b) | _ => 0 end.

Record reads (dt : dataType) (c : option (scalar F)) (v : value) : Prop := {
  rd_value a : DataType a = builder dt -> match c with None => VNil | Some x => extractValue a x end = stored dt v;
  rd_type : cell_ok (builder dt) c;
  rd_bytes : cell_bytes c = value_bytes (stored dt v);
}.

Section Cells.
(** A conversion of a float to [int64] gives one. *)
Context (f_to_int64_range : forall f, int64 (f_to_int64 f)) (f32_to_int64_range : forall f, int64 (f32_to_int64 f)).

Lemma toInt64_range v : int64 (toInt64 v).
Proof.
  destruct v; cbn; try (unfold int64; lia); [apply wrap64_range|done|done|].
  unfold ParseInt, clamp, int64. repeat case_match; lia.
Qed.

Lemma buildCell_spec dt v :
  if bad dt v then exists e, buildCell dt v = Panic e
  else exists c, buildCell dt v = Ret c /\ reads dt c v.
Proof.
  pose proof (toInt64_range v) as Hr.
  destruct v, dt; cbn [bad buildCell]; first [by eexists|
    eexists; split; [reflexivity|split; [intros a Ha; unfold extractValue; cbn; by rewrite ?Ha|cbn; auto|done]]].
Qed.

End Cells.

Lemma see_elem keys k x : x ∈ see keys k <-> x ∈ keys \/ x = k.
Proof. unfold see. case_decide; [naive_solver|]. rewrite elem_of_app, list_elem_of_singleton. done. Qed.
Lemma see_NoDup keys k : NoDup keys -> NoDup (see keys k).
Proof.
  intros Hk. unfold see. case_decide; [done|]. apply NoDup_app. split; [done|]. split; [|apply NoDup_singleton].
  intros x Hx ->%list_elem_of_singleton. done.
Qed.
Lemma see_all_elem l keys x : x ∈ foldl see keys l <-> x ∈ keys \/ x ∈ l.
Proof.
  revert keys. induction l as [|k l IH]; intros keys; cbn [foldl].
  - rewrite elem_of_nil. naive_solver.
  - rewrite IH, see_elem, elem_of_cons. naive_solver.
Qed.
Lemma see_all_NoDup l keys : NoDup keys -> NoDup (foldl see keys l).
Proof. revert keys. induction l as [|k l IH]; intros keys Hk; cbn [foldl]; [done|]. by apply IH, see_NoDup. Qed.

Section Order.
Context (order_perm : forall D, order D ≡ₚ elements D).

Definition some_row (rows : list row) (k : string) : Prop := Exists (fun r : row => k ∈ dom r) rows.
#[local] Instance some_row_dec rows k : Decision (some_row rows k).
Proof. unfold some_row. apply _. Defined.

Lemma all_keys_spec rows : NoDup (all_keys rows) /\ forall k, k ∈ all_keys rows <-> some_row rows k.
Proof.
  unfold all_keys, some_row.
  assert (forall rows keys, (NoDup keys -> NoDup (foldl (fun keys (r : row) => foldl see keys (order (dom r))) keys rows)) /\
    forall k, k ∈ foldl (fun keys (r : row) => foldl see keys (order (dom r))) keys rows
              <-> k ∈ keys \/ Exists (fun r : row => k ∈ dom r) rows) as HG.
  { clear rows. intros rows. induction rows as [|r rows IH]; intros keys; cbn [foldl].
    - split; [done|]. intros k. rewrite Exists_nil. naive_solver.
    - destruct (IH (foldl see keys (order (dom r)))) as [HN HE]. split.
      + intros Hk. by apply HN, see_all_NoDup.
      + intros k. rewrite HE, see_all_elem, Exists_cons, order_perm, elem_of_elements. naive_solver. }
  destruct (HG rows []) as [HN HE]. split; [by apply HN, NoDup_nil|].
  intros k. rewrite HE, elem_of_nil. naive_solver.
Qed.
End Order.

Context `{LAWS : !ArrowLaws F}.

(** The bytes that a column takes once its values are converted. *)
Definition stored_bytes (dt : dataType) (col : list value) : Z :=
  foldr (fun v n => value_bytes (stored dt v) + n) 0 col.

Section Columns.
Context (f_to_int64_range : forall f, int64 (f_to_int64 f)) (f32_to_int64_range : forall f, int64 (f32_to_int64 f)).

Lemma buildCells_spec dt col :
  if existsb (bad dt) col then exists e, buildCells dt col = Panic e
  else exists cells, buildCells dt col = Ret cells /\ Forall2 (reads dt) cells col.
Proof.
  induction col as [|v col IH]; cbn [existsb buildCells].
  - exists []. done.
  - pose proof (buildCell_spec f_to_int64_range f32_to_int64_range dt v) as Hv.
    destruct (bad dt v); cbn [orb]; [destruct Hv as [e ->]; by exists e|].
    destruct Hv as (c & -> & Hc). cbn [mbind outcome_mbind outcome_bind].
    destruct (existsb _ _); [destruct IH as [e ->]; by exists e|]. destruct IH as (cells & -> & Hcs).
    exists (c :: cells). by split; [|constructor].
Qed.

(** The array of a column of type [dt] reads as the values converted. *)
Record column_of (dt : dataType) (col : list value) (a : Array) : Prop := {
  co_type : DataType a = builder dt;
  co_len : Len a = Z.of_nat (length col);
  co_read i v : col !! i = Some v -> read a i = stored dt v;
}.

Lemma buildColumn_spec dt col :
  if existsb (bad dt) col then exists e, buildColumn dt col = Panic e
  else stored_bytes dt col < 2 ^ 31 -> exists a, buildColumn dt col = Ret a /\ column_of dt col a.
Proof.
  pose proof (buildCells_spec dt col) as HC. unfold buildColumn.
  destruct (existsb _ _); [destruct HC as [e ->]; by exists e|]. destruct HC as (cells & -> & Hcs). intros Hb.
  destruct (NewArray_ok (builder dt) cells) as (a & Ha & Ht & Hl & Hat).
  - clear -Hcs. induction Hcs as [|c v cells col [_ Ht _] _ IH]; by constructor.
  - replace (column_bytes cells) with (stored_bytes dt col); [done|]. clear -Hcs.
    induction Hcs as [|c v cells col [_ _ Hb] _ IH]; [done|]. cbn. unfold stored_bytes, column_bytes in IH.
    rewrite Hb. by f_equal.
  - exists a. split; [exact Ha|]. split; [done|by rewrite Hl, (Forall2_length _ _ _ Hcs)|]. intros i v Hi.
    destruct (Forall2_lookup_r _ _ _ _ _ Hcs Hi) as (c & Hc & [Hr _ _]).
    unfold read. rewrite Hat, Hc by (by eapply lookup_lt_Some). by apply Hr.
Qed.

Lemma buildColumns_spec (T : string -> dataType) (col : string -> list value) keys :
  let fields := (fun k => mkField k (T k) true) <$> keys in
  if existsb (fun k => existsb (bad (T k)) (col k)) keys
  then exists e, buildColumns fields (col <$> keys) = Panic e
  else (forall k, stored_bytes (T k) (col k) < 2 ^ 31) ->
    exists arrs, buildColumns fields (col <$> keys) = Ret arrs /\ Forall2 (fun k a => column_of (T k) (col k) a) keys arrs.
Proof.
  induction keys as [|k keys IH]; cbn; [by exists []|].
  pose proof (buildColumn_spec (T k) (col k)) as HC. destruct (existsb (bad (T k)) (col k)); cbn [orb].
  { destruct HC as [e ->]. by exists e. }
  cbn in IH. destruct (existsb _ _).
  { destruct (buildColumn (T k) (col k)) as [a|e]; [|by exists e]. destruct IH as [e IH]. exists e.
    cbn [mbind outcome_mbind outcome_bind]. unfold mbind in IH. by rewrite IH. }
  intros Hb. destruct (HC (Hb k)) as (a & -> & Ha). cbn [mbind outcome_mbind outcome_bind].
  destruct (IH Hb) as (arrs & -> & Hs). exists (a :: arrs). by split; [|constructor].
Qed.
End Columns.

Lemma inferType_builder rows k : builder (inferType rows k) = inferType rows k.
Proof.
  induction rows as [|row rows IH]; [done|]. cbn. destruct (row !! k) as [v|]; [|exact IH].
  destruct v; first [exact IH|done].
Qed.

Lemma put_columns_lookup fcs rows i :
  foldl put_column rows fcs !! i
  = (fun r => foldl (fun r (fc : arrowField * Array) => put_cell (Name fc.1) fc.2 i r) r fcs) <$> rows !! i.
Proof.
  revert rows. induction fcs as [|fc fcs IH]; intros rows; cbn [foldl]; [by destruct (rows !! i)|].
  rewrite IH. unfold put_column at 1. rewrite list_lookup_imap. by destruct (rows !! i).
Qed.

(** A row put together from columns of distinct names. *)
Lemma put_cells_lookup (T : string -> dataType) (cell_at : string -> value) keys arrs i r :
  NoDup keys -> Forall2 (fun k a => read a i = cell_at k) keys arrs ->
  let r' := foldl (fun r (fc : arrowField * Array) => put_cell (Name fc.1) fc.2 i r) r
              (zip ((fun k => mkField k (T k) true) <$> keys) arrs) in
  forall k, r' !! k = if decide (k ∈ keys) then Some (cell_at k) else r !! k.
Proof.
  intros HN HF. revert r HN. induction HF as [|k0 a keys arrs Hr HF IH]; intros r HN; cbn; intros k.
  - by rewrite decide_False by apply not_elem_of_nil.
  - apply NoDup_cons in HN as [Hk0 HN]. rewrite IH by done. unfold put_cell. cbn [fst snd Name]. rewrite Hr.
    destruct (decide (k ∈ keys)) as [Hk|Hk].
    + rewrite (decide_True (P:=k ∈ k0 :: keys)); [done|set_solver].
    + destruct (decide (k = k0)) as [->|Hne].
      * rewrite lookup_insert_eq, decide_True; [done|set_solver].
      * rewrite lookup_insert_ne, decide_False by (rewrite ?elem_of_cons; naive_solver). done.
Qed.

(** A value some column of the rows refuses. *)
Definition refused (rows : list row) : Prop :=
  Exists (fun r : row => exists k v, r !! k = Some v /\ bad (inferType rows k) v = true) rows.

Context (order_perm : forall D, order D ≡ₚ elements D).

Lemma refused_columns rows :
  refused rows <-> existsb (fun k => existsb (bad (inferType rows k)) ((fun r => cell r k) <$> rows)) (all_keys rows) = true.
Proof.
  destruct (all_keys_spec order_perm rows) as [_ HK]. unfold refused, some_row in *. rewrite existsb_exists, Exists_exists.
  setoid_rewrite existsb_exists. split.
  - intros (r & Hr & k & v & Hk & Hb). exists k. split.
    + apply list_elem_of_In, HK, Exists_exists. exists r. split; [done|]. apply elem_of_dom. by eexists.
    + exists v. split; [|done]. apply list_elem_of_In, list_elem_of_fmap. exists r. split; [|done].
      unfold cell. by rewrite Hk.
  - intros (k & _ & v & Hv & Hb). apply list_elem_of_In, list_elem_of_fmap in Hv as (r & -> & Hr).
    exists r. split; [done|]. unfold cell in Hb. destruct (r !! k) as [v|] eqn:E; [by exists k, v|].
    by destruct (inferType rows k).
Qed.

Lemma recordToRows_data (T : string -> dataType) keys rows (rec : RecordT) :
  NoDup keys -> rows <> [] -> Fields rec = (fun k => mkField k (T k) true) <$> keys ->
  NumRows rec = Z.of_nat (length rows) ->
  Forall2 (fun k a => forall i v, (fun r : row => cell r k) <$> rows !! i = Some v -> read a i = stored (T k) v) keys (Columns rec) ->
  Forall2 (fun r r' : row => forall k, r' !! k = if decide (k ∈ keys) then Some (stored (T k) (cell r k)) else None)
    rows (recordToRows rec).
Proof.
  intros HN Hne HF Hn HC. unfold recordToRows. rewrite Hn.
  rewrite (proj2 (Z.eqb_neq _ _)) by (destruct rows; [done|cbn; lia]). rewrite Nat2Z.id.
  apply Forall2_same_length_lookup. split.
  - assert (forall fcs (rs : list row), length (foldl put_column rs fcs) = length rs) as HL.
    { intros fcs. induction fcs as [|fc fcs IH]; intros rs; cbn [foldl]; [done|].
      rewrite IH. unfold put_column. by rewrite length_imap. }
    by rewrite HL, length_replicate.
  - intros i r r' Hr Hr' k. rewrite put_columns_lookup, lookup_replicate_2 in Hr' by (by eapply lookup_lt_Some).
    injection Hr' as <-. rewrite HF.
    rewrite (put_cells_lookup T (fun k => stored (T k) (cell r k))); [by rewrite lookup_empty|done|].
    eapply Forall2_impl; [exact HC|]. cbn. intros k' a Ha. apply Ha. by rewrite Hr.
Qed.

Lemma read_same_data a b i : DataType a = DataType b -> At a i = At b i -> read a i = read b i.
Proof. intros Ht Hi. unfold read, extractValue. by rewrite Hi, Ht. Qed.

(** No column takes more bytes than the offsets of an array can count. *)
Definition small (rows : list row) : Prop :=
  forall k, stored_bytes (inferType rows k) ((fun r => cell r k) <$> rows) < 2 ^ 31.

Lemma columns_consistent rows keys arrs :
  Forall2 (fun k a => column_of (inferType rows k) ((fun r => cell r k) <$> rows) a) keys arrs ->
  Forall2 (fun f a => Type_ f = DataType a /\ Z.of_nat (length rows) <= Len a)
    ((fun k => mkField k (inferType rows k) true) <$> keys) arrs.
Proof.
  induction 1 as [|k a keys arrs [Ht Hl _] _ IH]; cbn; constructor; [|exact IH]. cbn.
  rewrite Ht, Hl, length_fmap, inferType_builder. by split.
Qed.
Lemma columns_len rows keys arrs :
  Forall2 (fun k a => column_of (inferType rows k) ((fun r => cell r k) <$> rows) a) keys arrs ->
  Forall (fun a => Len a = Z.of_nat (length rows)) arrs.
Proof. induction 1 as [|k a keys arrs [_ Hl _] _ IH]; constructor; [by rewrite Hl, length_fmap|exact IH]. Qed.
Lemma columns_same rows keys arrs arrs' :
  Forall2 (fun k a => column_of (inferType rows k) ((fun r => cell r k) <$> rows) a) keys arrs ->
  Forall2 (fun a b => DataType a = DataType b /\ forall i, Z.of_nat i < Z.of_nat (length rows) -> At a i = At b i) arrs arrs' ->
  Forall2 (fun k a => forall i v, (fun r : row => cell r k) <$> rows !! i = Some v -> read a i = stored (inferType rows k) v)
    keys arrs'.
Proof.
  intros HF. revert arrs'. induction HF as [|k a keys arrs [_ _ Hr] _ IH]; intros arrs' HD;
    inversion HD as [|? b ? ? [Ht Hi] HD']; subst; constructor; [|by apply IH].
  intros i v Hv. rewrite <-(read_same_data a b i Ht); [apply Hr; by rewrite list_lookup_fmap|].
  apply Hi. destruct (rows !! i) eqn:E; [|done]. apply lookup_lt_Some in E. lia.
Qed.

(** The conversions, and what stops them. *)
Lemma Marshal_reads_back (rows : list row) :
  (forall f, int64 (f_to_int64 f)) -> (forall f, int64 (f32_to_int64 f)) -> rows <> [] -> small rows ->
  (refused rows -> exists e, Marshal (ARows rows) = Panic e) /\
  (~ refused rows -> exists b rows', Marshal (ARows rows) = Ret (Ok b) /\ Unmarshal b true = Ok rows' /\
     Forall2 (fun r r' : row => forall k,
       r' !! k = if decide (some_row rows k) then Some (stored (inferType rows k) (cell r k)) else None) rows rows').
Proof.
  intros Hf Hf32 Hne Hsm. destruct (all_keys_spec order_perm rows) as [HN HK].
  pose proof (buildColumns_spec Hf Hf32 (inferType rows) (fun k => (fun r => cell r k) <$> rows) (all_keys rows)) as HB.
  cbv zeta in HB. rewrite refused_columns.
  assert (Marshal (ARows rows)
    = (columns ← buildColumns ((fun k => mkField k (inferType rows k) true) <$> all_keys rows)
         ((fun k => (fun r => cell r k) <$> rows) <$> all_keys rows);
       rec ← NewRecord ((fun k => mkField k (inferType rows k) true) <$> all_keys rows) columns (Z.of_nat (length rows));
       Ret (recordToIPC rec))) as ->.
  { unfold Marshal. cbn [toRows]. destruct rows as [|r0 rows]; [done|]. unfold inferSchema, buildRecord.
    by destruct (buildColumns _ _). }
  destruct (existsb _ (all_keys rows)); (split; intros HR; [|]); try done.
  { destruct HB as [e ->]. by exists e. }
  destruct (HB Hsm) as (arrs & -> & HF). cbn [mbind outcome_mbind outcome_bind].
  destruct (NewRecord_ok ((fun k => mkField k (inferType rows k) true) <$> all_keys rows) arrs (Z.of_nat (length rows)))
    as (rec & HR' & E1 & E2 & E3); [lia|by apply columns_consistent|]. rewrite HR'.
  cbn [mbind outcome_mbind outcome_bind].
  destruct (Write_Read _ _ _ _ HR') as (b & rec' & EW & ER & D1 & D2 & D3); [by eapply columns_len|].
  unfold recordToIPC. rewrite EW. exists b, (recordToRows rec'). split; [done|].
  split; [unfold Unmarshal, ipcToRecord; by rewrite ER|].
  eapply Forall2_impl; [eapply (recordToRows_data (inferType rows) (all_keys rows) rows rec'); try done; try congruence|].
  - rewrite E2, E3 in D3. by eapply columns_same.
  - cbn. intros r r' Hr k. rewrite Hr. by apply decide_ext.
Qed.

(** Values of the five types the codec gives back, alike in each column, come
    back as they were. *)
Definition homogeneous (rows : list row) : Prop :=
  Forall (fun r : row => forall k v, r !! k = Some v ->
    match v with
    | VNil => True
    | VInt KInt64 z => int64 z /\ inferType rows k = Int64
    | VFloat64 _ | VBool _ | VString _ | VBytes _ => inferType rows k = type_of v
    | _ => False
    end) rows.

Lemma homogeneous_taken rows : homogeneous rows -> ~ refused rows.
Proof.
  unfold homogeneous, refused. rewrite Forall_forall, Exists_exists. intros HT (r & Hr & k & v & Hk & Hb).
  specialize (HT r Hr k v Hk). destruct v as [|[]| | | | | |]; try done.
  1: by destruct (inferType rows k).
  1: by rewrite (proj2 HT) in Hb.
  all: by rewrite HT in Hb.
Qed.
Lemma homogeneous_stored rows r k v :
  homogeneous rows -> r ∈ rows -> r !! k = Some v -> stored (inferType rows k) (cell r k) = v.
Proof.
  unfold homogeneous. rewrite Forall_forall. intros HT Hr Hk. specialize (HT r Hr k v Hk).
  unfold cell. rewrite Hk. cbn [default]. unfold id. destruct v as [|[] z| | | | | |]; try done.
  - destruct HT as [Hz ->]. cbn. by rewrite wrap64_id.
  - by rewrite HT.
  - by rewrite HT.
  - by rewrite HT.
  - by rewrite HT.
Qed.

(** C34: What the codec does with rows, completely - rows none of whose columns
    takes 2 GiB of strings.  When a row holds under
    some key a value that the type inferred for the key - from the first row
    that has one - does not take (anything else in a column of booleans or of
    byte strings) the call panics.  Otherwise it succeeds, and reading the
    bytes gives as many rows, in which exactly the keys of any row have a
    value: the one it had, converted to the type of its column - integers
    modulo 2^64, strings in a column of numbers as the number they spell or
    0 - and nil where the row had none.  So rows of values of the five types
    the codec gives back, alike in each column, keep every value. *)
Theorem arrow_reads_back (rows : list row) :
  (forall f, int64 (f_to_int64 f)) -> (forall f, int64 (f32_to_int64 f)) -> rows <> [] -> small rows ->
  (refused rows -> exists e, Marshal (ARows rows) = Panic e) /\
  (~ refused rows -> exists b rows', Marshal (ARows rows) = Ret (Ok b) /\ Unmarshal b true = Ok rows' /\
     Forall2 (fun r r' : row => forall k,
       r' !! k = if decide (some_row rows k) then Some (stored (inferType rows k) (cell r k)) else None) rows rows') /\
  (homogeneous rows -> exists b rows', Marshal (ARows rows) = Ret (Ok b) /\ Unmarshal b true = Ok rows' /\
     Forall2 (fun r r' : row => forall k v, r !! k = Some v -> r' !! k = Some v) rows rows').
Proof.
  intros Hf Hf32 Hne Hsm. pose proof (Marshal_reads_back rows Hf Hf32 Hne Hsm) as [HP HR]. split; [done|]. split; [done|]. intros HH.
  destruct (HR (homogeneous_taken _ HH)) as (b & rows' & ? & ? & HF). exists b, rows'. split; [done|]. split; [done|].
  apply Forall2_same_length_lookup. split; [by eapply Forall2_length|]. intros i r r' Hr Hr' k v Hk.
  pose proof (Forall2_lookup_lr _ _ _ _ _ _ HF Hr Hr' k) as ->. apply list_elem_of_lookup_2 in Hr.
  rewrite (homogeneous_stored rows r k v) by done. rewrite decide_True; [done|]. unfold some_row. rewrite Exists_exists.
  exists r. split; [done|]. apply elem_of_dom. by eexists.
Qed.

End Codec.

(** ** A library in memory, and a witness *)

#[export] Instance dataType_countable : Countable dataType.
Proof.
  refine (inj_countable'
    (fun t => match t with Int32 => 0 | Int64 => 1 | Float64 => 2 | Boolean => 3 | StringT => 4 | Binary => 5 end%nat)
    (fun n => match n with 0 => Int32 | 1 => Int64 | 2 => Float64 | 3 => Boolean | 4 => StringT | _ => Binary end%nat) _).
  by intros [].
Defined.
#[export] Instance scalar_eq_dec : EqDecision (scalar Z).
Proof. solve_decision. Defined.
#[export] Instance scalar_countable : Countable (scalar Z).
Proof.
  refine (inj_countable'
    (fun c => match c with SInt z => inl (inl z) | SFloat z => inl (inr z) | SBool b => inr (inl b)
              | SStr s => inr (inr (inl s)) | SBytes b => inr (inr (inr b)) end)
    (fun c => match c with inl (inl z) => SInt z | inl (inr z) => SFloat z | inr (inl b) => SBool b
              | inr (inr (inl s)) => SStr s | inr (inr (inr b)) => SBytes b end) _).
  by intros [].
Defined.
Definition field_triple (f : arrowField) : string * dataType * bool := (Name f, Type_ f, Nullable f).
Definition triple_field (t : string * dataType * bool) : arrowField := mkField t.1.1 t.1.2 t.2.

Record memRecord := mkMem {
  m_fields : list arrowField; m_cols : list (dataType * list (option (scalar Z))); m_rows : Z;
}.
#[export] Instance memory_arrow : ArrowLib Z := {
  Array := dataType * list (option (scalar Z));
  RecordT := memRecord;
  NewArray t cells := Ret (t, cells);
  DataType := fst;
  Len a := Z.of_nat (length a.2);
  At a i := mjoin (a.2 !! i);
  NewRecord fields cols n :=
    if decide (Forall2 (fun f (a : dataType * list (option (scalar Z))) => Type_ f = a.1 /\ n <= Z.of_nat (length a.2)) fields cols)
    then Ret (mkMem fields cols n) else Panic "arrow/array: mismatch number of columns/fields";
  Fields := m_fields;
  Columns := m_cols;
  NumRows := m_rows;
  Write r := Ok (bits (encode (field_triple <$> m_fields r, m_cols r, m_rows r)));
  ReadNext b := Ok ((fun t : list (string * dataType * bool) * list (dataType * list (option (scalar Z))) * Z =>
                       mkMem (triple_field <$> t.1.1) t.1.2 t.2) <$> countable.decode (of_bits b));
}.
#[export, refine] Instance memory_laws : ArrowLaws Z := {}.
Proof.
  - intros t cells _ _. by exists (t, cells).
  - intros fields cols n _ HF. cbn. rewrite decide_True by done. by eexists.
  - intros fields cols n r HN _. destruct r as [fs cs m]. do 2 eexists. split; [reflexivity|]. cbn [ReadNext memory_arrow].
    rewrite of_bits_bits, decode_encode. cbn. split; [done|]. split; [|split; [done|]].
    + cbn. rewrite <-list_fmap_compose. symmetry. etransitivity; [|apply list_fmap_id]. apply list_fmap_ext. by intros ? [].
    + cbn. clear HN. induction cs as [|c cs IH]; constructor; [done|apply IH].
Defined.

Definition person (name : string) (age : option Z) : gmap string (value Z Z unit) :=
  <["name" := VString name]> match age with Some z => {["age" := VInt KInt64 z]} | None => ∅ end.
Definition people : list (gmap string (value Z Z unit)) := [person "Alice" (Some 30); person "Bob" None].

Lemma people_small k : stored_bytes (F32:=Z) (X:=unit) wrap64 (fun z => z) (fun z => z) (fun _ => 0) 0 wrap64 (fun _ => "")
  (inferType people k) ((fun r => cell r k) <$> people) < 2 ^ 31.
Proof.
  destruct (decide (k = "name")) as [->|Hn]; [vm_compute; reflexivity|].
  destruct (decide (k = "age")) as [->|Ha]; [vm_compute; reflexivity|].
  unfold people, person. cbn [fmap list_fmap]. unfold cell. rewrite !lookup_insert_ne by done.
  rewrite lookup_singleton_ne, lookup_empty by done. cbn. lia.
Qed.
Lemma people_homogeneous : homogeneous people.
Proof.
  assert (forall k v, person "Alice" (Some 30) !! k = Some v -> (k = "name" /\ v = VString "Alice") \/ (k = "age" /\ v = VInt KInt64 30)) as HA.
  { unfold person. intros k v. rewrite lookup_insert_Some, lookup_singleton_Some. naive_solver. }
  assert (forall k v, person "Bob" None !! k = Some v -> k = "name" /\ v = VString "Bob") as HB.
  { unfold person. intros k v. rewrite lookup_insert_Some, lookup_empty. naive_solver. }
  repeat constructor; intros k v Hk.
  - destruct (HA k v Hk) as [[-> ->]|[-> ->]]; [reflexivity|]. split; [unfold int64; lia|reflexivity].
  - destruct (HB k v Hk) as [-> ->]. reflexivity.
Qed.

Lemma arrow_reads_back_witness :
  exists b rows', Marshal (F32:=Z) (X:=unit) wrap64 (fun z => z) (fun z => z) (fun _ => 0) 0 wrap64 (fun _ => "")
       elements (ARows people) = Ret (Ok b) /\
     Forall2 (fun r r' : gmap string (value Z Z unit) => forall k v, r !! k = Some v -> r' !! k = Some v) people rows'.
Proof.
  destruct (arrow_reads_back (F:=Z) (F32:=Z) (X:=unit) wrap64 (fun z => z) (fun z => z) (fun _ => 0) 0 wrap64
    (fun _ => "") (fun _ => "") elements (fun D => reflexivity _) people wrap64_range wrap64_range) as (_ & _ & HH).
  - discriminate.
  - exact people_small.
  - destruct (HH people_homogeneous) as (b & rows' & E & _ & HF). exists b, rows'. split; [exact E|exact HF].
Defined.
