(* ===== verification/Shm.v ===== *)
(** * Shared memory ([src/core/infrastructure/ipc/shm])

    The store of memory-mapped files that large payloads travel in.  The
    files and mappings of the operating system are a class, with what its
    manual says of the access rights of a mapping.  An operation of the store
    is atomic except for the system calls, which are made in the order of
    the code outside the lock. *)
From S2P Require Import Prelude GoStrings FilePath Ipc.
Local Open Scope string_scope.
Local Open Scope list_scope.
Local Open Scope Z_scope.

(** ** The operating system *)

Inductive mode := ReadOnly | ReadWrite.

Class ShmOS (O : Type) := {
  File : Type;
  Mapping : Type;
  MkdirAll : string -> O -> option error * O;
  os_Create : string -> O -> result File * O;
  os_Open : string -> O -> result File * O;
  Truncate : File -> Z -> O -> option error * O;
  Stat_Size : File -> O -> result Z;
  f_Close : File -> O -> O;
  Remove : string -> O -> O;
  (** [unix.Mmap] of the whole file, [PROT_READ|PROT_WRITE] and [MAP_SHARED] *)
  Mmap : File -> Z -> O -> result Mapping * O;
  Munmap : Mapping -> O -> option error * O;
}.

(** [os.Create] opens for reading and writing, [os.Open] for reading only,
    and mmap(2) refuses a shared mapping that can be written when the file
    is not open for writing (EACCES).  A mapping lives until it is unmapped. *)
Class ShmLaws (O : Type) `{!ShmOS O} := {
  file_mode : File -> mode;
  live : O -> list Mapping;
  Mapping_eq_dec : EqDecision Mapping;
  MkdirAll_live p o : live (MkdirAll p o).2 = live o;
  Create_mode p o f o' : os_Create p o = (Ok f, o') -> file_mode f = ReadWrite;
  Create_live p o : live (os_Create p o).2 = live o;
  Open_mode p o f o' : os_Open p o = (Ok f, o') -> file_mode f = ReadOnly;
  Open_live p o : live (os_Open p o).2 = live o;
  Truncate_live f n o : live (Truncate f n o).2 = live o;
  Close_live f o : live (f_Close f o) = live o;
  Remove_live p o : live (Remove p o) = live o;
  Mmap_read_only f n o : file_mode f = ReadOnly -> exists e, (Mmap f n o).1 = Err e;
  Mmap_live f n o :
    match Mmap f n o with
    | (Ok m, o') => m ∉ live o /\ live o' = m :: live o
    | (Err _, o') => live o' = live o
    end;
  Munmap_live m o :
    live (Munmap m o).2 = (if decide ((Munmap m o).1 = None) then filter (fun m' => m' <> m) (live o) else live o);
}.
#[export] Existing Instance Mapping_eq_dec.

(** ** The store *)

Section Store.
Context {O : Type} `{OS : !ShmOS O}.
(** [order] is the order in which [range] meets the keys of the map. *)
Context (order : gset string -> list string).

Definition shmDir := "/dev/shm".
Record Descriptor := mkDescriptor { d_Path : string; d_Size : Z; d_ID : string }.
Record Region := mkRegion { Data : Mapping; r_Path : string }.
Notation Store := (gmap string Region).
Definition NewStore : Store := ∅.

Definition region_name (workerID requestID : string) : string := "vyx-" +:+ workerID +:+ "-" +:+ requestID.
Definition region_path (workerID requestID : string) : string :=
  Join [shmDir; region_name workerID requestID].

Definition Create (workerID requestID : string) (size : Z) (s : Store) (o : O)
    : result (Region * Descriptor) * Store * O :=
  match MkdirAll shmDir o with
  | (Some err, o) => (Err (WrapErr "shm: mkdir: " err ""), s, o)
  | (None, o) =>
      let path := region_path workerID requestID in
      match os_Create path o with
      | (Err err, o) => (Err (WrapErr "shm: create file: " err ""), s, o)
      | (Ok f, o) =>
          match Truncate f size o with
          | (Some err, o) => (Err (WrapErr "shm: truncate: " err ""), s, Remove path (f_Close f o))
          | (None, o) =>
              match Mmap f size o with
              | (Err err, o) => (Err (WrapErr "shm: mmap: " err ""), s, Remove path (f_Close f o))
              | (Ok data, o) =>
                  let reg := mkRegion data path in
                  (Ok (reg, mkDescriptor path size (region_name workerID requestID)),
                   <[path := reg]> s, f_Close f o)
              end
          end
      end
  end.

Definition Open (path : string) (s : Store) (o : O) : result Region * Store * O :=
  match os_Open path o with
  | (Err err, o) => (Err (WrapErr "shm: open: " err ""), s, o)
  | (Ok f, o) =>
      match Stat_Size f o with
      | Err err => (Err (WrapErr "shm: stat: " err ""), s, f_Close f o)
      | Ok size =>
          match Mmap f size o with
          | (Err err, o) => (Err (WrapErr "shm: mmap: " err ""), s, f_Close f o)
          | (Ok data, o) =>
              let reg := mkRegion data path in (Ok reg, <[path := reg]> s, f_Close f o)
          end
      end
  end.

Definition Close (path : string) (s : Store) (o : O) : option error * Store * O :=
  match s !! path with
  | None => (Some (NewErr ("shm: region " +:+ path +:+ " not found")), delete path s, o)
  | Some reg =>
      match Munmap (Data reg) o with
      | (Some err, o) => (Some (WrapErr "shm: munmap: " err ""), delete path s, o)
      | (None, o) => (None, delete path s, Remove path o)
      end
  end.

Fixpoint close_each (paths : list string) (lastErr : option error) (s : Store) (o : O) : option error * Store * O :=
  match paths with
  | [] => (lastErr, s, o)
  | path :: paths' =>
      match s !! path with
      | None => close_each paths' lastErr s o
      | Some reg =>
          let '(err, o) := Munmap (Data reg) o in
          close_each paths' (match err with Some e => Some e | None => lastErr end) (delete path s) (Remove path o)
      end
  end.
Definition CloseAll (s : Store) (o : O) : option error * Store * O := close_each (order (dom s)) None s o.
End Store.

(** ** Runs of the store *)

Section Runs.
Context {O : Type} `{OS : !ShmOS O} `{LAWS : !ShmLaws O} (order : gset string -> list string).
Notation Store := (gmap string Region).

Inductive call :=
  | CallCreate (workerID requestID : string) (size : Z)
  | CallOpen (path : string)
  | CallClose (path : string)
  | CallCloseAll.
Definition step (c : call) (so : Store * O) : Store * O :=
  let '(s, o) := so in
  match c with
  | CallCreate w r n => let '(_, s, o) := Create w r n s o in (s, o)
  | CallOpen p => let '(_, s, o) := Open p s o in (s, o)
  | CallClose p => let '(_, s, o) := Close p s o in (s, o)
  | CallCloseAll => let '(_, s, o) := CloseAll order s o in (s, o)
  end.
Definition run (cs : list call) (so : Store * O) : Store * O := foldl (fun so c => step c so) so cs.

(** The regions tracked are mapped, each for itself. *)
Definition tracked_ok (s : Store) (o : O) : Prop :=
  (forall p reg, s !! p = Some reg -> r_Path reg = p /\ Data reg ∈ live o) /\
  (forall p q a b, s !! p = Some a -> s !! q = Some b -> Data a = Data b -> p = q).
(** A mapping that is live and that the store has forgotten. *)
Definition leaked (m : Mapping) (s : Store) (o : O) : Prop :=
  m ∈ live o /\ forall p reg, s !! p = Some reg -> Data reg <> m.

(** A call either adds one region with a new mapping, or takes regions away,
    with mappings that only they had or still live. *)
Lemma track_ok s o o' m p :
  tracked_ok s o -> m ∉ live o -> live o' = m :: live o -> tracked_ok (<[p := mkRegion m p]> s) o'.
Proof.
  intros [Hl Hd] Hm Hlo. split.
  - intros q reg [[<- <-]|[Hne Hq]]%lookup_insert_Some; cbn; rewrite Hlo; [split; [done|set_solver]|].
    destruct (Hl q reg Hq). split; [done|set_solver].
  - intros q1 q2 a b [[<- <-]|[? Ha]]%lookup_insert_Some [[<- <-]|[? Hb]]%lookup_insert_Some; cbn; intros He; [done|..].
    + destruct (Hl q2 b Hb) as [_ Hx]. by rewrite <-He in Hx.
    + destruct (Hl q1 a Ha) as [_ Hx]. by rewrite He in Hx.
    + by eapply Hd.
Qed.
Lemma track_leaked s o o' m p x :
  leaked x s o -> m ∉ live o -> live o' = m :: live o -> leaked x (<[p := mkRegion m p]> s) o'.
Proof.
  intros [Hx Hs] Hm Hlo. split; [rewrite Hlo; set_solver|].
  intros q reg [[<- <-]|[_ Hq]]%lookup_insert_Some; cbn; [by intros ->|by eapply Hs].
Qed.

(** Any state of a kind that creating, forgetting and unmapping keep. *)
Record stable (Q : Store -> O -> Prop) : Prop := {
  stable_same s o o' : Q s o -> live o' = live o -> Q s o';
  stable_track s o o' m p : Q s o -> m ∉ live o -> live o' = m :: live o -> Q (<[p := mkRegion m p]> s) o';
  stable_forget s o p reg o' :
    Q s o -> s !! p = Some reg -> live o' = live o \/ live o' = filter (fun m => m <> Data reg) (live o) ->
    Q (delete p s) o';
}.

Lemma Create_stable Q w r n s o :
  stable Q -> Q s o -> let '(_, s', o') := Create w r n s o in Q s' o'.
Proof.
  intros [Hsame Htrack _] HQ. unfold Create. pose proof (MkdirAll_live shmDir o) as E1.
  destruct (MkdirAll shmDir o) as [[e|] o1]; [by eapply Hsame|].
  pose proof (Create_live (region_path w r) o1) as E2. destruct (os_Create _ o1) as [[f|e] o2]; [|eapply Hsame; [done|cbn in *; congruence]].
  pose proof (Truncate_live f n o2) as E3. destruct (Truncate f n o2) as [[e|] o3].
  { eapply Hsame; [done|]. rewrite Remove_live, Close_live. cbn in *; congruence. }
  pose proof (Mmap_live f n o3) as E4. destruct (Mmap f n o3) as [[m|e] o4].
  - destruct E4 as [Hm E4]. cbn in *. eapply Htrack; [|exact Hm|by rewrite Close_live]. eapply Hsame; [done|congruence].
  - eapply Hsame; [done|]. rewrite Remove_live, Close_live. cbn in *; congruence.
Qed.

Lemma Create_ok w r n s o x s' o' :
  Create w r n s o = (Ok x, s', o') ->
  exists m, s' = <[region_path w r := mkRegion m (region_path w r)]> s /\ m ∉ live o /\ live o' = m :: live o.
Proof.
  unfold Create. pose proof (MkdirAll_live shmDir o) as E1. destruct (MkdirAll shmDir o) as [[e|] o1]; [done|].
  pose proof (Create_live (region_path w r) o1) as E2. destruct (os_Create _ o1) as [[f|e] o2]; [|done].
  pose proof (Truncate_live f n o2) as E3. destruct (Truncate f n o2) as [[e|] o3]; [done|].
  pose proof (Mmap_live f n o3) as E4. destruct (Mmap f n o3) as [[m|e] o4]; [|done].
  intros [= <- <- <-]. cbn in *. exists m. split; [done|]. rewrite Close_live. destruct E4. split; congruence.
Qed.

(** [os.Open] opens read-only, so the mapping is refused. *)
Lemma Open_fails p s o : exists e o', Open p s o = (Err e, s, o') /\ live o' = live o.
Proof.
  unfold Open. pose proof (Open_live p o) as E1. destruct (os_Open p o) as [[f|e] o1] eqn:EO; [|by eexists _, _].
  apply Open_mode in EO. destruct (Stat_Size f o1) as [n|e]; [|eexists _, _; by rewrite Close_live].
  destruct (Mmap_read_only f n o1 EO) as [e He]. pose proof (Mmap_live f n o1) as E2.
  destruct (Mmap f n o1) as [[m|e'] o2]; [done|]. eexists _, _. split; [done|]. rewrite Close_live. cbn in *; congruence.
Qed.

Lemma Munmap_cases m o :
  live (Munmap m o).2 = live o \/ live (Munmap m o).2 = filter (fun x => x <> m) (live o).
Proof. rewrite Munmap_live. case_decide; [by right|by left]. Qed.

Lemma Close_stable Q p s o :
  stable Q -> Q s o -> let '(_, s', o') := Close p s o in Q s' o'.
Proof.
  intros [_ _ Hforget] HQ. unfold Close. destruct (s !! p) as [reg|] eqn:E; [|cbn; by rewrite delete_id].
  pose proof (Munmap_cases (Data reg) o) as HM. destruct (Munmap (Data reg) o) as [[e|] o1]; cbn [fst snd] in HM |- *;
    (apply (Hforget s o p reg); [exact HQ|exact E|rewrite ?Remove_live; exact HM]).
Qed.

Lemma close_each_stable Q ps err s o :
  stable Q -> Q s o -> let '(_, s', o') := close_each ps err s o in Q s' o'.
Proof.
  intros HS. revert err s o. induction ps as [|p ps IH]; intros err s o HQ; cbn [close_each]; [done|].
  destruct (s !! p) as [reg|] eqn:E; [|by apply IH].
  pose proof (Munmap_cases (Data reg) o) as HM. destruct (Munmap (Data reg) o) as [e o1]. cbn in HM.
  apply IH. apply (stable_forget _ HS s o p reg); [exact HQ|exact E|rewrite Remove_live; exact HM].
Qed.

Lemma run_stable Q cs so : stable Q -> Q so.1 so.2 -> Q (run cs so).1 (run cs so).2.
Proof.
  intros HS. unfold run. revert so. induction cs as [|c cs IH]; intros [s o] HQ; [done|]. cbn [foldl]. apply IH.
  destruct c as [w r n|p|p|]; cbn [step].
  - pose proof (Create_stable Q w r n s o HS HQ). by destruct (Create w r n s o) as [[? ?] ?].
  - destruct (Open_fails p s o) as (e & o' & -> & Hl). by eapply (stable_same _ HS).
  - pose proof (Close_stable Q p s o HS HQ). by destruct (Close p s o) as [[? ?] ?].
  - pose proof (close_each_stable Q (order (dom s)) None s o HS HQ) as HC. unfold CloseAll.
    by destruct (close_each _ _ _ _) as [[? ?] ?].
Qed.

Lemma tracked_stable : stable tracked_ok.
Proof.
  split.
  - intros s o o' [Hl Hd] E. split; [|done]. by rewrite E.
  - apply track_ok.
  - intros s o p reg o' [Hl Hd] Hp HM. split.
    + intros q a [Hne Hq]%lookup_delete_Some. destruct (Hl q a Hq) as [? Ha]. split; [done|].
      destruct HM as [->| ->]; [done|]. apply list_elem_of_filter. split; [|done]. intros He.
      by apply Hne, (Hd p q reg a).
    + intros q1 q2 a b [_ Ha]%lookup_delete_Some [_ Hb]%lookup_delete_Some. by apply Hd.
Qed.
Lemma leaked_stable x : stable (leaked x).
Proof.
  split.
  - intros s o o' [Hx Hs] E. split; [by rewrite E|done].
  - intros. by eapply track_leaked.
  - intros s o p reg o' [Hx Hs] Hp HM. split; [|intros q a [_ Hq]%lookup_delete_Some; by eapply Hs].
    destruct HM as [->| ->]; [done|]. apply list_elem_of_filter. split; [|done]. intros He. by eapply Hs.
Qed.

(** The store of shared memory after any calls, whatever the system calls
    answer.  Each region it tracks is mapped, for itself alone, and a Close
    that reports no error unmaps it.  But [Open], the worker's half, never
    succeeds: it opens the file for reading only and asks for a mapping that
    can be written.  And a region created where one is tracked already - for
    the same worker and request, or for two whose names run together, as
    "a-b", "c" and "a", "b-c" do - takes its place in the table, and the
    mapping of the old one stays for as long as the process lives. *)
Theorem shared_memory_store (calls : list call) (o0 : O) :
  let '(s, o) := run calls (NewStore, o0) in
  tracked_ok s o /\
  (forall p reg s' o', s !! p = Some reg -> Close p s o = (None, s', o') -> s' !! p = None /\ Data reg ∉ live o') /\
  (forall p, exists e o', Open p s o = (Err e, s, o')) /\
  (forall w r n reg x s' o' later, s !! region_path w r = Some reg -> Create w r n s o = (Ok x, s', o') ->
     Data reg ∈ live (run later (s', o')).2).
Proof.
  pose proof (run_stable tracked_ok calls (NewStore, o0) tracked_stable) as HT.
  destruct (run calls (NewStore, o0)) as [s o]. cbn [fst snd] in HT.
  assert (tracked_ok s o) as Hok by (by apply HT; split). split; [done|]. destruct Hok as [Hl Hd]. split; [|split].
  - intros p reg s' o' Hp. unfold Close. rewrite Hp. pose proof (Munmap_live (Data reg) o) as HM.
    destruct (Munmap (Data reg) o) as [[e|] o1]; [done|]. intros [= <- <-]. rewrite lookup_delete_eq. split; [done|].
    rewrite Remove_live. cbn in HM. rewrite decide_True in HM by done. rewrite HM, list_elem_of_filter. tauto.
  - intros p. destruct (Open_fails p s o) as (e & o' & -> & _). by exists e, o'.
  - intros w r n reg x s' o' later Hp HC.
    destruct (Create_ok _ _ _ _ _ _ _ _ HC) as (m & -> & Hm & Hlo).
    assert (leaked (Data reg) (<[region_path w r := mkRegion m (region_path w r)]> s) o') as HL;
      [|by apply (run_stable _ later (_, o') (leaked_stable _) HL)].
    destruct (Hl _ _ Hp) as [_ Hlive]. split; [rewrite Hlo; set_solver|].
    intros q a [[<- <-]|[Hne Hq]]%lookup_insert_Some; cbn; [by intros ->|]. intros He. by apply Hne, (Hd _ q reg a).
Qed.
End Runs.

(** ** A system in memory, and a witness *)

Definition mem_fresh (l : list nat) : nat := S (max_list l).
#[export] Instance memory_os : ShmOS (list nat) := {
  File := mode;
  Mapping := nat;
  MkdirAll _ o := (None, o);
  os_Create _ o := (Ok ReadWrite, o);
  os_Open _ o := (Ok ReadOnly, o);
  Truncate _ _ o := (None, o);
  Stat_Size _ _ := Ok 4096;
  f_Close _ o := o;
  Remove _ o := o;
  Mmap f _ o := match f with ReadOnly => (Err (NewErr "permission denied"), o) | ReadWrite => (Ok (mem_fresh o), mem_fresh o :: o) end;
  Munmap m o := (None, filter (fun m' => m' <> m) o);
}.
#[export, refine] Instance memory_os_laws : ShmLaws (list nat) := { file_mode f := f; live o := o }.
Proof.
  all: try done.
  - intros p o f o' [= <- _]. done.
  - intros p o f o' [= <- _]. done.
  - intros f n o Hf. cbn in *. rewrite Hf. by eexists.
  - intros [] n o; cbn; [done|]. split; [|done]. unfold mem_fresh. intros Hin.
    assert (forall m, m ∈ o -> (m <= max_list o)%nat) as Hm.
    { clear. induction o as [|a o IH]; [set_solver|]. intros m [->|Hm]%elem_of_cons; cbn; [lia|]. specialize (IH m Hm). lia. }
    specialize (Hm _ Hin). lia.
Defined.

Definition collide : list (call) := [CallCreate "node-api" "7" 4096].
Lemma shared_memory_store_witness :
  let '(s, o) := run elements collide (NewStore, []) in
  exists reg, s !! region_path "node" "api-7" = Some reg /\
    Data reg ∈ live (run elements [CallClose (region_path "node" "api-7"); CallCloseAll]
                       (run elements [CallCreate "node" "api-7" 64] (s, o))).2.
Proof.
  pose proof (shared_memory_store elements collide []) as HS.
  destruct (run elements collide (NewStore, [])) as [s o] eqn:E. destruct HS as (_ & _ & _ & HL).
  injection E as <- <-. eexists. split; [vm_compute; reflexivity|].
  eapply (HL "node" "api-7" 64); [vm_compute; reflexivity|reflexivity].
Defined.
