(* ===== verification/ClientIP.v ===== *)
(** * Client addresses ([core/application/gateway/clientip.go])

    Three resolvers of the client address of an HTTP request.  Parsing of
    addresses and CIDR blocks is the [net] package's, a parameter here. *)
From S2P Require Import Prelude GoStrings Ipc.
Local Open Scope string_scope.
Local Open Scope list_scope.

(** ** HTTP requests, as the gateway reads them

    [h_Header] and [h_Query] map canonical names to their values in order. *)
Record HttpRequest := mkHttpRequest {
  h_Method : string;
  h_Path : string;
  h_Header : gmap string (list string);
  h_Query : gmap string (list string);
  h_Body : bytes;
  h_RemoteAddr : string;
}.

(** [http.Header.Get]: the first value, or the empty string. *)
Definition Header_Get (r : HttpRequest) (k : string) : string :=
  match h_Header r !! k with
  | Some (v :: _) => v
  | _ => ""
  end.

(** [dgw.ClientIPResolver]. *)
Definition ClientIPResolver := HttpRequest -> string.

Definition RemoteAddrResolver : ClientIPResolver := fun r =>
  match SplitHostPort (h_RemoteAddr r) with
  | Err _ => h_RemoteAddr r
  | Ok (ip, _) => ip
  end.

Section Resolvers.
(** [net.ParseIP], [net.ParseCIDR] and [IPNet.Contains]. *)
Context {IP IPNet : Type}.
Context (ParseIP : string -> option IP) (ParseCIDR : string -> option IPNet)
  (Contains : IPNet -> IP -> bool).

(** The blocks that parse; the others are skipped. *)
Definition trusted_proxies (trustedCIDRs : list string) : list IPNet := omap ParseCIDR trustedCIDRs.

Definition isTrusted (trusted : list IPNet) (ip : IP) : bool :=
  existsb (fun cidr => Contains cidr ip) trusted.

(** The walk from the right; [addrs] is reversed. *)
Fixpoint first_untrusted (trusted : list IPNet) (addrs : list string) : option string :=
  match addrs with
  | [] => None
  | a :: addrs' =>
      match ParseIP a with
      | None => first_untrusted trusted addrs'
      | Some ip => if isTrusted trusted ip then first_untrusted trusted addrs' else Some a
      end
  end.

Definition ForwardedForResolver (trusted : list IPNet) : ClientIPResolver := fun r =>
  let xff := Header_Get r "X-Forwarded-For" in
  if String.eqb xff "" then RemoteAddrResolver r
  else
    let addrs := trim_space <$> split_on "," xff in
    match trusted with
    | [] => default "" (head addrs)
    | _ => default (default "" (head addrs)) (first_untrusted trusted (rev addrs))
    end.

Definition RealIPResolver (trusted : list IPNet) : ClientIPResolver := fun r =>
  let realIP := Header_Get r "X-Real-IP" in
  if String.eqb realIP "" then RemoteAddrResolver r
  else
    match trusted with
    | [] => realIP
    | _ =>
        match SplitHostPort (h_RemoteAddr r) with
        | Err _ => RemoteAddrResolver r
        | Ok (peerIP, _) =>
            if String.eqb peerIP "" then RemoteAddrResolver r
            else
              match ParseIP peerIP with
              | None => RemoteAddrResolver r
              | Some parsed => if isTrusted trusted parsed then realIP else RemoteAddrResolver r
              end
        end
    end.

Lemma first_untrusted_app trusted l1 l2 :
  first_untrusted trusted (l1 ++ l2) =
  match first_untrusted trusted l1 with
  | Some a => Some a
  | None => first_untrusted trusted l2
  end.
Proof.
  induction l1 as [|a l1 IH]; simpl; [done|].
  destruct (ParseIP a); [|done]. by destruct (isTrusted _ _).
Qed.

(** C38: A client cannot choose its address.  Behind trusted proxies, the
    resolver returns the address the last untrusted hop had when it entered
    the chain of trusted ones - the last entry of [X-Forwarded-For] that
    parses and is outside the trusted blocks - whatever entries the client
    itself put in front. *)
Theorem forwarded_for_ignores_client_prefix (trusted : list IPNet) (r : HttpRequest)
    (forged : string) (client : string) (proxies : list string) (ip : IP) :
  trusted <> [] ->
  Header_Get r "X-Forwarded-For" = forged +:+ String "," (join "," (client :: proxies)) ->
  Forall (fun a => free_of "," a = true) (client :: proxies) ->
  ParseIP (trim_space client) = Some ip -> isTrusted trusted ip = false ->
  Forall (fun a => match ParseIP (trim_space a) with
                   | Some p => isTrusted trusted p = true
                   | None => True
                   end) proxies ->
  ForwardedForResolver trusted r = trim_space client.
Proof.
  intros Ht Hx Hfree Hip Hunt Hprox. unfold ForwardedForResolver. rewrite Hx.
  rewrite (proj2 (String.eqb_neq _ _)) by (destruct forged; discriminate).
  destruct trusted as [|t ts]; [done|]. set (trusted := t :: ts) in *.
  rewrite split_on_app_sep, split_on_join by (try discriminate; done).
  rewrite fmap_app, rev_app_distr, first_untrusted_app, fmap_cons. cbn [rev].
  rewrite first_untrusted_app.
  assert (first_untrusted trusted (rev (trim_space <$> proxies)) = None) as ->.
  { clearbody trusted. clear -Hprox. induction Hprox as [|a l Ha Hl IH]; [done|]. rewrite fmap_cons. cbn [rev].
    rewrite first_untrusted_app, IH. simpl. revert Ha.
    destruct (ParseIP (trim_space a)); [by intros ->|done]. }
  cbn [first_untrusted]. by rewrite Hip, Hunt.
Qed.
End Resolvers.

(** ** A concrete resolver: addresses are dotted strings, blocks are prefixes *)

Definition demo_ParseIP (s : string) : option string := if is_empty s then None else Some s.
Definition demo_request (xff : string) : HttpRequest :=
  mkHttpRequest "GET" "/" {["X-Forwarded-For" := [xff]]} ∅ [] "10.0.0.2:4242".
Definition demo_resolver : ClientIPResolver :=
  ForwardedForResolver demo_ParseIP (fun pre ip => String.prefix pre ip) ["10."].

Lemma forwarded_for_ignores_client_prefix_witness :
  demo_resolver (demo_request "1.2.3.4, 203.0.113.9, 10.0.0.7, ") = "203.0.113.9".
Proof.
  apply (forwarded_for_ignores_client_prefix demo_ParseIP (fun pre ip => String.prefix pre ip) ["10."]
    (demo_request "1.2.3.4, 203.0.113.9, 10.0.0.7, ") "1.2.3.4" " 203.0.113.9" [" 10.0.0.7"; " "] "203.0.113.9");
    try reflexivity; [discriminate|by_compute|].
  repeat constructor.
Defined.
