(* ===== verification/Server.v ===== *)
(** * The HTTP front end ([core/infrastructure/gateway/server.go], [cors.go])

    [handle] takes one HTTP request through the method, rate-limit,
    content-type and body-size checks to the dispatcher and writes the
    response.  The dispatcher is any function with the result of
    [Dispatcher.Dispatch]; the last section plugs that one in.  A JSON body is
    kept as the value it encodes. *)
From S2P Require Import Prelude GoStrings Ipc RouteMap Circuit RateLimiter Gateway Drainer Worker Pool PoolManager Dispatcher DispatchFacts ClientIP.
Local Open Scope string_scope.
Local Open Scope list_scope.
Local Open Scope Z_scope.

Definition maxHeaderValueLen : nat := 4096.
Definition headerXRequestID := "X-Request-Id".

(** The loop of [sanitizeHeaderValue]. *)
Fixpoint keep_printable (s : string) : string :=
  match s with
  | "" => ""
  | String b s' =>
      if Ascii.eqb b "009" || (32 <=? nat_of_ascii b)%nat then String b (keep_printable s')
      else keep_printable s'
  end%string.
Definition sanitizeHeaderValue (value : string) : string :=
  let value := if (maxHeaderValueLen <? String.length value)%nat then take_str maxHeaderValueLen value
               else value in
  keep_printable value.

(** ** Responses *)

(** [BError m] is [{"error": m}], [BRetry n] the rate-limit body,
    [BValidation] the encoding of a [ValidationError]; [BNone]: there is no
    body. *)
Inductive body_value :=
  | BError (message : string)
  | BRetry (retry_after : Z)
  | BValidation (details : list (string * string))
  | BText (s : string)
  | BRaw (b : bytes)
  | BNone.

(** What a handler has written to its [ResponseWriter]. *)
Record HttpResponse := mkHttpResponse {
  rs_status : Z;
  rs_header : headers;
  rs_body : body_value;
}.

(** What net/http sends of it: to a HEAD request, and with a status in the
    hundreds, 204 or 304, the status and the headers only; [Write] drops the
    body, and [writeUnchecked] does not look at its error. *)
Definition body_allowed (method : string) (status : Z) : bool :=
  negb (String.eqb method "HEAD") && negb ((100 <=? status) && (status <=? 199)) &&
  negb (bool_decide (status ∈ [204; 304])).
Definition on_the_wire (method : string) (resp : HttpResponse) : HttpResponse :=
  if body_allowed method (rs_status resp) then resp else mkHttpResponse (rs_status resp) (rs_header resp) BNone.

Definition json_header (h : headers) : headers := <["Content-Type" := "application/json"]> h.

(** [http.Error]. *)
Definition http_Error (status : Z) (text : string) : HttpResponse :=
  mkHttpResponse status
    (<["X-Content-Type-Options" := "nosniff"]> {["Content-Type" := "text/plain; charset=utf-8"]})
    (BText (text +:+ String "010" "")).

(** [http.CanonicalHeaderKey]: a name with a byte that is not a token
    character is left alone. *)
Definition token_char (c : ascii) : bool :=
  let n := nat_of_ascii c in
  ((48 <=? n) && (n <=? 57) || (65 <=? n) && (n <=? 90) || (97 <=? n) && (n <=? 122))%nat ||
  has_char c "!#$%&'*+-.^_`|~".
Fixpoint all_token (s : string) : bool :=
  match s with "" => true | String c s' => token_char c && all_token s' end%string.
Fixpoint canonical_loop (upper : bool) (s : string) : string :=
  match s with
  | "" => ""
  | String c s' =>
      String (if upper then upper_ascii c else lower_ascii c) (canonical_loop (Ascii.eqb c "-") s')
  end%string.
Definition CanonicalHeaderKey (k : string) : string :=
  if all_token k then canonical_loop true k else k.

(** [http.MethodGet] and the others of [allowedMethods]. *)
Definition allowedMethods : list string :=
  ["GET"; "POST"; "PUT"; "PATCH"; "DELETE"; "HEAD"; "OPTIONS"].
Definition checkMethod (r : HttpRequest) : option HttpResponse :=
  if bool_decide (h_Method r ∈ allowedMethods) then None
  else Some (mkHttpResponse 405 (json_header ∅) (BError "method not allowed")).

(** [int(math.Ceil(d.Seconds()))] of a duration in nanoseconds that is not
    negative. *)
Definition ceil_seconds (d : Z) : Z := (d + (second - 1)) / second.

Definition too_many (retryAfter : Z) : HttpResponse :=
  let secs := ceil_seconds retryAfter in
  mkHttpResponse 429 (json_header {["Retry-After" := pretty secs]}) (BRetry secs).

(** [isWebSocketUpgrade]; header values are ASCII. *)
Definition isWebSocketUpgrade (r : HttpRequest) : bool :=
  String.eqb (to_lower (Header_Get r "Upgrade")) "websocket".

(** ** Errors ([writeError]) *)

Definition writeError (h : headers) (err : error) : HttpResponse :=
  let h := json_header (SecurityHeaders ∪ h) in
  if errors_is err ErrRouteNotFound then mkHttpResponse 404 h (BError "route not found")
  else if errors_is err ErrUnauthorized then mkHttpResponse 401 h (BError "unauthorized")
  else if errors_is err ErrForbidden then mkHttpResponse 403 h (BError "forbidden")
  else if errors_is err ErrSchemaValidation then
    match errors_as_validation err with
    | Some details => mkHttpResponse 400 h (BValidation details)
    | None => mkHttpResponse 400 h (BError "validation failed")
    end
  else if errors_is err Gateway.ErrPayloadTooLarge then mkHttpResponse 413 h (BError "payload too large")
  else if errors_is err ErrUpstreamTimeout then mkHttpResponse 504 h (BError "upstream timeout")
  else mkHttpResponse 500 h (BError "internal server error").

Definition handleDispatchError (r : HttpRequest) (err : error) : HttpResponse :=
  let corrID := Header_Get r headerXRequestID in
  writeError (if String.eqb corrID "" then ∅ else {[headerXRequestID := corrID]}) err.

(** [WriteHeader] of net/http: a code that has not three digits panics, and
    one in the hundreds is sent as informational (save 101), after which the
    first [Write] sends 200. *)
Definition WriteHeader (code : Z) : outcome Z :=
  if (code <? 100) || (999 <? code) then Panic ("invalid WriteHeader code " +:+ pretty code)
  else Ret (if (code <=? 199) && negb (code =? 101) then 200 else code).

(** Later [Set]s win: the worker's headers over the security headers, the
    content type and the correlation id over both.  (When two names of the
    worker's headers have one canonical form, the runtime's map order decides
    which value stays.)  Whether the body that is written here is sent too is
    up to [on_the_wire]. *)
Definition writeResponse (resp : GatewayResponse) : outcome HttpResponse :=
  let h := map_fold (fun k v h => <[CanonicalHeaderKey k := sanitizeHeaderValue v]> h)
             SecurityHeaders (respHeaders resp) in
  let h := json_header h in
  let h := if String.eqb (CorrelationID resp) "" then h
           else <[headerXRequestID := CorrelationID resp]> h in
  code ← WriteHeader (StatusCode resp);
  Ret (mkHttpResponse code h (BRaw (respBody resp))).

Definition buildGatewayRequest (resolve : ClientIPResolver) (r : HttpRequest) (body : bytes)
    : GatewayRequest :=
  let firsts (f : string -> string) (m : gmap string (list string)) : headers :=
    omap (fun vs => match vs with v :: _ => Some (f v) | [] => None end) m in
  mkRequest (h_Method r) (h_Path r) (firsts sanitizeHeaderValue (h_Header r))
    (firsts (fun v => v) (h_Query r)) None body None (resolve r).

Section Handler.
(** [mime.ParseMediaType], the media type alone; the rest of the core. *)
Context (ParseMediaType : string -> result string).
Context {W : Type}.
Context (dispatch : GatewayRequest -> W -> outcome (option GatewayResponse * option error * W)).
Context (serveWS : HttpRequest -> W -> outcome (HttpResponse * W)).

Record Server := mkServer {
  maxBodyBytes : Z;
  ipResolver : ClientIPResolver;
}.

(** What a request changes: the rate limiter and the core. *)
Record State := mkState { rateLimiter : RateLimiter; core : W }.

Definition checkRateLimit (s : Server) (now1 rnd1 now2 rnd2 : Z) (r : HttpRequest) (l : RateLimiter)
    : option HttpResponse * RateLimiter :=
  let '(ok, retryAfter, l) := AllowIP (ipResolver s r) now1 rnd1 l in
  if ok then
    let '(ok, retryAfter, l) := AllowToken (Header_Get r "Authorization") now2 rnd2 l in
    if ok then (None, l) else (Some (too_many retryAfter), l)
  else (Some (too_many retryAfter), l).

Definition checkContentType (r : HttpRequest) : option HttpResponse :=
  if bool_decide (h_Method r ∈ ["POST"; "PUT"; "PATCH"]) then
    let ok := match ParseMediaType (Header_Get r "Content-Type") with
              | Err _ => false
              | Ok mediaType => String.eqb mediaType "application/json"
              end in
    if ok then None
    else Some (mkHttpResponse 415 (json_header ∅)
                 (BError "unsupported media type, only application/json is accepted"))
  else None.

(** [io.ReadAll] over [http.MaxBytesReader] fails past the limit. *)
Definition readBody (s : Server) (r : HttpRequest) : HttpResponse + bytes :=
  if maxBodyBytes s <? Z.of_nat (length (h_Body r))
  then inl (http_Error 413 ("payload too large"))
  else inr (h_Body r).

Definition handle (s : Server) (now1 rnd1 now2 rnd2 : Z) (r : HttpRequest) (st : State)
    : outcome (HttpResponse * State) :=
  if isWebSocketUpgrade r then
    match serveWS r (core st) with
    | Panic e => Panic e
    | Ret (resp, c) => Ret (resp, mkState (rateLimiter st) c)
    end
  else
    match checkMethod r with
    | Some resp => Ret (resp, st)
    | None =>
        let '(limited, l) := checkRateLimit s now1 rnd1 now2 rnd2 r (rateLimiter st) in
        match limited with
        | Some resp => Ret (resp, mkState l (core st))
        | None =>
            match checkContentType r with
            | Some resp => Ret (resp, mkState l (core st))
            | None =>
                match readBody s r with
                | inl resp => Ret (resp, mkState l (core st))
                | inr body =>
                    match dispatch (buildGatewayRequest (ipResolver s) r body) (core st) with
                    | Panic e => Panic e
                    | Ret (_, Some err, c) => Ret (handleDispatchError r err, mkState l c)
                    | Ret (Some resp, None, c) =>
                        resp ← writeResponse resp; Ret (resp, mkState l c)
                    | Ret (None, None, _) => Panic "nil pointer dereference"
                    end
                end
            end
        end
    end.
End Handler.

(** ** CORS ([cors.go]) *)

Record CORSConfig := mkCORSConfig {
  AllowedOrigins : list string;
  AllowedMethods : list string;
  AllowedHeaders : list string;
  ExposeHeaders : list string;
  MaxAge : Z;
  AllowCredentials : bool;
}.

Definition DefaultCORSConfig : CORSConfig :=
  mkCORSConfig []
    ["GET"; "POST"; "PUT"; "PATCH"; "DELETE"; "OPTIONS"]
    ["Content-Type"; "Authorization"; "X-Request-Id"; "X-Correlation-Id"]
    ["X-Request-Id"; "X-Correlation-Id"; "X-RateLimit-Remaining"; "X-RateLimit-Reset"]
    86400 true.

Fixpoint isOriginAllowed (origin : string) (allowedOrigins : list string) : bool :=
  match allowedOrigins with
  | [] => false
  | allowed :: rest =>
      if String.eqb allowed "*" then true
      else if String.eqb allowed origin then true
      else isOriginAllowed origin rest
  end.

(** The headers set for an allowed origin. *)
Definition cors_headers (cfg : CORSConfig) (origin : string) : headers :=
  let opt (b : bool) k v (h : headers) := if b then <[k := v]> h else h in
  let nonempty (l : list string) := negb (bool_decide (l = [])) in
  opt (0 <? MaxAge cfg) "Access-Control-Max-Age" (pretty (MaxAge cfg))
    (opt (nonempty (ExposeHeaders cfg)) "Access-Control-Expose-Headers" (join ", " (ExposeHeaders cfg))
      (opt (nonempty (AllowedHeaders cfg)) "Access-Control-Allow-Headers" (join ", " (AllowedHeaders cfg))
        (opt (nonempty (AllowedMethods cfg)) "Access-Control-Allow-Methods" (join ", " (AllowedMethods cfg))
          (opt (AllowCredentials cfg) "Access-Control-Allow-Credentials" "true"
            (<["Vary" := "Origin"]> {["Access-Control-Allow-Origin" := origin]}))))).

(** [next] is the wrapped handler; it sets its own headers over these. *)
Definition CORSMiddleware {S} (cfg : CORSConfig) (next : HttpRequest -> S -> outcome (HttpResponse * S))
    (r : HttpRequest) (s : S) : outcome (HttpResponse * S) :=
  let origin := Header_Get r "Origin" in
  if String.eqb origin "" then next r s
  else if negb (isOriginAllowed origin (AllowedOrigins cfg)) then next r s
  else
    let h := cors_headers cfg origin in
    if String.eqb (h_Method r) "OPTIONS" then Ret (mkHttpResponse 204 h (BText ""), s)
    else match next r s with
         | Panic e => Panic e
         | Ret (resp, s') =>
             Ret (mkHttpResponse (rs_status resp) (rs_header resp ∪ h) (rs_body resp), s')
         end.

(** ** Header values *)

Fixpoint string_all (p : ascii -> bool) (s : string) : bool :=
  match s with "" => true | String c s' => p c && string_all p s' end%string.

(** Neither a control character nor, in particular, a line break. *)
Definition printable (c : ascii) : bool := Ascii.eqb c "009" || (32 <=? nat_of_ascii c)%nat.
Definition clean (s : string) : Prop := string_all printable s = true.

Lemma keep_printable_clean s : clean (keep_printable s).
Proof.
  unfold clean. induction s as [|c s IH]; [done|]. cbn [keep_printable]. case_if; [|done].
  cbn [string_all]. apply andb_true_iff. by split.
Qed.
Lemma keep_printable_id s : clean s -> keep_printable s = s.
Proof.
  unfold clean. induction s as [|c s IH]; [done|]. cbn [keep_printable string_all].
  intros [Hc Hs]%andb_true_iff. change (printable c = true) in Hc. unfold printable in Hc.
  by rewrite Hc, IH.
Qed.
Lemma keep_printable_length s : (String.length (keep_printable s) <= String.length s)%nat.
Proof. induction s as [|c s IH]; [done|]. cbn [keep_printable]. case_if; simpl; lia. Qed.
Lemma take_str_length n s : (String.length (take_str n s) <= n)%nat.
Proof. revert s. induction n as [|n IH]; intros [|c s]; simpl; try lia. specialize (IH s). lia. Qed.

Lemma sanitize_clean v : clean (sanitizeHeaderValue v).
Proof. apply keep_printable_clean. Qed.
Lemma sanitize_length v : (String.length (sanitizeHeaderValue v) <= maxHeaderValueLen)%nat.
Proof.
  unfold sanitizeHeaderValue. etrans; [apply keep_printable_length|].
  destruct (Nat.ltb_spec maxHeaderValueLen (String.length v)); [apply take_str_length|done].
Qed.
Lemma sanitize_id v :
  clean v -> (String.length v <= maxHeaderValueLen)%nat -> sanitizeHeaderValue v = v.
Proof.
  intros Hc Hl. unfold sanitizeHeaderValue. rewrite (proj2 (Nat.ltb_ge _ _)) by done.
  by apply keep_printable_id.
Qed.

Lemma SecurityHeaders_clean k v : SecurityHeaders !! k = Some v -> clean v.
Proof.
  assert (map_Forall (fun _ v => clean v) SecurityHeaders) as H; [|apply H].
  apply (bool_decide_unpack _). vm_compute. exact I.
Qed.

(** Header values cannot split a response.  Whatever headers a worker
    sends, every header the gateway writes has a value free of control
    characters other than tab and, if it is one of the worker's, at most 4096
    bytes, and clean short values are passed on as they are; the one exception
    is the correlation id, which is echoed without being sanitized. *)
Theorem response_headers_clean (resp : GatewayResponse) (out : HttpResponse) :
  writeResponse resp = Ret out ->
  (forall k v, rs_header out !! k = Some v -> k <> headerXRequestID -> clean v) /\
  (forall v, clean (sanitizeHeaderValue v) /\ (String.length (sanitizeHeaderValue v) <= 4096)%nat /\
     (clean v -> (String.length v <= 4096)%nat -> sanitizeHeaderValue v = v)) /\
  (CorrelationID resp <> "" -> rs_header out !! headerXRequestID = Some (CorrelationID resp)).
Proof.
  unfold writeResponse. destruct (WriteHeader _) as [code|]; [|done]. cbv [mbind outcome_mbind outcome_bind].
  intros [= <-]. split_and!.
  - intros k v Hk Hne. cbn [rs_header] in Hk.
    assert (map_Forall (fun _ v => clean v)
      (map_fold (fun k v h => <[CanonicalHeaderKey k := sanitizeHeaderValue v]> h)
        SecurityHeaders (respHeaders resp))) as Hall.
    { apply (map_fold_weak_ind (fun h _ => map_Forall (fun _ v => clean v) h)).
      - intros k' v'. apply SecurityHeaders_clean.
      - intros k' v' m h _ Hh. apply map_Forall_insert_2; [apply sanitize_clean|done]. }
    revert Hk. unfold json_header. case_if.
    + intros [[<- <-]|[_ Hk]]%lookup_insert_Some; [reflexivity|by apply (Hall k)].
    + intros [[<- _]|[_ Hk]]%lookup_insert_Some; [done|].
      apply lookup_insert_Some in Hk as [[<- <-]|[_ Hk]]; [reflexivity|by apply (Hall k)].
  - intros v. split_and!; [apply sanitize_clean|apply sanitize_length|apply sanitize_id].
  - intros Hc. cbn [rs_header].
    rewrite (proj2 (String.eqb_neq _ _)) by done. apply lookup_insert_eq.
Qed.

(** ** What an error tells the client *)

Definition safe_messages : list string :=
  ["route not found"; "unauthorized"; "forbidden"; "validation failed"; "payload too large";
   "upstream timeout"; "internal server error"].

(** C23: Errors do not leak.  Whatever error the dispatcher returns, the body is
    one of seven fixed messages or the details of a validation error, never the
    error's own text; the status is 500 exactly for the errors that are none of
    the gateway's sentinels; and two errors that are the same to [errors.Is]
    and [errors.As] get the same response. *)
Theorem errors_do_not_leak (h : headers) (err err' : error) :
  let resp := writeError h err in
  (match rs_body resp with
   | BError m => m ∈ safe_messages
   | BValidation details => errors_as_validation err = Some details
   | _ => False
   end) /\
  (rs_status resp = 500 <->
   Forall (fun t => errors_is err t = false)
     [ErrRouteNotFound; ErrUnauthorized; ErrForbidden; ErrSchemaValidation; Gateway.ErrPayloadTooLarge;
      ErrUpstreamTimeout]) /\
  ((forall t, errors_is err t = errors_is err' t) -> errors_as_validation err = errors_as_validation err' ->
   writeError h err' = resp).
Proof.
  intros resp. subst resp. split_and!.
  - unfold writeError. repeat case_if; cbn [rs_body]; try by_compute.
    destruct (errors_as_validation err); cbn [rs_body]; [done|by_compute].
  - rewrite !Forall_cons, Forall_nil. unfold writeError. split.
    + repeat case_if; try done. destruct (errors_as_validation err); done.
    + intros (-> & -> & -> & -> & -> & -> & _). done.
  - intros Hi Ha. unfold writeError. by rewrite <-!Hi, <-Ha.
Qed.

(** ** The checks in front of the dispatcher *)

Section Gates.
Context (ParseMediaType : string -> result string).
Context {W : Type}.
Context (dispatch : GatewayRequest -> W -> outcome (option GatewayResponse * option error * W)).
Context (serveWS : HttpRequest -> W -> outcome (HttpResponse * W)).
Implicit Types (st : State (W:=W)).

(** What a request has passed when the dispatcher sees it. *)
Definition admitted_http (s : Server) (now1 rnd1 now2 rnd2 : Z) (r : HttpRequest) (l : RateLimiter) : Prop :=
  h_Method r ∈ allowedMethods /\
  (AllowIP (ipResolver s r) now1 rnd1 l).1.1 = true /\
  (AllowToken (Header_Get r "Authorization") now2 rnd2 (AllowIP (ipResolver s r) now1 rnd1 l).2).1.1 = true /\
  (h_Method r ∈ ["POST"; "PUT"; "PATCH"] ->
     ParseMediaType (Header_Get r "Content-Type") = Ok "application/json") /\
  Z.of_nat (length (h_Body r)) <= maxBodyBytes s.

Lemma checkRateLimit_spec s now1 rnd1 now2 rnd2 r l :
  let a1 := AllowIP (ipResolver s r) now1 rnd1 l in
  let a2 := AllowToken (Header_Get r "Authorization") now2 rnd2 a1.2 in
  checkRateLimit s now1 rnd1 now2 rnd2 r l =
    if a1.1.1 then (if a2.1.1 then (None, a2.2) else (Some (too_many a2.1.2), a2.2))
    else (Some (too_many a1.1.2), a1.2).
Proof.
  unfold checkRateLimit. destruct (AllowIP _ _ _ _) as [[ok1 ra1] l1]. simpl. destruct ok1; [|done].
  destruct (AllowToken _ _ _ _) as [[ok2 ra2] l2]. by destruct ok2.
Qed.

Lemma checkContentType_spec r :
  checkContentType ParseMediaType r = None <->
  (h_Method r ∈ ["POST"; "PUT"; "PATCH"] ->
     ParseMediaType (Header_Get r "Content-Type") = Ok "application/json").
Proof.
  unfold checkContentType. case_bool_decide as Hm; [|naive_solver].
  destruct (ParseMediaType _) as [m|e]; [|naive_solver].
  destruct (String.eqb_spec m "application/json") as [->|Hne]; [done|]. split; [done|].
  intros Hx. specialize (Hx Hm). by injection Hx.
Qed.

Lemma handle_gates_aux s now1 rnd1 now2 rnd2 r st :
  isWebSocketUpgrade r = false ->
  (admitted_http s now1 rnd1 now2 rnd2 r (rateLimiter st) /\
   exists l, handle ParseMediaType dispatch serveWS s now1 rnd1 now2 rnd2 r st =
     match dispatch (buildGatewayRequest (ipResolver s) r (h_Body r)) (core st) with
     | Panic e => Panic e
     | Ret (_, Some err, c) => Ret (handleDispatchError r err, mkState l c)
     | Ret (Some resp, None, c) => resp ← writeResponse resp; Ret (resp, mkState l c)
     | Ret (None, None, _) => Panic "nil pointer dereference"
     end) \/
  (~ admitted_http s now1 rnd1 now2 rnd2 r (rateLimiter st) /\
   exists resp l, handle ParseMediaType dispatch serveWS s now1 rnd1 now2 rnd2 r st
     = Ret (resp, mkState l (core st)) /\ rs_status resp ∈ [405; 429; 415; 413]).
Proof.
  intros Hws. unfold handle. rewrite Hws. unfold admitted_http.
  unfold checkMethod. case_bool_decide as Hm.
  2: { right. split; [naive_solver|]. exists (mkHttpResponse 405 (json_header ∅) (BError "method not allowed")), (rateLimiter st).
       split; [by destruct st|by_compute]. }
  rewrite checkRateLimit_spec. set (a1 := AllowIP _ _ _ _). set (a2 := AllowToken _ _ _ _).
  destruct (a1.1.1) eqn:E1; [|right; split; [naive_solver congruence|]; do 2 eexists; split; [done|by_compute]].
  destruct (a2.1.1) eqn:E2; [|right; split; [naive_solver congruence|]; do 2 eexists; split; [done|by_compute]].
  destruct (checkContentType _ _) as [resp|] eqn:Ec.
  { right. split.
    - intros (_ & _ & _ & Hc%checkContentType_spec & _). congruence.
    - do 2 eexists. split; [done|]. unfold checkContentType in Ec. case_bool_decide; [|done].
      case_if; [done|]. injection Ec as <-. by_compute. }
  rewrite checkContentType_spec in Ec. unfold readBody.
  destruct (maxBodyBytes s <? _) eqn:Eb; bool_to_prop.
  - right. split; [intros (_ & _ & _ & _ & ?); lia|]. do 2 eexists. split; [done|]. by_compute.
  - left. split; [done|]. by eexists.
Qed.
(** The dispatcher is reached by admitted requests only, and a request
    stopped before it changes nothing but the rate limiter.  For a request
    that is not a WebSocket upgrade: if it passes every check - method, rate
    of its address, rate of its token, content type, body size - the response
    is the one the dispatcher's answer is written as; otherwise the core is
    as it was and the status is 405, 429, 415 or 413. *)
Theorem handle_gates s now1 rnd1 now2 rnd2 r st :
  isWebSocketUpgrade r = false ->
  (admitted_http s now1 rnd1 now2 rnd2 r (rateLimiter st) /\
   exists l, handle ParseMediaType dispatch serveWS s now1 rnd1 now2 rnd2 r st =
     match dispatch (buildGatewayRequest (ipResolver s) r (h_Body r)) (core st) with
     | Panic e => Panic e
     | Ret (_, Some err, c) => Ret (handleDispatchError r err, mkState l c)
     | Ret (Some resp, None, c) => resp ← writeResponse resp; Ret (resp, mkState l c)
     | Ret (None, None, _) => Panic "nil pointer dereference"
     end) \/
  (~ admitted_http s now1 rnd1 now2 rnd2 r (rateLimiter st) /\
   exists resp l, handle ParseMediaType dispatch serveWS s now1 rnd1 now2 rnd2 r st
     = Ret (resp, mkState l (core st)) /\ rs_status resp ∈ [405; 429; 415; 413]).
Proof. apply handle_gates_aux. Qed.
End Gates.

(** ** With the dispatcher plugged in *)

Section Plugged.
Context {T : Type} `{TR : !Transport T} {H : Type} (enc : Encoding).
Context (ParseMediaType : string -> result string).
Context (serveWS : HttpRequest -> World (T:=T) (H:=H) -> outcome (HttpResponse * World (T:=T) (H:=H))).

Definition plug (clk : nat -> Z) (uuid : string) (d : Dispatcher (H:=H))
    (rq : GatewayRequest) (w : World (T:=T) (H:=H))
    : outcome (option GatewayResponse * option error * World (T:=T) (H:=H)) :=
  match Dispatch enc clk uuid d rq w with
  | Panic e => Panic e
  | Ret reply => Ret (response reply, err reply, wd (final reply))
  end.

(** The breaker's answer does not reach the client.  For a request whose
    route's breaker refuses it, the dispatcher returns the 503 response with
    its [Retry-After] header, and an error along with it; [handle] looks at
    the error first, so what the client gets is 500, internal server error,
    without a [Retry-After]. *)
Theorem breaker_refusal_becomes_500 clk uuid d s now1 rnd1 now2 rnd2 r st key :
  isWebSocketUpgrade r = false ->
  admitted_http ParseMediaType s now1 rnd1 now2 rnd2 r (rateLimiter st) ->
  registry_ok (circuits (core st)) ->
  goes_to d key (buildGatewayRequest (ipResolver s) r (h_Body r)) ->
  (Allow (clk 1%nat) (breaker_at key (circuits (core st)))).1.1 = false ->
  (exists reply, Dispatch enc clk uuid d (buildGatewayRequest (ipResolver s) r (h_Body r)) (core st) = Ret reply /\
     refused_by_breaker reply) /\
  exists resp st', handle ParseMediaType (plug clk uuid d) serveWS s now1 rnd1 now2 rnd2 r st = Ret (resp, st') /\
    rs_status resp = 500 /\ rs_body resp = BError "internal server error" /\
    rs_header resp !! "Retry-After" = None.
Proof.
  intros Hws Hadm Hok Hgo HA.
  destruct (Dispatch_refused enc clk uuid d (buildGatewayRequest (ipResolver s) r (h_Body r)) (core st) key Hok Hgo HA)
    as (reply & HD & Href).
  split; [by exists reply|]. destruct Href as [(resp & Hr & _) (text & He)].
  assert (exists l, handle ParseMediaType (plug clk uuid d) serveWS s now1 rnd1 now2 rnd2 r st
    = Ret (handleDispatchError r (NewErr text), mkState l (wd (final reply)))) as (l & Hh).
  { destruct (handle_gates_aux ParseMediaType (plug clk uuid d) serveWS s now1 rnd1 now2 rnd2 r st Hws)
      as [[_ [l ->]]|[? _]]; [|done].
    exists l. unfold plug. by rewrite HD, Hr, He. }
  do 2 eexists. split; [exact Hh|].
  unfold handleDispatchError, writeError, json_header. cbn [errors_is].
  rewrite !bool_decide_eq_false_2 by done. cbn [orb rs_status rs_body rs_header]. split_and!; [done|done|].
  rewrite lookup_insert_ne by done. apply lookup_union_None. split; [vm_compute; done|].
  case_if; [apply lookup_empty|]. by apply lookup_singleton_ne.
Qed.

(** The details of a validation error are lost on the way.  The schema
    validator reports what is wrong with each field and [writeError] would
    send it, but the dispatcher formats the error into a new one, so the
    client of a request with an invalid body gets 400 without any details. *)
Theorem validation_details_lost (d : Dispatcher (H:=H)) (r : Run (T:=T) (H:=H)) (h : headers)
    validate details :
  schema d = Some validate -> re_validate (route r) <> "" -> Body (req r) <> [] ->
  validate (re_validate (route r)) (Body (req r)) = Some (Validation details) ->
  exists e r', validateSchema d r = Ret (Stop None, r') /\ lcErr (lc r') = Some e /\
    rs_status (writeError h e) = 400 /\ rs_body (writeError h e) = BError "validation failed" /\
    rs_body (writeError h (Validation details)) = BValidation details.
Proof.
  intros Hs Hv Hb Hval. unfold validateSchema. rewrite (proj2 (String.eqb_neq _ _)) by done.
  destruct (Body (req r)) as [|b bs] eqn:Eb; [done|]. simpl. rewrite Hs, Hval.
  do 2 eexists. split; [done|]. split; [done|].
  split_and!; reflexivity.
Qed.
End Plugged.

(** ** A concrete server *)

Definition demo_server : Server := mkServer (2 ^ 20) RemoteAddrResolver.
Definition demo_media (s : string) : result string :=
  if String.eqb s "" then Err (NewErr "mime: no media type") else Ok s.
Definition demo_ws {W} (_ : HttpRequest) (w : W) : outcome (HttpResponse * W) :=
  Ret (http_Error 404 "route not found", w).
Definition get (path : string) : HttpRequest := mkHttpRequest "GET" path ∅ ∅ [] "10.0.0.1:99".
Definition demo_state {W} (w : W) : State := mkState (NewRateLimiter 100 500 (60 * second)) w.

Lemma handle_gates_witness :
  exists resp l, handle demo_media (plug demo_enc (clock 5) "uuid" demo_dispatcher) demo_ws demo_server
      0 0 0 0 (mkHttpRequest "TRACE" "/health" ∅ ∅ [] "10.0.0.1:99") (demo_state demo_world)
    = Ret (resp, mkState l demo_world) /\ rs_status resp ∈ [405; 429; 415; 413].
Proof.
  destruct (handle_gates demo_media (plug demo_enc (clock 5) "uuid" demo_dispatcher) demo_ws demo_server
    0 0 0 0 (mkHttpRequest "TRACE" "/health" ∅ ∅ [] "10.0.0.1:99") (demo_state demo_world))
    as [[(Hm & _) _]|[_ Hr]]; [reflexivity| |exact Hr].
  exfalso. revert Hm. by_compute.
Defined.

Lemma get_admitted path : path = "/admin/1" -> 
  admitted_http demo_media demo_server 0 0 0 0 (get path) (rateLimiter (demo_state wedged_world)).
Proof.
  intros ->. split_and!; [by_compute|vm_compute; reflexivity|reflexivity| |by_compute].
  intros Hm. exfalso. revert Hm. by_compute.
Qed.

Lemma breaker_refusal_becomes_500_witness :
  exists resp st', handle demo_media (plug demo_enc (clock (99 * second)) "uuid" demo_dispatcher) demo_ws
      demo_server 0 0 0 0 (get "/admin/1") (demo_state wedged_world) = Ret (resp, st') /\
    rs_status resp = 500 /\ rs_body resp = BError "internal server error" /\
    rs_header resp !! "Retry-After" = None.
Proof.
  destruct (breaker_refusal_becomes_500 demo_enc demo_media demo_ws (clock (99 * second)) "uuid"
    demo_dispatcher demo_server 0 0 0 0 (get "/admin/1") (demo_state wedged_world) "GET:/admin/:id") as [_ Hr].
  - reflexivity.
  - by apply get_admitted.
  - apply wedged_world_ok.
  - eexists. split; vm_compute; reflexivity.
  - vm_compute. reflexivity.
  - exact Hr.
Defined.

Definition strict_schema (name : string) (body : bytes) : option error :=
  Some (Validation [("/email", "missing")]).
Definition strict_run : Run (T:=unit) (H:=unit) :=
  mkRun (mkWorld (NewRegistry demo_config false) None None demo_heap tt tt)
    (lc_route (mkRouteEntry "/users" "POST" "node:users" [] "user" "")
      (NewLifecycleContext (mkRequest "POST" "/users" ∅ ∅ None (of_string "{}") None ""))) 0.

Lemma validation_details_lost_witness :
  exists e r', validateSchema
      (mkDispatcher (H:=unit) (NewRouteMap []) None (Some strict_schema) 0 [] []) strict_run
    = Ret (Stop None, r') /\ lcErr (lc r') = Some e /\ rs_status (writeError ∅ e) = 400 /\
    rs_body (writeError ∅ e) = BError "validation failed" /\
    rs_body (writeError ∅ (Validation [("/email", "missing")])) = BValidation [("/email", "missing")].
Proof.
  apply (validation_details_lost
    (mkDispatcher (H:=unit) (NewRouteMap []) None (Some strict_schema) 0 [] []) strict_run ∅ strict_schema
    [("/email", "missing")]); try reflexivity; discriminate.
Defined.
