(* ===== verification/Outcome.v ===== *)
(** * What a client gets

    The answer of the gateway to an HTTP request, as one function of the
    request and the state it meets: the first gate that refuses tells the
    status, and behind the gates the worker does.  The theorem is that the
    request handler of [Server] over the pipeline of [Dispatcher], with the
    listeners and hooks the main program gives it, computes this function
    ([Stack.client_gets_answer] has it for a gateway as it is served). *)
From S2P Require Import Prelude GoStrings Ipc RouteMap Circuit Worker Pool PoolManager Drainer RateLimiter Gateway Dispatcher DispatchFacts ClientIP Server.
Local Open Scope string_scope.
Local Open Scope list_scope.
Local Open Scope Z_scope.

(** ** Routed requests *)

Section Routed.
Context {T H : Type} `{TR : !Transport T} (enc : Encoding).
Implicit Types (r : Run (T:=T) (H:=H)) (w : World (T:=T) (H:=H)) (d : Dispatcher (H:=H)).

(** The request as the pipeline has it after the look-up. *)
Definition routed_request (uuid : string) (rq : GatewayRequest) (res : LookupResult) : GatewayRequest :=
  set_Params (lr_params res) (initCorrelationID uuid rq).2.

(** The run a routed request starts with. *)
Definition routed (uuid : string) (rq : GatewayRequest) (res : LookupResult) w : Run (T:=T) (H:=H) :=
  let '(cid, rq) := initCorrelationID uuid rq in
  let l := lc_correlation cid (NewLifecycleContext rq) in
  let l := lc_params (lr_params res) (lc_phase PhaseRouteMatch (lc_route (lr_entry res) l)) in
  let l := lc_request (set_Params (lr_params res) (Request l)) l in
  mkRun (on_breaker (routeKey (Method rq) (re_path (lr_entry res))) (fun b => (tt, b)) w).2 l 0.

Lemma Dispatch_serve clk uuid d rq w res :
  listeners d = [] -> Lookup (routes d) (Method rq) (Path rq) = Some res ->
  Dispatch enc clk uuid d rq w =
    serve enc clk d (routeKey (Method rq) (re_path (lr_entry res))) (initCorrelationID uuid rq).1
      (routed uuid rq res w).
Proof.
  intros Hls HL. unfold Dispatch, lookupRoute, req. cbn [initCorrelationID lc Request lc_correlation NewLifecycleContext].
  cbn [Method Path set_Headers]. rewrite HL. unfold notifyListeners. rewrite Hls. cbn [notify_loop].
  unfold routed. cbn. destruct (serve _ _ _ _ _ _) as [[resp e f]|] eqn:E; done.
Qed.

Lemma routed_facts uuid rq res w :
  let r := routed uuid rq res w in
  route r = lr_entry res /\ req r = routed_request uuid rq res /\ lcErr (lc r) = None /\ lcWorkerID (lc r) = "" /\
  req_correlation r = (initCorrelationID uuid rq).1 /\
  wd r = (on_breaker (routeKey (Method rq) (re_path (lr_entry res))) (fun b => (tt, b)) w).2.
Proof.
  cbn. unfold routed, initCorrelationID, req_correlation, req, header. cbn. split_and!; try done.
  by rewrite lookup_insert_eq.
Qed.

Lemma routed_header uuid rq res :
  header (Headers (routed_request uuid rq res)) "Authorization" = header (Headers rq) "Authorization".
Proof. unfold routed_request, initCorrelationID, header. cbn. by rewrite lookup_insert_ne. Qed.
End Routed.

(** ** The answer, said in one piece *)

Section Answer.
Context {T : Type} `{TR : !Transport T} (enc : Encoding).
Notation Dispatcher := (Dispatcher (H:=AccessLog)).
Notation World := (World (T:=T) (H:=AccessLog)).
Notation Run := (Run (T:=T) (H:=AccessLog)).
Implicit Types (r : Run) (w : World) (d : Dispatcher).

(** A dispatcher as the main program makes it: no listeners, and the access
    log as its only hook. *)
Definition plain_dispatcher (d : Dispatcher) : Prop :=
  listeners d = [] /\ hooks d = [NewAccessLogLifecycle].

(** Status and body. *)
Definition Answer : Type := Z * body_value.
Definition seen (resp : HttpResponse) : Answer := (rs_status resp, rs_body resp).

(** What becomes of a request at the gates: an answer, a panic, or it goes to
    the worker with these claims. *)
Inductive Gate := Refused (a : Answer) | Crashes | Asks (claims : option Claims).

Definition body_gate (d : Dispatcher) (rq : GatewayRequest) (rt : RouteEntry) (claims : option Claims) : Gate :=
  if String.eqb (re_validate rt) "" || bool_decide (Body rq = []) then Asks claims
  else match schema d with
       | None => Crashes
       | Some validate =>
           match validate (re_validate rt) (Body rq) with
           | Some _ => Refused (400, BError "validation failed")
           | None => Asks claims
           end
       end.

Definition token_gate (d : Dispatcher) (rq : GatewayRequest) (rt : RouteEntry) : Gate :=
  let token := header (Headers rq) "Authorization" in
  if bool_decide (re_authRoles rt = []) then body_gate d rq rt (rclaims rq)
  else if String.eqb token "" then Refused (401, BError "unauthorized")
  else match jwt d with
       | None => Crashes
       | Some validate =>
           match validate (stripBearerPrefix token) with
           | Err _ => Refused (401, BError "unauthorized")
           | Ok claims =>
               if hasRequiredRole (Roles claims) (re_authRoles rt) then body_gate d rq rt (Some claims)
               else Refused (403, BError "forbidden")
           end
       end.

Definition draining (id : string) (w : World) : bool :=
  match drainer w with Some dr => IsDraining id dr | None => false end.

Definition drain_body : bytes :=
  of_string ("{" +:+ String "034" ("error" +:+ String "034" (":" +:+ String "034"
    ("worker draining" +:+ String "034" "}")))).

(** [now] is when the breaker is asked. *)
Definition gate (now : Z) (d : Dispatcher) (rq : GatewayRequest) (rt : RouteEntry) (w : World) : Gate :=
  if negb (Allow now (breaker_at (routeKey (Method rq) (re_path rt)) (circuits w))).1.1
  then Refused (500, BError "internal server error")
  else if draining (re_workerID rt) w then Refused (503, BRaw drain_body)
  else token_gate d rq rt.

Definition error_answer (err : error) : Answer := seen (writeError ∅ err).

(** What the worker's side of the exchange makes of it. *)
Definition worker_answer (id : string) (payload : bytes) (t : T) : outcome Answer :=
  let '(serr, t1) := Send id (mkMessage TypeRequest payload) t in
  match serr with
  | Some err => Ret (error_answer (WrapErr ("gateway: send to worker " +:+ id +:+ ": ") err ""))
  | None =>
      let '(rmsg, expired, _) := ReceiveResponse id t1 in
      match rmsg with
      | Err err =>
          if expired then Ret (504, BError "upstream timeout")
          else Ret (error_answer (WrapErr ("gateway: receive from worker " +:+ id +:+ ": ") err ""))
      | Ok msg =>
          if decide (mtype msg = TypeError) then Ret (500, BError "internal server error")
          else match unmarshal enc (Payload msg) with
               | Err _ => Ret (200, BRaw (Payload msg))
               | Ok wr =>
                   c ← WriteHeader (if w_StatusCode wr =? 0 then 200 else w_StatusCode wr);
                   Ret (c, BRaw (w_Body wr))
               end
      end
  end.

(** The instance that is asked: the one the pool selects, when there is a
    pool. *)
Definition picked (id : string) (w : World) : outcome string :=
  '(sel, _) ← selectWorker id w; Ret (if String.eqb sel "" then id else sel).

(** The answer to a request that is handed to the dispatcher. *)
Definition client_answer (now : Z) (uuid : string) (d : Dispatcher) (rq : GatewayRequest) (w : World) : outcome Answer :=
  match Lookup (routes d) (Method rq) (Path rq) with
  | None => Ret (404, BError "route not found")
  | Some res =>
      match gate now d rq (lr_entry res) w with
      | Refused a => Ret a
      | Crashes => Panic "nil pointer dereference"
      | Asks claims =>
          id ← picked (re_workerID (lr_entry res)) w;
          match buildIPCPayload enc d (set_Claims claims (routed_request uuid rq res)) (initCorrelationID uuid rq).1 with
          | Err _ => Panic "nil pointer dereference"
          | Ok payload => worker_answer id payload (wire w)
          end
      end
  end.

(** The checks of the request handler, before the dispatcher: the answer of the
    first that refuses. *)
Definition http_gate (ParseMediaType : string -> result string) (s : Server) (now1 rnd1 now2 rnd2 : Z)
    (hr : HttpRequest) (l : RateLimiter) : option Answer :=
  let byIP := AllowIP (ipResolver s hr) now1 rnd1 l in
  let byToken := AllowToken (Header_Get hr "Authorization") now2 rnd2 byIP.2 in
  if bool_decide (h_Method hr ∉ allowedMethods) then Some (405, BError "method not allowed")
  else if negb byIP.1.1 then Some (429, BRetry (ceil_seconds byIP.1.2))
  else if negb byToken.1.1 then Some (429, BRetry (ceil_seconds byToken.1.2))
  else if bool_decide (h_Method hr ∈ ["POST"; "PUT"; "PATCH"]) &&
          negb match ParseMediaType (Header_Get hr "Content-Type") with
               | Ok mediaType => String.eqb mediaType "application/json"
               | Err _ => false
               end
       then Some (415, BError "unsupported media type, only application/json is accepted")
  else if maxBodyBytes s <? Z.of_nat (length (h_Body hr)) then Some (413, BText ("payload too large" +:+ String "010" ""))
  else None.

(** Status and body as they are sent. *)
Definition answer_sent (method : string) (a : Answer) : Answer :=
  (a.1, if body_allowed method a.1 then a.2 else BNone).
Lemma seen_sent method resp : seen (on_the_wire method resp) = answer_sent method (seen resp).
Proof. unfold on_the_wire, answer_sent, seen. cbn. by destruct (body_allowed _ _). Qed.

Lemma http_gate_admits ParseMediaType s now1 rnd1 now2 rnd2 hr l :
  http_gate ParseMediaType s now1 rnd1 now2 rnd2 hr l = None ->
  admitted_http ParseMediaType s now1 rnd1 now2 rnd2 hr l.
Proof.
  unfold http_gate, admitted_http. set (a1 := AllowIP _ _ _ _). set (a2 := AllowToken _ _ _ _).
  case_bool_decide as Hm; [done|]. destruct a1.1.1; [|done]. destruct a2.1.1; [|done]. cbn [negb].
  destruct (_ && _) eqn:Ec; [done|]. destruct (Z.ltb_spec (maxBodyBytes s) (Z.of_nat (length (h_Body hr)))); [done|].
  intros _. split_and!; [done|done|done| |lia].
  intros Hin. rewrite bool_decide_eq_true_2 in Ec by done. cbn in Ec.
  destruct (ParseMediaType _) as [mt|]; [|done].
  apply negb_false_iff, String.eqb_eq in Ec. congruence.
Qed.

Lemma handle_refuses ParseMediaType dispatch serveWS s now1 rnd1 now2 rnd2 hr (st : State (W:=World)) a :
  isWebSocketUpgrade hr = false -> http_gate ParseMediaType s now1 rnd1 now2 rnd2 hr (rateLimiter st) = Some a ->
  exists resp l, handle ParseMediaType dispatch serveWS s now1 rnd1 now2 rnd2 hr st = Ret (resp, mkState l (core st)) /\
    seen resp = a.
Proof.
  intros Hws. unfold handle, http_gate, checkMethod. rewrite Hws, checkRateLimit_spec.
  set (a1 := AllowIP _ _ _ _). set (a2 := AllowToken _ _ _ _).
  case_bool_decide as Hm.
  { rewrite (bool_decide_eq_false_2 _ Hm). intros [= <-]. exists (mkHttpResponse 405 (json_header ∅) (BError "method not allowed")).
    eexists (rateLimiter st). by destruct st. }
  rewrite (bool_decide_eq_true_2 _ Hm). destruct a1.1.1; cbn [negb]; [|intros [= <-]; by do 2 eexists].
  destruct a2.1.1; cbn [negb]; [|intros [= <-]; by do 2 eexists].
  unfold checkContentType, readBody. case_bool_decide as Hp; cbn [andb].
  - set (ok := match ParseMediaType _ with Ok _ => _ | Err _ => _ end). destruct ok; cbn [negb].
    + destruct (maxBodyBytes s <? _); [|done]. intros [= <-]. by do 2 eexists.
    + intros [= <-]. by do 2 eexists.
  - destruct (maxBodyBytes s <? _); [|done]. intros [= <-]. by do 2 eexists.
Qed.

(** ** The gates *)

(** What [handle] makes of the dispatcher's response and error. *)
Definition told (resp : option GatewayResponse) (err : option error) : outcome Answer :=
  match err, resp with
  | Some e, _ => Ret (error_answer e)
  | None, Some resp => seen <$> writeResponse resp
  | None, None => Panic "nil pointer dereference"
  end.

Lemma error_answer_new text : error_answer (NewErr text) = (500, BError "internal server error").
Proof. unfold error_answer, writeError. cbn [errors_is]. by rewrite !bool_decide_eq_false_2 by done. Qed.
Lemma error_answer_schema text :
  error_answer (WrapErr "" ErrSchemaValidation text) = (400, BError "validation failed").
Proof.
  unfold error_answer, writeError. cbn [errors_is errors_as_validation].
  rewrite !(bool_decide_eq_false_2 (WrapErr _ _ _ = _)) by done. reflexivity.
Qed.

Lemma seen_dispatch_error hr e : seen (handleDispatchError hr e) = error_answer e.
Proof.
  unfold handleDispatchError, error_answer, seen, writeError. repeat case_if; try done.
  by destruct (errors_as_validation e).
Qed.

(** The run of a stage that passes, with claims [c]. *)
Record passed_as (c : option Claims) (r r' : Run) : Prop := {
  pa_req : req r' = set_Claims c (req r);
  pa_route : route r' = route r;
  pa_err : lcErr (lc r') = lcErr (lc r);
  pa_worker : lcWorkerID (lc r') = lcWorkerID (lc r);
  pa_drainer : drainer (wd r') = drainer (wd r);
  pa_pool : poolMgr (wd r') = poolMgr (wd r);
  pa_heap : workers (wd r') = workers (wd r);
  pa_wire : wire (wd r') = wire (wd r);
}.

(** A stage, or some in a row, decides as [g] says. *)
Definition decides (g : Gate) (r : Run) (o : outcome (verdict * Run)) : Prop :=
  match g with
  | Refused a => exists resp r', o = Ret (Stop resp, r') /\ told resp (lcErr (lc r')) = Ret a
  | Crashes => o = Panic "nil pointer dereference"
  | Asks c => exists r', o = Ret (Continue, r') /\ passed_as c r r'
  end.

Lemma hooks_pass now d r : plain_dispatcher d ->
  exists r', runPreDispatchHooks now d r = Ret (Continue, r') /\ passed_as (rclaims (req r)) r r'.
Proof.
  intros [_ Hh]. unfold runPreDispatchHooks. rewrite Hh. cbn. eexists. split; [done|]. split; try done.
  cbn. by destruct r as [w [[] ?] c].
Qed.

Lemma body_decides now d r : plain_dispatcher d ->
  decides (body_gate d (req r) (route r) (rclaims (req r))) r
    (seq (validateSchema d) (runPreDispatchHooks now d) r).
Proof.
  intros Hd. destruct (hooks_pass now d r Hd) as (r' & Hr' & Hp). unfold body_gate, seq, validateSchema.
  destruct (String.eqb_spec (re_validate (route r)) ""); cbn [negb andb orb]; [by exists r'|].
  destruct (Body (req r)) as [|b bs] eqn:Eb; cbn; [by exists r'|].
  destruct (schema d) as [validate|]; [|done].
  destruct (validate _ _) as [e|]; cbn; [|by exists r'].
  do 2 eexists. split; [done|]. cbn. by rewrite error_answer_schema.
Qed.

Lemma decides_from c g r r1 o : passed_as c r r1 -> decides g r1 o -> decides g r o.
Proof.
  intros [Hq ? ? ? ? ? ? ?] Hg. destruct g as [a| |c']; [done..|]. destruct Hg as (r' & -> & [Hq' ? ? ? ? ? ? ?]).
  exists r'. split; [done|]. split; [by rewrite Hq', Hq|congruence..].
Qed.

Lemma token_decides now d r : plain_dispatcher d ->
  decides (token_gate d (req r) (route r)) r
    (seq (validateJWT d) (seq (validateSchema d) (runPreDispatchHooks now d)) r).
Proof.
  intros Hd. unfold token_gate, seq at 1, validateJWT.
  destruct (re_authRoles (route r)) as [|x l] eqn:Er; cbn [bool_decide]; [by apply body_decides|].
  rewrite bool_decide_eq_false_2 by done.
  destruct (String.eqb _ ""); [by do 2 eexists|].
  destruct (jwt d) as [validate|]; [|done]. destruct (validate _) as [claims|e]; [|by do 2 eexists].
  destruct (hasRequiredRole _ _); [|by do 2 eexists].
  set (r1 := on_lc _ r). eapply (decides_from (Some claims) _ r r1); [done|]. apply (body_decides now d r1 Hd).
Qed.

Lemma breaker_stage now key r : registry_ok (circuits (wd r)) ->
  let o := checkCircuitBreaker now key r in
  if (Allow now (breaker_at key (circuits (wd r)))).1.1
  then exists w, o = Ret (Continue, mkRun w (lc r) (code r)) /\ only_circuits (wd r) w
  else exists resp r' text, o = Ret (Stop (Some resp), r') /\ lcErr (lc r') = Some (NewErr text).
Proof.
  intros Hok o. destruct (checkCircuitBreaker_total now key r) as (v & r' & E). subst o. rewrite E.
  destruct (checkCircuitBreaker_spec _ _ _ _ _ Hok E) as (Ho & _ & _ & _ & _ & Hv).
  destruct (Allow now _).1.1.
  - subst v. revert Ho. unfold checkCircuitBreaker in E. destruct (on_breaker _ _ _) as [[[] st] w']; [|done].
    injection E as <-. intros Ho. by exists w'.
  - destruct Hv as (-> & He & _). by do 3 eexists.
Qed.

Lemma checks_decides clk d r : plain_dispatcher d -> registry_ok (circuits (wd r)) -> lcErr (lc r) = None ->
  decides (gate (clk 1%nat) d (req r) (route r) (wd r)) r
    (checks clk d (routeKey (Method (req r)) (re_path (route r))) r).
Proof.
  intros Hd Hok He. unfold gate, checks, seq at 1. set (key := routeKey _ _).
  pose proof (breaker_stage (clk 1%nat) key r Hok) as Hb. cbv zeta in Hb.
  destruct (Allow _ _).1.1; cbn [negb].
  2: { destruct Hb as (resp & r' & text & -> & Hr'). do 2 eexists. split; [done|]. rewrite Hr'. cbn [told].
       by rewrite error_answer_new. }
  destruct Hb as (w & -> & Ho). destruct (only_circuits_fields _ _ Ho) as (Hdr & Hp & Hh & Hw).
  set (r1 := mkRun w (lc r) (code r)).
  assert (passed_as (rclaims (req r)) r r1) as Hp1.
  { split; try done. unfold req. cbn. by destruct r as [? [[] ?] ?]. }
  unfold seq at 1, runRouteMatchHooks. rewrite (proj1 Hd). cbn [routeMatch_loop].
  unfold draining, seq at 1, checkDrainStatus. rewrite <-Hdr. change (drainer w) with (drainer (wd r1)).
  change (re_workerID (route r)) with (re_workerID (route r1)).
  assert (decides (token_gate d (req r) (route r)) r
    (seq (validateJWT d) (seq (validateSchema d) (runPreDispatchHooks (clk 2%nat) d)) r1)) as Htok
    by (eapply decides_from; [exact Hp1|apply (token_decides (clk 2%nat) d r1 Hd)]).
  destruct (drainer (wd r1)) as [dr|]; [|exact Htok]. destruct (IsDraining _ dr); [|exact Htok].
  do 2 eexists. split; [done|]. cbn [lc on_lc status set_code lc_phase lc_status lcErr]. cbn. rewrite He. reflexivity.
Qed.

(** ** The exchange *)

Lemma worker_failed_err d now key id e r :
  lcErr (lc (worker_failed (T:=T) (H:=AccessLog) d now key id e r)) = lcErr (lc r).
Proof. unfold worker_failed. cbn [lc on_wd]. by destruct (workerError_loop_core (T:=T) (hooks d) id e r) as (_ & _ & -> & _). Qed.

Definition exchange_answer (res : received) (r : Run) : outcome Answer :=
  match res with
  | Failed resp => told resp (lcErr (lc r))
  | Decoded wr => c ← WriteHeader (w_StatusCode wr); Ret (c, BRaw (w_Body wr))
  end.

Lemma exchange_told d now key id payload cid r : lcErr (lc r) = None ->
  let '(res, r') := exchange enc d now key id payload cid r in
  exchange_answer res r' = worker_answer id payload (wire (wd r)).
Proof.
  intros He. unfold exchange, worker_answer. destruct (Send _ _ _) as [[se|] t1].
  - unfold exchange_answer, handleSendError. by rewrite worker_failed_err.
  - cbn [wd on_wd wire w_wire]. destruct (ReceiveResponse _ _) as [[[msg|e] expired] t2].
    + case_decide.
      * unfold handleWorkerError, exchange_answer. rewrite worker_failed_err. cbn [told lc on_lc lc_err lcErr].
        by rewrite error_answer_new.
      * unfold decodeWorkerResponse. destruct (unmarshal enc (Payload msg)); [done|].
        cbn [exchange_answer lc on_wd told]. rewrite He. reflexivity.
    + unfold exchange_answer, handleReceiveError. rewrite worker_failed_err. cbn [told lc on_lc lc_err lc_phase lcErr].
      by destruct expired.
Qed.

(** What was acquired for a request can be released. *)
Definition releasable r : Prop := forall r',
  drainer (wd r') = drainer (wd r) -> lcWorkerID (lc r') = lcWorkerID (lc r) ->
  exists r2, releaseInFlight r' = Ret r2 /\ lc r2 = lc r'.

Lemma acquire_releasable id r :
  (forall dr, drainer (wd r) = Some dr -> drainer_ok dr) ->
  exists r', acquire id r = Ret r' /\ releasable r' /\ wire (wd r') = wire (wd r) /\ lcErr (lc r') = lcErr (lc r).
Proof.
  intros Hok. unfold acquire. destruct (drainer (wd r)) as [dr|] eqn:Ed.
  - destruct (Acquire_total id dr) as [dr' HA]; [by apply Hok|]. rewrite HA. eexists. split; [done|].
    split_and!; try done. intros r' Hd Hl. cbn in Hd, Hl. unfold releaseInFlight. rewrite Hd, Hl.
    destruct (String.eqb_spec id ""); [by eexists|].
    destruct (acquire_release id dr dr' (Hok dr eq_refl) HA) as (dr2 & -> & _). by eexists.
  - eexists. split_and!; try done. intros r' Hd _. unfold releaseInFlight. rewrite Hd, Ed. by eexists.
Qed.

Lemma track_rest f id w : drainer (track f id w) = drainer w /\ wire (track f id w) = wire w.
Proof. unfold track. destruct (poolMgr w) as [m|]; [|done]. by destruct (GetPool _ m). Qed.

Lemma picked_same id w w' : poolMgr w' = poolMgr w -> workers w' = workers w -> picked id w' = picked id w.
Proof.
  unfold picked, selectWorker. intros -> ->. destruct (poolMgr w) as [m|]; [|done].
  destruct (GetPool _ m) as [p|]; [|done]. by destruct (SelectWorker _ p) as [[[l|] p']|].
Qed.

Lemma sendAndReceive_told d now key r :
  (forall dr, drainer (wd r) = Some dr -> drainer_ok dr) -> lcErr (lc r) = None -> lcWorkerID (lc r) = "" ->
  match picked (re_workerID (route r)) (wd r) with
  | Panic e => sendAndReceive enc d now key r = Panic e
  | Ret id =>
      exists res r', sendAndReceive enc d now key r = Ret (res, r') /\ releasable r' /\
        exchange_answer res r' =
          match buildIPCPayload enc d (req r) (req_correlation r) with
          | Err _ => Panic "nil pointer dereference"
          | Ok payload => worker_answer id payload (wire (wd r))
          end
  end.
Proof.
  intros Hok He Hl. unfold sendAndReceive.
  destruct (counters_breaker key (fun b => (tt, b)) (wd r)) as (Hd0 & Hp0 & Hh0).
  assert (wire (on_breaker key (fun b => (tt, b)) (wd r)).2 = wire (wd r)) as Hw0
    by (unfold on_breaker; by destruct (Circuit.Get _ _)).
  set (w0 := (on_breaker key (fun b => (tt, b)) (wd r)).2) in *.
  change (on_wd (fun w => (on_breaker key (fun b => (tt, b)) w).2) r) with (mkRun w0 (lc r) (code r)).
  rewrite <-(picked_same _ (wd r) w0 Hp0 Hh0). unfold picked. cbn [wd lc code].
  change (route (mkRun w0 (lc r) (code r))) with (route r).
  destruct (selectWorker _ w0) as [[sel w1]|e] eqn:Es; cbn; [|done].
  destruct (selectWorker_spec _ _ _ _ Es) as [Hw1 _].
  assert (drainer w1 = drainer (wd r) /\ wire w1 = wire (wd r)) as [Hd1 Hwi1] by (split; rewrite Hw1; cbn; congruence).
  change (req (mkRun w1 (lc r) (code r))) with (req r).
  set (id := if String.eqb sel "" then _ else _). destruct (buildIPCPayload _ _ _ _) as [payload|e].
  2: { do 2 eexists. split; [done|]. split; [|cbn; by rewrite He].
       intros r' Hd Hl'. cbn in Hd, Hl'. unfold releaseInFlight. rewrite Hl', Hl. destruct (drainer (wd r')); by eexists. }
  destruct (acquire_releasable id (mkRun w1 (lc r) (code r))) as (r2 & -> & Hrel & Hw2 & He2).
  { intros dr. cbn. rewrite Hd1. apply Hok. }
  cbn [wd lc] in *. set (r3 := on_wd _ r2). destruct (track_rest IncrementActiveReqs id (wd r2)) as [Hd3 Hw3].
  pose proof (exchange_told d now key id payload (req_correlation r) r3) as Ht.
  pose proof (exchange_frame enc d now key id payload (req_correlation r) r3) as Hf.
  destruct (exchange _ _ _ _ _ _ _ _) as [res r4]. destruct Hf as ((Hd4 & _) & Hl4 & _).
  destruct (track_rest DecrementActiveReqs id (wd r4)) as [Hd5 _].
  do 2 eexists. split; [done|]. split.
  - intros r' Hd' Hl'. apply Hrel; cbn in *; congruence.
  - change (exchange_answer res (on_wd (track DecrementActiveReqs id) r4)) with (exchange_answer res r4).
    rewrite Ht by (cbn; congruence). by rewrite <-Hwi1, <-Hw2, <-Hw3.
Qed.

(** ** The whole request *)

Lemma processWorkerResponse_plain d now key cid wr r : plain_dispatcher d ->
  let '(resp, r') := processWorkerResponse d now key cid wr r in
  seen <$> writeResponse resp = exchange_answer (Decoded wr) r /\
  drainer (wd r') = drainer (wd r) /\ lcWorkerID (lc r') = lcWorkerID (lc r).
Proof.
  intros [_ Hh]. pose proof (processWorkerResponse_frame d now key cid wr r) as Hf. revert Hf.
  unfold processWorkerResponse. rewrite Hh. cbn [afterDispatch_loop NewAccessLogLifecycle OnAfterDispatch].
  cbn. intros ((Hd & _) & _ & Hl & _). split_and!; [|done|done].
  unfold writeResponse, exchange_answer. cbn [StatusCode respBody].
  destruct (WriteHeader _); reflexivity.
Qed.

Lemma gate_routed now d uuid rq res w :
  gate now d (routed_request uuid rq res) (lr_entry res) w = gate now d rq (lr_entry res) w.
Proof. unfold gate, token_gate. by rewrite routed_header. Qed.

Lemma gate_same now d rq rt w : registry_ok (circuits w) ->
  let w' := (on_breaker (routeKey (Method rq) (re_path rt)) (fun b => (tt, b)) w).2 in
  gate now d rq rt w' = gate now d rq rt w.
Proof.
  intros Hok w1. destruct (breaker_at_get (routeKey (Method rq) (re_path rt)) w Hok) as (Hoc & _ & _ & Hb).
  destruct (only_circuits_fields _ _ Hoc) as (Hd & _). unfold gate, draining. unfold w1. by rewrite Hb, Hd.
Qed.

(** The dispatcher's response and error, as [handle] takes them. *)
Lemma Dispatch_answer clk uuid d rq w :
  plain_dispatcher d -> registry_ok (circuits w) -> (forall dr, drainer w = Some dr -> drainer_ok dr) ->
  (reply ← Dispatch enc clk uuid d rq w; told (response reply) (err reply)) = client_answer (clk 1%nat) uuid d rq w.
Proof.
  intros Hd Hok Hdr. unfold client_answer. destruct (Lookup _ _ _) as [res|] eqn:EL.
  2: { pose proof (Dispatch_eq enc clk uuid d rq w) as HE. rewrite EL in HE. destruct HE as (reply & -> & _ & Hr & He).
       cbn. by rewrite Hr, He. }
  rewrite (Dispatch_serve enc clk uuid d rq w res (proj1 Hd) EL).
  destruct (routed_facts uuid rq res w) as (Hrt & Hrq & He & Hl & Hc & Hw). set (r := routed uuid rq res w) in *.
  destruct (breaker_at_get (routeKey (Method rq) (re_path (lr_entry res))) w Hok) as (Hoc & Hok0 & _).
  rewrite <-Hw in *. destruct (only_circuits_fields _ _ Hoc) as (Hd0 & Hp0 & Hh0 & Hw0).
  assert (Method rq = Method (req r)) as Hm by by rewrite Hrq.
  pose proof (checks_decides clk d r Hd Hok0 He) as HC. rewrite <-Hm, Hrt, Hrq, gate_routed in HC.
  rewrite <-(gate_same _ _ _ _ w Hok). cbv zeta.
  rewrite <-Hw. unfold serve. destruct (gate _ _ _ _ _) as [a| |c].
  - destruct HC as (resp & r' & -> & Ht). exact Ht.
  - by rewrite HC.
  - destruct HC as (r1 & -> & [Hq Hrt1 He1 Hl1 Hd1 Hp1 Hh1 Hw1]).
    pose proof (sendAndReceive_told d (clk 3%nat) (routeKey (Method rq) (re_path (lr_entry res))) r1) as Hs.
    rewrite (picked_same _ w (wd r1)), Hrt1, Hrt in Hs by congruence.
    destruct (picked _ w) as [id|e]; cbn [mbind outcome_mbind outcome_bind]; [|rewrite Hs; [done| |congruence..]].
    2: { intros dr. rewrite Hd1, Hd0. apply Hdr. }
    destruct Hs as (rc & r2 & -> & Hrel & Ht); [|congruence..|].
    { intros dr. rewrite Hd1, Hd0. apply Hdr. }
    assert (req_correlation r1 = (initCorrelationID uuid rq).1) as Hcid.
    { rewrite <-Hc. unfold req_correlation. by rewrite Hq. }
    rewrite Hcid, Hq, Hrq, Hw1, Hw0 in Ht. rewrite <-Ht. destruct rc as [wr|resp].
    + pose proof (processWorkerResponse_plain d (clk 4%nat) (routeKey (Method rq) (re_path (lr_entry res)))
        (initCorrelationID uuid rq).1 wr r2 Hd) as Hpr.
      destruct (processWorkerResponse _ _ _ _ _ _) as [resp r3]. destruct Hpr as (Hans & Hd3 & Hl3).
      destruct (Hrel r3 Hd3 Hl3) as (r4 & -> & _). exact Hans.
    + destruct (Hrel r2 eq_refl eq_refl) as (r3 & -> & Hlc). cbn. by rewrite Hlc.
Qed.

(** Status and body of the response to a request the handler admits. *)
Lemma handle_answers ParseMediaType serveWS clk uuid d s now1 rnd1 now2 rnd2 hr (st : State (W:=World)) :
  isWebSocketUpgrade hr = false -> admitted_http ParseMediaType s now1 rnd1 now2 rnd2 hr (rateLimiter st) ->
  plain_dispatcher d -> registry_ok (circuits (core st)) ->
  (forall dr, drainer (core st) = Some dr -> drainer_ok dr) ->
  (fun out => seen out.1) <$> handle ParseMediaType (plug enc clk uuid d) serveWS s now1 rnd1 now2 rnd2 hr st
  = client_answer (clk 1%nat) uuid d (buildGatewayRequest (ipResolver s) hr (h_Body hr)) (core st).
Proof.
  intros Hws Ha Hd Hok Hdr. rewrite <-(Dispatch_answer clk uuid d _ _ Hd Hok Hdr).
  destruct (handle_gates_aux ParseMediaType (plug enc clk uuid d) serveWS s now1 rnd1 now2 rnd2 hr st Hws)
    as [[_ [l ->]]|[Hn _]]; [|done].
  unfold plug. destruct (Dispatch _ _ _ _ _ _) as [[[resp|] [e|] f]|]; cbn; try done; try by rewrite seen_dispatch_error.
  by destruct (writeResponse resp).
Qed.
End Answer.

(** ** Concrete requests *)

Definition get_with (path token : string) : HttpRequest :=
  mkHttpRequest "GET" path (if String.eqb token "" then ∅ else {["Authorization" := [token]]}) ∅ [] "10.0.0.1:99".
Definition client_sees (path token : string) (w : World (T:=list (string * Message)) (H:=AccessLog)) : outcome Answer :=
  (fun out => seen out.1) <$> handle demo_media (plug demo_enc (clock 5) "uuid" demo_dispatcher) demo_ws demo_server
    0 0 0 0 (get_with path token) (demo_state w).
Definition draining_world := w_drainer (Some (MarkDraining "node:admin" NewWorkerDrainer)) demo_world.

Example one_answer_each :
  (fst <$> client_sees "/nowhere" "" demo_world, fst <$> client_sees "/admin/1" "" demo_world,
   fst <$> client_sees "/admin/1" "Bearer bad" demo_world, fst <$> client_sees "/admin/1" "Bearer good" demo_world,
   client_sees "/health" "" draining_world)
  = (Ret 404, Ret 401, Ret 401, Ret 200, Ret (503, BRaw drain_body)).
Proof. vm_compute. reflexivity. Qed.

(** A worker that answers with status 42. *)
Example odd_status_panics :
  handle demo_media (plug (mkEncoding (fun p => Ok []) (fun b => Ok (mkWorkerResponse 42 ∅ [] "")) (fun _ => "30s"))
    (clock 5) "uuid" demo_dispatcher) demo_ws demo_server 0 0 0 0 (get "/health") (demo_state demo_world)
  = Panic "invalid WriteHeader code 42".
Proof. vm_compute. reflexivity. Qed.
