(* ===== verification/Examples.v ===== *)
(** * The example workers behind the core

    A Go worker ([GoWorker], [Dashboard]) under the dispatcher: what
    [json.Marshal] makes of the dispatcher's payload, what the worker's
    [json.Unmarshal] reads there, and the same for the answer.  The worker
    declares its bodies as JSON values and its claims as a map; the core has
    both as Go structs without a translation: a [[]byte] body is a base64
    string on the wire, and the claims carry the names of the Go fields. *)
From stdpp Require Import sorting countable.
From S2P Require Import Outcome Prelude Unicode GoStrings Ipc Json GoWorker Dashboard.
From S2P Require Import RouteMap Circuit Worker Pool PoolManager Drainer Gateway Dispatcher DispatchFacts.
Local Open Scope string_scope.
Local Open Scope list_scope.
Local Open Scope Z_scope.

(** ** The documents *)

Definition enc_claims (c : option Gateway.Claims) : json :=
  match c with
  | None => JNull
  | Some c => JObj [("UserID", JStr (UserID c)); ("Roles", JArr (JStr <$> Roles c))]
  end.
Definition enc_params (p : option (gmap string string)) : json :=
  match p with None => JNull | Some m => enc_map m end.
Definition enc_payload (p : requestPayload) : json :=
  JObj ([("method", JStr (p_Method p)); ("path", JStr (p_Path p)); ("headers", enc_map (p_Headers p));
         ("query", enc_map (p_Query p)); ("params", enc_params (p_Params p)); ("body", enc_bytes (p_Body p));
         ("claims", enc_claims (p_Claims p))]
        ++ omit_empty "client_ip" (p_ClientIP p)
        ++ [("correlation_id", JStr (p_CorrelationID p))]
        ++ omit_empty "timeout" (p_Timeout p)).

Definition worker_fields : list (field WorkerResponse) :=
  [("status_code", via w_StatusCode (fun x r => mkWorkerResponse x (w_Headers r) (w_Body r) (w_CorrelationID r)) dec_int);
   ("headers", via w_Headers (fun x r => mkWorkerResponse (w_StatusCode r) x (w_Body r) (w_CorrelationID r)) (dec_map "" dec_string));
   ("body", via w_Body (fun x r => mkWorkerResponse (w_StatusCode r) (w_Headers r) x (w_CorrelationID r)) dec_bytes);
   ("correlation_id", via w_CorrelationID (fun x r => mkWorkerResponse (w_StatusCode r) (w_Headers r) (w_Body r) x) dec_string)].
Definition dec_worker_response : decoder WorkerResponse := dec_struct worker_fields.
Definition zero_worker_response : WorkerResponse := mkWorkerResponse 0 ∅ [] "".

(** ** The text of documents

    [print] and [parse] are [encoding/json]'s; bytes that are no UTF-8 are
    replaced when a string is written, and [coerce] is what that makes of a
    string. *)

Lemma dec_member_step {A} (fs : list (field A)) (a v : A) k j d :
  find_field fs k = Some d -> d j a = (v, None) -> dec_member fs (a, None) (k, j) = (v, None).
Proof. intros Hf Hd. unfold dec_member. cbn [fst snd]. by rewrite Hf, Hd. Qed.

(** One member of a struct that is declared. *)
Ltac member Hd := erewrite dec_member_step; [|reflexivity|unfold via; cbn; rewrite Hd; reflexivity].

(** The seven members the worker declares, and others it does not. *)
Lemma dec_request_members jm jp jh jq ja jb jc rest m p h q a c :
  dec_string jm "" = (m, None) -> dec_string jp "" = (p, None) -> dec_map "" dec_string jh ∅ = (h, None) ->
  dec_map "" dec_string jq ∅ = (q, None) -> dec_map "" dec_string ja ∅ = (a, None) ->
  dec_map JNull dec_any jc ∅ = (c, None) ->
  Forall (fun kv => find_field request_fields kv.1 = None) rest ->
  dec_request (JObj ([("method", jm); ("path", jp); ("headers", jh); ("query", jq); ("params", ja); ("body", jb);
                      ("claims", jc)] ++ rest)) zero_request
  = (GoWorker.mkRequest m p h q a (Some jb) c, None).
Proof.
  intros Hm Hp Hh Hq Ha Hc Hr. unfold dec_request, dec_struct. rewrite foldl_app.
  assert (forall acc, foldl (dec_member request_fields) acc rest = acc) as ->.
  { induction Hr as [|kv rest Hkv Hr IH]; intros acc; [done|]. cbn [foldl].
    replace (dec_member request_fields acc kv) with acc by (unfold dec_member; by rewrite Hkv). apply IH. }
  unfold zero_request. cbn [foldl].
  member Hm. member Hp. member Hh. member Hq. member Ha.
  erewrite dec_member_step; [|reflexivity|reflexivity]. member Hc. done.
Qed.

Record JsonText := mkJsonText {
  jprint : json -> bytes;
  jparse : bytes -> option json;
  coerce : string -> string;
  parse_print : forall j, jparse (jprint j) = Some (jmap coerce j);
  coerce_ascii : forall s, is_ascii s = true -> coerce s = s;
}.

Section Behind.
Context (J : JsonText) (duration : Z -> string).
Context {S : Type} (serve_request : GoWorker.request -> S -> GoWorker.response * S).

Definition unmarshal_worker (b : bytes) : result WorkerResponse :=
  match jparse J b with
  | None => Err syntax_error
  | Some j => match dec_worker_response j zero_worker_response with
              | (wr, None) => Ok wr
              | (_, Some e) => Err e
              end
  end.
Definition json_enc : Encoding :=
  mkEncoding (fun p => Ok (jprint J (enc_payload p))) unmarshal_worker duration.

(** The worker's process at the other end of the transport, message by
    message; frames carry them exactly ([worker_answers_in_order]).  It is its
    store and the answers the core has not received yet. *)
Definition proc : Type := S * list Message.
#[export] Instance worker_process : Transport proc := {
  Send _ m p := let '(a, s) := reply_to serve_request (jprint J) (jparse J) m p.1 in (None, (s, p.2 ++ option_list a));
  ReceiveResponse _ p :=
    match p.2 with
    | m :: q => (Ok m, false, (p.1, q))
    | [] => (Err DeadlineExceeded, true, p)
    end;
}.

(** ** What the worker makes of a request of the core *)

Lemma coerce_key (k : string) : is_ascii k = true -> coerce J k = k.
Proof. apply coerce_ascii. Qed.

Lemma dec_coerced_map (m : gmap string string) : exists m',
  dec_map "" dec_string (jmap (coerce J) (enc_map m)) ∅ = (m', None).
Proof.
  unfold enc_map, map_members. generalize (merge_sort by_key (map_to_list m)) as l. intros l. cbn [jmap dec_map].
  generalize (∅ : gmap string string) as acc. induction l as [|kv l IH]; intros acc; [by exists acc|].
  cbn. apply IH.
Qed.

(** The request as the worker sees it: method and path as they are, the body
    as a JSON string, and claims without "sub" and without "role". *)
Definition seen_as (p : requestPayload) (req : GoWorker.request) : Prop :=
  GoWorker.Method req = coerce J (p_Method p) /\ GoWorker.Path req = coerce J (p_Path p) /\
  (exists b, GoWorker.Body req = Some (JStr b)) /\
  forall k, k ∈ ["sub"; "role"] -> GoWorker.Claims req !! k = None.

Lemma dec_payload (p : requestPayload) :
  exists req, dec_request (jmap (coerce J) (enc_payload p)) zero_request = (req, None) /\ seen_as p req.
Proof.
  destruct (dec_coerced_map (p_Headers p)) as [h Hh]. destruct (dec_coerced_map (p_Query p)) as [q Hq].
  assert (exists m, dec_map "" dec_string (jmap (coerce J) (enc_params (p_Params p))) ∅ = (m, None)) as [m Hm].
  { destruct (p_Params p) as [m|]; [apply dec_coerced_map|by exists ∅]. }
  assert (exists c, dec_map JNull dec_any (jmap (coerce J) (enc_claims (p_Claims p))) ∅ = (c, None) /\
    forall k, k ∈ ["sub"; "role"] -> c !! k = None) as (c & Hc & Hk).
  { destruct (p_Claims p) as [cl|]; [|exists ∅; split; [done|intros; apply lookup_empty]].
    cbn [enc_claims jmap map fst snd]. rewrite (coerce_key "UserID"), (coerce_key "Roles") by done. eexists. split; [reflexivity|].
    intros k Hk. cbn. rewrite !lookup_insert_ne; [apply lookup_empty| |]; intros <-; revert Hk; by_compute. }
  unfold enc_payload. cbn [jmap]. rewrite map_app. cbn [map fst snd].
  rewrite (coerce_key "method"), (coerce_key "path"), (coerce_key "headers"), (coerce_key "query"), (coerce_key "params"),
    (coerce_key "body"), (coerce_key "claims") by done.
  eexists. split.
  - apply dec_request_members with (h := h) (q := q) (a := m) (c := c); try done.
    rewrite !map_app. unfold omit_empty. repeat case_if; cbn [map app fst snd];
      rewrite ?(coerce_key "client_ip"), ?(coerce_key "correlation_id"), ?(coerce_key "timeout") by done;
      repeat constructor.
  - split_and!; try done. by eexists.
Qed.

(** What the core makes of an answer whose body is a JSON object: nothing,
    since its own field is a byte slice. *)
Definition object_body (r : GoWorker.response) : Prop := exists ms, resp_Body r = JObj ms.

Lemma dec_answer (r : GoWorker.response) :
  object_body r ->
  exists wr, dec_worker_response (jmap (coerce J) (enc_response r)) zero_worker_response = (wr, Some type_error).
Proof.
  intros [ms Hms]. unfold enc_response. rewrite Hms. cbn [jmap]. rewrite map_app. cbn [map fst snd jmap].
  rewrite (coerce_key "status_code"), (coerce_key "headers"), (coerce_key "body") by done.
  destruct (dec_coerced_map (resp_Headers r)) as [h Hh].
  unfold dec_worker_response, dec_struct. rewrite foldl_app. cbn [foldl]. unfold zero_worker_response.
  assert (exists z e, dec_int (JInt (GoWorker.StatusCode r)) 0 = (z, e) /\ (e = None \/ e = Some type_error)) as (z & e & Hz & He).
  { unfold dec_int. case_if; eauto. }
  assert (forall acc, exists a, foldl (dec_member worker_fields) (acc, Some type_error)
    (map (fun m => (coerce J m.1, jmap (coerce J) m.2)) (omit_empty "correlation_id" (GoWorker.CorrelationID r)))
    = (a, Some type_error)) as Hrest.
  { intros acc. unfold omit_empty. case_if; [by exists acc|]. cbn [map foldl fst snd].
    rewrite (coerce_key "correlation_id") by done. by eexists. }
  assert (dec_member worker_fields (mkWorkerResponse 0 ∅ [] "", None) ("status_code", JInt (GoWorker.StatusCode r))
    = (mkWorkerResponse z ∅ [] "", e)) as ->.
  { unfold dec_member. change (find_field worker_fields _) with (snd <$> head worker_fields). cbn -[dec_int]. unfold via.
    cbn [w_StatusCode]. by rewrite Hz. }
  assert (forall x, dec_member worker_fields (mkWorkerResponse z ∅ [] "", x)
    ("headers", jmap (coerce J) (enc_map (resp_Headers r))) = (mkWorkerResponse z h [] "", x)) as ->.
  { intros x. unfold dec_member. change (find_field worker_fields _) with (snd <$> head (tail worker_fields)).
    cbn -[dec_map enc_map jmap]. unfold via. cbn [w_Headers]. rewrite Hh. by destruct x. }
  assert (forall ms', dec_member worker_fields (mkWorkerResponse z h [] "", e) ("body", JObj ms')
    = (mkWorkerResponse z h [] "", Some type_error)) as ->.
  { intros ms'. unfold dec_member. change (find_field worker_fields _) with (snd <$> head (tail (tail worker_fields))).
    cbn -[dec_bytes]. by destruct He as [->| ->]. }
  apply Hrest.
Qed.

Lemma answer_not_decoded (r : GoWorker.response) (cid : string) :
  object_body r ->
  decodeWorkerResponse json_enc (mkMessage TypeResponse (jprint J (enc_response r))) cid
  = Failed (Some (Gateway.mkResponse 200 ∅ (jprint J (enc_response r)) cid)).
Proof.
  intros Ho. unfold decodeWorkerResponse, json_enc, unmarshal_worker. cbn [unmarshal Ipc.Payload].
  rewrite parse_print. by destruct (dec_answer r Ho) as [wr ->].
Qed.

Lemma worker_answers (p : requestPayload) (s : S) : exists req, seen_as p req /\
  reply_to serve_request (jprint J) (jparse J) (mkMessage TypeRequest (jprint J (enc_payload p))) s
  = (Some (mkMessage TypeResponse (jprint J (enc_response (serve_request req s).1))), (serve_request req s).2).
Proof.
  destruct (dec_payload p) as (req & Hreq & Hseen). exists req. split; [done|].
  unfold reply_to. cbn [mtype Ipc.Payload]. rewrite decide_False by by_compute. rewrite decide_True by done.
  rewrite parse_print, Hreq. by destruct (serve_request req s).
Qed.

(** ** Through the pipeline *)

Implicit Types (r : Run (T:=proc) (H:=AccessLog)) (w : World (T:=proc) (H:=AccessLog)).

Lemma validateJWT_admits (d : Dispatcher (H:=AccessLog)) r :
  authorised d (Request (lc r)) (route r) ->
  exists c, validateJWT d r = Ret (Continue, on_lc (fun l => lc_request (set_Claims c (Request l)) l) r).
Proof.
  intros [Hn|(validate & claims & role & Hj & Ht & Hv & H1 & H2)]; unfold validateJWT.
  - rewrite Hn. exists (rclaims (Request (lc r))). destruct r as [w [rq] c]. by destruct rq.
  - destruct (re_authRoles (route r)) as [|x l] eqn:Er; [by apply elem_of_nil in H2|]. unfold req.
    rewrite (proj2 (String.eqb_neq _ _) Ht), Hj, Hv.
    rewrite (proj2 (hasRequiredRole_spec _ _)) by (by exists role). by exists (Some claims).
Qed.

Lemma validateSchema_admits (d : Dispatcher (H:=AccessLog)) r :
  schema_accepts d (Request (lc r)) (route r) -> validateSchema d r = Ret (Continue, r).
Proof.
  unfold schema_accepts, validateSchema, req. intros [->|[->|(validate & Hs & Hv)]]; [done|by rewrite andb_false_r|].
  rewrite Hs, Hv. by case_if.
Qed.

(** An admitted request gets through the checks with its claims set and its
    start in the access log, and nothing else of it changed. *)
Lemma checks_admit clk (d : Dispatcher (H:=AccessLog)) key r :
  plain_dispatcher d -> registry_ok (circuits (wd r)) ->
  admitted_checks (clk 1%nat) d (Request (lc r)) (route r) key (wd r) ->
  exists c r', checks clk d key r = Ret (Continue, r') /\
    Request (lc r') = set_Claims c (Request (lc r)) /\ route r' = route r /\ code r' = code r /\
    lcErr (lc r') = lcErr (lc r) /\ lcWorkerID (lc r') = lcWorkerID (lc r) /\
    only_breaker key (Allow (clk 1%nat) (breaker_at key (circuits (wd r)))).1.2 (wd r) (wd r') /\
    wire (wd r') = wire (wd r) /\
    ext (wd r') = mkAccessLog (<[getCorrelationID (Request (lc r)) := clk 2%nat]> (startTimes (ext (wd r))))
                    (lines (ext (wd r))).
Proof.
  intros [Hls Hhs] Hok (HA & HD & HJ & HS).
  pose proof (on_breaker_spec key
    (fun b => let '(ok, b', _) := Allow (clk 1%nat) b in ((ok, state b'), b')) (wd r) Hok) as Hb.
  assert (forall b, routeID (let '(ok, b', _) := Allow (clk 1%nat) b in ((ok, state b'), b')).2 = routeID b) as Hid.
  { intros b. pose proof (Allow_routeID (clk 1%nat) b). by destruct (Allow (clk 1%nat) b) as [[ok b'] ev]. }
  specialize (Hb Hid).
  unfold checks, seq at 1, checkCircuitBreaker. destruct (on_breaker key _ (wd r)) as [[ok st] w'] eqn:EB.
  destruct Hb as (Ha & Hok' & Hb & Hc1 & Hc2 & Hne & Hw).
  destruct (Allow (clk 1%nat) (breaker_at key (circuits (wd r)))) as [[ok' b'] ev] eqn:EA. cbn [fst snd] in *.
  subst ok'. injection Ha as -> _.
  unfold seq at 1, runRouteMatchHooks. rewrite Hls. cbn [routeMatch_loop].
  unfold seq at 1, checkDrainStatus. cbn [wd].
  assert (drainer w' = drainer (wd r)) as -> by (by rewrite Hw).
  set (r1 := mkRun w' (lc r) (code r)).
  assert (forall X, match drainer (wd r) with
    | Some dr => if IsDraining (re_workerID (route r1)) dr then X else Ret (Continue, r1)
    | None => Ret (Continue, r1) end = Ret (Continue, r1)) as Hdrain.
  { intros X. destruct (drainer (wd r)) as [dr|] eqn:Ed; [|done]. change (route r1) with (route r). by rewrite (HD dr eq_refl). }
  cbv zeta. rewrite Hdrain.
  unfold seq at 1. destruct (validateJWT_admits d r1 HJ) as [c Hj]. rewrite Hj.
  unfold seq. rewrite validateSchema_admits by exact HS.
  unfold runPreDispatchHooks. rewrite Hhs. cbn [preDispatch_loop NewAccessLogLifecycle OnBeforeDispatch].
  exists c. eexists. split; [reflexivity|]. cbn. split_and!; try done; by rewrite Hw.
Qed.

Definition payload_of (d : Dispatcher (H:=AccessLog)) r : requestPayload :=
  mkPayload (Method (req r)) (Path (req r)) (Headers (req r)) (Gateway.Query (req r)) (Params (req r)) (Body (req r))
    (rclaims (req r)) (ClientIP (req r)) (req_correlation r) (duration (timeout d)).

Lemma acquire_frame id r r' :
  acquire id r = Ret r' ->
  wire (wd r') = wire (wd r) /\ circuits (wd r') = circuits (wd r) /\ ext (wd r') = ext (wd r) /\
  req r' = req r /\ lcErr (lc r') = lcErr (lc r) /\ code r' = code r.
Proof.
  unfold acquire. destruct (drainer (wd r)) as [dr|]; [|by intros [= <-]].
  destruct (Acquire id dr); [|done]. by intros [= <-].
Qed.
Lemma track_frame f id w :
  wire (track f id w) = wire w /\ circuits (track f id w) = circuits w /\ ext (track f id w) = ext w.
Proof.
  unfold track. destruct (poolMgr w) as [m|]; [|done]. by destruct (GetPool _ m).
Qed.

(** One exchange with the worker: whatever status the answer carries, the
    dispatcher ends up with a response 200 whose body is the whole answer. *)
Lemma exchange_with_worker d now key r res r' (s : S) :
  (forall req s, object_body (serve_request req s).1) ->
  wire (wd r) = (s, []) -> sendAndReceive json_enc d now key r = Ret (res, r') ->
  exists rq, seen_as (payload_of d r) rq /\
    res = Failed (Some (Gateway.mkResponse 200 ∅ (jprint J (enc_response (serve_request rq s).1)) (req_correlation r))) /\
    wire (wd r') = ((serve_request rq s).2, []) /\
    circuits (wd r') = circuits (on_breaker key (fun b => (tt, b)) (wd r)).2 /\
    ext (wd r') = ext (wd r) /\ lcErr (lc r') = lcErr (lc r) /\ code r' = code r.
Proof.
  intros Ho Hwire. unfold sendAndReceive. destruct (on_breaker key (fun b => (tt, b)) (wd r)) as [[] w0] eqn:EB.
  assert (wire w0 = wire (wd r) /\ ext w0 = ext (wd r)) as [Hw0 He0].
  { unfold on_breaker in EB. destruct (Circuit.Get key (circuits (wd r))). by injection EB as <-. }
  destruct (selectWorker _ _) as [[sel w1]|] eqn:Es; [|done].
  destruct (selectWorker_spec _ _ _ _ Es) as [Hw1 _]. unfold on_wd at 1 in Hw1. cbn [wd] in Hw1. rewrite EB in Hw1.
  cbn [snd] in Hw1.
  cbn [buildIPCPayload json_enc marshal]. 
  match goal with |- context [acquire ?i _] => set (id := i) end.
  destruct (acquire id _) as [r2|] eqn:Ea; [|done]. destruct (acquire_frame _ _ _ Ea) as (Ha1 & Ha2 & Ha3 & Ha4 & Ha5 & Ha6).
  cbn [wd lc code] in *. destruct (worker_answers (payload_of d r) s) as (rq & Hseen & HR).
  destruct (track_frame IncrementActiveReqs id (wd r2)) as (Ht1 & Ht2 & Ht3).
  unfold exchange. cbn [on_wd wd].
  assert (wire (track IncrementActiveReqs id (wd r2)) = (s, [])) as -> by (rewrite Ht1, Ha1, Hw1; cbn; congruence).
  cbn [Send worker_process fst snd].
  change (jprint J (enc_payload _)) with (jprint J (enc_payload (payload_of d r))). rewrite HR.
  cbn [option_list app fst snd]. cbn. rewrite decide_False by by_compute.
  fold json_enc. rewrite answer_not_decoded by apply Ho.
  intros [= <- <-]. exists rq. split; [done|]. cbn [wd on_wd lc code w_wire].
  match goal with |- context [track DecrementActiveReqs id ?w] =>
    destruct (track_frame DecrementActiveReqs id w) as (-> & -> & ->) end.
  cbn. rewrite Ht2, Ht3, Ha2, Ha3, Hw1. cbn. by split_and!.
Qed.

(** What a request that is admitted goes through, with a worker at the other
    end: what the worker sees, what the client gets, what is left behind. *)
Lemma worker_exchange clk uuid d rq w reply res (s : S) :
  (forall req s, object_body (serve_request req s).1) ->
  plain_dispatcher d -> registry_ok (circuits w) ->
  Lookup (routes d) (Method rq) (Path rq) = Some res ->
  let key := routeKey (Method rq) (re_path (lr_entry res)) in
  admitted_checks (clk 1%nat) d rq (lr_entry res) key w -> wire w = (s, []) ->
  Dispatch json_enc clk uuid d rq w = Ret reply ->
  exists seen, (GoWorker.Method seen = coerce J (Method rq) /\ GoWorker.Path seen = coerce J (Path rq) /\
      (exists b, GoWorker.Body seen = Some (JStr b)) /\ (forall k, k ∈ ["sub"; "role"] -> GoWorker.Claims seen !! k = None)) /\
    let '(answer, s') := serve_request seen s in
    response reply = Some (Gateway.mkResponse 200 ∅ (jprint J (enc_response answer)) (initCorrelationID uuid rq).1) /\
    err reply = None /\ wire (wd (final reply)) = (s', []) /\ code (final reply) = 0 /\
    reg_breaker key (circuits (wd (final reply))) = Some (Allow (clk 1%nat) (breaker_at key (circuits w))).1.2 /\
    ext (wd (final reply)) =
      mkAccessLog (<[getCorrelationID (Request (lc (routed uuid rq res w))) := clk 2%nat]> (startTimes (ext w))) (lines (ext w)).
Proof.
  intros Ho Hd Hok HL key (HA & HD & HJ & HS) Hwire. rewrite (Dispatch_serve _ _ _ _ _ _ res) by (done || apply Hd).
  fold key. destruct (routed_facts uuid rq res w) as (R1 & Rq & R4 & _ & R8 & R9).
  pose proof (routed_header uuid rq res) as R7. rewrite <-Rq in R7.
  set (r := routed uuid rq res w) in *.
  assert (code r = 0) as R5 by done. assert (Method (req r) = Method rq /\ Path (req r) = Path rq /\ Body (req r) = Body rq) as (R2 & R3 & R6) by by rewrite Rq. fold key in R9.
  destruct (breaker_at_get key w Hok) as (Hoc & Hok0 & Hb0 & Hbk). rewrite <-R9 in *.
  destruct (only_circuits_fields _ _ Hoc) as (Hdr & _ & _ & Hw0).
  assert (ext (wd r) = ext w) as He0.
  { rewrite R9. unfold on_breaker. by destruct (Circuit.Get key (circuits w)). }
  unfold serve. destruct (checks_admit clk d key r Hd Hok0) as (c & r1 & HC & C1 & C2 & C3 & C4 & C5 & C6 & C7 & C8).
  { unfold admitted_checks. rewrite Hbk, Hdr, R1. split_and!; [done|done| |].
    - unfold authorised, req in *. rewrite R7. exact HJ.
    - unfold schema_accepts, req in *. rewrite R6. exact HS. }
  rewrite HC. destruct (sendAndReceive _ _ _ _ r1) as [[rcv r2]|] eqn:ES; [|done].
  assert (wire (wd r1) = (s, [])) as Hw1 by congruence.
  destruct (exchange_with_worker _ _ _ _ _ _ s Ho Hw1 ES)
    as (seen & Hseen & -> & E2 & E3 & E4 & E5 & E6).
  destruct (releaseInFlight r2) as [r3|] eqn:ER; [|done]. intros [= <-].
  destruct (releaseInFlight_frame _ _ ER) as (F1 & F2 & F3). cbn [response err final].
  exists seen. destruct Hseen as (S1 & S2 & S3 & S4). unfold payload_of, req in S1, S2. cbn [p_Method p_Path] in S1, S2.
  rewrite C1 in S1, S2. unfold req in R2, R3, R6, R7. cbn [Method Path set_Claims] in S1, S2. rewrite R2 in S1. rewrite R3 in S2.
  split; [done|]. destruct (serve_request seen s) as [answer s'] eqn:EA. cbn [fst snd] in *.
  assert (req_correlation r1 = (initCorrelationID uuid rq).1) as <-.
  { unfold req_correlation, req in *. by rewrite C1. }
  rewrite F1, F2, F3. cbn. split_and!; [done|congruence|done|congruence| |].
  - rewrite E3. destruct (breaker_at_get key (wd r1) (proj1 C6)) as (_ & _ & (_ & Hf & _) & _). rewrite Hf.
    rewrite (only_breaker_at _ _ _ _ C6). by rewrite Hbk.
  - by rewrite E4, C8, He0.
Qed.

(** C12: What a worker answers is not what the client gets.  Behind a
    dispatcher as the main program makes it, take any Go worker whose bodies
    are JSON objects, as those of all the examples are, and any request that
    the gateway's own checks admit.  The worker sees method and path of the
    request, but claims without a subject or a role and a body that is a JSON
    string; and whatever it answers - an error status included - the client
    gets status 200, no headers, and the worker's whole answer as the body.
    The breaker records neither success nor failure, the status stays 0 for
    whoever observes the request, no line is added to the access log, and
    the start of the request stays in the log's map for ever. *)
Theorem answers_lose_their_status clk uuid d rq w reply res (s : S) :
  (forall req s, object_body (serve_request req s).1) ->
  plain_dispatcher d -> registry_ok (circuits w) ->
  Lookup (routes d) (Method rq) (Path rq) = Some res ->
  let key := routeKey (Method rq) (re_path (lr_entry res)) in
  admitted_checks (clk 1%nat) d rq (lr_entry res) key w -> wire w = (s, []) ->
  Dispatch json_enc clk uuid d rq w = Ret reply ->
  exists seen, (GoWorker.Method seen = coerce J (Method rq) /\ GoWorker.Path seen = coerce J (Path rq) /\
      (exists b, GoWorker.Body seen = Some (JStr b)) /\ (forall k, k ∈ ["sub"; "role"] -> GoWorker.Claims seen !! k = None)) /\
    let '(answer, s') := serve_request seen s in
    response reply = Some (Gateway.mkResponse 200 ∅ (jprint J (enc_response answer)) (initCorrelationID uuid rq).1) /\
    err reply = None /\ wire (wd (final reply)) = (s', []) /\ code (final reply) = 0 /\
    reg_breaker key (circuits (wd (final reply))) = Some (Allow (clk 1%nat) (breaker_at key (circuits w))).1.2 /\
    lines (ext (wd (final reply))) = lines (ext w) /\ exists cid, startTimes (ext (wd (final reply))) !! cid = Some (clk 2%nat).
Proof.
  intros Ho Hd Hok HL key HA Hw HD.
  destruct (worker_exchange clk uuid d rq w reply res s Ho Hd Hok HL HA Hw HD) as (seen & Hseen & HR). exists seen. split; [done|].
  destruct (serve_request seen s) as [answer s']. destruct HR as (? & ? & ? & ? & ? & He).
  split_and!; try done; rewrite He; [done|]. eexists. apply lookup_insert_eq.
Qed.
End Behind.

(** ** The dashboard behind the core *)

Section DashboardBehind.
Context (J : JsonText) (duration : Z -> string) (Sprint_other : json -> string) (order : gset string -> list string).
Notation dashboard := (Dashboard.dispatch Sprint_other order).

Ltac handler_cases := repeat match goal with
  | |- context [match unmarshal_raw ?d ?b ?z with _ => _ end] => destruct (unmarshal_raw d b z) as [? [?|]]
  | |- context [match guard ?a ?b ?c with _ => _ end] => destruct (guard a b c) eqn:?
  | |- context [match ?m !! ?k with _ => _ end] => destruct (m !! k)
  | |- context [match first_some ?f ?l with _ => _ end] => destruct (first_some f l)
  end.

Lemma guard_object what req r : guard Sprint_other what req = Some r -> object_body r.
Proof. unfold guard. repeat case_match; intros [= <-]; by eexists. Qed.

Lemma dashboard_objects req s : object_body (dashboard req s).1.
Proof.
  assert (forall path h, (forall req s, object_body (h req s).1) -> object_body (with_id path h req s).1) as HW.
  { intros path h Hh. unfold with_id. destruct (split_on "/" path) as [|? [|? [|? [|? [|]]]]]; try apply Hh; by eexists. }
  assert (object_body (handleLogin order req s).1 /\ object_body (handleListUsers order req s).1 /\
    object_body (handleCreateUser req s).1) as (H1 & H2 & H3).
  { unfold handleLogin, handleListUsers, handleCreateUser. handler_cases; split_and!; by eexists. }
  assert (forall req s, object_body (handleGetUser Sprint_other req s).1 /\ object_body (handleUpdateUser Sprint_other req s).1 /\
    object_body (handleGetSettings Sprint_other req s).1 /\ object_body (handleUpdateSettings Sprint_other req s).1) as H4.
  { intros q t. unfold handleGetUser, handleUpdateUser, handleGetSettings, handleUpdateSettings.
    handler_cases; split_and!; cbn [fst]; first [by eapply guard_object|by eexists]. }
  unfold Dashboard.dispatch. cbv zeta. repeat case_if; first [done|by eexists|apply HW; intros; apply H4].
Qed.

(** A body that is a JSON string is none of the handlers' structs. *)
Lemma string_body {A} (fs : list (field A)) b z : unmarshal_raw (dec_struct fs) (Some (JStr b)) z = (z, Some type_error).
Proof. done. Qed.

Lemma string_body_changes_nothing req s b :
  GoWorker.Body req = Some (JStr b) -> (dashboard req s).2 = s.
Proof.
  intros Hb.
  assert (forall path h, (forall p, (h (GoWorker.set_Params p req) s).2 = s) -> (with_id path h req s).2 = s) as HW.
  { intros path h Hh. unfold with_id. destruct (split_on "/" path) as [|? [|? [|? [|? [|]]]]]; try apply Hh; done. }
  assert (forall p, GoWorker.Body (GoWorker.set_Params p req) = Some (JStr b)) as Hbp by done.
  assert ((handleLogin order req s).2 = s /\ (handleCreateUser req s).2 = s) as [H1 H2].
  { unfold handleLogin, handleCreateUser. by rewrite Hb, !string_body. }
  assert (forall p, let q := GoWorker.set_Params p req in
    (handleGetUser Sprint_other q s).2 = s /\ (handleUpdateUser Sprint_other q s).2 = s /\
    (handleGetSettings Sprint_other q s).2 = s /\ (handleUpdateSettings Sprint_other q s).2 = s) as H3.
  { intros p q. unfold handleGetUser, handleUpdateUser, handleGetSettings, handleUpdateSettings. subst q.
    rewrite Hbp, !string_body. handler_cases; done. }
  unfold Dashboard.dispatch. cbv zeta. repeat case_if; try done; apply HW; intros p; apply (H3 p).
Qed.

(** The dashboard's own access check never runs behind the core.  The
    claims the core sends have no "sub", so the handlers take every caller
    for one without an identity and let him through: whoever the gateway
    admits to the route of a profile - any role of the route will do - reads
    the profile of any user, his own or not.  And since the bodies the core
    sends are no JSON objects, no admitted request at all changes the
    stores: nobody logs in, is created or updated. *)
Theorem dashboard_open_and_frozen clk uuid d rq w reply res (s : stores) :
  plain_dispatcher d -> registry_ok (circuits w) ->
  Lookup (routes d) (Method rq) (Path rq) = Some res ->
  admitted_checks (clk 1%nat) d rq (lr_entry res) (routeKey (Method rq) (re_path (lr_entry res))) w ->
  wire w = (s, []) ->
  Dispatch (TR := worker_process J dashboard) (json_enc J duration) clk uuid d rq w = Ret reply ->
  wire (wd (final reply)) = (s, []) /\
  forall id u, Method rq = "GET" -> Path rq = "/api/users/" +:+ id -> path_id id -> is_ascii (Path rq) = true ->
    users s !! id = Some u ->
    response reply = Some (Gateway.mkResponse 200 ∅ (jprint J (enc_response (answer 200 (enc_public (toPublic u)))))
                             (initCorrelationID uuid rq).1).
Proof.
  intros Hd Hok HL Hadm Hw HD.
  destruct (worker_exchange J duration dashboard clk uuid d rq w reply res s dashboard_objects Hd Hok HL Hadm Hw HD)
    as (seen & (S1 & S2 & [b S3] & S4) & HA).
  pose proof (string_body_changes_nothing seen s b S3) as Hs.
  destruct (dashboard seen s) as [a s'] eqn:Ea. cbn [snd] in Hs. subst s'.
  destruct HA as (HR & _ & Hwire & _). split; [done|].
  intros id u Hm Hp Hid Hasc Hu. rewrite HR. do 4 f_equal.
  rewrite Hm, coerce_ascii in S1 by done. rewrite coerce_ascii, Hp in S2 by done.
  rewrite (dispatch_user _ _ id) in Ea by done. rewrite S1 in Ea. change (String.eqb "GET" "GET") with true in Ea. cbv iota in Ea.
  unfold handleGetUser in Ea.
  assert (guard Sprint_other "access your own profile" (GoWorker.set_Params {["id" := id]} seen) = None) as Hg.
  { unfold guard. cbn [GoWorker.Params GoWorker.set_Params GoWorker.Claims]. rewrite lookup_singleton_eq.
    change (default "" (Some id)) with id. destruct Hid as (_ & Hne & _). rewrite (proj2 (String.eqb_neq _ _) Hne).
    by rewrite S4 by by_compute. }
  assert (param_id (GoWorker.set_Params {["id" := id]} seen) = id) as Hpid.
  { unfold param_id. cbn [GoWorker.Params GoWorker.set_Params]. by rewrite lookup_singleton_eq. }
  rewrite Hg, Hpid, Hu in Ea. by injection Ea as <-.
Qed.
End DashboardBehind.

(** ** A text for the witnesses

    Not JSON's, but one that every document can be read back from. *)
Fixpoint to_tree (j : json) : gen_tree (string + (bool + Z)) :=
  match j with
  | JNull => GenNode 0 []
  | JBool b => GenLeaf (inr (inl b))
  | JInt z => GenLeaf (inr (inr z))
  | JFloat s => GenNode 1 [GenLeaf (inl s)]
  | JStr s => GenLeaf (inl s)
  | JArr l => GenNode 2 (map to_tree l)
  | JObj ms => GenNode 3 (map (fun m => GenNode 4 [GenLeaf (inl m.1); to_tree m.2]) ms)
  end.
Fixpoint of_tree (t : gen_tree (string + (bool + Z))) : json :=
  match t with
  | GenLeaf (inl s) => JStr s
  | GenLeaf (inr (inl b)) => JBool b
  | GenLeaf (inr (inr z)) => JInt z
  | GenNode 1 [GenLeaf (inl s)] => JFloat s
  | GenNode 2 l => JArr (map of_tree l)
  | GenNode 3 l => JObj (map (fun t => match t with
                                       | GenNode 4 [GenLeaf (inl k); t'] => (k, of_tree t')
                                       | _ => ("", JNull)
                                       end) l)
  | _ => JNull
  end.
Fixpoint of_to_tree (j : json) : of_tree (to_tree j) = j.
Proof.
  destruct j as [|b|z|s|s|l|ms]; try reflexivity.
  - cbn [to_tree of_tree]. f_equal. induction l as [|j l IH]; [done|]. cbn [map]. by rewrite of_to_tree, IH.
  - cbn [to_tree of_tree]. f_equal. induction ms as [|[k j] ms IH]; [done|]. cbn [map fst snd]. by rewrite of_to_tree, IH.
Qed.

Lemma jmap_id j : jmap (fun s => s) j = j.
Proof.
  revert j. fix IH 1. intros [|b|z|s|s|l|ms]; try reflexivity; cbn [jmap]; f_equal.
  - induction l as [|j l IHl]; [done|]. cbn [map]. by rewrite IH, IHl.
  - induction ms as [|[k j] ms IHl]; [done|]. cbn [map fst snd]. by rewrite IH, IHl.
Qed.

Lemma tree_text_ok j : of_tree <$> countable.decode (of_bits (bits (encode (to_tree j)))) = Some (jmap (fun s => s) j).
Proof. rewrite of_bits_bits, decode_encode, jmap_id. cbn. by rewrite of_to_tree. Qed.
Definition tree_text : JsonText :=
  mkJsonText (fun j => bits (encode (to_tree j))) (fun b => of_tree <$> countable.decode (of_bits b)) (fun s => s)
    tree_text_ok (fun s _ => eq_refl).

(** ** Witnesses

    The dashboard's route of a profile, and its user "2" asking for user "1". *)
Definition dashboard_dispatcher : Dispatcher (H:=AccessLog) :=
  (NewDispatcher NewAccessLogLifecycle
     (mkDispatcherConfig (NewRouteMap [mkRouteEntry "/api/users/:id" "GET" "go:api" ["admin"; "user"] "" "api"])
        (Some (fun _ => Ok (mkClaims "2" ["user"]))) None (30 * second)) []).1.
Definition dashboard_world : World (T:=proc (S:=stores)) (H:=AccessLog) :=
  mkWorld (NewRegistry demo_config false) (Some NewWorkerDrainer) None demo_heap (init, []) (mkAccessLog ∅ []).
Definition peek : GatewayRequest := ask "/api/users/1" "Bearer two".
Definition peek_reply :=
  Dispatch (TR := worker_process tree_text (Dashboard.dispatch (fun _ => "") elements)) (json_enc tree_text (fun _ => "30s"))
    (clock 5) "uuid" dashboard_dispatcher peek dashboard_world.
Definition peek_res : LookupResult :=
  default (mkLookupResult (mkRouteEntry "" "" "" [] "" "") None) (Lookup (routes dashboard_dispatcher) "GET" "/api/users/1").

Lemma peek_lookup : Lookup (routes dashboard_dispatcher) "GET" "/api/users/1" = Some peek_res.
Proof. vm_compute. reflexivity. Qed.
Lemma peek_admitted :
  admitted_checks 5 dashboard_dispatcher peek (lr_entry peek_res) (routeKey "GET" (re_path (lr_entry peek_res))) dashboard_world.
Proof.
  split_and!.
  - vm_compute. reflexivity.
  - intros dr [= <-]. vm_compute. reflexivity.
  - right. exists (fun _ => Ok (mkClaims "2" ["user"])), (mkClaims "2" ["user"]), "user".
    split_and!; [reflexivity|vm_compute; discriminate|reflexivity|by_compute..].
  - left. vm_compute. reflexivity.
Qed.

Lemma answers_lose_their_status_witness :
  match peek_reply with
  | Ret reply => exists a, response reply = Some (Gateway.mkResponse 200 ∅ (jprint tree_text (enc_response a)) "uuid")
  | Panic _ => False
  end.
Proof.
  assert (match peek_reply with Ret _ => true | Panic _ => false end = true) as HT by (vm_compute; reflexivity).
  destruct peek_reply as [reply|] eqn:E; [|discriminate HT].
  destruct (answers_lose_their_status tree_text (fun _ => "30s") (Dashboard.dispatch (fun _ => "") elements) (clock 5) "uuid"
    dashboard_dispatcher peek dashboard_world reply peek_res init) as (seen & _ & HA).
  - apply dashboard_objects.
  - split; reflexivity.
  - apply NewRegistry_ok.
  - exact peek_lookup.
  - exact peek_admitted.
  - reflexivity.
  - exact E.
  - destruct (Dashboard.dispatch _ _ seen init) as [a s']. exists a. exact (proj1 HA).
Defined.

Lemma dashboard_open_and_frozen_witness :
  match peek_reply with
  | Ret reply => wire (wd (final reply)) = (init, []) /\
      respBody <$> response reply
        = Some (jprint tree_text (enc_response (answer 200 (enc_public (mkPublic "1" "Admin User" "admin@dashboard.local" "admin")))))
  | Panic _ => False
  end.
Proof.
  assert (match peek_reply with Ret _ => true | Panic _ => false end = true) as HT by (vm_compute; reflexivity).
  destruct peek_reply as [reply|] eqn:E; [|discriminate HT].
  destruct (dashboard_open_and_frozen tree_text (fun _ => "30s") (fun _ => "") elements (clock 5) "uuid"
    dashboard_dispatcher peek dashboard_world reply peek_res init) as [HW HP].
  - split; reflexivity.
  - apply NewRegistry_ok.
  - exact peek_lookup.
  - exact peek_admitted.
  - reflexivity.
  - exact E.
  - split; [exact HW|]. rewrite (HP "1" (mkUser "1" "Admin User" "admin@dashboard.local" "admin" "admin123")); try reflexivity.
    exact path_id_one.
Defined.
