(* ===== verification/Runtime.v ===== *)
(** * Language runtimes ([core/infrastructure/runtime/runtime.go])

    Which runtime a command needs, whether it is provisioned, and the choice
    of the provisioning routine.  The routines themselves download files and
    run installers: they are the operations of the class [Installer], with
    the file-system look-ups [Glob] and [LookPath]. *)
From S2P Require Import Prelude Unicode GoStrings.
Local Open Scope string_scope.
Local Open Scope list_scope.

(** ** [strings.Fields] *)

Definition emit_field (cur : string) (fs : list string) : list string :=
  if is_empty cur then fs else cur :: fs.

(** [skip] counts the bytes left of a white-space rune. *)
Fixpoint fields_loop (cur : string) (skip : nat) (s : string) : list string :=
  match s with
  | EmptyString => emit_field cur []
  | String c s' =>
      match skip with
      | S k => fields_loop cur k s'
      | O =>
          match space_width s with
          | O => fields_loop (cur +:+ String c "") 0 s'
          | S k => emit_field cur (fields_loop "" k s')
          end
      end
  end.
Definition Fields (s : string) : list string := fields_loop "" 0 s.

(** ** Runtimes *)
Definition Runtime := string.
Definition RuntimeNode : Runtime := "node".
Definition RuntimePython : Runtime := "python".
Definition RuntimeGo : Runtime := "go".
Definition RuntimeUnknown : Runtime := "unknown".

(** A missing key of [defaultVersions] reads as the empty string. *)
Definition DefaultVersion (r : Runtime) : string :=
  if String.eqb r RuntimeNode then "20"
  else if String.eqb r RuntimePython then "3.12"
  else if String.eqb r RuntimeGo then "1.21"
  else "".

Definition Detect (command : string) : Runtime :=
  if String.eqb command "" then RuntimeUnknown
  else match Fields command with
       | [] => RuntimeUnknown
       | first :: _ =>
           if String.eqb first "node" then RuntimeNode
           else if bool_decide (first ∈ ["python"; "python3"; "pypy"]) then RuntimePython
           else if String.eqb first "go" then RuntimeGo
           else if bool_decide (first ∈ ["npm"; "npx"]) then RuntimeNode
           else if bool_decide (first ∈ ["pip"; "uv"]) then RuntimePython
           else if has_prefix first "node" then RuntimeNode
           else if has_prefix first "python" then RuntimePython
           else if has_prefix first "go" then RuntimeGo
           else RuntimeUnknown
       end.

(** [Getenv] is the environment; the first field of a command of blanks does
    not exist. *)
Definition NeedsProvisioning (Getenv : string -> string) (command : string) : outcome bool :=
  if String.eqb (Getenv "VYX_SKIP_RUNTIME") "1" then Ret false
  else if String.eqb command "" then Ret false
  else match Fields command with
       | [] => Panic "index out of range [0] with length 0"
       | first :: _ => Ret (negb (String.eqb first "go"))
       end.

(** ** Provisioning

    [Glob] answers with the matches of [filepath.Glob] on the joined path
    elements; none when the pattern is malformed. *)
Class Installer (I : Type) := {
  ensureNode : string -> string -> I -> option error * I;
  ensurePython : string -> string -> I -> option error * I;
  LookPath : string -> I -> result string;
  Glob : list string -> I -> list string;
}.

Section Provision.
Context {I : Type} `{Installer I}.

Definition unsupported (rt : Runtime) : error := NewErr ("unsupported runtime: " +:+ rt).
Definition go_missing : error := NewErr "go not found in PATH".

Definition ensureGo (i : I) : option error :=
  match LookPath "go" i with Err _ => Some go_missing | Ok _ => None end.

Definition Ensure (rt : Runtime) (version vyxDir : string) (i : I) : option error * I :=
  let vyxDir := if String.eqb vyxDir "" then ".vyx" else vyxDir in
  let targetVersion := if String.eqb version "" then DefaultVersion rt else version in
  if String.eqb rt RuntimeNode then ensureNode targetVersion vyxDir i
  else if String.eqb rt RuntimePython then ensurePython targetVersion vyxDir i
  else if String.eqb rt RuntimeGo then (ensureGo i, i)
  else (Some (unsupported rt), i).

(** The directory in the messages is [filepath.Join] of the elements, here
    for a [vyxDir] that is a clean path. *)
Definition resolve_glob (pattern : list string) (name : string) (i : I) : result string :=
  match Glob pattern i with
  | [] => Err (NewErr (name +:+ " not installed in " +:+ join "/" (take 3 pattern)))
  | m :: _ => Ok m
  end.
Definition Resolve (rt : Runtime) (vyxDir : string) (i : I) : result string :=
  let vyxDir := if String.eqb vyxDir "" then ".vyx" else vyxDir in
  if String.eqb rt RuntimeNode then
    resolve_glob [vyxDir; "runtimes"; "node"; "v*"; "bin"; "node"] "node" i
  else if String.eqb rt RuntimePython then
    resolve_glob [vyxDir; "runtimes"; "python"; "cpython-*"; "bin"; "python3"] "python" i
  else if String.eqb rt RuntimeGo then
    match LookPath "go" i with Err _ => Err go_missing | Ok p => Ok p end
  else Err (unsupported rt).
End Provision.

(** ** Facts *)

Example fields_of_command :
  Fields ("  node" +:+ String "009" ("server.js" +:+ String "194" (String "160" "x ")))
  = ["node"; "server.js"; "x"].
Proof. reflexivity. Qed.

(** The guard of the callers: a command whose runtime is known has a first
    field, so [NeedsProvisioning] does not panic on it. *)
Lemma known_runtime_no_panic (Getenv : string -> string) (command : string) :
  Detect command <> RuntimeUnknown -> exists b, NeedsProvisioning Getenv command = Ret b.
Proof.
  unfold Detect, NeedsProvisioning. destruct (String.eqb _ "1"); [by eexists|].
  destruct (String.eqb command ""); [by eexists|].
  destruct (Fields command) as [|first fs]; [done|by eexists].
Qed.
