(* ===== verification/Provision.v ===== *)
(** * Installing language runtimes ([core/infrastructure/runtime/runtime.go])

    The routines behind [Runtime.Installer]: fetching fnm and uv, running
    them, and looking for what they installed.  Files, HTTP and processes are
    the class [Shell]; what os/exec does with a relative program name and a
    working directory is written out in [run_command]. *)
From S2P Require Import Prelude GoStrings FilePath Ipc Runtime.
Local Open Scope string_scope.
Local Open Scope list_scope.
Local Open Scope Z_scope.

Class Shell (W : Type) := {
  goos : string;
  goarch : string;
  TempDir : string;
  Environ : list string;
  Stat : string -> W -> option error;
  IsNotExist : error -> bool;
  GlobPath : string -> W -> list string;
  Look : string -> W -> result string;
  MkdirAll : string -> W -> option error * W;
  NewRequest : string -> option error;
  Get : string -> W -> result (Z * bytes) * W;
  CreateFile : string -> W -> option error * W;
  CopyTo : string -> bytes -> W -> option error * W;
  Chmod : string -> Z -> W -> option error * W;
  Remove : string -> W -> W;
  (** A process: program, working directory, arguments, environment ([None]
      for the inherited one); its output and how it ended. *)
  Exec : string -> string -> list string -> option (list string) -> W -> string * option error * W;
}.
Class ShellLaws (W : Type) `{!Shell W} := {
  program_at : string -> W -> Prop;
  Exec_missing prog dir args env w :
    ~ program_at prog w -> exists out err, Exec prog dir args env w = (out, Some err, w);
}.

Definition fnmDownloadBaseURL := "https://github.com/Schniz/fnm/releases/latest/download".
Definition uvDownloadBaseURL := "https://github.com/astral-sh/uv/releases/latest/download".

Section Install.
Context {W : Type} `{SH : !Shell W}.

(** A program path that is relative is looked up from the directory the
    process starts in. *)
Definition program_path (prog dir : string) : string :=
  if IsAbs prog || String.eqb dir "" then prog else Join [dir; prog].
Definition run_command (prog dir : string) (args : list string) (env : option (list string)) (w : W)
    : string * option error * W := Exec (program_path prog dir) dir args env w.

Definition getOSAndArch : string * string :=
  let arch := if String.eqb goarch "x86_64" then "amd64" else goarch in
  let arch := if String.eqb arch "aarch64" then "arm64" else arch in
  (goos, arch).

Definition downloadFile (url targetPath : string) (w : W) : option error * W :=
  match MkdirAll (Dir targetPath) w with
  | (Some err, w) => (Some (WrapErr "create directory: " err ""), w)
  | (None, w) =>
      match NewRequest url with
      | Some err => (Some (WrapErr "create request: " err ""), w)
      | None =>
          match Get url w with
          | (Err err, w) => (Some (WrapErr "download: " err ""), w)
          | (Ok (status, body), w) =>
              if negb (status =? 200) then (Some (NewErr ("download failed: status " +:+ pretty status)), w)
              else
                match CreateFile targetPath w with
                | (Some err, w) => (Some (WrapErr "create file: " err ""), w)
                | (None, w) =>
                    match CopyTo targetPath body w with
                    | (Some err, w) => (Some (WrapErr "write: " err ""), w)
                    | (None, w) => Chmod targetPath 493 w
                    end
                end
          end
      end
  end.

Definition downloadZip (url targetDir binaryName : string) (w : W) : option error * W :=
  match MkdirAll targetDir w with
  | (Some err, w) => (Some (WrapErr "create directory: " err ""), w)
  | (None, w) =>
      let tmpFile := Join [TempDir; "vyx-" +:+ binaryName +:+ ".zip"] in
      match downloadFile url tmpFile w with
      | (Some err, w) => (Some err, w)
      | (None, w) =>
          match Look "unzip" w with
          | Err err => (Some (WrapErr "unzip not found in PATH: " err ""), Remove tmpFile w)
          | Ok unzipPath =>
              match run_command unzipPath "" ["-o"; "-q"; tmpFile; "-d"; targetDir] None w with
              | (out, Some err, w) => (Some (WrapErr "unzip: " err (": " +:+ out)), Remove tmpFile w)
              | (_, None, w) =>
                  let binaryPath := Join [targetDir; binaryName] in
                  let found :=
                    match Stat binaryPath w with
                    | None => Some binaryPath
                    | Some _ => head (GlobPath (Join [targetDir; "*"; binaryName]) w)
                    end in
                  match found with
                  | None => (Some (NewErr ("binary " +:+ binaryName +:+ " not found after extract")), Remove tmpFile w)
                  | Some path => let '(err, w) := Chmod path 488 w in (err, Remove tmpFile w)
                  end
              end
          end
      end
  end.

Definition downloadFNM (targetDir : string) : W -> option error * W :=
  let '(osName, arch) := getOSAndArch in
  downloadZip (fnmDownloadBaseURL +:+ "/" +:+ ("fnm-" +:+ osName +:+ "-" +:+ arch +:+ ".zip")) targetDir "fnm".
Definition downloadUV (targetDir : string) : W -> option error * W :=
  let '(osName, arch) := getOSAndArch in
  let filename :=
    if String.eqb osName "windows" then "uv-" +:+ arch +:+ "-pc-windows-msvc.exe"
    else if String.eqb osName "darwin" then "uv-" +:+ arch +:+ "-apple-darwin"
    else "uv-" +:+ arch +:+ "-unknown-linux-" +:+ arch in
  let uvPath := Join [targetDir; "uv"] in
  downloadFile (uvDownloadBaseURL +:+ "/" +:+ filename)
    (if String.eqb osName "windows" then uvPath +:+ ".exe" else uvPath).

(** The tool is fetched when its file does not exist; another error of
    [os.Stat] counts as there. *)
Definition fetch_missing (binary what : string) (download : W -> option error * W) (w : W) : option error * W :=
  match Stat binary w with
  | Some err =>
      if IsNotExist err then
        match download w with
        | (Some err, w) => (Some (WrapErr ("download " +:+ what +:+ ": ") err ""), w)
        | (None, w) => (None, w)
        end
      else (None, w)
  | None => (None, w)
  end.

Definition runtimes_dir (vyxDir : string) : string := Join [vyxDir; "runtimes"].
Definition node_binary (version vyxDir : string) : string :=
  Join [Join [runtimes_dir vyxDir; "node"]; "v" +:+ version; "bin"; "node"].
Definition fnm_binary (vyxDir : string) : string := Join [Join [runtimes_dir vyxDir; "fnm"]; "fnm"].
Definition uv_binary (vyxDir : string) : string := Join [Join [runtimes_dir vyxDir; "uv"]; "uv"].

Definition ensureNode (version vyxDir : string) (w : W) : option error * W :=
  let runtimesDir := runtimes_dir vyxDir in
  let nodeDir := Join [runtimesDir; "node"] in
  let fnmBinary := fnm_binary vyxDir in
  match fetch_missing fnmBinary "fnm" (downloadFNM (Join [runtimesDir; "fnm"])) w with
  | (Some err, w) => (Some err, w)
  | (None, w) =>
      match Stat (node_binary version vyxDir) w with
      | None => (None, w)
      | Some _ =>
          match run_command fnmBinary runtimesDir ["install"; version; "--fnm-dir"; nodeDir] None w with
          | (out, Some err, w) => (Some (WrapErr "fnm install: " err (": " +:+ out)), w)
          | (_, None, w) =>
              match run_command fnmBinary runtimesDir ["use"; version; "--fnm-dir"; nodeDir] None w with
              | (out, Some err, w) => (Some (WrapErr "fnm use: " err (": " +:+ out)), w)
              | (_, None, w) => (None, w)
              end
          end
      end
  end.

Definition ensurePython (version vyxDir : string) (w : W) : option error * W :=
  let runtimesDir := runtimes_dir vyxDir in
  let pythonDir := Join [runtimesDir; "python"] in
  let uvBinary := uv_binary vyxDir in
  match fetch_missing uvBinary "uv" (downloadUV (Join [runtimesDir; "uv"])) w with
  | (Some err, w) => (Some err, w)
  | (None, w) =>
      match run_command uvBinary runtimesDir ["python"; "install"; version]
              (Some (Environ ++ ["UV_PYTHON_INSTALL_DIR=" +:+ pythonDir])) w with
      | (out, Some err, w) => (Some (WrapErr "uv python install: " err (": " +:+ out)), w)
      | (_, None, w) =>
          let matches :=
            match GlobPath (Join [pythonDir; "cpython-" +:+ version +:+ "*"; "bin"; "python3"]) w with
            | [] => GlobPath (Join [pythonDir; "cpython-*"; "bin"; "python3"]) w
            | l => l
            end in
          match matches with
          | _ :: _ => (None, w)
          | [] => (Some (NewErr ("python " +:+ version +:+ " not found after install")), w)
          end
      end
  end.

#[export] Instance shell_installer : Installer W := {
  Runtime.ensureNode := ensureNode;
  Runtime.ensurePython := ensurePython;
  Runtime.LookPath := Look;
  Runtime.Glob pattern w := GlobPath (Join pattern) w;
}.
End Install.

(** ** Facts *)

Section Facts.
Context {W : Type} `{SH : !Shell W} `{LAWS : !ShellLaws W}.

(** The world after fetching the tool of a runtime. *)
Definition fetched (rt : Runtime) (vyxDir : string) (w : W) : option error * W :=
  if String.eqb rt RuntimeNode
  then fetch_missing (fnm_binary vyxDir) "fnm" (downloadFNM (Join [runtimes_dir vyxDir; "fnm"])) w
  else fetch_missing (uv_binary vyxDir) "uv" (downloadUV (Join [runtimes_dir vyxDir; "uv"])) w.
(** The program [Ensure] runs then. *)
Definition launched (rt : Runtime) (vyxDir : string) : string :=
  program_path (if String.eqb rt RuntimeNode then fnm_binary vyxDir else uv_binary vyxDir) (runtimes_dir vyxDir).

Lemma Ensure_runs_launched rt version vyxDir w :
  vyxDir <> "" -> rt ∈ [RuntimeNode; RuntimePython] ->
  let '(err, w1) := fetched rt vyxDir w in
  ~ program_at (launched rt vyxDir) w1 ->
  (rt = RuntimeNode -> Stat (node_binary (if String.eqb version "" then "20" else version) vyxDir) w1 <> None) ->
  exists e, Ensure rt version vyxDir w = (Some e, w1).
Proof.
  intros Hne Hrt. unfold Ensure. rewrite (proj2 (String.eqb_neq _ _) Hne). unfold fetched, launched.
  apply elem_of_cons in Hrt as [->|Hrt]; [|apply list_elem_of_singleton in Hrt as ->].
  - change (String.eqb RuntimeNode RuntimeNode) with true. cbv iota. cbn [shell_installer Runtime.ensureNode].
    change (DefaultVersion RuntimeNode) with "20". unfold ensureNode.
    destruct (fetch_missing _ _ _ w) as [[e|] w1]; intros Hp Hs; [by exists e|].
    destruct (Stat _ w1); [|by destruct (Hs eq_refl)]. unfold run_command.
    destruct (Exec_missing _ (runtimes_dir vyxDir)
      ["install"; if String.eqb version "" then "20" else version; "--fnm-dir"; Join [runtimes_dir vyxDir; "node"]] None _ Hp)
      as (out & err & ->). by eexists.
  - change (String.eqb RuntimePython RuntimeNode) with false. change (String.eqb RuntimePython RuntimePython) with true.
    cbv iota. cbn [shell_installer Runtime.ensurePython]. unfold ensurePython.
    destruct (fetch_missing _ _ _ w) as [[e|] w1]; intros Hp Hs; [by exists e|]. unfold run_command.
    edestruct (Exec_missing (program_path (uv_binary vyxDir) (runtimes_dir vyxDir))) as (out & err & ->); [exact Hp|]. by eexists.
Qed.

(** With the default directory nothing is ever installed.  The tool is
    fetched to ".vyx/runtimes/fnm/fnm" and run under that relative name with
    ".vyx/runtimes" as the working directory, where the system looks for
    ".vyx/runtimes/.vyx/runtimes/fnm/fnm": so long as nobody puts a program
    there, [Ensure] fails for Node, unless the version is there already, and
    for Python always. *)
Theorem default_dir_never_installs (version vyxDir : string) (w : W) :
  vyxDir = ".vyx" ->
  launched RuntimeNode vyxDir = ".vyx/runtimes/.vyx/runtimes/fnm/fnm" /\
  launched RuntimePython vyxDir = ".vyx/runtimes/.vyx/runtimes/uv/uv" /\
  (let '(_, w1) := fetched RuntimeNode vyxDir w in
   ~ program_at ".vyx/runtimes/.vyx/runtimes/fnm/fnm" w1 ->
   Stat (node_binary (if String.eqb version "" then "20" else version) vyxDir) w1 <> None ->
   exists e, Ensure RuntimeNode version vyxDir w = (Some e, w1)) /\
  (let '(_, w1) := fetched RuntimePython vyxDir w in
   ~ program_at ".vyx/runtimes/.vyx/runtimes/uv/uv" w1 ->
   exists e, Ensure RuntimePython version vyxDir w = (Some e, w1)).
Proof.
  intros ->. assert (launched RuntimeNode ".vyx" = ".vyx/runtimes/.vyx/runtimes/fnm/fnm") as H1 by (vm_compute; reflexivity).
  assert (launched RuntimePython ".vyx" = ".vyx/runtimes/.vyx/runtimes/uv/uv") as H2 by (vm_compute; reflexivity).
  split; [done|]. split; [done|]. split.
  - pose proof (Ensure_runs_launched RuntimeNode version ".vyx" w) as HE.
    destruct (fetched RuntimeNode ".vyx" w) as [err w1]. rewrite H1 in HE. intros Hp Hs. apply HE; [done|set_solver|done|done].
  - pose proof (Ensure_runs_launched RuntimePython version ".vyx" w) as HE.
    destruct (fetched RuntimePython ".vyx" w) as [err w1]. rewrite H2 in HE. intros Hp. apply HE; [done|set_solver|done|done].
Qed.
End Facts.

(** ** A machine, and a witness *)

Definition unzip : string := "/usr/bin/unzip".
#[export] Instance machine : Shell (gset string) := {
  goos := "linux"; goarch := "amd64"; TempDir := "/tmp"; Environ := [];
  Stat p w := if decide (p ∈ w) then None else Some (Sentinel "os.ErrNotExist" "no such file or directory");
  IsNotExist _ := true;
  GlobPath _ _ := [];
  Look p w := if String.eqb p "unzip" then Ok unzip else Err (NewErr "executable file not found in $PATH");
  MkdirAll _ w := (None, w);
  NewRequest _ := None;
  Get _ w := (Ok (200, of_string "PK"), w);
  CreateFile p w := (None, {[p]} ∪ w);
  CopyTo _ _ w := (None, w);
  Chmod _ _ w := (None, w);
  Remove p w := w ∖ {[p]};
  Exec prog dir args env w :=
    if String.eqb prog unzip then
      match args with [_; _; _; _; target] => ("", None, {[Join [target; "fnm"]]} ∪ w) | _ => ("usage", Some (NewErr "exit status 10"), w) end
    else if decide (prog ∈ w) then ("", None, w) else ("", Some (NewErr "no such file or directory"), w);
}.
#[export, refine] Instance machine_laws : ShellLaws (gset string) := { program_at p w := p = unzip \/ p ∈ w }.
Proof.
  intros prog dir args env w Hp. cbn. rewrite (proj2 (String.eqb_neq _ _)), decide_False by tauto. by do 2 eexists.
Defined.

Lemma default_dir_never_installs_witness :
  exists e w1, Ensure RuntimeNode "" ".vyx" (∅ : gset string) = (Some e, w1) /\ ".vyx/runtimes/fnm/fnm" ∈ w1.
Proof.
  destruct (default_dir_never_installs "" ".vyx" (∅ : gset string) eq_refl) as (_ & _ & HN & _).
  destruct (fetched RuntimeNode ".vyx" (∅ : gset string)) as [err w1] eqn:E.
  assert (w1 = (fetched RuntimeNode ".vyx" (∅ : gset string)).2) as -> by (by rewrite E). clear E.
  destruct HN as [e HE].
  - intros [HX|HX]; [discriminate HX|]. apply (bool_decide_pack _) in HX. vm_compute in HX. exact HX.
  - vm_compute. discriminate.
  - exists e, (fetched RuntimeNode ".vyx" (∅ : gset string)).2. split; [exact HE|].
    apply (bool_decide_unpack _). vm_compute. exact I.
Defined.
