(* ===== verification/Lifecycle.v ===== *)
(** * The lifecycle service ([core/application/lifecycle/service.go])

    The service moves workers through their states: it spawns, stops,
    restarts and marks them, saves every change in the repository and
    publishes an event for it.  Its collaborators are interfaces in the code
    and classes here: the process manager ([WorkerManager]), the IPC transport
    ([Endpoints]), the heartbeat receiver ([ReceiverStarter]) and the runtime
    installer ([Installer]).  The repository, the drainer and the pool manager
    are the modelled ones.

    An operation is one atomic step, except that what happens while [Drain]
    waits - the calls of other goroutines on the drainer, the end of the
    context, the turns of the waiting goroutine - is its argument [during].  Of
    the context of a call only its identity is passed on: to the loop that
    [RestartLoop] starts, which outlives the call. *)
From S2P Require Import Prelude GoStrings Worker Pool PoolManager Drainer Runtime.
Local Open Scope string_scope.
Local Open Scope list_scope.
Local Open Scope Z_scope.
Local Open Scope go_scope.

(** The methods of [ipc.Transport] the service calls. *)
Class Endpoints (T : Type) := {
  Register : string -> T -> option error * T;
  Deregister : string -> T -> option error * T;
}.
(** [lifecycle.ReceiverStarter]. *)
Class ReceiverStarter (C : Type) := { RestartLoop : Context -> string -> C -> C }.

Record SpawnWorkerConfig := mkSpawnConfig {
  cfg_ID : string;
  cfg_Command : string;
  cfg_Args : list string;
  cfg_WorkDir : string;
  cfg_ShutdownTimeout : Z;
  cfg_RuntimeVersion : string;
  cfg_VyxDir : string;
}.

Definition resolveVyxDir (Getenv : string -> string) (vyxDir : string) : string :=
  if negb (String.eqb vyxDir "") then vyxDir
  else let envDir := Getenv "VYX_DIR" in
       if negb (String.eqb envDir "") then envDir else ".vyx".

Section Service.
Context {M T C I : Type} `{WorkerManager M} `{Endpoints T} `{ReceiverStarter C} `{Installer I}.
Context (Getenv : string -> string).

(** [Service] and what it points to; [published] are the events given to the
    publisher, in order.  A nil collaborator is [None]. *)
Record Service := mkService {
  hp : heap;
  repo : Repository.MemoryWorkerRepository;
  manager : M;
  published : list Event;
  transport : option T;
  receiver : option C;
  drainer : option WorkerDrainer;
  poolMgr : option Manager;
  installer : I;
}.

Definition with_store (hr : heap * Repository.MemoryWorkerRepository) (s : Service) : Service :=
  mkService hr.1 hr.2 (manager s) (published s) (transport s) (receiver s) (drainer s) (poolMgr s)
    (installer s).
Definition with_manager (m : M) (s : Service) : Service :=
  mkService (hp s) (repo s) m (published s) (transport s) (receiver s) (drainer s) (poolMgr s)
    (installer s).
Definition with_events (es : list Event) (s : Service) : Service :=
  mkService (hp s) (repo s) (manager s) es (transport s) (receiver s) (drainer s) (poolMgr s)
    (installer s).
Definition with_transport (t : option T) (s : Service) : Service :=
  mkService (hp s) (repo s) (manager s) (published s) t (receiver s) (drainer s) (poolMgr s)
    (installer s).
Definition with_receiver (c : option C) (s : Service) : Service :=
  mkService (hp s) (repo s) (manager s) (published s) (transport s) c (drainer s) (poolMgr s)
    (installer s).
Definition with_drainer (d : option WorkerDrainer) (s : Service) : Service :=
  mkService (hp s) (repo s) (manager s) (published s) (transport s) (receiver s) d (poolMgr s)
    (installer s).
Definition with_installer (i : I) (s : Service) : Service :=
  mkService (hp s) (repo s) (manager s) (published s) (transport s) (receiver s) (drainer s)
    (poolMgr s) i.

(** ** The statements of the service *)

Definition find (id : string) (s : Service) : option loc * Service :=
  let '(p, hr) := Repository.FindByID id (hp s, repo s) in (p, with_store hr s).
Definition save (p : loc) (s : Service) : Service :=
  with_store (Repository.Save p (hp s, repo s)) s.
Definition modify (p : loc) (f : Worker -> Worker) (s : Service) : Service :=
  with_store (write (hp s) p (f (deref (hp s) p)), repo s) s.

Definition publish (now : Z) (eventType : EventType) (p : loc) (details : string) (s : Service)
    : Service :=
  let w := deref (hp s) p in
  with_events (published s ++ [mkEvent eventType (ID w) (wstate w) now details]) s.

(** [w.State = st; w.UpdatedAt = time.Now()]. *)
Definition enter (st : State) (now : Z) (p : loc) : Service -> Service :=
  modify p (fun w => set_UpdatedAt now (set_State st w)).

(** A change of state with its save and its event: [clk 0] is written,
    [clk 1] is the event's. *)
Definition settle (st : State) (clk : nat -> Z) (ty : EventType) (p : loc) (details : string)
    (s : Service) : Service :=
  publish (clk 1%nat) ty p details (save p (enter st (clk 0%nat) p s)).

Definition spawn_process (p : loc) (s : Service) : option error * Service :=
  let '(e, m) := Spawn (deref (hp s) p) (manager s) in (e, with_manager m s).
Definition stop_process (id : string) (s : Service) : option error * Service :=
  let '(e, m) := Stop id (manager s) in (e, with_manager m s).

(** The defaulted timeout of [StopWorker] and [RestartWorker]; its passing is
    an event of [during], or the end of it. *)
Definition shutdown_timeout (w : Worker) : Z :=
  if 0 <? ShutdownTimeout w then ShutdownTimeout w else 30 * second.

(** [MarkDraining] and [Drain]; the calls of [during] after [Drain] returned
    are not made. *)
Definition drain (id : string) (during : list DrainEvent) (s : Service) : outcome (option error * Service) :=
  match drainer s with
  | None => Ret (None, s)
  | Some d =>
      match Drain id during (MarkDraining id d) with
      | Panic e => Panic e
      | Ret (err, _, d') => Ret (err, with_drainer (Some d') s)
      end
  end.

(** ** The operations *)

(** The provisioning of [SpawnWorkerWithReplicas]: the command to run. *)
Definition provision (cfg : SpawnWorkerConfig) (s : Service) : outcome (result string * Service) :=
  let vyxDir := resolveVyxDir Getenv (cfg_VyxDir cfg) in
  let rt := Detect (cfg_Command cfg) in
  if String.eqb rt RuntimeUnknown then Ret (Ok (cfg_Command cfg), s)
  else
    needs ← NeedsProvisioning Getenv (cfg_Command cfg);
    if needs : bool then
      let rtVersion := if String.eqb (cfg_RuntimeVersion cfg) "" then DefaultVersion rt
                       else cfg_RuntimeVersion cfg in
      let '(err, i) := Ensure rt rtVersion vyxDir (installer s) in
      let s := with_installer i s in
      match err with
      | Some e => Ret (Err (WrapErr "ensure runtime: " e ""), s)
      | None =>
          match Resolve rt vyxDir i with
          | Err e => Ret (Err (WrapErr "resolve runtime: " e ""), s)
          | Ok resolvedPath => Ret (Ok (resolvedPath +:+ " " +:+ cfg_Command cfg), s)
          end
      end
    else Ret (Ok (cfg_Command cfg), s).

(** The worker literal; [clk 0] and [clk 1] are its two readings. *)
Definition new_worker (clk : nat -> Z) (cfg : SpawnWorkerConfig) (command : string) : Worker :=
  mkWorker (cfg_ID cfg) command (cfg_Args cfg) (cfg_WorkDir cfg) (cfg_RuntimeVersion cfg)
    StateStarting 0 0 (clk 0%nat) (clk 1%nat) (cfg_ShutdownTimeout cfg).

Definition from (n : nat) (clk : nat -> Z) : nat -> Z := fun i => clk (n + i)%nat.

Definition spawn_pool (clk : nat -> Z) (pm : Manager) (cfg : SpawnWorkerConfig) (replicas : Z)
    (strategy : string) (p : loc) (s : Service) : option error * Service :=
  let pm := RegisterPool (cfg_ID cfg) (mkManagerConfig replicas strategy 0) pm in
  let '(err, w) := SpawnWorkers clk (cfg_ID cfg) p (mkWorld (hp s) pm (manager s)) in
  (err, mkService (PoolManager.hp w) (repo s) (pr w) (published s) (transport s) (receiver s)
          (drainer s) (Some (mg w)) (installer s)).

(** What follows the registration: the processes of a pool, or one. *)
Definition start (clk : nat -> Z) (cfg : SpawnWorkerConfig) (replicas : Z) (strategy : string)
    (p : loc) (s : Service) : result loc * Service :=
  let single :=
    match spawn_process p s with
    | (Some e, s) =>
        (Err ErrSpawnFailed, settle StateStopped clk EventSpawned p (err_text e) s)
    | (None, s) =>
        let s := save p (modify p (set_UpdatedAt (clk 0%nat)) s) in
        (Ok p, publish (clk 1%nat) EventSpawned p "" s)
    end in
  match poolMgr s with
  | Some pm =>
      if 1 <? replicas then
        match spawn_pool (from 2 clk) pm cfg replicas strategy p s with
        | (Some e, s) =>
            (Err ErrSpawnFailed, settle StateStopped clk EventSpawned p (err_text e) s)
        | (None, s) =>
            (Ok p, publish (clk 0%nat) EventSpawned p
                     ("pool created with " +:+ itoa replicas +:+ " replicas") s)
        end
      else single
  | None => single
  end.

Definition SpawnWorkerWithReplicas (clk : nat -> Z) (cfg : SpawnWorkerConfig) (replicas : Z)
    (strategy : string) (s : Service) : outcome (result loc * Service) :=
  if String.eqb (cfg_Command cfg) "" then Ret (Err ErrInvalidCommand, s)
  else
    '(cmd, s) ← provision cfg s;
    match cmd with
    | Err e => Ret (Err e, s)
    | Ok command =>
        let '(p, h) := alloc (hp s) (new_worker clk cfg command) in
        let s := save p (with_store (h, repo s) s) in
        Ret (start (from 2 clk) cfg replicas strategy p s)
    end.

Definition SpawnWorker (clk : nat -> Z) (cfg : SpawnWorkerConfig) (s : Service)
    : outcome (result loc * Service) :=
  SpawnWorkerWithReplicas clk cfg 1 "round-robin" s.

Definition cleanup (id : string) (s : Service) : Service :=
  match drainer s with
  | None => s
  | Some d => with_drainer (Some (Cleanup id d)) s
  end.

Definition StopWorker (clk : nat -> Z) (during : list DrainEvent) (id : string) (s : Service)
    : outcome (option error * Service) :=
  match find id s with
  | (None, s) => Ret (Some ErrNotFound, s)
  | (Some p, s) =>
      '(err, s) ← drain id during s;
      let s := if err is Some _ then
                 publish (clk 0%nat) EventStopped p "drain timeout, proceeding to stop" s
               else s in
      match stop_process id s with
      | (Some e, s) => Ret (Some e, s)
      | (None, s) =>
          Ret (None, cleanup id (settle StateStopped (from 1 clk) EventStopped p "graceful stop" s))
      end
  end.

(** [now1], [now2] are the readings for [LastHeartbeat] and [UpdatedAt]. *)
Definition RecordHeartbeat (clk : nat -> Z) (id : string) (s : Service) : option error * Service :=
  match find id s with
  | (None, s) => (Some ErrNotFound, s)
  | (Some p, s) =>
      let s := modify p (fun w => set_UpdatedAt (clk 1%nat) (set_LastHeartbeat (clk 0%nat) w)) s in
      let s := if String.eqb (wstate (deref (hp s) p)) StateUnhealthy
               then modify p (set_State StateRunning) s else s in
      (None, save p (publish (clk 2%nat) EventHeartbeat p "" s))
  end.

Definition MarkUnhealthy (clk : nat -> Z) (id : string) (s : Service) : option error * Service :=
  match find id s with
  | (None, s) => (Some ErrNotFound, s)
  | (Some p, s) =>
      (None, save p (publish (clk 1%nat) EventUnhealthy p "missed heartbeat"
                       (enter StateUnhealthy (clk 0%nat) p s)))
  end.

Definition MarkRunning (clk : nat -> Z) (id : string) (s : Service) : option error * Service :=
  match find id s with
  | (None, s) => (Some ErrNotFound, s)
  | (Some p, s) =>
      if String.eqb (wstate (deref (hp s) p)) StateRunning then (None, s)
      else
        let s := modify p (fun w => set_UpdatedAt (clk 1%nat)
                   (set_LastHeartbeat (clk 0%nat) (set_State StateRunning w))) s in
        (None, save p (publish (clk 2%nat) EventRunning p "handshake complete" s))
  end.

(** [Deregister] and [Register] of the endpoint. *)
Definition recreate_endpoint (id : string) (s : Service) : option error * Service :=
  match transport s with
  | None => (None, s)
  | Some t =>
      let t := (Deregister id t).2 in
      let '(err, t) := Register id t in (err, with_transport (Some t) s)
  end.

Definition rearm (ctx : Context) (id : string) (s : Service) : Service :=
  match receiver s with
  | None => s
  | Some c => with_receiver (Some (RestartLoop ctx id c)) s
  end.

Definition RestartWorker (ctx : Context) (clk : nat -> Z) (during : list DrainEvent) (id : string) (s : Service)
    : outcome (option error * Service) :=
  match find id s with
  | (None, s) => Ret (Some ErrNotFound, s)
  | (Some p, s) =>
      let s := modify p (fun w => set_UpdatedAt (clk 0%nat)
                 (set_RestartCount (RestartCount w +64 1) (set_State StateRestarting w))) s in
      let s := publish (clk 1%nat) EventRestarting p "automatic restart" (save p s) in
      '(_, s) ← drain id during s;
      match stop_process id s with
      | (Some e, s) => Ret (Some e, s)
      | (None, s) =>
          match recreate_endpoint id s with
          | (Some e, s) =>
              Ret (Some ErrSpawnFailed,
                   settle StateStopped (from 2 clk) EventStopped p
                     ("restart failed: transport re-register: " +:+ err_text e) s)
          | (None, s) =>
              match spawn_process p s with
              | (Some e, s) =>
                  Ret (Some ErrSpawnFailed,
                       settle StateStopped (from 2 clk) EventStopped p
                         ("restart failed: " +:+ err_text e) s)
              | (None, s) =>
                  Ret (None, rearm ctx id (settle StateRunning (from 2 clk) EventRunning p
                                         "restarted successfully" s))
              end
          end
      end
  end.

(** [StopAll] and [RestartAll] are one loop over the copies of [FindAll];
    [act i] is the call for the [i]-th of them. *)
Fixpoint each_alive (act : nat -> string -> Service -> outcome (option error * Service))
    (i : nat) (workers : list loc) (lastErr : option error) (s : Service)
    : outcome (option error * Service) :=
  match workers with
  | [] => Ret (lastErr, s)
  | w :: ws =>
      if IsAlive (deref (hp s) w) then
        '(err, s) ← act i (ID (deref (hp s) w)) s;
        each_alive act (S i) ws (if err is Some e then Some e else lastErr) s
      else each_alive act (S i) ws lastErr s
  end.

(** [order] is the order in which the runtime ranges over the repository. *)
Definition all_alive (act : nat -> string -> Service -> outcome (option error * Service))
    (order : list string) (s : Service) : outcome (option error * Service) :=
  let '(workers, hr) := Repository.FindAll order (hp s, repo s) in
  each_alive act 0 workers None (with_store hr s).

Definition StopAll (clk : nat -> nat -> Z) (during : nat -> list DrainEvent) : list string -> Service ->
    outcome (option error * Service) :=
  all_alive (fun i => StopWorker (clk i) (during i)).
Definition RestartAll (ctx : Context) (clk : nat -> nat -> Z) (during : nat -> list DrainEvent) : list string -> Service ->
    outcome (option error * Service) :=
  all_alive (fun i => RestartWorker ctx (clk i) (during i)).

(** ** What the statements do to the repository and the events

    [view] is the repository as a map of values.  [stored] says that the
    repository owns its cells and files every worker under its identifier;
    [holds p w] that [p] is a pointer of the service's own, to [w]. *)
Definition view (s : Service) : gmap string Worker :=
  deref (hp s) <$> Repository.workers (repo s).

Definition stored (s : Service) : Prop := forall id p,
  Repository.workers (repo s) !! id = Some p -> (p < next (hp s))%nat /\ ID (deref (hp s) p) = id.

Record holds (p : loc) (w : Worker) (s : Service) : Prop := mkHolds {
  held_stored : stored s;
  held_alloc : (p < next (hp s))%nat;
  held_own : forall id, Repository.workers (repo s) !! id <> Some p;
  held_value : deref (hp s) p = w;
}.

(** [s'] differs from [s] in the heap only above the cells in use. *)
Definition extends (h h' : heap) : Prop :=
  (next h <= next h')%nat /\ forall q, (q < next h)%nat -> deref h' q = deref h q.

Lemma extends_refl h : extends h h.
Proof. done. Qed.
Lemma extends_trans h1 h2 h3 : extends h1 h2 -> extends h2 h3 -> extends h1 h3.
Proof. intros [? Ha] [? Hb]. split; [lia|]. intros q Hq. rewrite Hb, Ha by lia. done. Qed.
Lemma extends_alloc h w : extends h (alloc h w).2.
Proof. split; [simpl; lia|]. intros q Hq. apply deref_alloc_ne. lia. Qed.

(** Same repository and events, on a heap that extends the old one. *)
Record quiet (s s' : Service) : Prop := mkQuiet {
  quiet_heap : extends (hp s) (hp s');
  quiet_repo : repo s' = repo s;
  quiet_events : published s' = published s;
}.

Lemma quiet_refl s : quiet s s.
Proof. split; [apply extends_refl|done..]. Qed.
Lemma quiet_trans s1 s2 s3 : quiet s1 s2 -> quiet s2 s3 -> quiet s1 s3.
Proof. intros [? ? ?] [? ? ?]. split; [by eapply extends_trans|congruence..]. Qed.

Lemma extends_view (m : gmap string loc) h h' :
  extends h h' -> (forall id p, m !! id = Some p -> (p < next h)%nat) ->
  deref h' <$> m = deref h <$> m.
Proof. intros [_ He] Hm. apply map_fmap_ext. intros id p Hp. apply He. eauto. Qed.

Lemma quiet_stored s s' : quiet s s' -> stored s -> stored s'.
Proof.
  intros [[Hn He] Hr _] Hs id p. rewrite Hr. intros Hp. destruct (Hs _ _ Hp).
  split; [lia|]. by rewrite He by done.
Qed.
Lemma quiet_view s s' : quiet s s' -> stored s -> view s' = view s.
Proof.
  intros [He Hr _] Hs. unfold view. rewrite Hr. apply extends_view; [done|].
  intros id p Hp. by destruct (Hs _ _ Hp).
Qed.
Lemma quiet_holds s s' p w : quiet s s' -> holds p w s -> holds p w s'.
Proof.
  intros Hq [Hs Ha Ho Hv]. pose proof (quiet_stored _ _ Hq Hs). destruct Hq as [[Hn He] Hr _].
  split; [done|lia|by rewrite Hr|]. by rewrite He by done.
Qed.

(** A new cell is the service's own. *)
Lemma new_holds w s : stored s ->
  let '(p, h) := alloc (hp s) w in
  let s' := with_store (h, repo s) s in quiet s s' /\ holds p w s'.
Proof.
  intros Hs. cbn. assert (quiet s (with_store ((alloc (hp s) w).2, repo s) s)) as Hq.
  { split; [apply extends_alloc|done..]. }
  split; [exact Hq|]. split; [by eapply quiet_stored|simpl; lia| |apply (deref_alloc (hp s) w)].
  intros id Hid. simpl in Hid. destruct (Hs _ _ Hid). lia.
Qed.

Lemma find_spec id s : stored s ->
  match find id s with
  | (None, s') => s' = s /\ view s !! id = None
  | (Some p, s') => quiet s s' /\ drainer s' = drainer s /\ manager s' = manager s /\
      exists w, view s !! id = Some w /\ ID w = id /\ holds p w s'
  end.
Proof.
  intros Hs. unfold find, Repository.FindByID, view. rewrite lookup_fmap.
  destruct (Repository.workers (repo s) !! id) as [q|] eqn:E; simpl.
  - destruct (Hs _ _ E) as [Hq Hid]. pose proof (new_holds (deref (hp s) q) s Hs) as [Hqu Hh].
    split_and!; [exact Hqu|done|done|]. exists (deref (hp s) q). split_and!; [done|done|exact Hh].
  - split; [by destruct s|done].
Qed.

Lemma modify_spec p f w s : holds p w s ->
  holds p (f w) (modify p f s) /\ view (modify p f s) = view s.
Proof.
  intros [Hs Ha Ho <-]. unfold modify.
  assert (forall q id, Repository.workers (repo s) !! id = Some q -> q <> p) as Hne.
  { intros q id Hq ->. by apply (Ho id). }
  split.
  - split; [|exact Ha|exact Ho|apply deref_write].
    intros id q Hq. cbn [with_store hp repo fst snd]. rewrite deref_write_ne by eauto. eauto.
  - unfold view. cbn [with_store hp repo fst snd]. apply map_fmap_ext.
    intros id q Hq. apply deref_write_ne. eauto.
Qed.

Lemma save_spec p w s : holds p w s ->
  holds p w (save p s) /\ view (save p s) = <[ID w := w]> (view s).
Proof.
  intros [Hs Ha Ho <-]. pose proof (extends_alloc (hp s) (deref (hp s) p)) as [Hnx Hk].
  assert (deref (hp (save p s)) (next (hp s)) = deref (hp s) p) as Hn by apply (deref_alloc (hp s)).
  change (alloc (hp s) (deref (hp s) p)).2 with (hp (save p s)) in *.
  assert (Repository.workers (repo (save p s))
    = <[ID (deref (hp s) p) := next (hp s)]> (Repository.workers (repo s))) as Hr by done.
  split.
  - split; unfold stored; rewrite ?Hr.
    + intros id q [[<- <-]|[? Hq]]%lookup_insert_Some.
      * split; [simpl; lia|]. by rewrite Hn.
      * destruct (Hs _ _ Hq). rewrite Hk by done. split; [lia|done].
    + lia.
    + intros id [[_ Hq]|[_ Hq]]%lookup_insert_Some; [lia|]. by apply (Ho id).
    + by apply Hk.
  - unfold view. rewrite Hr, fmap_insert. f_equal; [exact Hn|].
    apply map_fmap_ext. intros id q Hq. apply Hk. by destruct (Hs _ _ Hq).
Qed.

(** ** Events and repository *)

(** The state of a worker as its events tell it. *)
Definition hear (id : string) (st : option State) (e : Event) : option State :=
  if String.eqb (ev_workerID e) id then Some (ev_state e) else st.
Definition last_state (id : string) (es : list Event) : option State := foldl (hear id) None es.

Definition told (s : Service) (id : string) : Prop :=
  wstate <$> view s !! id = last_state id (published s).

Definition consistent (s : Service) : Prop := stored s /\ forall id, told s id.

(** A change to the worker at [p] is under way. *)
Record pending (p : loc) (w : Worker) (s : Service) : Prop := mkPending {
  pending_holds : holds p w s;
  pending_others : forall id, id <> ID w -> told s id;
}.

Lemma last_state_snoc id es e : last_state id (es ++ [e]) = hear id (last_state id es) e.
Proof. unfold last_state. by rewrite foldl_app. Qed.

Lemma quiet_told s s' id : quiet s s' -> stored s -> told s id -> told s' id.
Proof. intros Hq Hs. unfold told. by rewrite (quiet_view _ _ Hq Hs), (quiet_events _ _ Hq). Qed.
Lemma quiet_consistent s s' : quiet s s' -> consistent s -> consistent s'.
Proof. intros Hq [Hs Ht]. split; [by eapply quiet_stored|]. intros id. by eapply quiet_told. Qed.
Lemma quiet_pending s s' p w : quiet s s' -> pending p w s -> pending p w s'.
Proof.
  intros Hq [Hh Ho]. split; [by eapply quiet_holds|]. intros id Hid.
  eapply quiet_told; [done|by destruct Hh|auto].
Qed.
Lemma consistent_pending p w s : consistent s -> holds p w s -> pending p w s.
Proof. intros [_ Ht] Hh. split; auto. Qed.

Lemma modify_pending p f w s : ID (f w) = ID w -> pending p w s -> pending p (f w) (modify p f s).
Proof.
  intros Hf [Hh Ho]. destruct (modify_spec p f w s Hh) as [Hh' Hv]. split; [done|].
  intros id. rewrite Hf. intros Hid. unfold told. rewrite Hv. by apply Ho.
Qed.
Lemma save_pending p w s : pending p w s ->
  pending p w (save p s) /\ view (save p s) !! ID w = Some w.
Proof.
  intros [Hh Ho]. destruct (save_spec p w s Hh) as [Hh' Hv].
  rewrite Hv, lookup_insert_eq. split; [|done]. split; [done|].
  intros id Hid. unfold told. rewrite Hv, lookup_insert_ne by done. by apply Ho.
Qed.

Lemma publish_holds now ty p d q w s : holds q w s -> holds q w (publish now ty p d s).
Proof. by intros [? ? ? ?]. Qed.

(** An event about a worker whose stored state is the one it carries. *)
Lemma publish_consistent now ty p d w s : pending p w s ->
  wstate <$> view s !! ID w = Some (wstate w) -> consistent (publish now ty p d s).
Proof.
  intros [Hh Ho] Hv. split; [by destruct Hh|]. intros id. unfold told.
  change (wstate <$> view s !! id = last_state id
    (published s ++ [mkEvent ty (ID (deref (hp s) p)) (wstate (deref (hp s) p)) now d])).
  rewrite last_state_snoc, (held_value _ _ _ Hh). unfold hear. cbn [ev_workerID ev_state].
  destruct (String.eqb_spec (ID w) id) as [<-|Hne]; [done|]. by apply Ho.
Qed.

(** The two orders of saving and publishing in the code. *)
Lemma commit now ty p d w s : pending p w s -> consistent (publish now ty p d (save p s)).
Proof.
  intros Hp. destruct (save_pending _ _ _ Hp) as [Hp' Hv].
  eapply publish_consistent; [done|]. by rewrite Hv.
Qed.
Lemma commit_published now ty p d w s : pending p w s -> consistent (save p (publish now ty p d s)).
Proof.
  intros Hp. replace (save p (publish now ty p d s)) with (publish now ty p d (save p s));
    [by eapply commit|].
  pose proof (pending_holds _ _ _ Hp) as Hh. destruct (save_spec p w s Hh) as [Hh' _].
  unfold publish at 1. rewrite (held_value _ _ _ Hh').
  unfold publish. by rewrite (held_value _ _ _ Hh).
Qed.

Lemma settle_consistent st clk ty p d w s : pending p w s -> consistent (settle st clk ty p d s).
Proof.
  intros Hp. apply (commit _ _ _ _ (set_UpdatedAt (clk 0%nat) (set_State st w))).
  by apply (modify_pending p (fun w => set_UpdatedAt (clk 0%nat) (set_State st w)) w).
Qed.

(** ** The collaborators *)

Lemma drain_quiet id during s err s' : drain id during s = Ret (err, s') -> quiet s s'.
Proof.
  unfold drain. destruct (drainer s) as [d|]; [|by intros [= <- <-]].
  destruct (Drain _ _ _) as [[[e rest] d']|]; [|done]. by intros [= <- <-].
Qed.
Lemma stop_process_quiet id s : quiet s (stop_process id s).2.
Proof. unfold stop_process. by destruct (Stop _ _). Qed.
Lemma spawn_process_quiet p s : quiet s (spawn_process p s).2.
Proof. unfold spawn_process. by destruct (Spawn _ _). Qed.
Lemma recreate_endpoint_quiet id s : quiet s (recreate_endpoint id s).2.
Proof.
  unfold recreate_endpoint. destruct (transport s); [|done]. by destruct (Register _ _).
Qed.
Lemma rearm_quiet ctx id s : quiet s (rearm ctx id s).
Proof. unfold rearm. by destruct (receiver s). Qed.
Lemma cleanup_quiet id s : quiet s (cleanup id s).
Proof. unfold cleanup. by destruct (drainer s). Qed.
Lemma provision_quiet cfg s r s' : provision cfg s = Ret (r, s') -> quiet s s'.
Proof.
  unfold provision. case_if; [by intros [= <- <-]|].
  destruct (NeedsProvisioning _ _) as [[]|]; simpl; [|by intros [= <- <-]|done].
  destruct (Ensure _ _ _ _) as [[e|] i]; [by intros [= <- <-]|].
  by destruct (Resolve _ _ _); intros [= <- <-].
Qed.

Lemma spawn_loop_extends clk prefix c n i h p m :
  let '(_, (h', _, _)) := spawn_loop clk prefix c n i h p m in extends h h'.
Proof.
  revert i h p m. induction n as [|n IH]; intros i h p m; cbn [spawn_loop]; [apply extends_refl|].
  destruct (alloc _ _) as [q h1] eqn:E. 
  assert (extends h h1) as Hx.
  { replace h1 with (alloc h (set_ID (instanceID prefix (Z.of_nat i)) (deref h c))).2; [apply extends_alloc|].
    by rewrite E. }
  destruct (Spawn _ _) as [[e|] m1]; [done|].
  specialize (IH (S i) h1 (AddWorker h1 q (clk (2 * i)%nat) (clk (2 * i + 1)%nat) p) m1).
  destruct (spawn_loop _ _ _ _ _ _ _ _) as [e [[h' p'] m']]. by eapply extends_trans.
Qed.

(** ** The operations keep repository and events consistent *)

Lemma RegisterPool_World_hp clk prefix p w e w' :
  SpawnWorkers clk prefix p w = (e, w') -> extends (PoolManager.hp w) (PoolManager.hp w').
Proof.
  unfold SpawnWorkers. destruct (configs _ !! _) as [cfg|]; [|intros [= <- <-]; apply extends_refl].
  destruct (pools _ !! _) as [pl|]; [|intros [= <- <-]; apply extends_refl].
  assert (forall count e w', (let '(err, (h, p', m)) :=
      spawn_loop clk prefix p (Z.to_nat count) 0 (PoolManager.hp w) pl (pr w) in
      (err, mkWorld h (set_pool prefix p' (mg w)) m)) = (e, w') ->
      extends (PoolManager.hp w) (PoolManager.hp w')) as Hloop.
  { intros count e1 w1. pose proof (spawn_loop_extends clk prefix p (Z.to_nat count) 0
      (PoolManager.hp w) pl (pr w)) as He.
    destruct (spawn_loop _ _ _ _ _ _ _ _) as [e2 [[h p'] m]]. by intros [= <- <-]. }
  case_if; [case_if; [intros [= <- <-]; apply extends_refl|apply Hloop]|apply Hloop].
Qed.

Lemma spawn_pool_quiet clk pm cfg replicas strategy p s :
  quiet s (spawn_pool clk pm cfg replicas strategy p s).2.
Proof.
  unfold spawn_pool. destruct (SpawnWorkers _ _ _ _) as [e w] eqn:E. split; [|done..].
  by eapply RegisterPool_World_hp in E.
Qed.

Lemma start_consistent clk cfg replicas strategy p w s : pending p w s -> wstate w = StateStarting ->
  view s !! ID w = Some w -> consistent (start clk cfg replicas strategy p s).2.
Proof.
  intros Hp Hst Hv. unfold start.
  assert (consistent (match spawn_process p s with
    | (Some e, s) => (Err ErrSpawnFailed, settle StateStopped clk EventSpawned p (err_text e) s)
    | (None, s) =>
        let s := save p (modify p (set_UpdatedAt (clk 0%nat)) s) in
        (Ok p, publish (clk 1%nat) EventSpawned p "" s)
    end).2) as Hsingle.
  { pose proof (quiet_pending _ _ _ _ (spawn_process_quiet p s) Hp) as Hp'.
    destruct (spawn_process p s) as [[e|] s']; cbn [snd] in *; [by eapply settle_consistent|].
    apply (commit _ _ _ _ (set_UpdatedAt (clk 0%nat) w)).
    by apply (modify_pending p (set_UpdatedAt (clk 0%nat)) w). }
  destruct (poolMgr s) as [pm|]; [|done]. case_if; [|done].
  pose proof (spawn_pool_quiet (from 2 clk) pm cfg replicas strategy p s) as Hq.
  destruct (spawn_pool _ _ _ _ _ _ _) as [[e|] s']; cbn [snd] in *.
  - eapply settle_consistent, quiet_pending; done.
  - eapply publish_consistent; [by eapply quiet_pending|].
    rewrite (quiet_view _ _ Hq); [by rewrite Hv|by destruct Hp as [[]]].
Qed.

Lemma Spawn_consistent clk cfg replicas strategy s r s' : consistent s ->
  SpawnWorkerWithReplicas clk cfg replicas strategy s = Ret (r, s') -> consistent s'.
Proof.
  intros Hc. unfold SpawnWorkerWithReplicas. case_if; [by intros [= <- <-]|].
  destruct (provision cfg s) as [[cmd s1]|] eqn:E; simpl; [|done].
  pose proof (quiet_consistent _ _ (provision_quiet _ _ _ _ E) Hc) as Hc1.
  destruct cmd as [command|e]; [|by intros [= <- <-]].
  set (w := new_worker clk cfg command). pose proof (new_holds w s1 (proj1 Hc1)) as Hn.
  cbn in Hn. destruct Hn as [Hq Hh]. intros Hs'.
  assert (pending (next (hp s1)) w (with_store ((alloc (hp s1) w).2, repo s1) s1)) as Hp.
  { apply consistent_pending; [by eapply quiet_consistent|done]. }
  apply save_pending in Hp as [Hp Hv].
  pose proof (start_consistent (from 2 clk) cfg replicas strategy _ _ _ Hp eq_refl Hv) as Hst.
  apply (f_equal (fun o => match o with Ret x => x.2 | Panic _ => s' end)) in Hs'.
  cbn [snd] in Hs'. rewrite <-Hs'. exact Hst.
Qed.

(** What an operation that starts with [find] has in hand. *)
Lemma find_pending id s p s' : consistent s -> find id s = (Some p, s') ->
  consistent s' /\ exists w, ID w = id /\ view s !! id = Some w /\ view s' = view s /\ pending p w s'.
Proof.
  intros Hc E. pose proof (find_spec id s (proj1 Hc)) as Hf. rewrite E in Hf.
  destruct Hf as (Hq & _ & _ & w & Hv & Hid & Hh). assert (consistent s') as Hc' by by eapply quiet_consistent.
  split; [done|]. exists w. split_and!; [done|done|by apply quiet_view; [|apply Hc]|].
  by apply consistent_pending.
Qed.
Lemma find_none id s s' : consistent s -> find id s = (None, s') -> s' = s.
Proof. intros Hc E. pose proof (find_spec id s (proj1 Hc)) as Hf. rewrite E in Hf. by destruct Hf. Qed.

Lemma Stop_consistent clk during id s r s' : consistent s ->
  StopWorker clk during id s = Ret (r, s') -> consistent s'.
Proof.
  intros Hc. unfold StopWorker. destruct (find id s) as [[p|] s1] eqn:E.
  - destruct (find_pending _ _ _ _ Hc E) as (Hc1 & w & Hid & Hv & Hview & Hp).
    destruct (drain id during s1) as [[err s2]|] eqn:Ed; simpl; [|done].
    pose proof (drain_quiet _ _ _ _ _ Ed) as Hq.
    set (s3 := if err is Some _ then _ else s2).
    assert (consistent s3 /\ pending p w s3) as [Hc3 Hp3].
    { assert (consistent s3) as Hc3.
      { unfold s3. destruct err; [|by eapply quiet_consistent].
        eapply publish_consistent; [by eapply quiet_pending|].
        by rewrite (quiet_view _ _ Hq (proj1 Hc1)), Hview, Hid, Hv. }
      split; [done|]. apply consistent_pending; [done|].
      assert (holds p w s2) as Hh2 by (eapply quiet_holds; [done|by destruct Hp]).
      unfold s3. destruct err; [by apply publish_holds|done]. }
    pose proof (stop_process_quiet id s3) as Hq4.
    destruct (stop_process id s3) as [[e|] s4]; intros [= <- <-]; cbn [snd] in Hq4.
    + by eapply quiet_consistent.
    + eapply quiet_consistent; [apply cleanup_quiet|]. eapply settle_consistent.
      by eapply quiet_pending.
  - intros [= <- <-]. by rewrite (find_none _ _ _ Hc E).
Qed.

Lemma Heartbeat_consistent clk id s : consistent s -> consistent (RecordHeartbeat clk id s).2.
Proof.
  intros Hc. unfold RecordHeartbeat. destruct (find id s) as [[p|] s1] eqn:E; cbn [snd];
    [|by rewrite (find_none _ _ _ Hc E)].
  destruct (find_pending _ _ _ _ Hc E) as (_ & w & _ & _ & _ & Hp).
  apply (modify_pending p (fun w => set_UpdatedAt (clk 1%nat) (set_LastHeartbeat (clk 0%nat) w))) in Hp; [|done].
  case_if; [|by eapply commit_published].
  eapply commit_published. by apply (modify_pending p (set_State StateRunning)).
Qed.

Lemma Unhealthy_consistent clk id s : consistent s -> consistent (MarkUnhealthy clk id s).2.
Proof.
  intros Hc. unfold MarkUnhealthy. destruct (find id s) as [[p|] s1] eqn:E; cbn [snd];
    [|by rewrite (find_none _ _ _ Hc E)].
  destruct (find_pending _ _ _ _ Hc E) as (_ & w & _ & _ & _ & Hp).
  eapply commit_published.
  by apply (modify_pending p (fun w => set_UpdatedAt (clk 0%nat) (set_State StateUnhealthy w)) w).
Qed.

Lemma Running_consistent clk id s : consistent s -> consistent (MarkRunning clk id s).2.
Proof.
  intros Hc. unfold MarkRunning. destruct (find id s) as [[p|] s1] eqn:E; cbn [snd];
    [|by rewrite (find_none _ _ _ Hc E)].
  destruct (find_pending _ _ _ _ Hc E) as (Hc1 & w & _ & _ & _ & Hp). case_if; [done|].
  eapply commit_published. by apply (modify_pending p (fun w => set_UpdatedAt (clk 1%nat)
    (set_LastHeartbeat (clk 0%nat) (set_State StateRunning w))) w).
Qed.

Lemma Restart_consistent ctx clk during id s r s' : consistent s ->
  RestartWorker ctx clk during id s = Ret (r, s') -> consistent s'.
Proof.
  intros Hc. unfold RestartWorker. destruct (find id s) as [[p|] s1] eqn:E;
    [|intros [= <- <-]; by rewrite (find_none _ _ _ Hc E)].
  destruct (find_pending _ _ _ _ Hc E) as (_ & w & _ & _ & _ & Hp).
  set (f := fun w => set_UpdatedAt (clk 0%nat) (set_RestartCount (RestartCount w +64 1)
                       (set_State StateRestarting w))).
  apply (modify_pending p f w) in Hp; [|done]. fold f.
  set (s2 := publish _ _ _ _ _). assert (consistent s2) as Hc2 by by eapply commit.
  assert (holds p (f w) s2) as Hh2.
  { apply publish_holds. apply save_pending in Hp as [Hp _]. by destruct Hp. }
  destruct (drain id during s2) as [[err s3]|] eqn:Ed; simpl; [|done].
  pose proof (drain_quiet _ _ _ _ _ Ed) as Hq3.
  pose proof (stop_process_quiet id s3) as Hq4.
  destruct (stop_process id s3) as [[e|] s4]; cbn [snd] in Hq4.
  { intros [= <- <-]. eapply quiet_consistent; [eapply quiet_trans; [exact Hq3|exact Hq4]|done]. }
  pose proof (recreate_endpoint_quiet id s4) as Hq5.
  assert (pending p (f w) s2) as Hp2 by by apply consistent_pending.
  destruct (recreate_endpoint id s4) as [[e|] s5]; cbn [snd] in Hq5.
  { intros [= <- <-]. eapply settle_consistent, quiet_pending; [|done].
    by do 2 (eapply quiet_trans; [done|]). }
  pose proof (spawn_process_quiet p s5) as Hq6.
  assert (quiet s2 (spawn_process p s5).2) as Hq by by do 3 (eapply quiet_trans; [done|]).
  destruct (spawn_process p s5) as [[e|] s6]; cbn [snd] in Hq; intros [= <- <-].
  - by eapply settle_consistent, quiet_pending.
  - eapply quiet_consistent; [apply rearm_quiet|]. by eapply settle_consistent, quiet_pending.
Qed.

(** ** Runs of the service *)

Inductive Call :=
  | CSpawn (clk : nat -> Z) (cfg : SpawnWorkerConfig) (replicas : Z) (strategy : string)
  | CStop (clk : nat -> Z) (during : list DrainEvent) (id : string)
  | CHeartbeat (clk : nat -> Z) (id : string)
  | CUnhealthy (clk : nat -> Z) (id : string)
  | CRunning (clk : nat -> Z) (id : string)
  | CRestart (ctx : Context) (clk : nat -> Z) (during : list DrainEvent) (id : string)
  | CStopAll (clk : nat -> nat -> Z) (during : nat -> list DrainEvent) (order : list string)
  | CRestartAll (ctx : Context) (clk : nat -> nat -> Z) (during : nat -> list DrainEvent) (order : list string).

Definition call (c : Call) (s : Service) : outcome Service :=
  match c with
  | CSpawn clk cfg replicas strategy => snd <$> SpawnWorkerWithReplicas clk cfg replicas strategy s
  | CStop clk during id => snd <$> StopWorker clk during id s
  | CHeartbeat clk id => Ret (RecordHeartbeat clk id s).2
  | CUnhealthy clk id => Ret (MarkUnhealthy clk id s).2
  | CRunning clk id => Ret (MarkRunning clk id s).2
  | CRestart ctx clk during id => snd <$> RestartWorker ctx clk during id s
  | CStopAll clk during order => snd <$> StopAll clk during order s
  | CRestartAll ctx clk during order => snd <$> RestartAll ctx clk during order s
  end.

Fixpoint calls (cs : list Call) (s : Service) : outcome Service :=
  match cs with
  | [] => Ret s
  | c :: cs' => s' ← call c s; calls cs' s'
  end.

Lemma FindAll_spec order s : stored s ->
  let '(ws, hr) := Repository.FindAll order (hp s, repo s) in
  let s' := with_store hr s in
  quiet s s' /\
  Forall2 (fun id q => exists w, view s !! id = Some w /\ holds q w s')
    (filter (fun id => is_Some (view s !! id)) order) ws.
Proof.
  revert s. induction order as [|id order IH]; intros s Hs; cbn [Repository.FindAll].
  { split; [destruct s; apply quiet_refl|constructor]. }
  pose proof (find_spec id s Hs) as Hf. unfold find in Hf.
  destruct (Repository.FindByID id (hp s, repo s)) as [[q|] hr] eqn:E.
  - destruct Hf as (Hq & _ & _ & w & Hv & _ & Hh).
    pose proof (IH (with_store hr s) (quiet_stored _ _ Hq Hs)) as IH'.
    replace (hp (with_store hr s), repo (with_store hr s)) with hr in IH' by by destruct hr.
    destruct (Repository.FindAll order hr) as [ws hr']. destruct IH' as [Hq' Hall].
    split; [by eapply quiet_trans|]. rewrite (quiet_view _ _ Hq Hs) in Hall.
    rewrite filter_cons_True by by rewrite Hv. constructor; [|done].
    exists w. split; [done|]. by eapply quiet_holds in Hh; [|exact Hq'].
  - destruct Hf as [Hst Hv]. rewrite filter_cons_False by (rewrite Hv; by intros [? ?]).
    assert (hr = (hp s, repo s)) as ->.
    { revert E. unfold Repository.FindByID. by destruct (Repository.workers (repo s) !! id); intros [= ?]. }
    by apply IH.
Qed.

Lemma each_alive_consistent act i ws lastErr s r s' :
  (forall i id s r s', consistent s -> act i id s = Ret (r, s') -> consistent s') ->
  consistent s -> each_alive act i ws lastErr s = Ret (r, s') -> consistent s'.
Proof.
  intros Hact. revert i lastErr s. induction ws as [|w ws IH]; intros i lastErr s Hc; cbn [each_alive].
  { by intros [= <- <-]. }
  case_if; [|by apply IH]. destruct (act _ _ _) as [[err s1]|] eqn:E; simpl; [|done].
  apply IH. by eapply Hact.
Qed.
Lemma all_alive_consistent act order s r s' :
  (forall i id s r s', consistent s -> act i id s = Ret (r, s') -> consistent s') ->
  consistent s -> all_alive act order s = Ret (r, s') -> consistent s'.
Proof.
  intros Hact Hc. unfold all_alive. pose proof (FindAll_spec order s (proj1 Hc)) as Hf.
  destruct (Repository.FindAll _ _) as [ws hr]. apply each_alive_consistent; [done|].
  by eapply quiet_consistent; [apply Hf|].
Qed.

Lemma call_consistent c s s' : consistent s -> call c s = Ret s' -> consistent s'.
Proof.
  intros Hc. destruct c; simpl; try (intros [[r s1] [Hcall ->]]%fmap_Ret); try (intros [= <-]).
  - by eapply Spawn_consistent.
  - by eapply Stop_consistent.
  - by apply Heartbeat_consistent.
  - by apply Unhealthy_consistent.
  - by apply Running_consistent.
  - by eapply Restart_consistent.
  - eapply all_alive_consistent, Hcall; [|done]. intros *. apply Stop_consistent.
  - eapply all_alive_consistent, Hcall; [|done]. intros *. apply Restart_consistent.
Qed.

Lemma calls_consistent cs s0 s :
  repo s0 = Repository.NewMemoryWorkerRepository -> published s0 = [] -> calls cs s0 = Ret s ->
  consistent s.
Proof.
  intros Hr Hp. assert (consistent s0) as Hc.
  { split; [intros x p; by rewrite Hr|]. intros x. unfold told, view. by rewrite Hr, Hp. }
  clear Hr Hp. revert s0 Hc. induction cs as [|c cs IH]; intros s0 Hc; cbn [calls].
  - by intros [= <-].
  - destruct (call c s0) as [s1|] eqn:E; simpl; [|done]. apply IH. by eapply call_consistent.
Qed.

(** C16: The events tell the states: whatever calls are made, in whatever order,
    with whatever failures of the processes, the endpoints, the installer and
    the pools, the last event published about a worker carries the state the
    repository has for it, and a worker no event was published about is not in
    the repository. *)
Theorem events_tell_states (cs : list Call) (s0 s : Service) (id : string) :
  repo s0 = Repository.NewMemoryWorkerRepository -> published s0 = [] -> calls cs s0 = Ret s ->
  wstate <$> view s !! id = last_state id (published s).
Proof. intros Hr Hp Hcs. by apply (calls_consistent cs s0). Qed.

(** ** Stopping every worker *)

Definition stopped (now : Z) (w : Worker) : Worker := set_UpdatedAt now (set_State StateStopped w).

Lemma modify_others p f w0 q w s :
  holds p w0 s -> holds q w s -> q <> p -> holds q w (modify p f s).
Proof.
  intros Hp [_ Ha Ho Hv] Hne. destruct (modify_spec p f w0 s Hp) as [[Hs _ _ _] _].
  split; [done|exact Ha|exact Ho|]. cbn [modify with_store hp fst]. by rewrite deref_write_ne.
Qed.
Lemma save_others p w0 q w s : holds p w0 s -> holds q w s -> holds q w (save p s).
Proof.
  intros Hp [_ Ha Ho Hv]. destruct (save_spec p w0 s Hp) as [[Hs _ _ _] _].
  pose proof (extends_alloc (hp s) (deref (hp s) p)) as [Hn Hk].
  change (alloc (hp s) (deref (hp s) p)).2 with (hp (save p s)) in *.
  split; [done|lia| |by rewrite Hk].
  intros id. change (Repository.workers (repo (save p s)))
    with (<[ID (deref (hp s) p) := next (hp s)]> (Repository.workers (repo s))).
  intros [[_ Hq]|[_ Hq]]%lookup_insert_Some; [lia|]. by apply (Ho id).
Qed.

Lemma settle_spec st clk ty p d w s : holds p w s ->
  let w' := set_UpdatedAt (clk 0%nat) (set_State st w) in
  let s' := settle st clk ty p d s in
  stored s' /\ view s' = <[ID w := w']> (view s) /\
  forall q v, holds q v s -> q <> p -> holds q v s'.
Proof.
  intros Hp w' s'. destruct (modify_spec p (fun w => set_UpdatedAt (clk 0%nat) (set_State st w)) w s Hp)
    as [Hp1 Hv1]. destruct (save_spec _ _ _ Hp1) as [Hp2 Hv2].
  split_and!; [exact (held_stored _ _ _ Hp2)| |].
  - change (view s') with (view (save p (enter st (clk 0%nat) p s))). unfold enter. by rewrite Hv2, Hv1.
  - intros q v Hq Hne. apply publish_holds. eapply save_others; [exact Hp1|]. by eapply modify_others.
Qed.

(** [StopWorker] as the repository sees it; the pointers handed out before
    still point at what they did. *)
Lemma StopWorker_spec clk during id s r s' : stored s ->
  StopWorker clk during id s = Ret (r, s') ->
  stored s' /\ (forall q v, holds q v s -> holds q v s') /\
  match view s !! id with
  | None => r = Some ErrNotFound /\ view s' = view s
  | Some w => match r with
              | None => view s' = <[id := stopped (clk 1%nat) w]> (view s)
              | Some _ => view s' = view s
              end
  end.
Proof.
  intros Hs. unfold StopWorker. pose proof (find_spec id s Hs) as Hf.
  destruct (find id s) as [[p|] s1] eqn:E.
  - destruct Hf as (Hq1 & _ & _ & w & Hv & Hid & Hp). rewrite Hv.
    assert (next (hp s) = p) as Hfresh.
    { revert E. unfold find, Repository.FindByID. by destruct (Repository.workers _ !! _); intros [= <- _]. }
    destruct (drain id during s1) as [[err s2]|] eqn:Ed; simpl; [|done].
    set (s3 := if err is Some _ then _ else s2).
    assert (quiet s1 s2) as Hq2 by by eapply drain_quiet.
    assert (stored s3 /\ view s3 = view s /\ forall q v, holds q v s1 -> holds q v s3)
      as (Hs3 & Hv3 & Hk3).
    { pose proof (quiet_view _ _ Hq1 Hs). pose proof (quiet_view _ _ Hq2 (held_stored _ _ _ Hp)).
      pose proof (quiet_stored _ _ Hq2 (held_stored _ _ _ Hp)).
      unfold s3. destruct err; split_and!; try done; [change (view (publish _ _ _ _ s2)) with (view s2);
        congruence| |congruence|]; intros q v Hqv; try apply publish_holds; by eapply quiet_holds. }
    pose proof (stop_process_quiet id s3) as Hq4.
    destruct (stop_process id s3) as [[e|] s4]; intros [= <- <-]; cbn [snd] in Hq4.
    + split_and!; [by eapply quiet_stored| |by rewrite (quiet_view _ _ Hq4)].
      intros q v Hqv. eapply quiet_holds; [done|]. apply Hk3. by eapply quiet_holds.
    + assert (holds p w s4) as Hp4 by (eapply quiet_holds; [done|]; auto).
      destruct (settle_spec StateStopped (from 1 clk) EventStopped p "graceful stop" w s4 Hp4)
        as (Hs5 & Hv5 & Hk5). pose proof (cleanup_quiet id (settle StateStopped (from 1 clk) EventStopped p
        "graceful stop" s4)) as Hq6.
      split_and!; [by eapply quiet_stored| |].
      * intros q v Hqv. eapply quiet_holds; [done|]. apply Hk5.
        -- eapply quiet_holds; [done|]. apply Hk3. by eapply quiet_holds.
        -- destruct Hqv. lia.
      * rewrite (quiet_view _ _ Hq6 Hs5), Hv5, (quiet_view _ _ Hq4 Hs3), Hv3, Hid. done.
  - destruct Hf as [-> Hv]. intros [= <- <-]. by rewrite Hv.
Qed.

Lemma stored_ID s id w : stored s -> view s !! id = Some w -> ID w = id.
Proof.
  intros Hs. unfold view. rewrite lookup_fmap.
  destruct (Repository.workers (repo s) !! id) as [q|] eqn:E; [|done]. intros [= <-]. by destruct (Hs _ _ E).
Qed.

(** What may become of a worker in a [StopAll] that returned [r]. *)
Definition after_StopAll (r : option error) (w : Worker) (w' : option Worker) : Prop :=
  if IsAlive w then (exists t, w' = Some (stopped t w)) \/ (r <> None /\ w' = Some w)
  else w' = Some w.

Definition copies (s : Service) (ids : list string) (ws : list loc) : Prop :=
  Forall2 (fun id q => exists w, view s !! id = Some w /\ holds q w s) ids ws.

Lemma copies_kept s s1 x ids ws :
  x ∉ ids -> (forall id, id <> x -> view s1 !! id = view s !! id) ->
  (forall q v, holds q v s -> holds q v s1) -> copies s ids ws -> copies s1 ids ws.
Proof.
  intros Hx Hv Hk Hall. induction Hall as [|id q ids ws (w & Hw & Hh) Hall IH]; constructor.
  - exists w. rewrite Hv by set_solver. auto.
  - apply IH. set_solver.
Qed.

Lemma stop_each_spec clk during ids ws i lastErr s r s' :
  stored s -> NoDup ids -> copies s ids ws ->
  each_alive (fun i => StopWorker (clk i) (during i)) i ws lastErr s = Ret (r, s') ->
  (lastErr <> None -> r <> None) /\
  forall id, if decide (id ∈ ids)
             then exists w, view s !! id = Some w /\ after_StopAll r w (view s' !! id)
             else view s' !! id = view s !! id.
Proof.
  revert ws i lastErr s. induction ids as [|x ids IH]; intros ws i lastErr s Hs Hnd Hall;
    inversion Hall as [|? q ? ws' (w & Hv & Hh) Hall']; subst.
  { intros [= <- <-]. split; [done|]. intros id. by rewrite decide_False by set_solver. }
  apply NoDup_cons in Hnd as [Hx Hnd]. cbn [each_alive]. rewrite (held_value _ _ _ Hh).
  destruct (IsAlive w) eqn:Ea.
  - rewrite (stored_ID _ _ _ Hs Hv). destruct (StopWorker _ _ _ _) as [[err s1]|] eqn:E; simpl; [|done].
    destruct (StopWorker_spec _ _ _ _ _ _ Hs E) as (Hs1 & Hk & Hview). rewrite Hv in Hview.
    assert (forall id, id <> x -> view s1 !! id = view s !! id) as Hne.
    { intros id ?. destruct err; rewrite Hview; [done|]. by rewrite lookup_insert_ne. }
    intros Hrun. apply IH in Hrun as [Hr Hspec]; [|done|done|by eapply copies_kept].
    split; [intros ?; apply Hr; by destruct err|]. intros id. specialize (Hspec id).
    destruct (decide (id = x)) as [->|].
    + rewrite decide_True by left. rewrite decide_False in Hspec by done.
      exists w. split; [done|]. unfold after_StopAll. rewrite Ea, Hspec.
      destruct err as [e|]; rewrite Hview; [right; split; [by apply Hr|done]|].
      left. rewrite lookup_insert_eq. by eexists.
    + rewrite Hne in Hspec by done. destruct (decide (id ∈ ids)).
      * by rewrite decide_True by set_solver.
      * by rewrite decide_False by set_solver.
  - intros Hrun. apply IH in Hrun as [Hr Hspec]; [|done..]. split; [done|]. intros id. specialize (Hspec id).
    destruct (decide (id = x)) as [->|].
    + rewrite decide_True by left. rewrite decide_False in Hspec by done.
      exists w. split; [done|]. unfold after_StopAll. by rewrite Ea, Hspec.
    + destruct (decide (id ∈ ids)).
      * by rewrite decide_True by set_solver.
      * by rewrite decide_False by set_solver.
Qed.

(** C17: [StopAll] after any run of the service stops the workers that are running
    and no others: each of them ends up stopped, or its process could not be
    stopped, and then the call reports an error; every other worker keeps the
    value it had.  So when the call reports no error no worker is running. *)
Theorem StopAll_stops (cs : list Call) (s0 s s' : Service) (clk : nat -> nat -> Z)
    (during : nat -> list DrainEvent) (order : list string) (r : option error) :
  repo s0 = Repository.NewMemoryWorkerRepository -> published s0 = [] -> calls cs s0 = Ret s ->
  Repository.range_order (Repository.workers (repo s)) order ->
  StopAll clk during order s = Ret (r, s') ->
  (forall id, match view s !! id with
              | None => view s' !! id = None
              | Some w => after_StopAll r w (view s' !! id)
              end) /\
  (r = None -> forall id w, view s' !! id = Some w -> IsAlive w = false).
Proof.
  intros Hr Hp Hcs Hord Hstop. assert (stored s) as Hs by by eapply (calls_consistent cs s0).
  assert (forall id, match view s !! id with
              | None => view s' !! id = None
              | Some w => after_StopAll r w (view s' !! id)
              end) as Hall.
  { revert Hstop. unfold StopAll, all_alive. pose proof (FindAll_spec order s Hs) as Hf.
    destruct (Repository.FindAll _ _) as [ws hr]. destruct Hf as [Hq Hf]. intros Hrun.
    assert (NoDup order) as Hnd by (rewrite Hord; apply NoDup_fst_map_to_list).
    assert (forall id, id ∈ filter (fun id => is_Some (view s !! id)) order
      <-> is_Some (view s !! id)) as Hin.
    { intros id. rewrite list_elem_of_filter.
      split; [tauto|]. intros Hsome. split; [done|]. rewrite Hord.
      unfold view in Hsome. rewrite lookup_fmap, fmap_is_Some in Hsome. destruct Hsome as [q Hq'].
      apply list_elem_of_fmap. exists (id, q). split; [done|]. by apply elem_of_map_to_list. }
    apply stop_each_spec with (ids := filter (fun id => is_Some (view s !! id)) order)
      in Hrun as [_ Hspec];
      [|by eapply quiet_stored|by apply NoDup_filter|by unfold copies; rewrite (quiet_view _ _ Hq Hs)].
    intros id. specialize (Hspec id). rewrite (quiet_view _ _ Hq Hs) in Hspec.
    destruct (view s !! id) as [w|] eqn:E.
    - rewrite decide_True in Hspec by (apply Hin; by eexists). by destruct Hspec as (w' & [= <-] & ?).
    - by rewrite decide_False in Hspec by (rewrite Hin, E; by intros [? ?]). }
  split; [done|]. intros -> id w Hw. specialize (Hall id). rewrite Hw in Hall.
  destruct (view s !! id) as [v|]; [|done]. unfold after_StopAll in Hall.
  destruct (IsAlive v) eqn:Ea; [|by injection Hall as ->].
  destruct Hall as [[t [= ->]]|[? _]]; done.
Qed.

(** ** What a restart leaves in the drainer *)

Definition draining_at (id : string) (s : Service) : Prop :=
  exists d, drainer s = Some d /\ IsDraining id d = true.

Lemma drain_marks id x during s err s' :
  Forall (fun op => op <> OCleanup id) (ops_of during) -> draining_at id s \/ (x = id /\ is_Some (drainer s)) ->
  drain x during s = Ret (err, s') -> draining_at id s'.
Proof.
  intros Hd Hs. unfold drain.
  assert (exists d, drainer s = Some d /\ IsDraining id (MarkDraining x d) = true) as (d & -> & Hm).
  { unfold IsDraining, MarkDraining. simpl. destruct (decide (x = id)) as [->|Hne].
    - destruct Hs as [(d & Hs & _)|[_ [d Hs]]]; exists d; (split; [done|]); by rewrite lookup_insert_eq.
    - destruct Hs as [(d & Hs & Hi)|[? _]]; [|done]. exists d. split; [done|]. by rewrite lookup_insert_ne. }
  destruct (Drain _ _ _) as [[[e rest] d']|] eqn:E; [|done]. intros [= <- <-].
  exists d'. split; [done|]. by eapply Drain_keeps_draining.
Qed.

Lemma same_drainer id s s' : drainer s' = drainer s -> draining_at id s -> draining_at id s'.
Proof. unfold draining_at. by intros ->. Qed.

(** All that [RestartWorker] does to the drainer is one [drain]. *)
Lemma restart_drains ctx clk during id s r s' :
  stored s -> RestartWorker ctx clk during id s = Ret (r, s') ->
  (view s !! id = None /\ drainer s' = drainer s) \/
  exists s2 err s3, drainer s2 = drainer s /\ drain id during s2 = Ret (err, s3) /\ drainer s' = drainer s3.
Proof.
  intros Hst. unfold RestartWorker. pose proof (find_spec id s Hst) as Hf.
  destruct (find id s) as [[p|] s1]; [|destruct Hf as [-> Hf]; intros [= <- <-]; by left].
  destruct Hf as (_ & Hdr & _). set (s2 := publish _ _ _ _ _).
  assert (drainer s2 = drainer s) as Hd2 by (rewrite <-Hdr; done). clearbody s2.
  destruct (drain id during s2) as [[err s3]|] eqn:Ed; simpl; [|done].
  intros HR. right. exists s2, err, s3. split; [done|]. split; [done|]. revert HR.
  assert (drainer (stop_process id s3).2 = drainer s3) as H4 by (unfold stop_process; by destruct (Stop _ _)).
  destruct (stop_process id s3) as [[e|] s4]; cbn [snd] in H4; [by intros [= <- <-]|].
  assert (drainer (recreate_endpoint id s4).2 = drainer s4) as H5.
  { unfold recreate_endpoint. destruct (transport s4); [by destruct (Register _ _)|done]. }
  destruct (recreate_endpoint id s4) as [[e|] s5]; cbn [snd] in H5; [intros [= <- <-]; cbn; congruence|].
  assert (drainer (spawn_process p s5).2 = drainer s5) as H6 by (unfold spawn_process; by destruct (Spawn _ _)).
  destruct (spawn_process p s5) as [[e|] s6]; cbn [snd] in H6; intros [= <- <-]; [cbn; congruence|].
  unfold rearm. cbn. destruct (receiver s6); cbn; congruence.
Qed.

(** A restart that succeeds hands the receiver its own context. *)
Lemma restart_rearms ctx clk during id s s' :
  RestartWorker ctx clk during id s = Ret (None, s') -> receiver s' = RestartLoop ctx id <$> receiver s.
Proof.
  unfold RestartWorker. assert (receiver (find id s).2 = receiver s) as Hrc1.
  { unfold find. by destruct (Repository.FindByID _ _). }
  destruct (find id s) as [[p|] s1]; [|done]. cbn [snd] in Hrc1. set (s2 := publish _ _ _ _ _).
  assert (receiver s2 = receiver s) as Hrc2 by (rewrite <-Hrc1; done). clearbody s2.
  destruct (drain id during s2) as [[err s3]|] eqn:Ed; simpl; [|done].
  assert (receiver s3 = receiver s2) as Hrc3.
  { unfold drain in Ed. destruct (drainer s2); [|by simplify_eq]. destruct (Drain _ _ _) as [[[? ?] ?]|]; by simplify_eq. }
  assert (receiver (stop_process id s3).2 = receiver s3) as Hrc4 by (unfold stop_process; by destruct (Stop _ _)).
  destruct (stop_process id s3) as [[e|] s4]; cbn [snd] in Hrc4; [done|].
  assert (receiver (recreate_endpoint id s4).2 = receiver s4) as Hrc5.
  { unfold recreate_endpoint. destruct (transport s4); [by destruct (Register _ _)|done]. }
  destruct (recreate_endpoint id s4) as [[e|] s5]; cbn [snd] in Hrc5; [done|].
  assert (receiver (spawn_process p s5).2 = receiver s5) as Hrc6 by (unfold spawn_process; by destruct (Spawn _ _)).
  destruct (spawn_process p s5) as [[e|] s6]; cbn [snd] in Hrc6; [done|]. intros [= <-].
  rewrite <-Hrc2, <-Hrc3, <-Hrc4, <-Hrc5, <-Hrc6. unfold rearm. cbn. destruct (receiver s6) eqn:E6; cbn; by rewrite ?E6.
Qed.

(** Whatever [RestartWorker] returns - the worker restarted, or a failure to
    stop or start it - the worker is left marked as draining, and so is
    whoever was before. *)
Lemma restart_leaves_draining ctx clk during id s r s' w :
  stored s -> is_Some (drainer s) -> view s !! id = Some w ->
  Forall (fun op => op <> OCleanup id) (ops_of during) ->
  RestartWorker ctx clk during id s = Ret (r, s') -> draining_at id s'.
Proof.
  intros Hst Hd Hv Hdur [[Hn _]|(s2 & err & s3 & Hd2 & Ed & Hd3)]%restart_drains; [congruence| |done].
  eapply same_drainer; [exact Hd3|]. eapply drain_marks; [exact Hdur| |exact Ed]. right. by rewrite Hd2.
Qed.
Lemma restart_keeps_draining ctx clk during x id s r s' :
  stored s -> draining_at id s -> Forall (fun op => op <> OCleanup id) (ops_of during) ->
  RestartWorker ctx clk during x s = Ret (r, s') -> draining_at id s'.
Proof.
  intros Hst Hd Hdur [[_ Hd3]|(s2 & err & s3 & Hd2 & Ed & Hd3)]%restart_drains; [by eapply same_drainer| |done].
  eapply same_drainer; [exact Hd3|]. eapply drain_marks; [exact Hdur| |exact Ed]. left. by eapply same_drainer.
Qed.

(** ** What marking and restarting leave alone *)

Lemma find_fresh id s p s' : find id s = (Some p, s') -> p = next (hp s).
Proof.
  unfold find, Repository.FindByID. by destruct (Repository.workers _ !! _); intros [= <- _].
Qed.

Lemma MarkUnhealthy_spec clk id s : stored s ->
  let s' := (MarkUnhealthy clk id s).2 in
  stored s' /\ (forall q v, holds q v s -> holds q v s') /\
  view s' = match view s !! id with
            | None => view s
            | Some w => <[id := set_UpdatedAt (clk 0%nat) (set_State StateUnhealthy w)]> (view s)
            end.
Proof.
  intros Hs. unfold MarkUnhealthy. pose proof (find_spec id s Hs) as Hf.
  destruct (find id s) as [[p|] s1] eqn:E; cbn [snd].
  - destruct Hf as (Hq & _ & _ & w & Hv & Hid & Hp). rewrite Hv.
    set (f := fun w => set_UpdatedAt (clk 0%nat) (set_State StateUnhealthy w)).
    destruct (modify_spec p f w s1 Hp) as [Hp1 Hv1].
    assert (holds p (f w) (publish (clk 1%nat) EventUnhealthy p "missed heartbeat" (modify p f s1))) as Hp2
      by by apply publish_holds.
    destruct (save_spec _ _ _ Hp2) as [Hp3 Hv3]. split_and!.
    + exact (held_stored _ _ _ Hp3).
    + intros q v Hqv. eapply save_others; [exact Hp2|]. apply publish_holds. eapply modify_others; [done| |].
      * by eapply quiet_holds.
      * apply find_fresh in E. destruct Hqv. lia.
    + unfold enter. fold f. rewrite Hv3. change (view (publish _ _ _ _ ?s)) with (view s).
      rewrite Hv1, (quiet_view _ _ Hq Hs). by rewrite <-Hid.
  - destruct Hf as [-> Hv]. by rewrite Hv.
Qed.

Lemma settle_elsewhere st clk ty p d w s x : holds p w s -> x <> ID w ->
  view (settle st clk ty p d s) !! x = view s !! x.
Proof.
  intros Hp Hx. destruct (settle_spec st clk ty p d w s Hp) as (_ & -> & _). by rewrite lookup_insert_ne.
Qed.

Lemma RestartWorker_spec ctx clk during id s r s' : stored s ->
  RestartWorker ctx clk during id s = Ret (r, s') ->
  stored s' /\ (forall x, x <> id -> view s' !! x = view s !! x) /\ (forall q v, holds q v s -> holds q v s').
Proof.
  intros Hs. unfold RestartWorker. pose proof (find_spec id s Hs) as Hf.
  destruct (find id s) as [[p|] s1] eqn:E; [|destruct Hf as [-> _]; by intros [= <- <-]].
  destruct Hf as (Hq & _ & _ & w & Hv & Hid & Hp). apply find_fresh in E as Hfresh.
  set (f := fun w => set_UpdatedAt (clk 0%nat) (set_RestartCount (RestartCount w +64 1)
                       (set_State StateRestarting w))).
  destruct (modify_spec p f w s1 Hp) as [Hp1 Hv1]. destruct (save_spec _ _ _ Hp1) as [Hp2 Hv2].
  set (good := fun a => holds p (f w) a /\ (forall x, x <> id -> view a !! x = view s !! x) /\
                 (forall q v, holds q v s -> holds q v a /\ q <> p)).
  set (s2 := publish _ _ _ _ _).
  assert (good s2) as Hg2.
  { split_and!; [by apply publish_holds| |].
    - intros x Hx. change (view s2) with (view (save p (modify p f s1))).
      rewrite Hv2, lookup_insert_ne by (cbn; congruence). by rewrite Hv1, (quiet_view _ _ Hq Hs).
    - intros q v Hqv. assert (q <> p) as Hne by (destruct Hqv; lia). split; [|done].
      apply publish_holds. eapply save_others; [exact Hp1|]. eapply modify_others; [exact Hp| |done]. by eapply quiet_holds. }
  clearbody s2. destruct (drain id during s2) as [[err s3]|] eqn:Ed; simpl; [|done].
  assert (forall a b, quiet a b -> good a -> good b) as Hstep.
  { intros a b Hab (Ha & Hx & Hk). split_and!; [by eapply quiet_holds| |].
    - intros x Hne. rewrite (quiet_view _ _ Hab (held_stored _ _ _ Ha)). by apply Hx.
    - intros q v Hqv. destruct (Hk q v Hqv). split; [by eapply quiet_holds|done]. }
  assert (forall st clk ty d a, good a -> let b := settle st clk ty p d a in
    stored b /\ (forall x, x <> id -> view b !! x = view s !! x) /\ (forall q v, holds q v s -> holds q v b)) as Hset.
  { intros st clk' ty d a (Ha & Hx & Hk). destruct (settle_spec st clk' ty p d _ a Ha) as (Hb & Hvb & Hkb).
    split_and!; [done| |].
    - intros x Hne. rewrite Hvb, lookup_insert_ne by (cbn; congruence). by apply Hx.
    - intros q v Hqv. destruct (Hk q v Hqv). by apply Hkb. }
  pose proof (Hstep _ _ (drain_quiet _ _ _ _ _ Ed) Hg2) as Hg3.
  pose proof (Hstep _ _ (stop_process_quiet id s3) Hg3) as Hg4.
  destruct (stop_process id s3) as [[e|] s4]; cbn [snd] in *.
  { intros [= <- <-]. destruct Hg4 as (Hg4 & Hx & Hk). split_and!; [by destruct Hg4|done|]. intros q v Hqv. by apply Hk. }
  pose proof (Hstep _ _ (recreate_endpoint_quiet id s4) Hg4) as Hg5.
  destruct (recreate_endpoint id s4) as [[e|] s5]; cbn [snd] in *; [intros [= <- <-]; by apply Hset|].
  pose proof (Hstep _ _ (spawn_process_quiet p s5) Hg5) as Hg6.
  destruct (spawn_process p s5) as [[e|] s6]; cbn [snd] in *; intros [= <- <-]; [by apply Hset|].
  destruct (Hset StateRunning (from 2 clk) EventRunning "restarted successfully" s6 Hg6) as (Hg7 & Hx7 & Hk7).
  pose proof (rearm_quiet ctx id (settle StateRunning (from 2 clk) EventRunning p "restarted successfully" s6)) as Hq8.
  split_and!; [by eapply quiet_stored| |intros q v Hqv; eapply quiet_holds; [done|by apply Hk7]].
  intros x Hne. rewrite (quiet_view _ _ Hq8 Hg7). by apply Hx7.
Qed.
Lemma RestartWorker_elsewhere ctx clk during id s r s' x : stored s -> x <> id ->
  RestartWorker ctx clk during id s = Ret (r, s') -> stored s' /\ view s' !! x = view s !! x.
Proof. intros Hs Hx HR. destruct (RestartWorker_spec _ _ _ _ _ _ _ Hs HR) as (? & Hv & _). auto. Qed.

Lemma drain_manager id during s s' e : drain id during s = Ret (e, s') -> manager s' = manager s.
Proof.
  unfold drain. destruct (drainer s); [|by intros [= _ <-]].
  destruct (Drain _ _ _) as [[[]]|]; [|done]. by intros [= _ <-].
Qed.

(** The worker a restart has begun with, and what a later change of state
    makes of it. *)
Definition restarting (now : Z) (w : Worker) : Worker :=
  set_UpdatedAt now (set_RestartCount (RestartCount w +64 1) (set_State StateRestarting w)).
Definition now_in (st : State) (now : Z) (w : Worker) : Worker := set_UpdatedAt now (set_State st w).

(** A restart comes down to the answer of the manager's [Stop]: its error is
    the error of the restart, which leaves the worker in state restarting;
    otherwise the worker runs, or its endpoint or its process could not be
    started again: then it is stopped and the error is [ErrSpawnFailed]. *)
Lemma RestartWorker_outcome ctx clk during id s r s' w : stored s -> view s !! id = Some w ->
  RestartWorker ctx clk during id s = Ret (r, s') ->
  stored s' /\
  match Stop id (manager s) with
  | (Some e, m) => r = Some e /\ manager s' = m /\ view s' !! id = Some (restarting (clk 0%nat) w)
  | (None, _) =>
      r = None /\ view s' !! id = Some (now_in StateRunning (clk 2%nat) (restarting (clk 0%nat) w)) \/
      r = Some ErrSpawnFailed /\
        view s' !! id = Some (now_in StateStopped (clk 2%nat) (restarting (clk 0%nat) w)) /\
        ((exists t, (Register id t).1 <> None) \/ exists m, (Spawn (restarting (clk 0%nat) w) m).1 <> None)
  end.
Proof.
  intros Hs Hw HR. split; [by apply RestartWorker_spec in HR as [? _]|]. revert HR.
  unfold RestartWorker. pose proof (find_spec id s Hs) as Hf.
  destruct (find id s) as [[p|] s1]; [|destruct Hf as [_ Hn]; congruence].
  destruct Hf as (Hq1 & _ & Hm1 & w' & Hv & Hid & Hp). rewrite Hw in Hv. injection Hv as <-.
  destruct (modify_spec p (restarting (clk 0%nat)) w s1 Hp) as [Hp1 _]. destruct (save_spec _ _ _ Hp1) as [Hp2 Hv2].
  fold (restarting (clk 0%nat)). set (s2 := publish _ _ p _ _).
  assert (holds p (restarting (clk 0%nat) w) s2) as Hp3 by by apply publish_holds.
  assert (manager s2 = manager s) as Hm2 by (rewrite <-Hm1; done).
  assert (view s2 !! id = Some (restarting (clk 0%nat) w)) as Hv3.
  { change (view s2) with (view (save p (modify p (restarting (clk 0%nat)) s1))). rewrite Hv2. cbn.
    rewrite Hid. apply lookup_insert_eq. }
  clearbody s2. destruct (drain id during s2) as [[e s3]|] eqn:Ed; [|done]. simpl.
  pose proof (drain_quiet _ _ _ _ _ Ed) as Hq. pose proof (drain_manager _ _ _ _ _ Ed) as Hm3.
  assert (holds p (restarting (clk 0%nat) w) s3) as Hp4 by by eapply quiet_holds.
  assert (forall st d ty a, holds p (restarting (clk 0%nat) w) a ->
    let b := settle st (from 2 clk) ty p d a in
    stored b /\ view b !! id = Some (now_in st (clk 2%nat) (restarting (clk 0%nat) w))) as Hset.
  { intros st d ty a Ha b. destruct (settle_spec st (from 2 clk) ty p d _ a Ha) as (Hb & Hvb & _). split; [done|].
    unfold b. rewrite Hvb. cbn. rewrite Hid. apply lookup_insert_eq. }
  pose proof (stop_process_quiet id s3) as Hq4. unfold stop_process in *. rewrite Hm3, Hm2 in *.
  destruct (Stop id (manager s)) as [[e'|] m]; cbn [snd] in *.
  { intros [= <- <-]. rewrite (quiet_view _ _ Hq4 (held_stored _ _ _ Hp4)).
    by rewrite (quiet_view _ _ Hq (held_stored _ _ _ Hp3)). }
  assert (holds p (restarting (clk 0%nat) w) (with_manager m s3)) as Hp5 by by eapply quiet_holds.
  pose proof (recreate_endpoint_quiet id (with_manager m s3)) as Hq5.
  destruct (recreate_endpoint _ _) as [[e'|] s5] eqn:Ee; cbn [snd] in *.
  { intros [= <- <-]. right. split_and!; [done|apply Hset; by eapply quiet_holds|]. left. revert Ee.
    unfold recreate_endpoint. destruct (transport _) as [t|]; [|done].
    destruct (Register id (Deregister id t).2) as [err t'] eqn:Er. intros [= -> _].
    exists (Deregister id t).2. by rewrite Er. }
  assert (holds p (restarting (clk 0%nat) w) s5) as Hp6 by by eapply quiet_holds.
  pose proof (spawn_process_quiet p s5) as Hq6.
  destruct (spawn_process p s5) as [[e'|] s6] eqn:Esp; cbn [snd] in *; intros [= <- <-].
  { right. split_and!; [done|apply Hset; by eapply quiet_holds|]. right. exists (manager s5). revert Esp.
    unfold spawn_process. rewrite (held_value _ _ _ Hp6). destruct (Spawn _ _) as [err m']. by intros [= -> _]. }
  left. split; [done|]. destruct (Hset StateRunning "restarted successfully" EventRunning s6) as [Hs7 Hv7].
  { do 2 (eapply quiet_holds; [done|]). done. }
  by rewrite (quiet_view _ _ (rearm_quiet ctx id _) Hs7).
Qed.
End Service.
Arguments Service : clear implicits.

(** ** A concrete service

    A process manager that logs what it is asked and cannot start the worker
    called "broken", endpoints and a receiver that log as well, and an
    installer with nothing installed. *)
Definition Log := list string.
#[export] Instance log_manager : WorkerManager Log := {
  Spawn w l := (if String.eqb (ID w) "broken" then Some (NewErr "exec failed") else None,
                l ++ ["spawn " +:+ ID w]);
  Stop id l := (None, l ++ ["stop " +:+ id]);
}.
#[export] Instance log_endpoints : Endpoints Log := {
  Register id l := (None, l ++ ["register " +:+ id]);
  Deregister id l := (None, l ++ ["deregister " +:+ id]);
}.
#[export] Instance log_receiver : ReceiverStarter Log := { RestartLoop _ id l := l ++ [id] }.
#[export] Instance no_installer : Installer unit := {
  ensureNode _ _ i := (None, i);
  ensurePython _ _ i := (None, i);
  LookPath _ _ := Err (NewErr "not found");
  Glob _ _ := [];
}.
Definition skip_runtime (name : string) : string :=
  if String.eqb name "VYX_SKIP_RUNTIME" then "1" else "".

Definition tick (t : Z) : nat -> Z := fun i => t + Z.of_nat i.
Definition blank : Worker := mkWorker "" "" [] "" "" "" 0 0 0 0 0.
Definition demo_service : Service Log Log Log unit :=
  mkService (mkHeap (fun _ => blank) 0%nat) Repository.NewMemoryWorkerRepository [] []
    (Some []) (Some []) (Some NewWorkerDrainer) None tt.
Definition node_worker (id : string) : SpawnWorkerConfig :=
  mkSpawnConfig id "node" ["server.js"] "" 0 "" "".

Definition demo_calls : list Call :=
  [CSpawn (tick 0) (node_worker "a") 1 "round-robin"; CRunning (tick 10) "a";
   CSpawn (tick 20) (node_worker "b") 1 "round-robin"; CRunning (tick 30) "b";
   CSpawn (tick 40) (node_worker "broken") 1 "round-robin"; CUnhealthy (tick 50) "b"].
Definition demo_run : outcome (Service Log Log Log unit) := calls skip_runtime demo_calls demo_service.

Example demo_states :
  (fun s => (fun id => last_state id (published s)) <$> ["a"; "b"; "broken"; "c"]) <$> demo_run
  = Ret [Some StateRunning; Some StateUnhealthy; Some StateStopped; None].
Proof. vm_compute. reflexivity. Qed.

Lemma events_tell_states_witness :
  exists s, demo_run = Ret s /\ wstate <$> view s !! "b" = last_state "b" (published s).
Proof.
  destruct demo_run as [s|] eqn:E; [|vm_compute in E; discriminate E].
  exists s. split; [reflexivity|].
  apply (events_tell_states skip_runtime demo_calls demo_service s "b"); [reflexivity..|exact E].
Defined.

Lemma StopAll_stops_witness :
  exists s s', demo_run = Ret s /\
    StopAll (fun i => tick (100 + Z.of_nat i)) (fun _ => []) ["a"; "broken"; "b"] s = Ret (None, s') /\
    (forall id w, view s' !! id = Some w -> IsAlive w = false).
Proof.
  destruct demo_run as [s|] eqn:E; [|vm_compute in E; discriminate E].
  destruct (StopAll (fun i => tick (100 + Z.of_nat i)) (fun _ => []) ["a"; "broken"; "b"] s)
    as [[r s']|] eqn:E'; [|vm_compute in E; injection E as <-; vm_compute in E'; discriminate E'].
  assert (r = None) as ->.
  { vm_compute in E. injection E as <-. vm_compute in E'. by injection E' as <-. }
  exists s, s'. split; [reflexivity|]. split; [exact E'|].
  apply (StopAll_stops skip_runtime demo_calls demo_service s s' (fun i => tick (100 + Z.of_nat i))
    (fun _ => []) ["a"; "broken"; "b"] None); [reflexivity..|exact E| |exact E'|reflexivity].
  vm_compute in E. injection E as <-. unfold Repository.range_order. vm_compute. reflexivity.
Defined.
