(* ===== verification/Rolling.v ===== *)
(** * Restarting workers under traffic

    The lifecycle service and the dispatcher of one process share the drainer
    ([core/cmd/vyx/main.go] makes one and hands it to both).  This file puts
    the two models together: what a request meets after the
    restart of its worker, alone or by SIGUSR1. *)
From S2P Require Import Prelude GoStrings Ipc RouteMap Circuit Worker Pool PoolManager Drainer.
From S2P Require Import RateLimiter Runtime Lifecycle Gateway Dispatcher DispatchFacts Server Outcome.
Local Open Scope string_scope.
Local Open Scope list_scope.
Local Open Scope Z_scope.

(** A request turned away without a word to any worker.  The dispatcher's
    response is a 503; when the breaker of its route refuses at [now] there is
    an error with it, which [handle] looks at first.  [told] is what it makes of
    the two: the client reads 503, or 500 behind such a breaker. *)
Definition turned_away {T H} (now : Z) (d : Dispatcher (H:=H)) (rq : GatewayRequest) (res : LookupResult)
    (o : outcome (Reply (T:=T) (H:=H))) (w : Dispatcher.World (T:=T) (H:=H)) : Prop :=
  exists reply, o = Ret reply /\ wire (wd (final reply)) = wire w /\
    fst <$> told (response reply) (err reply) =
      Ret (if (Allow now (breaker_at (routeKey (Method rq) (re_path (lr_entry res))) (circuits w))).1.1
           then 503 else 500).

Lemma draining_turned_away {T} `{!Transport T} {H : Type} (enc : Encoding) clk uuid (d : Dispatcher (H:=H)) rq
    (w : Dispatcher.World (T:=T) (H:=H)) res dr :
  registry_ok (circuits w) -> listeners d = [] ->
  Lookup (routes d) (Method rq) (Path rq) = Some res ->
  Dispatcher.drainer w = Some dr -> IsDraining (re_workerID (lr_entry res)) dr = true ->
  turned_away (clk 1%nat) d rq res (Dispatch enc clk uuid d rq w) w.
Proof.
  intros Hok Hls EL Hd Hdr.
  destruct (Dispatch_draining enc clk uuid d rq w res dr Hok Hls EL Hd Hdr) as (reply & resp & HD & Hresp & Hcode & Hw & He).
  exists reply. split_and!; [done..|]. rewrite Hresp. destruct (Allow _ _).1.1.
  - rewrite He. unfold told, writeResponse. rewrite Hcode. reflexivity.
  - destruct He as [text ->]. unfold told. by rewrite error_answer_new.
Qed.

(** A restarted worker serves nothing.  After [RestartWorker] has returned -
    without an error, the worker in state "running" - every request routed to
    it is turned away and never reaches it, however many calls other requests
    and other stops make on the drainer in between: only [StopWorker] of that
    worker lifts the mark that [RestartWorker] sets and does not remove. *)
Theorem restarted_worker_serves_nothing
    {M T' C I} `{WorkerManager M} `{Endpoints T'} `{ReceiverStarter C} `{Installer I}
    {T} `{!Transport T} {X : Type} (enc : Encoding)
    (s s' : Service M T' C I) (ctx : Context) (clk : nat -> Z) (during : list DrainEvent) (later : list Drainer.Op) (id : string)
    (dr dr' : WorkerDrainer) (d : Dispatcher (H:=X)) (w : Dispatcher.World (T:=T) (H:=X)) (clk' : nat -> Z)
    (uuid : string) (rq : GatewayRequest) (res : LookupResult) :
  stored s -> is_Some (Lifecycle.drainer s) -> is_Some (view s !! id) ->
  Forall (fun op => op <> OCleanup id) (ops_of during ++ later) ->
  RestartWorker ctx clk during id s = Ret (None, s') ->
  Lifecycle.drainer s' = Some dr -> steps later dr = Ret dr' ->
  registry_ok (circuits w) -> listeners d = [] -> Dispatcher.drainer w = Some dr' ->
  Lookup (routes d) (Method rq) (Path rq) = Some res -> re_workerID (lr_entry res) = id ->
  turned_away (clk' 1%nat) d rq res (Dispatch enc clk' uuid d rq w) w.
Proof.
  intros Hst Hd [v Hv] [Hdur Hlater]%Forall_app Hrs Hd1 Hsteps Hok Hls Hdr EL Hid.
  destruct (restart_leaves_draining ctx clk during id s None s' v Hst Hd Hv Hdur Hrs) as (d' & Hd' & Hdraining).
  rewrite Hd1 in Hd'. injection Hd' as <-.
  apply (draining_turned_away enc clk' uuid d rq w res dr'); try done.
  rewrite Hid. by eapply steps_draining.
Qed.

(** ** SIGUSR1

    The handler of [main.go] restarts every worker, under a context of its own
    which it cancels afterwards, and logs an error. *)
Definition sigusr1 {M T' C I} `{WorkerManager M} `{Endpoints T'} `{ReceiverStarter C} `{Installer I}
    (ctx : Context) (clk : nat -> nat -> Z) (during : nat -> list DrainEvent) (order : list string) (s : Service M T' C I)
    : outcome (Service M T' C I) := snd <$> RestartAll ctx clk during order s.

Section Reload.
Context {M T' C I : Type} `{WorkerManager M} `{Endpoints T'} `{ReceiverStarter C} `{Installer I}.
Implicit Types s : Service M T' C I.

Lemma restart_has_drainer ctx clk during x s r s' :
  stored s -> is_Some (Lifecycle.drainer s) -> RestartWorker ctx clk during x s = Ret (r, s') -> is_Some (Lifecycle.drainer s').
Proof.
  intros Hs Hd [[_ ->]|(s2 & err & s3 & Hd2 & Ed & ->)]%restart_drains; [done| |done].
  revert Ed. unfold drain. rewrite Hd2. destruct Hd as [d ->]. destruct (Drain _ _ _) as [[[? ?] d']|]; [|done].
  intros [= _ <-]. by eexists.
Qed.

(** The loop over the copies [ws] of the workers [ids]: whoever is marked
    stays marked, and the ones that are alive are marked. *)
Lemma restart_each_marks ctx clk during id ids ws i lastErr s r s' :
  stored s -> is_Some (Lifecycle.drainer s) -> NoDup ids -> copies s ids ws ->
  (forall i, Forall (fun op => op <> OCleanup id) (ops_of (during i))) ->
  each_alive (fun i => RestartWorker ctx (clk i) (during i)) i ws lastErr s = Ret (r, s') ->
  draining_at id s \/ (id ∈ ids /\ exists w, view s !! id = Some w /\ IsAlive w = true) -> draining_at id s'.
Proof.
  intros Hs Hd Hnd Hall Hdur. revert ws i lastErr s Hs Hd Hall.
  induction ids as [|x ids IH]; intros ws i lastErr s Hs Hd Hall; inversion Hall as [|? q ? ws' (w & Hv & Hh) Hall']; subst.
  { intros [= <- <-] [?|[Hin _]]; [done|by apply elem_of_nil in Hin]. }
  apply NoDup_cons in Hnd as [Hx Hnd]. cbn [each_alive]. rewrite (held_value _ _ _ Hh).
  destruct (IsAlive w) eqn:Ea.
  - rewrite (stored_ID _ _ _ Hs Hv). destruct (RestartWorker _ _ _ _) as [[err s1]|] eqn:E; simpl; [|done].
    destruct (RestartWorker_spec _ _ _ _ _ _ _ Hs E) as (Hs1 & Hview & Hk).
    pose proof (restart_has_drainer _ _ _ _ _ _ _ Hs Hd E) as Hd1.
    intros Hrun Hid. eapply IH; [exact Hnd|exact Hs1|exact Hd1| |exact Hrun|].
    { by apply (copies_kept (fun v => v) s s1 x). }
    destruct Hid as [Hm|[Hin (v & Hv' & Ha)]]; [left; exact (restart_keeps_draining _ _ _ _ _ _ _ _ Hs Hm (Hdur i) E)|].
    destruct (decide (id = x)) as [->|Hne]; [left; exact (restart_leaves_draining _ _ _ _ _ _ _ _ Hs Hd Hv (Hdur i) E)|].
    right. split; [set_solver|]. exists v. by rewrite Hview.
  - intros Hrun Hid. eapply IH; [exact Hnd|done|done|exact Hall'|exact Hrun|].
    destruct Hid as [?|[Hin (v & Hv' & Ha)]]; [by left|right].
    split; [|by exists v]. apply elem_of_cons in Hin as [->|?]; [congruence|done].
Qed.

(** C8: The zero-downtime reload takes everything down.  SIGUSR1 restarts the
    workers that are alive one after the other; whatever comes of the
    restarts, errors or not, and whatever requests and other stops do on the
    drainer meanwhile and afterwards, every request routed to one of those
    workers is from then on turned away and reaches no worker: its client
    reads 503, or 500 if the breaker of the route refuses it besides.  The
    restart marks a worker as draining, and only [StopWorker] of that worker
    lifts the mark.  (A dispatcher without lifecycle listeners, as [main.go]
    makes it: a listener may stop a request before the drain check.) *)
Theorem reload_takes_everything_down {T} `{!Transport T} {X : Type} (enc : Encoding)
    s s' (ctx : Context) (clk : nat -> nat -> Z) (during : nat -> list DrainEvent) (order : list string) (later : list Drainer.Op) (id : string) (v : Worker)
    (dr dr' : WorkerDrainer) (d : Dispatcher (H:=X)) (w : Dispatcher.World (T:=T) (H:=X)) (clk' : nat -> Z)
    (uuid : string) (rq : GatewayRequest) (res : LookupResult) :
  stored s -> is_Some (Lifecycle.drainer s) -> Repository.range_order (Repository.workers (repo s)) order ->
  view s !! id = Some v -> IsAlive v = true ->
  (forall i, Forall (fun op => op <> OCleanup id) (ops_of (during i))) -> Forall (fun op => op <> OCleanup id) later ->
  sigusr1 ctx clk during order s = Ret s' ->
  Lifecycle.drainer s' = Some dr -> steps later dr = Ret dr' ->
  registry_ok (circuits w) -> listeners d = [] -> Dispatcher.drainer w = Some dr' ->
  Lookup (routes d) (Method rq) (Path rq) = Some res -> re_workerID (lr_entry res) = id ->
  turned_away (clk' 1%nat) d rq res (Dispatch enc clk' uuid d rq w) w.
Proof.
  intros Hs Hd Hord Hv Ha Hdur Hlater Hrun Hd1 Hsteps Hok Hls Hdr EL Hid.
  assert (draining_at id s') as (d' & Hd' & Hdraining).
  { unfold sigusr1, RestartAll, all_alive in Hrun. pose proof (FindAll_spec order s Hs) as Hf.
    destruct (Repository.FindAll _ _) as [ws hr]. destruct Hf as [Hq Hf].
    destruct (each_alive _ _ _ _ _) as [[r s1]|] eqn:E; [|done]. injection Hrun as ->.
    apply (restart_each_marks ctx clk during id (filter (fun id => is_Some (view s !! id)) order)) in E; [done|..].
    - by eapply quiet_stored.
    - done.
    - apply NoDup_filter. rewrite Hord. apply NoDup_fst_map_to_list.
    - unfold copies. by rewrite (quiet_view _ _ Hq Hs).
    - done.
    - right. rewrite (quiet_view _ _ Hq Hs). split; [|by exists v].
      apply list_elem_of_filter. split; [by eexists|]. rewrite Hord.
      unfold view in Hv. rewrite lookup_fmap, fmap_Some in Hv. destruct Hv as (q & Hq' & _).
      apply list_elem_of_fmap. exists (id, q). split; [done|]. by apply elem_of_map_to_list. }
  rewrite Hd1 in Hd'. injection Hd' as <-.
  apply (draining_turned_away enc clk' uuid d rq w res dr'); try done.
  rewrite Hid. by eapply steps_draining.
Qed.
End Reload.

(** ** A gateway in front of a restarted worker *)

Definition admin_calls : list Call :=
  [CSpawn (tick 0) (node_worker "node:admin") 1 "round-robin"; CRunning (tick 10) "node:admin"].

Definition behind (dr : WorkerDrainer) : Dispatcher.World (T:=list (string * Message)) (H:=AccessLog) :=
  mkWorld (NewRegistry demo_config false) (Some dr) None demo_heap [] (mkAccessLog ∅ []).

(** Before the restart the worker answers; after it, 503. *)
Definition restarted : outcome (Service Log Log Log unit) :=
  s ← calls skip_runtime admin_calls demo_service;
  snd <$> RestartWorker 1%nat (tick 20) [] "node:admin" s.
Definition status_behind (o : outcome (Service Log Log Log unit)) : option Z :=
  match o with
  | Ret s => match Lifecycle.drainer s with
             | Some dr => match Dispatch demo_enc (clock 5) "uuid" demo_dispatcher (ask "/health" "") (behind dr) with
                          | Ret r => StatusCode <$> response r
                          | Panic _ => None
                          end
             | None => None
             end
  | Panic _ => None
  end.
Example before_and_after :
  (status_behind (calls skip_runtime admin_calls demo_service), status_behind restarted,
   (fun s => last_state "node:admin" (published s)) <$> restarted)
  = (Some 200, Some 503, Ret (Some StateRunning)).
Proof. vm_compute. reflexivity. Qed.

Lemma restarted_worker_serves_nothing_witness :
  exists dr reply, Lifecycle.drainer <$> restarted = Ret (Some dr) /\
    Dispatch demo_enc (clock 5) "uuid" demo_dispatcher (ask "/health" "") (behind dr) = Ret reply /\
    fst <$> told (response reply) (err reply) = Ret 503.
Proof.
  destruct (calls skip_runtime admin_calls demo_service) as [s|] eqn:E; [|vm_compute in E; discriminate E].
  destruct (RestartWorker 1%nat (tick 20) [] "node:admin" s) as [[r s']|] eqn:ER;
    [|vm_compute in E; injection E as <-; vm_compute in ER; discriminate ER].
  assert (r = None) as ->.
  { vm_compute in E. injection E as <-. vm_compute in ER. by injection ER as <-. }
  destruct (Lifecycle.drainer s') as [dr|] eqn:Ed;
    [|vm_compute in E; injection E as <-; vm_compute in ER; injection ER as <-; discriminate Ed].
  destruct (Lookup (routes demo_dispatcher) "GET" "/health") as [res|] eqn:EL;
    [|vm_compute in EL; discriminate EL].
  assert (stored s) as Hst.
  { apply (calls_consistent skip_runtime admin_calls demo_service s); [reflexivity..|exact E]. }
  destruct (restarted_worker_serves_nothing demo_enc s s' 1%nat (tick 20) [] [] "node:admin" dr dr
    demo_dispatcher (behind dr) (clock 5) "uuid" (ask "/health" "") res) as (reply & HD & _ & Hcode).
  - exact Hst.
  - vm_compute in E. injection E as <-. by_compute.
  - vm_compute in E. injection E as <-. by_compute.
  - by_compute.
  - exact ER.
  - exact Ed.
  - reflexivity.
  - apply NewRegistry_ok.
  - reflexivity.
  - reflexivity.
  - exact EL.
  - vm_compute in EL. injection EL as <-. reflexivity.
  - exists dr, reply. split; [|split; [exact HD|]].
    2: { rewrite Hcode. vm_compute in EL. injection EL as <-. vm_compute. reflexivity. }
    unfold restarted. rewrite E. cbn. rewrite ER. cbn. by rewrite Ed.
Defined.

(** The same worker, restarted by the signal. *)
Lemma reload_takes_everything_down_witness :
  exists s s' dr reply, calls skip_runtime admin_calls demo_service = Ret s /\
    sigusr1 1%nat (fun i => tick (20 + Z.of_nat i)) (fun _ => []) ["node:admin"] s = Ret s' /\
    Lifecycle.drainer s' = Some dr /\
    Dispatch demo_enc (clock 5) "uuid" demo_dispatcher (ask "/health" "") (behind dr) = Ret reply /\
    fst <$> told (response reply) (err reply) = Ret 503.
Proof.
  destruct (calls skip_runtime admin_calls demo_service) as [s|] eqn:E; [|vm_compute in E; discriminate E].
  destruct (sigusr1 1%nat (fun i => tick (20 + Z.of_nat i)) (fun _ => []) ["node:admin"] s) as [s'|] eqn:ER;
    [|vm_compute in E; injection E as <-; vm_compute in ER; discriminate ER].
  destruct (Lifecycle.drainer s') as [dr|] eqn:Ed;
    [|vm_compute in E; injection E as <-; vm_compute in ER; injection ER as <-; discriminate Ed].
  destruct (Lookup (routes demo_dispatcher) "GET" "/health") as [res|] eqn:EL;
    [|vm_compute in EL; discriminate EL].
  destruct (view s !! "node:admin") as [v|] eqn:Ev;
    [|vm_compute in E; injection E as <-; vm_compute in Ev; discriminate Ev].
  assert (stored s) as Hst.
  { apply (calls_consistent skip_runtime admin_calls demo_service s); [reflexivity..|exact E]. }
  destruct (reload_takes_everything_down demo_enc s s' 1%nat (fun i => tick (20 + Z.of_nat i)) (fun _ => []) ["node:admin"] []
    "node:admin" v dr dr demo_dispatcher (behind dr) (clock 5) "uuid" (ask "/health" "") res)
    as (reply & HD & _ & Hcode).
  - exact Hst.
  - vm_compute in E. injection E as <-. by_compute.
  - vm_compute in E. injection E as <-. unfold Repository.range_order. vm_compute. reflexivity.
  - exact Ev.
  - vm_compute in E. injection E as <-. vm_compute in Ev. by injection Ev as <-.
  - intros i. constructor.
  - constructor.
  - exact ER.
  - exact Ed.
  - reflexivity.
  - apply NewRegistry_ok.
  - reflexivity.
  - reflexivity.
  - exact EL.
  - vm_compute in EL. injection EL as <-. reflexivity.
  - exists s, s', dr, reply. do 4 (split; [first [assumption|reflexivity]|]).
    rewrite Hcode. vm_compute in EL. injection EL as <-. vm_compute. reflexivity.
Defined.
