(* ===== verification/Uds.v ===== *)
(** * The socket transport ([core/infrastructure/ipc/uds/listener.go])

    One connection per worker; a goroutine per connection, the read pump,
    takes the frames off it and hands each to one of two buffered channels by
    its type, from which the heartbeat loop and the dispatcher receive.

    The pump, the accepting goroutine and the peer run on their own: what they
    do while a call waits is a list of [Event]s, the call's agenda, and the
    theorems hold for every agenda.  Connections are shared by pointer (a
    receiver keeps the one it looked up while [Deregister] drops it), so they
    live in a store and the map of the transport holds addresses; listeners
    likewise. *)
From S2P Require Import Prelude GoStrings FilePath Ipc Circuit Worker Pool PoolManager Drainer Gateway Dispatcher DispatchFacts.
Local Open Scope string_scope.
Local Open Scope list_scope.
Local Open Scope Z_scope.

Definition demuxChanSize : nat := 16.

(** [input] is what the worker will have sent when the connection ends, in
    the pieces the socket delivers; [sent] what was written to it; [fault] the
    error a write meets. *)
Record conn := mkConn {
  input : reader;
  sent : bytes;
  fault : option error;
  closed : bool;
  heartbeatCh : list Message;
  responseCh : list Message;
  chClosed : bool;
  pumpErr : option error;
}.

Definition new_conn (r : reader) : conn := mkConn r [] None false [] [] false None.
Definition ErrClosed := Sentinel "net.ErrClosed" "use of closed network connection".

(** ** The read pump *)

(** [select { case ch <- msg: default: }]. *)
Definition offer (msg : Message) (ch : list Message) : list Message :=
  if (length ch <? demuxChanSize)%nat then ch ++ [msg] else ch.

Definition is_heartbeat (m : Message) : bool :=
  bool_decide (mtype m ∈ [TypeHeartbeat; TypeHandshake]).
Definition is_response (m : Message) : bool :=
  bool_decide (mtype m ∈ [TypeResponse; TypeError; TypeWSOpen; TypeWSMessage; TypeWSClose]).

Definition route (msg : Message) (c : conn) : conn :=
  if is_heartbeat msg then
    mkConn (input c) (sent c) (fault c) (closed c) (offer msg (heartbeatCh c)) (responseCh c)
      (chClosed c) (pumpErr c)
  else if is_response msg then
    mkConn (input c) (sent c) (fault c) (closed c) (heartbeatCh c) (offer msg (responseCh c))
      (chClosed c) (pumpErr c)
  else c.

Definition fail_pump (err : error) (r : reader) (c : conn) : conn :=
  mkConn r (sent c) (fault c) (closed c) (heartbeatCh c) (responseCh c) true (Some err).

(** One round of the loop of [startPump]; a pump that has failed is gone. *)
Definition pump (c : conn) : conn :=
  if chClosed c then c
  else if closed c then fail_pump (WrapErr "framing: read header: " ErrClosed "") (input c) c
  else match Read (input c) with
       | (Err err, r) => fail_pump err r c
       | (Ok msg, r) =>
           route msg (mkConn r (sent c) (fault c) (closed c) (heartbeatCh c) (responseCh c)
                        (chClosed c) (pumpErr c))
       end.

(** ** The transport *)

Record Transport := mkTransport {
  socketDir : string;
  listeners : gmap string nat;
  connections : gmap string nat;
  lns : list bool;             (* listener store: still open? *)
  pending : list (string * nat); (* accepting goroutines *)
  conns : list conn;           (* connection store *)
}.

Definition New (socketDir : string) : Transport := mkTransport socketDir ∅ ∅ [] [] [].

Definition with_conns (cs : list conn) (t : Transport) : Transport :=
  mkTransport (socketDir t) (listeners t) (connections t) (lns t) (pending t) cs.
Definition on_conn (p : nat) (f : conn -> conn) (t : Transport) : Transport :=
  with_conns (alter f p (conns t)) t.

Definition close_conn (c : conn) : conn :=
  mkConn (input c) (sent c) (fault c) true (heartbeatCh c) (responseCh c) (chClosed c) (pumpErr c).
Definition break_conn (e : error) (c : conn) : conn :=
  mkConn (input c) (sent c) (Some e) (closed c) (heartbeatCh c) (responseCh c) (chClosed c) (pumpErr c).

(** What happens on its own: a round of the pump of a connection, the peer's
    end breaking, the [k]-th accepting goroutine getting its connection or
    seeing its context cancelled, and the end of the context of the call that
    waits, by its deadline or by a cancellation. *)
Inductive Event :=
  | EPump (p : nat)
  | EBreak (p : nat) (e : error)
  | EAccept (k : nat) (r : reader)
  | ECancel (k : nat)
  | EDone (e : context_end).

Definition accept (workerID : string) (r : reader) (t : Transport) : Transport :=
  mkTransport (socketDir t) (listeners t) (<[workerID := length (conns t)]> (connections t))
    (lns t) (pending t) (conns t ++ [new_conn r]).
Definition drop_pending (k : nat) (t : Transport) : Transport :=
  mkTransport (socketDir t) (listeners t) (connections t) (lns t) (delete k (pending t)) (conns t).
Definition close_ln (l : nat) (t : Transport) : Transport :=
  mkTransport (socketDir t) (listeners t) (connections t) (<[l := false]> (lns t)) (pending t) (conns t).

Definition happen (e : Event) (t : Transport) : Transport :=
  match e with
  | EPump p => on_conn p pump t
  | EBreak p err => on_conn p (break_conn err) t
  | EAccept k r =>
      match pending t !! k with
      | Some (workerID, l) =>
          if default false (lns t !! l) then accept workerID r (drop_pending k t)
          else drop_pending k t
      | None => t
      end
  | ECancel k =>
      match pending t !! k with
      | Some (_, l) => close_ln l (drop_pending k t)
      | None => t
      end
  | EDone _ => t
  end.

(** *** Registration

    The file-system and socket calls of [Register] with their results.
    Closing a listener unlinks its socket, which [Remove] stands for. *)
Class SocketOS (O : Type) := {
  MkdirAll : string -> O -> option error * O;
  Remove : string -> O -> O;
  Listen : string -> O -> option error * O;
  Chmod : string -> O -> option error * O;
}.

Definition socketPath (workerID : string) (t : Transport) : string :=
  Join [socketDir t; workerID +:+ ".sock"].

Section Registration.
Context {O : Type} `{SocketOS O}.

Definition Register (workerID : string) (t : Transport) (o : O) : option error * Transport * O :=
  match MkdirAll (socketDir t) o with
  | (Some err, o) => (Some (WrapErr "uds: create socket dir: " err ""), t, o)
  | (None, o) =>
      let path := socketPath workerID t in
      match Listen path (Remove path o) with
      | (Some err, o) => (Some (WrapErr ("uds: listen " +:+ path +:+ ": ") err ""), t, o)
      | (None, o) =>
          match Chmod path o with
          | (Some err, o) => (Some (WrapErr ("uds: chmod " +:+ path +:+ ": ") err ""), t, Remove path o)
          | (None, o) =>
              let ln := length (lns t) in
              (None, mkTransport (socketDir t) (<[workerID := ln]> (listeners t)) (connections t)
                       (lns t ++ [true]) (pending t ++ [(workerID, ln)]) (conns t), o)
          end
      end
  end.

Definition drop_conn (workerID : string) (t : Transport) : Transport :=
  match connections t !! workerID with
  | None => t
  | Some p => mkTransport (socketDir t) (listeners t) (delete workerID (connections t)) (lns t)
                (pending t) (alter close_conn p (conns t))
  end.
Definition drop_listener (workerID : string) (t : Transport) : Transport :=
  match listeners t !! workerID with
  | None => t
  | Some l => close_ln l (mkTransport (socketDir t) (delete workerID (listeners t)) (connections t)
                            (lns t) (pending t) (conns t))
  end.

(** The first component is the error, always nil. *)
Definition Deregister (workerID : string) (t : Transport) (o : O) : option error * Transport * O :=
  (None, drop_listener workerID (drop_conn workerID t), Remove (socketPath workerID t) o).

(** [o1] and [o2] are the orders in which the runtime ranges over the maps. *)
Definition Close (o1 o2 : list string) (t : Transport) (o : O) : option error * Transport * O :=
  let t := foldl (fun t id => drop_conn id t) t o1 in
  (None, foldl (fun t id => drop_listener id t) t o2,
   foldl (fun o id => Remove (socketPath id t) o) o o2).
End Registration.

(** *** Sending and receiving *)

Definition not_connected (workerID : string) : error :=
  WrapErr "" ErrWorkerNotConnected (": " +:+ workerID).

Definition getConn (workerID : string) (t : Transport) : result nat :=
  match connections t !! workerID with
  | None => Err (not_connected workerID)
  | Some p => Ok p
  end.

Definition write_conn (b : bytes) (c : conn) : option error * conn :=
  if closed c then (Some ErrClosed, c)
  else match fault c with
       | Some e => (Some e, c)
       | None => (None, mkConn (input c) (sent c ++ b) (fault c) (closed c) (heartbeatCh c)
                          (responseCh c) (chClosed c) (pumpErr c))
       end.

Definition Send (workerID : string) (msg : Message) (t : Transport) : option error * Transport :=
  match getConn workerID t with
  | Err err => (Some err, t)
  | Ok p =>
      match conns t !! p with
      | None => (None, t)
      | Some c =>
          let '(err, c') := Write write_conn msg c in (err, with_conns (<[p := c']> (conns t)) t)
      end
  end.

(** The two channels of a connection. *)
Inductive Channel := Heartbeats | Responses.
Definition chan (ch : Channel) (c : conn) : list Message :=
  match ch with Heartbeats => heartbeatCh c | Responses => responseCh c end.
Definition set_chan (ch : Channel) (q : list Message) (c : conn) : conn :=
  match ch with
  | Heartbeats => mkConn (input c) (sent c) (fault c) (closed c) q (responseCh c) (chClosed c) (pumpErr c)
  | Responses => mkConn (input c) (sent c) (fault c) (closed c) (heartbeatCh c) q (chClosed c) (pumpErr c)
  end.

(** The receive of [receiveFrom]; [None] when it would block.  A closed
    channel still delivers what is buffered. *)
Definition poll (workerID : string) (ch : Channel) (c : conn) : option (result Message * conn) :=
  match chan ch c with
  | msg :: q => Some (Ok msg, set_chan ch q c)
  | [] =>
      if chClosed c then
        Some (Err match pumpErr c with
                  | Some pErr => WrapErr "framing: read header: " pErr ""
                  | None => not_connected workerID
                  end, c)
      else None
  end.

(** [receiveFrom], which also tells whether it returned because the context had
    ended, and how.  When the context has ended and a message is there too,
    [select] takes either, so an agenda may begin with [EDone].  An agenda that
    ends while the call waits lets the deadline pass. *)
Fixpoint receiveFrom (workerID : string) (ch : Channel) (p : nat) (agenda : list Event)
    (t : Transport) : result Message * option context_end * (list Event * Transport) :=
  match agenda with
  | EDone e :: agenda' => (Err (ctx_Err e), Some e, (agenda', t))
  | _ =>
      match conns t !! p with
      | None => (Err (ctx_Err ContextDeadline), Some ContextDeadline, (agenda, t))
      | Some c =>
          match poll workerID ch c with
          | Some (r, c') => (r, None, (agenda, with_conns (<[p := c']> (conns t)) t))
          | None =>
              match agenda with
              | [] => (Err (ctx_Err ContextDeadline), Some ContextDeadline, ([], t))
              | e :: agenda' => receiveFrom workerID ch p agenda' (happen e t)
              end
          end
      end
  end.

Definition receive (ch : Channel) (workerID : string) (agenda : list Event) (t : Transport)
    : result Message * option context_end * (list Event * Transport) :=
  match getConn workerID t with
  | Err err => (Err err, None, (agenda, t))
  | Ok p => receiveFrom workerID ch p agenda t
  end.
Definition Receive := receive Heartbeats.
Definition ReceiveResponse := receive Responses.

(** ** What the pump delivers *)

(** The frames meant for a channel. *)
Definition meant (ch : Channel) (m : Message) : bool :=
  match ch with Heartbeats => is_heartbeat m | Responses => is_response m end.

(** A connection run by its pump and its receivers; a receiver that would
    block takes nothing. *)
Inductive Step := SPump | SPoll (ch : Channel).

Fixpoint run_conn (id : string) (ss : list Step) (c : conn) : list (Channel * Message) * conn :=
  match ss with
  | [] => ([], c)
  | SPump :: ss' => run_conn id ss' (pump c)
  | SPoll ch :: ss' =>
      match poll id ch c with
      | Some (Ok msg, c') => let '(got, c'') := run_conn id ss' c' in ((ch, msg) :: got, c'')
      | _ => run_conn id ss' c
      end
  end.

#[export] Instance Channel_eq_dec : EqDecision Channel.
Proof. solve_decision. Defined.

Definition got_from (ch : Channel) (got : list (Channel * Message)) : list Message :=
  (filter (fun x => x.1 = ch) got).*2.
Fixpoint pumps (ss : list Step) : nat :=
  match ss with
  | [] => 0
  | SPump :: ss' => S (pumps ss')
  | SPoll _ :: ss' => pumps ss'
  end.

(** Whenever the pump runs, both channels have room. *)
Fixpoint roomy (id : string) (ss : list Step) (c : conn) : Prop :=
  match ss with
  | [] => True
  | SPump :: ss' =>
      (length (heartbeatCh c) < demuxChanSize)%nat /\ (length (responseCh c) < demuxChanSize)%nat /\
      roomy id ss' (pump c)
  | SPoll ch :: ss' =>
      roomy id ss' (match poll id ch c with Some (Ok _, c') => c' | _ => c end)
  end.

(** A connection with [ms] to come on a healthy socket. *)
Record streaming (ms : list Message) (rest : bytes) (c : conn) : Prop := {
  st_input : concat (input c) = concat (frame <$> ms) ++ rest;
  st_open : closed c = false;
  st_chans : chClosed c = false;
}.

Lemma disjoint_types m : is_heartbeat m = true -> is_response m = false.
Proof.
  unfold is_heartbeat, is_response. rewrite bool_decide_eq_true. intros Hm.
  apply bool_decide_eq_false. revert Hm. rewrite !elem_of_cons, elem_of_nil.
  intros [->|[->|[]]]; by vm_compute; intros [?|[?|[?|[?|[?|[]]]]]].
Qed.

Lemma pump_streaming m ms rest c :
  sendable m -> streaming (m :: ms) rest c ->
  streaming ms rest (pump c) /\
  forall ch, chan ch (pump c) = if meant ch m then offer m (chan ch c) else chan ch c.
Proof.
  intros Hm [Hi Ho Hc]. unfold pump. rewrite Ho, Hc. pose proof (Read_flat (input c)) as Hr.
  destruct (Read (input c)) as [res r]. rewrite Hi, fmap_cons in Hr. cbn [concat] in Hr.
  rewrite <-app_assoc, decode_frame in Hr by done. injection Hr as -> Hr.
  unfold route. pose proof (disjoint_types m). destruct (is_heartbeat m) eqn:Eh; [|destruct (is_response m) eqn:Er];
    (split; [by split|intros []; cbn [meant chan heartbeatCh responseCh]; rewrite ?Eh, ?Er; try done]).
  by rewrite H.
Qed.

Lemma poll_streaming id ch ms rest c :
  streaming ms rest c ->
  match poll id ch c with
  | Some (Ok m, c') => chan ch c = m :: chan ch c' /\ streaming ms rest c' /\
      (forall ch', ch' <> ch -> chan ch' c' = chan ch' c)
  | o => o = None /\ chan ch c = []
  end.
Proof.
  intros [Hi Ho Hc]. unfold poll. destruct (chan ch c) as [|m q] eqn:E; [by rewrite Hc|].
  split_and!; [by destruct ch|by destruct ch|by intros []; destruct ch].
Qed.

Lemma offer_sublist m q : offer m q `sublist_of` q ++ [m].
Proof. unfold offer. case_if; [done|]. by apply sublist_inserts_r. Qed.
Lemma offer_roomy m q : (length q < demuxChanSize)%nat -> offer m q = q ++ [m].
Proof. intros Hq. unfold offer. by rewrite (proj2 (Nat.ltb_lt _ _)). Qed.

Lemma run_conn_fifo id ss ms rest c :
  Forall sendable ms -> streaming ms rest c -> (pumps ss <= length ms)%nat ->
  let '(got, c') := run_conn id ss c in
  forall ch,
    got_from ch got ++ chan ch c' `sublist_of` chan ch c ++ filter (meant ch) (take (pumps ss) ms) /\
    (roomy id ss c -> got_from ch got ++ chan ch c' = chan ch c ++ filter (meant ch) (take (pumps ss) ms)).
Proof.
  revert ms c. induction ss as [|s ss IH]; intros ms c Hms Hst Hn; cbn [run_conn roomy].
  { intros ch. cbn. rewrite take_0. cbn. by rewrite app_nil_r. }
  destruct s as [|ch0].
  - cbn [pumps] in *. destruct ms as [|m ms]; [simpl in Hn; lia|]. simpl in Hn.
    apply Forall_cons in Hms as [Hm Hms]. destruct (pump_streaming _ _ _ _ Hm Hst) as [Hst' Hch].
    specialize (IH ms (pump c) Hms Hst' ltac:(lia)). destruct (run_conn id ss (pump c)) as [got c'].
    intros ch. destruct (IH ch) as [Hsub Heq]. rewrite Hch in Hsub, Heq. cbn [take].
    destruct (meant ch m) eqn:Em.
    + rewrite filter_cons_True by (by rewrite Em). split.
      * etrans; [exact Hsub|]. rewrite (cons_middle m), app_assoc. apply sublist_app; [apply offer_sublist|done].
      * intros (Hh & Hr & Hroom). rewrite (Heq Hroom), offer_roomy by (by destruct ch).
        by rewrite <-app_assoc.
    + rewrite filter_cons_False by (rewrite Em; by intros []). split; [done|]. intros (_ & _ & ?). auto.
  - cbn [pumps] in *. pose proof (poll_streaming id ch0 _ _ _ Hst) as Hpoll.
    destruct (poll id ch0 c) as [[[m|e] c1]|]; [|by destruct Hpoll|by apply IH].
    destruct Hpoll as (Hc & Hst' & Hne). specialize (IH ms c1 Hms Hst' Hn).
    destruct (run_conn id ss c1) as [got c']. intros ch. destruct (IH ch) as [Hsub Heq].
    unfold got_from in *. destruct (decide (ch0 = ch)) as [<-|Hd].
    + rewrite filter_cons_True by done. rewrite fmap_cons. cbn [fst snd app]. rewrite Hc.
      split; [by apply sublist_skip|]. intros Hroom. cbn. by rewrite (Heq Hroom).
    + rewrite filter_cons_False by done. by rewrite <-(Hne ch) by done.
Qed.

(** C32: First in, first out, by class.  Whatever the fragmentation of the bytes
    and the interleaving of the pump with the two receivers, each receiver is
    handed messages of its own class only, in the order the worker sent them
    and each at most once; and if no channel is full when the pump runs, the
    messages received followed by the ones buffered are exactly those of that
    class among the frames read so far, so nothing is lost. *)
Theorem demux_fifo (id : string) (ss : list Step) (ms : list Message) (r : reader) (rest : bytes)
    (ch : Channel) :
  Forall sendable ms -> concat r = concat (frame <$> ms) ++ rest -> (pumps ss <= length ms)%nat ->
  let '(got, c) := run_conn id ss (new_conn r) in
  got_from ch got ++ chan ch c `sublist_of` filter (meant ch) (take (pumps ss) ms) /\
  (roomy id ss (new_conn r) -> got_from ch got ++ chan ch c = filter (meant ch) (take (pumps ss) ms)).
Proof.
  intros Hms Hr Hn. pose proof (run_conn_fifo id ss ms rest (new_conn r) Hms) as Hrun.
  destruct (run_conn id ss (new_conn r)) as [got c].
  specialize (Hrun ltac:(by split) Hn ch). by destruct ch.
Qed.

(** ** The client ([client.go])

    The worker's end of a connection: what will come in, what was written. *)
Record Client := mkClient {
  cl_input : reader;
  cl_sent : bytes;
  cl_fault : option error;
  cl_closed : bool;
}.

(** [DialContext] is the socket's: the stream of a connection, or an error. *)
Definition Dial (DialContext : string -> result reader) (path : string) : result Client :=
  match DialContext path with
  | Err err => Err (WrapErr ("uds: dial " +:+ path +:+ ": ") err "")
  | Ok r => Ok (mkClient r [] None false)
  end.

Definition Client_write (b : bytes) (c : Client) : option error * Client :=
  if cl_closed c then (Some ErrClosed, c)
  else match cl_fault c with
       | Some e => (Some e, c)
       | None => (None, mkClient (cl_input c) (cl_sent c ++ b) None (cl_closed c))
       end.
Definition Client_Send (msg : Message) (c : Client) : option error * Client := Write Client_write msg c.

Definition Client_Receive (c : Client) : result Message * Client :=
  if cl_closed c then (Err (WrapErr "framing: read header: " ErrClosed ""), c)
  else let '(res, r) := Read (cl_input c) in (res, mkClient r (cl_sent c) (cl_fault c) (cl_closed c)).

Definition Client_Close (c : Client) : option error * Client :=
  if cl_closed c then (Some ErrClosed, c) else (None, mkClient (cl_input c) (cl_sent c) (cl_fault c) true).

(** The errors of sending [ms] one after the other. *)
Fixpoint Client_Sends (ms : list Message) (c : Client) : list (option error) * Client :=
  match ms with
  | [] => ([], c)
  | m :: ms' => let '(e, c) := Client_Send m c in let '(es, c) := Client_Sends ms' c in (e :: es, c)
  end.

Lemma Client_Sends_frames ms c :
  cl_fault c = None -> cl_closed c = false ->
  exists c', Client_Sends ms c = (replicate (length ms) None, c') /\ cl_sent c' = cl_sent c ++ concat (frame <$> ms).
Proof.
  revert c. induction ms as [|m ms IH]; intros c Hf Hc; cbn [Client_Sends].
  { exists c. split; [done|]. by rewrite app_nil_r. }
  unfold Client_Send, Write, Client_write. rewrite Hc, Hf.
  destruct (IH (mkClient (cl_input c) (cl_sent c ++ frame m) None false)) as (c' & -> & Hs); [done..|].
  exists c'. split; [done|]. rewrite Hs. cbn. by rewrite <-app_assoc.
Qed.

(** What a client that has just dialled sends is what the core's end of the
    connection demultiplexes, whatever the pieces it arrives in: this is the
    stream that [demux_fifo] speaks of. *)
Theorem client_is_heard DialContext path c ms r :
  Dial DialContext path = Ok c -> concat r = cl_sent (Client_Sends ms c).2 -> streaming ms [] (new_conn r).
Proof.
  unfold Dial. destruct (DialContext path) as [i|]; [|done]. intros [= <-].
  destruct (Client_Sends_frames ms (mkClient i [] None false)) as (c' & -> & Hs); [done..|]. intros Hr. split; [|done..].
  cbn in *. by rewrite app_nil_r, Hr, Hs.
Qed.

(** ** The transport under the dispatcher

    The agenda of the calls to come and the transport. *)
Definition Wire : Type := list Event * Transport.

#[export] Instance uds_wire : Dispatcher.Transport Wire := {
  Dispatcher.Send workerID msg w := let '(err, t) := Send workerID msg w.2 in (err, (w.1, t));
  Dispatcher.ReceiveResponse workerID w :=
    let '(res, ended, w) := ReceiveResponse workerID w.1 w.2 in (res, bool_decide (is_Some ended), w);
}.

(** A connection on which nothing is buffered and [answers] are to come. *)
Record serving (id : string) (p : nat) (answers : list Message) (rest : bytes) (t : Transport) : Prop := {
  sv_conn : connections t !! id = Some p;
  sv_state : exists c, conns t !! p = Some c /\ streaming answers rest c /\ fault c = None /\ responseCh c = [];
}.

Lemma serving_send id p answers rest msg t :
  serving id p answers rest t ->
  exists t', Send id msg t = (None, t') /\ serving id p answers rest t'.
Proof.
  intros [Hc (c & Hp & Hst & Hf & Hq)]. unfold Send, getConn. rewrite Hc, Hp.
  unfold Write, write_conn. rewrite (st_open _ _ _ Hst), Hf. eexists. split; [done|].
  split; [done|]. eexists. split.
  - cbn [with_conns conns]. apply list_lookup_insert_eq. by eapply lookup_lt_Some.
  - destruct Hst. by split_and!.
Qed.

Lemma serving_ended id p answers rest agenda e t :
  serving id p answers rest t ->
  ReceiveResponse id (EDone e :: agenda) t = (Err (ctx_Err e), Some e, (agenda, t)).
Proof. intros [Hc _]. unfold ReceiveResponse, receive, getConn. by rewrite Hc. Qed.

Lemma serving_receive id p a answers rest n t :
  serving id p (a :: answers) rest t -> sendable a -> is_response a = true ->
  exists t', ReceiveResponse id (EPump p :: replicate n (EPump p)) t
    = (Ok a, None, (replicate n (EPump p), t')) /\ serving id p answers rest t'.
Proof.
  intros [Hc (c & Hp & Hst & Hf & Hq)] Ha Hr. unfold ReceiveResponse, receive, getConn. rewrite Hc.
  cbn [receiveFrom]. rewrite Hp. unfold poll at 1. cbn [chan]. rewrite Hq, (st_chans _ _ _ Hst).
  destruct (pump_streaming _ _ _ _ Ha Hst) as [Hst' Hch]. specialize (Hch Responses).
  cbn [meant chan] in Hch. rewrite Hr, Hq in Hch.
  set (t1 := happen (EPump p) t).
  assert (conns t1 !! p = Some (pump c)) as Hp'.
  { cbn. by rewrite list_lookup_alter_eq, Hp. }
  assert (fault (pump c) = None) as Hf'.
  { unfold pump, fail_pump, route. repeat case_match; simpl; congruence. }
  assert (poll id Responses (pump c) = Some (Ok a, set_chan Responses [] (pump c))) as Hpoll.
  { unfold poll. cbn [chan]. by rewrite Hch. }
  eexists. split.
  - destruct n; cbn [replicate receiveFrom]; rewrite Hp', Hpoll; reflexivity.
  - split; [done|]. eexists. split.
    + cbn [with_conns conns]. apply list_lookup_insert_eq. by eapply lookup_lt_Some.
    + destruct Hst'. by split_and!.
Qed.

Lemma worker_failed_wire {H} (d : Dispatcher (H:=H)) now key id e (r : Run (T:=Wire) (H:=H)) :
  wire (wd (worker_failed d now key id e r)) = wire (wd r).
Proof. by destruct (worker_failed_frame d now key id e r) as (_ & -> & _). Qed.

(** ** Witnesses *)

Definition answer (s : string) : Message := mkMessage TypeResponse (of_string s).
Definition beat : Message := mkMessage TypeHeartbeat [].

(** Two frames and a half in pieces of odd sizes. *)
Definition three_frames : reader :=
  let b := concat (frame <$> [answer "first"; beat; answer "second"]) in
  [take 3 b; take 9 (drop 3 b); drop 12 b].

Lemma demux_fifo_witness :
  got_from Responses (run_conn "w" [SPump; SPump; SPoll Responses; SPump; SPoll Heartbeats] (new_conn three_frames)).1
    ++ chan Responses (run_conn "w" [SPump; SPump; SPoll Responses; SPump; SPoll Heartbeats] (new_conn three_frames)).2
  = [answer "first"; answer "second"].
Proof.
  pose proof (demux_fifo "w" [SPump; SPump; SPoll Responses; SPump; SPoll Heartbeats]
    [answer "first"; beat; answer "second"] three_frames [] Responses) as Hd.
  destruct (run_conn "w" [SPump; SPump; SPoll Responses; SPump; SPoll Heartbeats] (new_conn three_frames))
    as [got c] eqn:E.
  destruct Hd as [_ Heq]; [by_compute|vm_compute; reflexivity|vm_compute; lia|].
  cbn [fst snd]. rewrite Heq; [vm_compute; reflexivity|]. vm_compute. lia.
Defined.

(** A worker with two answers to come and a request that waits for it. *)
Definition slow_worker : Transport :=
  accept "node:admin" [concat (frame <$> [answer "for alice"; answer "for bob"])] (New "/tmp/vyx").
Definition waiting : Run (T:=Wire) (H:=AccessLog) :=
  mkRun (mkWorld (NewRegistry demo_config false) None None demo_heap ([], slow_worker) (mkAccessLog ∅ []))
    (NewLifecycleContext (ask "/health" "")) 0.
