(* ===== verification/Concurrent.v ===== *)
(** * Requests under way at the same time

    The server runs [Dispatch] in one goroutine per request, over breakers,
    a drainer, pools and a transport that all of them share.  Here a request
    is a thread that takes [Dispatch] apart into its calls on the shared
    parts, and a schedule is a list of turns: one call of one thread, or
    something that the rest of the program does.  A thread that runs alone is
    [Dispatch] of [Dispatcher.v]; the theorems about schedules say what is left
    of its guarantees when requests and the stopping of workers interleave. *)
From S2P Require Import Prelude GoStrings Ipc RouteMap Circuit Worker Pool PoolManager Drainer Gateway Dispatcher DispatchFacts Uds.
Local Open Scope string_scope.
Local Open Scope list_scope.
Local Open Scope Z_scope.

Section Threads.
Context {T : Type} `{TR : !Dispatcher.Transport T} {H : Type} (enc : Encoding).
Notation World := (World (T:=T) (H:=H)).
Notation Run := (Run (T:=T) (H:=H)).
Notation Dispatcher := (Dispatcher (H:=H)).
Notation Reply := (Reply (T:=T) (H:=H)).
Implicit Types (w : World) (r : Run) (d : Dispatcher).

(** ** The exchange in two halves

    [sendAndReceive] around the wait for the answer. *)
Definition send_half d (now : Z) (key workerID : string) (payload : bytes) : Run -> option received * Run := fun r =>
  let '(serr, t1) := Dispatcher.Send workerID (mkMessage TypeRequest payload) (wire (wd r)) in
  let r := on_wd (w_wire t1) r in
  match serr with
  | Some err => (Some (Failed None), handleSendError d now key workerID err r)
  | None => (None, r)
  end.

Definition receive_half d (now : Z) (key workerID correlationID : string) : Run -> received * Run := fun r =>
  let '(rmsg, expired, t2) := Dispatcher.ReceiveResponse workerID (wire (wd r)) in
  let r := on_wd (w_wire t2) r in
  match rmsg with
  | Err err => (Failed None, handleReceiveError d now key workerID expired err r)
  | Ok msg =>
      if decide (mtype msg = TypeError) then
        let '(resp, r) := handleWorkerError d now key workerID msg r in (Failed resp, r)
      else (decodeWorkerResponse enc msg correlationID, r)
  end.

Lemma exchange_halves d now key id payload cid r :
  exchange enc d now key id payload cid r =
  match send_half d now key id payload r with
  | (Some res, r) => (res, r)
  | (None, r) => receive_half d now key id cid r
  end.
Proof. unfold exchange, send_half, receive_half. by destruct (Dispatcher.Send _ _ _) as [[err|] t1]. Qed.

(** ** Threads

    Where a thread stands: what it calls next, with what it has in its local
    variables. *)
Inductive Pc :=
  | Begin (uuid : string) (rq : GatewayRequest)
  | Checking (n : nat) (key cid : string)
  | Selecting (key cid : string)
  | Acquiring (key cid id : string) (payload : bytes)
  | Tracking (key cid id : string) (payload : bytes)
  | Sending (key cid id : string) (payload : bytes)
  | Receiving (key cid id : string)
  | Untracking (key cid id : string) (res : received)
  | Processing (key cid : string) (wr : WorkerResponse)
  | Releasing (resp : option GatewayResponse) (err : option error)
  | Ending (resp : option GatewayResponse) (err : option error)
  | Done (resp : option GatewayResponse) (err : option error).

(** The clock of the thread, its lifecycle context and status code. *)
Record Thread := mkThread { t_clk : nat -> Z; pc : Pc; t_lc : LifecycleContext; t_code : Z }.

Definition run_of (th : Thread) w : Run := mkRun w (t_lc th) (t_code th).
Definition resume (th : Thread) (p : Pc) r : Thread * World := (mkThread (t_clk th) p (lc r) (code r), wd r).

Definition start (clk : nat -> Z) (uuid : string) (rq : GatewayRequest) : Thread :=
  mkThread clk (Begin uuid rq) (NewLifecycleContext rq) 0.

(** The stages of [checks]. *)
Definition stages (clk : nat -> Z) d (key : string) : list (Stage (T:=T) (H:=H)) :=
  [checkCircuitBreaker (clk 1%nat) key; runRouteMatchHooks d; checkDrainStatus; validateJWT d; validateSchema d;
   runPreDispatchHooks (clk 2%nat) d].

(** A turn of a thread.  The request does not change between [Selecting] and
    [Receiving], so the correlation id that [sendAndReceive] reads at its start
    is still there. *)
Definition turn d (th : Thread) w : outcome (Thread * World) :=
  let r := run_of th w in
  match pc th with
  | Begin uuid rq =>
      let '(cid, rq) := initCorrelationID uuid rq in
      let r := mkRun w (lc_correlation cid (NewLifecycleContext rq)) 0 in
      match lookupRoute d r with
      | (None, r) => Ret (resume th (Ending None (Some ErrRouteNotFound)) r)
      | (Some rt, r) =>
          let r := on_lc (fun l => lc_request (set_Params (RouteParams l) (Request l)) l) r in
          let key := routeKey (Method (req r)) (re_path rt) in
          Ret (resume th (Checking 0 key cid) (on_wd (fun w => (on_breaker key (fun b => (tt, b)) w).2) r))
      end
  | Checking n key cid =>
      match stages (t_clk th) d key !! n with
      | None => Ret (resume th (Selecting key cid) r)
      | Some stage =>
          match stage r with
          | Panic e => Panic e
          | Ret (Stop resp, r) => Ret (resume th (Ending resp (lcErr (lc r))) r)
          | Ret (Continue, r) => Ret (resume th (Checking (S n) key cid) r)
          end
      end
  | Selecting key cid =>
      let r := on_wd (fun w => (on_breaker key (fun b => (tt, b)) w).2) r in
      match selectWorker (re_workerID (Dispatcher.route r)) (wd r) with
      | Panic e => Panic e
      | Ret (sel, w) =>
          let id := if String.eqb sel "" then re_workerID (Dispatcher.route r) else sel in
          let r := mkRun w (lc r) (code r) in
          match buildIPCPayload enc d (req r) (req_correlation r) with
          | Err _ => let r := set_code 500 r in Ret (resume th (Releasing None (lcErr (lc r))) r)
          | Ok payload => Ret (resume th (Acquiring key cid id payload) r)
          end
      end
  | Acquiring key cid id payload =>
      match acquire id r with
      | Panic e => Panic e
      | Ret r => Ret (resume th (Tracking key cid id payload) r)
      end
  | Tracking key cid id payload =>
      Ret (resume th (Sending key cid id payload) (on_wd (track IncrementActiveReqs id) r))
  | Sending key cid id payload =>
      match send_half d (t_clk th 3%nat) key id payload r with
      | (Some res, r) => Ret (resume th (Untracking key cid id res) r)
      | (None, r) => Ret (resume th (Receiving key cid id) r)
      end
  | Receiving key cid id =>
      let '(res, r) := receive_half d (t_clk th 3%nat) key id (req_correlation r) r in
      Ret (resume th (Untracking key cid id res) r)
  | Untracking key cid id res =>
      let r := on_wd (track DecrementActiveReqs id) r in
      Ret (resume th match res with
                     | Failed resp => Releasing resp (lcErr (lc r))
                     | Decoded wr => Processing key cid wr
                     end r)
  | Processing key cid wr =>
      let '(resp, r) := processWorkerResponse d (t_clk th 4%nat) key cid wr r in
      Ret (resume th (Releasing (Some resp) None) r)
  | Releasing resp err =>
      match releaseInFlight r with
      | Panic e => Panic e
      | Ret r => Ret (resume th (Ending resp err) r)
      end
  | Ending resp err =>
      Ret (resume th (Done resp err) (notifyListeners (time_sub (t_clk th 5%nat) (t_clk th 0%nat)) d r))
  | Done _ _ => Ret (th, w)
  end.

Fixpoint turns (n : nat) d (th : Thread) w : outcome (Thread * World) :=
  match n with
  | 0%nat => Ret (th, w)
  | S n' => '(th, w) ← turn d th w; turns n' d th w
  end.

(** ** A thread alone *)

Lemma turns_done n d th w resp err : pc th = Done resp err -> turns n d th w = Ret (th, w).
Proof. intros Hp. induction n as [|n IH]; [done|]. cbn [turns]. unfold turn. rewrite Hp. exact IH. Qed.

(** The thread when [Dispatch] has returned, and when its body has. *)
Definition returned (clk : nat -> Z) (o : outcome Reply) : outcome (Thread * World) :=
  match o with
  | Panic e => Panic e
  | Ret reply => Ret (mkThread clk (Done (response reply) (err reply)) (lc (final reply)) (code (final reply)), wd (final reply))
  end.
Definition notified (clk : nat -> Z) d (o : outcome Reply) : outcome Reply :=
  match o with
  | Panic e => Panic e
  | Ret reply =>
      Ret (mkReply (response reply) (err reply) (notifyListeners (time_sub (clk 5%nat) (clk 0%nat)) d (final reply)))
  end.
Definition ended (clk : nat -> Z) d (o : outcome Reply) : outcome (Thread * World) := returned clk (notified clk d o).

Definition at_pc (clk : nat -> Z) (p : Pc) r : Thread := mkThread clk p (lc r) (code r).

Lemma run_of_at clk p r : run_of (at_pc clk p r) (wd r) = r.
Proof. by destruct r. Qed.
Lemma turns_S n d th w : turns (S n) d th w = '(th, w) ← turn d th w; turns n d th w.
Proof. done. Qed.

Lemma turns_next n d c p p' r r' :
  turn d (at_pc c p r) (wd r) = Ret (resume (at_pc c p r) p' r') ->
  turns (S n) d (at_pc c p r) (wd r) = turns n d (at_pc c p' r') (wd r').
Proof. intros Ht. rewrite turns_S, Ht. done. Qed.

Lemma turns_ending clk d resp err r n :
  turns (S n) d (at_pc clk (Ending resp err) r) (wd r) = ended clk d (Ret (mkReply resp err r)).
Proof. rewrite turns_S. unfold turn. rewrite run_of_at. cbn. by erewrite turns_done. Qed.

Lemma turns_releasing clk d resp err r n :
  turns (S (S n)) d (at_pc clk (Releasing resp err) r) (wd r) =
  ended clk d (r ← releaseInFlight r; Ret (mkReply resp err r)).
Proof.
  rewrite turns_S. unfold turn. rewrite run_of_at. cbn [pc at_pc].
  destruct (releaseInFlight r) as [r'|]; [|done]. apply turns_ending.
Qed.

Lemma released_err resp r :
  (r' ← releaseInFlight r; Ret (mkReply resp (lcErr (lc r')) r')) =
  (r' ← releaseInFlight r; Ret (mkReply resp (lcErr (lc r)) r')).
Proof. destruct (releaseInFlight r) as [r'|] eqn:E; [|done]. cbn. by destruct (releaseInFlight_frame _ _ E) as (_ & -> & _). Qed.

Lemma turns_received clk d key cid id res r n :
  turns (S (S (S (S n)))) d (at_pc clk (Untracking key cid id res) r) (wd r) =
  ended clk d
    (let r := on_wd (track DecrementActiveReqs id) r in
     match res with
     | Failed resp => r' ← releaseInFlight r; Ret (mkReply resp (lcErr (lc r')) r')
     | Decoded wr =>
         let '(resp, r) := processWorkerResponse d (clk 4%nat) key cid wr r in
         r' ← releaseInFlight r; Ret (mkReply (Some resp) None r')
     end).
Proof.
  set (r1 := on_wd _ r). cbv zeta. destruct res as [wr|resp].
  - rewrite turns_next with (p' := Processing key cid wr) (r' := r1) by (unfold turn; by rewrite run_of_at).
    destruct (processWorkerResponse d (clk 4%nat) key cid wr r1) as [resp r2] eqn:EP.
    rewrite turns_next with (p' := Releasing (Some resp) None) (r' := r2)
      by (unfold turn; rewrite run_of_at; cbn [pc at_pc t_clk]; by rewrite EP).
    apply turns_releasing.
  - rewrite turns_next with (p' := Releasing resp (lcErr (lc r1))) (r' := r1) by (unfold turn; by rewrite run_of_at).
    rewrite turns_releasing. by rewrite released_err.
Qed.

Lemma acquire_request id r r' : acquire id r = Ret r' -> req_correlation r' = req_correlation r.
Proof. unfold acquire. destruct (drainer _); [destruct (Acquire _ _); [|done]|]; by intros [= <-]. Qed.
Lemma send_half_request d now key id payload r r' :
  send_half d now key id payload r = (None, r') -> req_correlation r' = req_correlation r.
Proof. unfold send_half. destruct (Dispatcher.Send _ _ _) as [[err|] t1]; [done|]. by intros [= <-]. Qed.

Lemma turns_selecting clk d key cid r n :
  turns (10 + n) d (at_pc clk (Selecting key cid) r) (wd r) =
  ended clk d
    match sendAndReceive enc d (clk 3%nat) key r with
    | Panic e => Panic e
    | Ret (Failed resp, r) => r' ← releaseInFlight r; Ret (mkReply resp (lcErr (lc r')) r')
    | Ret (Decoded wr, r) =>
        let '(resp, r) := processWorkerResponse d (clk 4%nat) key cid wr r in
        r' ← releaseInFlight r; Ret (mkReply (Some resp) None r')
    end.
Proof.
  unfold sendAndReceive. set (r0 := on_wd _ r). cbn [Nat.add]. cbv zeta.
  destruct (selectWorker (re_workerID (Dispatcher.route r0)) (wd r0)) as [[sel w1]|] eqn:ES.
  2: { rewrite turns_S. unfold turn. rewrite run_of_at. cbn [pc at_pc]. fold r0. by rewrite ES. }
  set (id := if String.eqb sel "" then _ else _). set (r1 := mkRun w1 _ _).
  change (req_correlation r) with (req_correlation r1).
  destruct (buildIPCPayload enc d (req r1) (req_correlation r1)) as [payload|e] eqn:EB.
  2: { rewrite turns_next with (p' := Releasing None (lcErr (lc r1))) (r' := set_code 500 r1)
         by (unfold turn; rewrite run_of_at; cbn [pc at_pc]; fold r0; rewrite ES; fold r1; by rewrite EB).
       rewrite turns_releasing. by rewrite released_err. }
  rewrite turns_next with (p' := Acquiring key cid id payload) (r' := r1)
    by (unfold turn; rewrite run_of_at; cbn [pc at_pc]; fold r0; rewrite ES; fold r1; by rewrite EB).
  destruct (acquire id r1) as [r2|] eqn:EA.
  2: { rewrite turns_S. unfold turn. rewrite run_of_at. cbn [pc at_pc]. by rewrite EA. }
  rewrite turns_next with (p' := Tracking key cid id payload) (r' := r2)
    by (unfold turn; rewrite run_of_at; cbn [pc at_pc]; by rewrite EA).
  set (r3 := on_wd _ r2). rewrite turns_next with (p' := Sending key cid id payload) (r' := r3)
    by (unfold turn; by rewrite run_of_at).
  rewrite exchange_halves. destruct (send_half d (clk 3%nat) key id payload r3) as [[res|] r4] eqn:EX.
  { rewrite turns_next with (p' := Untracking key cid id res) (r' := r4)
      by (unfold turn; rewrite run_of_at; cbn [pc at_pc t_clk]; by rewrite EX).
    rewrite turns_received. by destruct res. }
  rewrite turns_next with (p' := Receiving key cid id) (r' := r4)
    by (unfold turn; rewrite run_of_at; cbn [pc at_pc t_clk]; by rewrite EX).
  replace (req_correlation r1) with (req_correlation r4) by (etransitivity; [exact (send_half_request _ _ _ _ _ _ _ EX)|exact (acquire_request _ _ _ EA)]).
  destruct (receive_half d (clk 3%nat) key id (req_correlation r4) r4) as [res r5] eqn:ER.
  rewrite turns_next with (p' := Untracking key cid id res) (r' := r5)
    by (unfold turn; rewrite run_of_at; cbn [pc at_pc t_clk]; by rewrite ER).
  rewrite turns_received. by destruct res.
Qed.

(** The remaining stages, from the [n]-th on. *)
Fixpoint run_stages (ss : list (Stage (T:=T) (H:=H))) : Stage := fun r =>
  match ss with
  | [] => Ret (Continue, r)
  | s :: ss' => seq s (run_stages ss') r
  end.

Lemma checks_stages c d key r : checks c d key r = run_stages (stages c d key) r.
Proof.
  unfold checks, stages. cbn [run_stages]. unfold seq. repeat (case_match; try done).
Qed.

Lemma turn_checking c d key cid n s r :
  stages c d key !! n = Some s ->
  turn d (at_pc c (Checking n key cid) r) (wd r) =
  match s r with
  | Panic e => Panic e
  | Ret (Stop resp, r') => Ret (resume (at_pc c (Checking n key cid) r) (Ending resp (lcErr (lc r'))) r')
  | Ret (Continue, r') => Ret (resume (at_pc c (Checking n key cid) r) (Checking (S n) key cid) r')
  end.
Proof.
  intros Hn. unfold turn. rewrite run_of_at. cbn [pc at_pc t_clk]. by destruct (stages c d key !! n); [injection Hn as ->|].
Qed.

Lemma turns_checking c d key cid ss n r m :
  drop n (stages c d key) = ss -> (0 < m)%nat ->
  turns (length ss + m) d (at_pc c (Checking n key cid) r) (wd r) =
  match run_stages ss r with
  | Panic e => Panic e
  | Ret (Stop resp, r') => ended c d (Ret (mkReply resp (lcErr (lc r')) r'))
  | Ret (Continue, r') => turns m d (at_pc c (Checking (n + length ss) key cid) r') (wd r')
  end.
Proof.
  revert n r. induction ss as [|s ss IH]; intros n r Hss Hm; cbn [length run_stages].
  { by rewrite Nat.add_0_r. }
  assert (stages c d key !! n = Some s) as Hn.
  { rewrite <-(Nat.add_0_r n), <-lookup_drop. by rewrite Hss. }
  assert (drop (S n) (stages c d key) = ss) as Hss'.
  { replace (S n) with (n + 1)%nat by lia. by rewrite <-drop_drop, Hss. }
  cbn [Nat.add]. unfold seq. destruct (s r) as [[[|resp] r']|] eqn:Es.
  - rewrite turns_next with (p' := Checking (S n) key cid) (r' := r')
      by (rewrite (turn_checking _ _ _ _ _ _ _ Hn); by rewrite Es).
    rewrite IH by done. by rewrite Nat.add_succ_comm.
  - rewrite turns_next with (p' := Ending resp (lcErr (lc r'))) (r' := r')
      by (rewrite (turn_checking _ _ _ _ _ _ _ Hn); by rewrite Es).
    destruct m as [|m]; [lia|]. rewrite Nat.add_succ_r. apply turns_ending.
  - rewrite turns_S, (turn_checking _ _ _ _ _ _ _ Hn). by rewrite Es.
Qed.

(** A request that has the gateway to itself.  A thread that takes all its
    turns without interruption ends as [Dispatch] does: with its response and
    error, in its state of the gateway, and with a panic where it panics; 18
    turns are enough, and more change nothing. *)
Theorem alone_is_Dispatch c uuid d rq w n :
  turns (18 + n) d (start c uuid rq) w = returned c (Dispatch enc c uuid d rq w).
Proof.
  cbn [Nat.add]. rewrite turns_S. unfold turn at 1, Dispatch. cbn [pc start]. destruct (initCorrelationID uuid rq) as [cid rq'].
  destruct (lookupRoute d _) as [[rt|] r].
  2: { exact (turns_ending c d None (Some ErrRouteNotFound) r (16 + n)). }
  cbv zeta. set (r1 := on_wd _ (on_lc _ r)). set (key := routeKey _ _).
  etransitivity.
  { apply (turns_checking c d key cid (stages c d key) 0 r1 (11 + n)); [done|lia]. }
  cbn [Nat.add]. unfold serve. rewrite checks_stages.
  destruct (run_stages _ r1) as [[[|resp] r2]|]; [|done|done].
  rewrite turns_next with (p' := Selecting key cid) (r' := r2) by (unfold turn; by rewrite run_of_at).
  exact (turns_selecting c d key cid r2 n).
Qed.

(** ** Schedules

    The requests of the server and the gateway they share.  In a step one of
    the requests takes a turn, or something else in the program changes the
    gateway, as far as [others] lets it. *)
Record System := mkSystem { threads : list Thread; gateway : World }.

Inductive step (others : relation World) d : System -> System -> Prop :=
  | step_turn s i th th' w' :
      threads s !! i = Some th -> turn d th (gateway s) = Ret (th', w') ->
      step others d s (mkSystem (<[i := th']> (threads s)) w')
  | step_other s w' :
      others (gateway s) w' -> step others d s (mkSystem (threads s) w').

(** The turns of a list of requests, by their numbers. *)
Fixpoint run_turns d (order : list nat) (s : System) : outcome System :=
  match order with
  | [] => Ret s
  | i :: order' =>
      match threads s !! i with
      | None => run_turns d order' s
      | Some th => '(th, w) ← turn d th (gateway s); run_turns d order' (mkSystem (<[i := th]> (threads s)) w)
      end
  end.

Lemma run_turns_steps others d order s s' : run_turns d order s = Ret s' -> rtc (step others d) s s'.
Proof.
  revert s. induction order as [|i order IH]; intros s; cbn [run_turns]; [by intros [= <-]|].
  destruct (threads s !! i) as [th|] eqn:Hi; [|apply IH]. destruct (turn d th (gateway s)) as [[th' w']|] eqn:Ht; [|done].
  intros Hrun%IH. eapply rtc_l; [|exact Hrun]. by eapply step_turn.
Qed.

(** Requests that have just come in. *)
Definition arriving (ths : list Thread) : Prop :=
  Forall (fun th => exists c uuid rq, th = start c uuid rq) ths.

(** ** What is counted

    The worker for which a thread is counted as in flight, and the one for
    which it is counted as active. *)
Definition holding (th : Thread) : option string :=
  match pc th with
  | Tracking _ _ _ _ | Sending _ _ _ _ | Receiving _ _ _ | Untracking _ _ _ _ | Processing _ _ _ | Releasing _ _ =>
      if String.eqb (lcWorkerID (t_lc th)) "" then None else Some (lcWorkerID (t_lc th))
  | _ => None
  end.
Definition active (th : Thread) : option string :=
  match pc th with
  | Sending _ _ id _ | Receiving _ _ id | Untracking _ _ id _ => Some id
  | _ => None
  end.

(** One if the thread counts for [id]. *)
Definition unit_of (f : Thread -> option string) (id : string) (th : Thread) : Z :=
  if decide (f th = Some id) then 1 else 0.
Definition number (f : Thread -> option string) (id : string) (ths : list Thread) : Z :=
  Z.of_nat (length (filter (fun th => f th = Some id) ths)).

(** The active requests of a worker in its pool. *)
Definition load (id : string) w : option Z := loads (poolMgr w) !! extractPrefix id ≫= fun m => m !! id.

Lemma number_cons f id th ths : number f id (th :: ths) = unit_of f id th + number f id ths.
Proof. unfold number, unit_of. rewrite filter_cons. case_decide; simpl; lia. Qed.
Lemma number_insert f id ths i th th' :
  ths !! i = Some th -> number f id (<[i := th']> ths) = number f id ths + unit_of f id th' - unit_of f id th.
Proof.
  revert i. induction ths as [|x ths IH]; intros [|i] Hi; simpl in *; [done..| |].
  - injection Hi as ->. rewrite !number_cons. lia.
  - rewrite !number_cons, IH by done. lia.
Qed.
Lemma number_at_least f id ths i th : ths !! i = Some th -> unit_of f id th <= number f id ths.
Proof.
  intros Hi. rewrite <-(take_drop_middle _ _ _ Hi). unfold number. rewrite filter_app, length_app, filter_cons.
  unfold unit_of. case_decide; simpl; lia.
Qed.

(** *** The stages leave the counters alone *)

Lemma on_breaker_wire {A} key (f : Breaker -> A * Breaker) w : wire (on_breaker key f w).2 = wire w.
Proof. unfold on_breaker. destruct (Circuit.Get _ _) as [p reg]. by destruct (f _). Qed.

Lemma stage_frame c d key n st r v r' :
  Forall transparent (Dispatcher.listeners d) -> stages c d key !! n = Some st -> st r = Ret (v, r') ->
  counters_same (wd r) (wd r') /\ wire (wd r') = wire (wd r) /\
  lcWorkerID (lc r') = lcWorkerID (lc r) /\ Route (lc r') = Route (lc r).
Proof.
  intros Hls Hn Hs. unfold stages in Hn.
  assert (forall w w', core_eq w w' -> counters_same w w' /\ wire w' = wire w) as Hcore.
  { intros w w' Hc. split; [by apply counters_core|]. by destruct (core_eq_fields _ _ Hc) as (_ & _ & _ & _ & ?). }
  destruct n as [|[|[|[|[|[|n]]]]]]; cbn in Hn; try injection Hn as <-; [| | | | | |done].
  - unfold checkCircuitBreaker in Hs. set (f := fun b => _) in Hs.
    pose proof (counters_breaker key f (wd r)) as Hc. pose proof (on_breaker_wire key f (wd r)) as Hw.
    destruct (on_breaker _ _ _) as [[[] st] w]; injection Hs as <- <-; done.
  - destruct (routeMatch_loop_spec _ _ _ _ Hls Hs) as (Hc & _ & ? & ?). by destruct (Hcore _ _ Hc).
  - destruct (checkDrainStatus_spec _ _ _ Hs) as (-> & _ & ? & ? & _). done.
  - destruct (validateJWT_spec _ _ _ _ Hs) as (-> & _ & ? & ? & _). done.
  - destruct (validateSchema_spec _ _ _ _ Hs) as (-> & ? & ? & _). done.
  - destruct (preDispatch_loop_core _ _ _ _ _ _ Hs) as (Hc & ? & ?). by destruct (Hcore _ _ Hc).
Qed.

Lemma stage_panic c d key n st r e : stages c d key !! n = Some st -> st r = Panic e -> e = "nil pointer dereference".
Proof.
  intros Hn Hp. unfold stages in Hn. destruct n as [|[|[|[|[|[|n]]]]]]; cbn in Hn; try injection Hn as <-; [| | | | | |done].
  - by apply checkCircuitBreaker_panic in Hp.
  - by apply runRouteMatchHooks_panic in Hp.
  - by apply checkDrainStatus_panic in Hp.
  - by eapply validateJWT_panic.
  - by eapply validateSchema_panic.
  - by apply runPreDispatchHooks_panic in Hp.
Qed.

(** *** What a turn does to the counters *)

Definition drainer_sound w : Prop := forall dr, drainer w = Some dr -> drainer_ok dr.
Definition count_at (id : string) w : Z := match drainer w with Some dr => default 0 (count id dr) | None => 0 end.
Definition loads_sound w : Prop := forall id n, load id w = Some n -> int64 n.

Lemma counters_same_counts w w' :
  counters_same w w' -> drainer_sound w ->
  drainer_sound w' /\ (forall id, count_at id w' = count_at id w) /\ (forall id, load id w' = load id w).
Proof. intros (Hd & Hp & _) Hok. unfold drainer_sound, count_at, load. by rewrite Hd, Hp. Qed.

Lemma wrap64_add a b : wrap64 (wrap64 a + b) = wrap64 (a + b).
Proof. unfold wrap64. Z.to_euclidean_division_equations. lia. Qed.

Lemma load_track x id k w :
  load x (track (addActiveReqs k) id w) = (if decide (x = id) then (fun n => wrap64 (n + k)) <$> load x w else load x w).
Proof.
  unfold load, track, GetPool. destruct (poolMgr w) as [m|] eqn:Em; [|rewrite Em; simpl; by case_decide].
  destruct (pools m !! extractPrefix id) as [p|] eqn:Ep.
  2: { rewrite Em. case_decide as Hx; [subst x|done]. cbn [loads]. by rewrite lookup_fmap, Ep. }
  cbn [loads poolMgr w_poolMgr set_pool pools]. rewrite fmap_insert.
  destruct (decide (extractPrefix x = extractPrefix id)) as [Hx|Hx].
  2: { rewrite lookup_insert_ne by done. rewrite decide_False by (by intros ->). done. }
  rewrite Hx, lookup_insert_eq, lookup_fmap, Ep. cbn [mbind option_bind fmap option_fmap option_map].
  unfold addActiveReqs. destruct (Pool.workers p !! id) as [st|] eqn:Est.
  - cbn [Pool.workers]. rewrite fmap_insert. cbn [activeReqs]. case_decide; [subst x|by rewrite lookup_insert_ne].
    by rewrite lookup_insert_eq, lookup_fmap, Est.
  - case_decide; [subst x|done]. by rewrite lookup_fmap, Est.
Qed.
Lemma count_track x id f w : count_at x (track f id w) = count_at x w /\ drainer (track f id w) = drainer w.
Proof. unfold count_at, track. destruct (poolMgr w); [|done]. by destruct (GetPool _ _). Qed.

Lemma acquire_counts id r r' :
  drainer_sound (wd r) -> id <> "" -> lcWorkerID (lc r) = "" -> acquire id r = Ret r' ->
  drainer_sound (wd r') /\ (forall x, load x (wd r') = load x (wd r)) /\
  forall x, count_at x (wd r') = count_at x (wd r) + if decide (lcWorkerID (lc r') = x /\ x <> "") then 1 else 0.
Proof.
  intros Hok Hid Hlc. unfold acquire. destruct (drainer (wd r)) as [dr|] eqn:Ed.
  - destruct (Acquire id dr) as [dr'|] eqn:EA; [|done]. intros [= <-].
    destruct (drainer_step_ok dr (OAcquire id) dr' (Hok _ Ed) EA) as [Hok' Hc].
    split; [by intros ? [= <-]|]. split; [done|]. intros x. unfold count_at. cbn [on_lc on_wd wd w_drainer drainer lc lc_worker lcWorkerID].
    rewrite Ed, Hc. cbn [tally]. destruct (String.eqb_spec id x) as [->|Hne].
    + rewrite decide_True by done. done.
    + rewrite decide_False by (by intros [? ?]). lia.
  - intros [= <-]. split_and!; [done|done|]. intros x. rewrite Hlc. rewrite decide_False by (by intros [<- ?]). lia.
Qed.

Lemma release_counts r :
  drainer_sound (wd r) ->
  (lcWorkerID (lc r) <> "" -> 0 < count_at (lcWorkerID (lc r)) (wd r)) ->
  exists r', releaseInFlight r = Ret r' /\ drainer_sound (wd r') /\ (forall x, load x (wd r') = load x (wd r)) /\
    forall x, count_at x (wd r') = count_at x (wd r) - if decide (lcWorkerID (lc r) = x /\ x <> "") then 1 else 0.
Proof.
  intros Hok Hpos. unfold releaseInFlight. destruct (drainer (wd r)) as [dr|] eqn:Ed.
  - destruct (String.eqb_spec (lcWorkerID (lc r)) "") as [He|Hne].
    { exists r. split_and!; try done. intros x. rewrite decide_False by (rewrite He; by intros [<- ?]). lia. }
    specialize (Hpos Hne). unfold count_at in Hpos. rewrite Ed in Hpos. set (id := lcWorkerID (lc r)) in *.
    destruct (drainer_step_total dr (ORelease id) (Hok _ Ed)) as [[dr' Hr]|(x & [= <-] & Hx & _)]; [|rewrite Hx in Hpos; simpl in Hpos; lia].
    cbn [Drainer.step] in Hr. rewrite Hr. eexists. split; [done|].
    destruct (drainer_step_ok dr (ORelease id) dr' (Hok _ Ed) Hr) as [Hok' Hc].
    split; [by intros ? [= <-]|]. split; [done|]. intros x. unfold count_at. cbn [on_wd wd w_drainer drainer]. rewrite Ed, Hc. cbn [tally].
    destruct (String.eqb_spec id x) as [<-|Hx].
    + rewrite decide_True by done. destruct (count id dr); simpl in *; lia.
    + rewrite decide_False by (by intros [? ?]). lia.
  - exists r. split_and!; try done. intros x.
    destruct (decide (lcWorkerID (lc r) = x /\ x <> "")) as [[<- Hx]|]; [|lia].
    specialize (Hpos Hx). unfold count_at in Hpos. rewrite Ed in Hpos. lia.
Qed.

(** What a thread has settled about its worker before it is counted. *)
Definition settled (th : Thread) : Prop :=
  match pc th with
  | Checking _ _ _ | Selecting _ _ =>
      lcWorkerID (t_lc th) = "" /\ forall w, re_workerID (Dispatcher.route (run_of th w)) <> ""
  | Acquiring _ _ id _ => lcWorkerID (t_lc th) = "" /\ id <> ""
  | _ => True
  end.

Ltac worker_failed :=
  match goal with
  | |- context [worker_failed ?d ?now ?key ?id ?e ?r] =>
      destruct (worker_failed_frame d now key id e r) as (? & _ & _ & ? & _); by split
  end.

Lemma send_half_frame d now key id payload r :
  let '(res, r') := send_half d now key id payload r in
  counters_same (wd r) (wd r') /\ lcWorkerID (lc r') = lcWorkerID (lc r).
Proof.
  unfold send_half. destruct (Dispatcher.Send _ _ _) as [[err|] t1]; [|done].
  unfold handleSendError. worker_failed.
Qed.
Lemma receive_half_frame d now key id cid r :
  let '(res, r') := receive_half d now key id cid r in
  counters_same (wd r) (wd r') /\ lcWorkerID (lc r') = lcWorkerID (lc r).
Proof.
  unfold receive_half. destruct (Dispatcher.ReceiveResponse _ _) as [[[msg|err] expired] t2].
  - case_decide; [|done]. unfold handleWorkerError. cbv zeta.
    worker_failed.
  - unfold handleReceiveError. worker_failed.
Qed.

(** The change in the counters is the change in what the thread counts for. *)
Definition moves (th th' : Thread) w w' : Prop :=
  drainer_sound w' /\
  forall id, count_at id w' = count_at id w + unit_of holding id th' - unit_of holding id th /\
    load id w' = (fun n => wrap64 (n + (unit_of active id th' - unit_of active id th))) <$> load id w.

Lemma no_move th th' w w' :
  drainer_sound w -> loads_sound w -> counters_same w w' -> holding th' = holding th -> active th' = active th ->
  moves th th' w w'.
Proof.
  intros Hok Hl Hc Hh Ha. destruct (counters_same_counts _ _ Hc Hok) as (Hok' & Hcs & Hls). split; [done|]. intros id.
  unfold unit_of. rewrite Hh, Ha, Hcs, Hls. split; [lia|]. destruct (load id w) as [n|] eqn:E; [|done]. simpl.
  rewrite Z.sub_diag, Z.add_0_r, wrap64_id; [done|by eapply Hl].
Qed.

(** Every route leads to a worker. *)
Definition routed d : Prop :=
  forall method path res, Lookup (routes d) method path = Some res -> re_workerID (lr_entry res) <> "".

(** The premises under which the counters are kept. *)
Record counted d th w : Prop := {
  ct_routes : routed d;
  ct_listeners : Forall transparent (Dispatcher.listeners d);
  ct_settled : settled th;
  ct_drainer : drainer_sound w;
  ct_loads : loads_sound w;
  ct_held : forall id, unit_of holding id th <= count_at id w;
}.

Lemma lookupRoute_frame d r o r' :
  lookupRoute d r = (o, r') -> wd r' = wd r /\ lcWorkerID (lc r') = lcWorkerID (lc r) /\
  match o with
  | Some rt => Dispatcher.route r' = rt /\ exists method path res, Lookup (routes d) method path = Some res /\ rt = lr_entry res
  | None => True
  end.
Proof.
  unfold lookupRoute. destruct (Lookup _ _ _) as [res|] eqn:EL; intros [= <- <-]; [|done].
  split_and!; [done..|]. by exists (Method (req r)), (Path (req r)), res.
Qed.

Lemma turn_begin d c uuid rq l z w th' w' :
  counted d (mkThread c (Begin uuid rq) l z) w -> turn d (mkThread c (Begin uuid rq) l z) w = Ret (th', w') ->
  settled th' /\ moves (mkThread c (Begin uuid rq) l z) th' w w'.
Proof.
  intros [Hr _ _ Hd Hl _]. unfold turn. cbn [pc]. destruct (initCorrelationID uuid rq) as [cid rq'].
  destruct (lookupRoute d _) as [[rt|] r] eqn:EL; destruct (lookupRoute_frame _ _ _ _ EL) as (Hw & Hwid & Hrt); intros [= <- <-].
  - destruct Hrt as [Hrt (method & path & res & HL & Hres)]. split.
    + split; [exact Hwid|]. intros ?. change (re_workerID (Dispatcher.route r) <> ""). rewrite Hrt, Hres. by eapply Hr.
    + apply no_move; [done..| |done|done]. cbn [on_wd on_lc wd] in *. rewrite Hw. apply counters_breaker.
  - split; [done|]. rewrite Hw. by apply no_move.
Qed.

Lemma turn_counts_checking d c n key cid l z w th' w' :
  let th := mkThread c (Checking n key cid) l z in
  counted d th w -> turn d th w = Ret (th', w') -> settled th' /\ moves th th' w w'.
Proof.
  intros th [_ Hls [Hwid Hrt] Hd Hl _]. unfold turn. cbn [pc th t_clk].
  destruct (stages c d key !! n) as [st|] eqn:En; [|intros [= <- <-]; split; [by split|by apply no_move]].
  destruct (st (run_of _ w)) as [[v r]|] eqn:Es; [|done].
  destruct (stage_frame _ _ _ _ _ _ _ _ Hls En Es) as (Hc & _ & Hwid' & HR). destruct v as [|resp]; intros [= <- <-].
  - split; [|by apply no_move]. split; [cbn in *; congruence|]. intros w1. specialize (Hrt w1).
    unfold Dispatcher.route in *. cbn in *. by rewrite HR.
  - split; [done|by apply no_move].
Qed.

Lemma turn_counts_selecting d c key cid l z w th' w' :
  let th := mkThread c (Selecting key cid) l z in
  counted d th w -> turn d th w = Ret (th', w') -> settled th' /\ moves th th' w w'.
Proof.
  intros th [_ _ [Hwid Hrt] Hd Hl _]. unfold turn. cbn [pc th t_clk].
  set (r0 := on_wd _ _). assert (counters_same w (wd r0)) as Hc0 by apply counters_breaker.
  destruct (selectWorker _ _) as [[sel w1]|] eqn:ES; [|done].
  destruct (selectWorker_spec _ _ _ _ ES) as [Hw1 Hl1].
  set (id := if String.eqb sel "" then _ else sel).
  assert (id <> "") as Hid.
  { subst id. destruct (String.eqb_spec sel ""); [|done]. exact (Hrt (wd r0)). }
  assert (drainer w1 = drainer w) as Hd1 by (rewrite Hw1; exact (proj1 Hc0)).
  assert (forall x, load x w1 = load x w) as Hload.
  { intros x. unfold load. rewrite Hl1. by destruct Hc0 as (_ & -> & _). }
  assert (forall th', holding th' = None -> active th' = None -> moves th th' w w1) as Hmv.
  { intros th1 Hh Ha. split; [intros ?; rewrite Hd1; apply Hd|]. intros x. unfold unit_of. rewrite Hh, Ha. cbn.
    unfold count_at. rewrite Hd1, Hload. split; [lia|]. destruct (load x w) as [k|] eqn:E; [|done]. simpl.
    rewrite Z.add_0_r, wrap64_id; [done|by eapply Hl]. }
  destruct (buildIPCPayload _ _ _ _) as [payload|]; intros [= <- <-].
  - split; [by split|by apply Hmv].
  - split; [done|]. apply Hmv; [|done]. unfold holding. cbn in *. by rewrite Hwid.
Qed.

(** The phases in which [lc.WorkerID] says for whom a thread is counted. *)
Definition working (p : Pc) : bool :=
  match p with
  | Tracking _ _ _ _ | Sending _ _ _ _ | Receiving _ _ _ | Untracking _ _ _ _ | Processing _ _ _ | Releasing _ _ => true
  | _ => false
  end.
Lemma holding_unit x th :
  unit_of holding x th = if working (pc th) then if decide (lcWorkerID (t_lc th) = x /\ x <> "") then 1 else 0 else 0.
Proof.
  unfold unit_of, holding, working. destruct (pc th); try done;
    (destruct (String.eqb_spec (lcWorkerID (t_lc th)) "") as [He|Hne];
      [rewrite decide_False by done; rewrite decide_False; [done|rewrite He; by intros [<- ?]]
      |apply decide_ext; naive_solver]).
Qed.
Lemma load_kept x th th' w w' :
  loads_sound w -> load x w' = load x w -> active th' = active th ->
  load x w' = (fun n => wrap64 (n + (unit_of active x th' - unit_of active x th))) <$> load x w.
Proof.
  intros Hl He Ha. rewrite He. unfold unit_of. rewrite Ha. destruct (load x w) as [n|] eqn:E; [|done]. simpl.
  rewrite Z.sub_diag, Z.add_0_r, wrap64_id; [done|by eapply Hl].
Qed.

Lemma load_tracked x k id w :
  loads_sound w ->
  load x (track (addActiveReqs k) id w) = (fun n => wrap64 (n + if decide (Some id = Some x) then k else 0)) <$> load x w.
Proof.
  intros Hl. rewrite load_track. destruct (decide (x = id)) as [->|Hne]; [by rewrite decide_True|].
  rewrite decide_False by congruence. destruct (load x w) as [n|] eqn:E; [|done]. simpl.
  rewrite Z.add_0_r, wrap64_id; [done|by eapply Hl].
Qed.

Lemma releasing_held c resp err l z w :
  (forall id, unit_of holding id (mkThread c (Releasing resp err) l z) <= count_at id w) ->
  lcWorkerID l <> "" -> 0 < count_at (lcWorkerID l) w.
Proof. intros Hh Hne. specialize (Hh (lcWorkerID l)). rewrite holding_unit in Hh. cbn in Hh. rewrite decide_True in Hh by done. lia. Qed.

Lemma turn_counts d th w th' w' :
  counted d th w -> turn d th w = Ret (th', w') -> settled th' /\ moves th th' w w'.
Proof.
  intros Hct. destruct th as [c p l z]. destruct p; [by apply turn_begin|by apply turn_counts_checking|by apply turn_counts_selecting|..];
    destruct Hct as [_ _ Hset Hd Hl Hheld]; unfold turn; cbn [pc t_clk].
  - destruct (acquire id _) as [r|] eqn:EA; [|done]. intros [= <- <-]. split; [done|].
    destruct Hset as [Hwid Hid]. destruct (acquire_counts id (run_of (mkThread c (Acquiring key cid id payload) l z) w) r Hd Hid Hwid EA) as (Hd' & Hl' & Hc).
    split; [done|]. intros x. split; [|by apply load_kept].
    rewrite !holding_unit, Hc. cbn. lia.
  - intros [= <- <-]. split; [done|].
    destruct (count_track "" id IncrementActiveReqs w) as [_ Hdr].
    split; [intros ?; cbn; rewrite Hdr; apply Hd|]. intros x. split.
    + rewrite !holding_unit. cbn. rewrite (proj1 (count_track x id IncrementActiveReqs w)). lia.
    + etransitivity; [exact (load_tracked x 1 id w Hl)|]. unfold unit_of. cbn. case_decide; done.
  - pose proof (send_half_frame d (c 3%nat) key id payload (run_of (mkThread c (Sending key cid id payload) l z) w)) as Hf.
    destruct (send_half _ _ _ _ _ _) as [[res|] r]; destruct Hf as [Hc Hwid]; intros [= <- <-]; (split; [done|]);
      (apply no_move; [done..|exact Hc| |done]); unfold holding; cbn in *; by rewrite Hwid.
  - pose proof (receive_half_frame d (c 3%nat) key id (req_correlation (run_of (mkThread c (Receiving key cid id) l z) w))
      (run_of (mkThread c (Receiving key cid id) l z) w)) as Hf.
    destruct (receive_half _ _ _ _ _ _) as [res r]; destruct Hf as [Hc Hwid]; intros [= <- <-]. split; [done|].
    apply no_move; [done..|exact Hc| |done]. unfold holding; cbn in *; by rewrite Hwid.
  - intros [= <- <-]. destruct (count_track "" id DecrementActiveReqs w) as [_ Hdr]. split; [by destruct res|].
    split; [intros ?; cbn; rewrite Hdr; apply Hd|]. intros x. split.
    + rewrite !holding_unit. destruct res; cbn; rewrite (proj1 (count_track x id DecrementActiveReqs w)); lia.
    + etransitivity; [exact (load_tracked x (-1) id w Hl)|]. unfold unit_of. destruct res; cbn; case_decide; done.
  - pose proof (processWorkerResponse_frame d (c 4%nat) key cid wr (run_of (mkThread c (Processing key cid wr) l z) w)) as Hf.
    destruct (processWorkerResponse _ _ _ _ _ _) as [resp r]. destruct Hf as (Hc & _ & Hwid & _). intros [= <- <-].
    split; [done|]. apply no_move; [done..|exact Hc| |done]. unfold holding; cbn in *; by rewrite Hwid.
  - destruct (release_counts (run_of (mkThread c (Releasing resp err) l z) w) Hd) as (r & Er & Hd' & Hl' & Hc).
    { intros Hne. by apply (releasing_held c resp err l z). }
    rewrite Er. intros [= <- <-]. split; [done|]. split; [done|]. intros x. split; [|by apply load_kept].
    rewrite !holding_unit, Hc. cbn. lia.
  - intros [= <- <-]. split; [done|]. apply no_move; [done..| |done|done]. apply counters_core, notify_loop_core.
  - intros [= <- <-]. split; [done|]. by apply no_move.
Qed.

(** The only turn that touches a counter it may not find is the release. *)
Lemma turn_no_negative d th w : counted d th w -> turn d th w <> Panic "sync: negative WaitGroup counter".
Proof.
  intros [_ _ Hset Hd _ Hheld] Hp. destruct th as [c p l z]. unfold turn in Hp. destruct p; cbn [pc t_clk] in Hp; try done.
  - destruct (initCorrelationID uuid rq) as [cid rq']. by destruct (lookupRoute d _) as [[rt|] r].
  - destruct (stages c d key !! n) as [st|] eqn:En; [|done]. destruct (st _) as [[[|resp] r]|e] eqn:Es; [done..|].
    injection Hp as ->. apply (stage_panic c d key n st) in Es; done.
  - destruct (selectWorker _ _) as [[sel w1]|e] eqn:ES; [by destruct (buildIPCPayload _ _ _ _)|].
    injection Hp as ->. by apply selectWorker_panic in ES.
  - destruct (acquire id _) as [r|e] eqn:EA; [done|]. revert EA. unfold acquire. cbn.
    destruct (drainer w) as [dr|] eqn:Ed; [|done]. by destruct (Acquire_total id dr (Hd _ Ed)) as [dr' ->].
  - by destruct (send_half _ _ _ _ _ _) as [[res|] r].
  - by destruct (receive_half _ _ _ _ _ _) as [res r].
  - by destruct (processWorkerResponse _ _ _ _ _ _) as [resp r].
  - destruct (release_counts (run_of (mkThread c (Releasing resp err) l z) w) Hd) as (r & Er & _).
    { intros Hne. by apply (releasing_held c resp err l z). }
    by rewrite Er in Hp.
Qed.

(** ** Any number of requests in any order *)

(** What holds between the turns. *)
Record accounted (s0 s : System) : Prop := {
  ac_settled : Forall settled (threads s);
  ac_drainer : drainer_sound (gateway s);
  ac_count : forall id, count_at id (gateway s) = count_at id (gateway s0) + number holding id (threads s);
  ac_load : forall id, load id (gateway s) = (fun n => wrap64 (n + number active id (threads s))) <$> load id (gateway s0);
}.

Lemma count_nonneg id w : drainer_sound w -> 0 <= count_at id w.
Proof.
  unfold count_at. destruct (drainer w) as [dr|] eqn:E; [|done]. intros Hok. unfold count.
  destruct (inflight dr !! id); [|done]. apply (Hok dr E).
Qed.

Lemma arriving_accounted s : arriving (threads s) -> drainer_sound (gateway s) -> loads_sound (gateway s) -> accounted s s.
Proof.
  intros Harr Hd Hl. assert (Forall (fun th => settled th /\ holding th = None /\ active th = None) (threads s)) as Hf.
  { eapply Forall_impl; [exact Harr|]. by intros th (c & uuid & rq & ->). }
  assert (forall f, (forall th, holding th = None -> active th = None -> f th = None) -> forall id, number f id (threads s) = 0) as Hnum.
  { intros f Hfn id. unfold number. clear Harr Hd Hl. induction Hf as [|th ths (_ & Hh & Hact) Hf IH]; [done|].
    by rewrite filter_cons_False by (by rewrite Hfn). }
  split; [|done| |].
  - eapply Forall_impl; [exact Hf|]. by intros th (? & _).
  - intros id. rewrite Hnum by done. lia.
  - intros id. rewrite Hnum by done.
    destruct (load id (gateway s)) as [n|] eqn:E; [|done]. simpl. rewrite Z.add_0_r, wrap64_id; [done|by eapply Hl].
Qed.

Lemma accounted_counted d s0 s i th :
  accounted s0 s -> routed d -> Forall transparent (Dispatcher.listeners d) -> drainer_sound (gateway s0) ->
  threads s !! i = Some th -> counted d th (gateway s).
Proof.
  intros [Hs Hd Hc Hl] Hr Hls Hd0 Hi. split; [done|done|by eapply Forall_lookup_1|done| |].
  - intros id n Hn. rewrite Hl in Hn. apply fmap_Some in Hn as (m & _ & ->). apply wrap64_range.
  - intros id. rewrite Hc. pose proof (number_at_least holding id _ _ _ Hi). pose proof (count_nonneg id (gateway s0) Hd0). lia.
Qed.

(** C5: The counters count the requests, however they interleave.  Any number
    of requests come in, and their turns interleave in any way with each other
    and with anything else the program does short of moving a counter itself
    (other workers start, beat and fail, breakers and health flags change,
    draining is announced).  Then at every moment the drainer's counter of a
    worker exceeds what it was at first by exactly the requests that hold it,
    and the active requests of a pooled worker by those under way to it; and no
    turn panics for a negative wait group.  So when all have returned, the
    counters are as they were. *)
Theorem counters_count_requests others d s0 s :
  (forall w w', others w w' -> drainer_sound w -> drainer_sound w' /\
     forall id, count_at id w' = count_at id w /\ load id w' = load id w) ->
  routed d -> Forall transparent (Dispatcher.listeners d) ->
  drainer_sound (gateway s0) -> loads_sound (gateway s0) -> arriving (threads s0) ->
  rtc (step others d) s0 s ->
  (forall id, count_at id (gateway s) = count_at id (gateway s0) + number holding id (threads s) /\
     load id (gateway s) = (fun n => wrap64 (n + number active id (threads s))) <$> load id (gateway s0)) /\
  forall th, th ∈ threads s -> turn d th (gateway s) <> Panic "sync: negative WaitGroup counter".
Proof.
  intros Hoth Hr Hls Hd0 Hl0 Harr Hrun. assert (accounted s0 s) as Hac.
  { revert s Hrun. apply rtc_ind_r; [by apply arriving_accounted|]. intros s s' _ Hstep IH. pose proof IH as [Hs Hd Hc Hl].
    destruct Hstep as [s i th th' w' Hi Ht|s w' Ho].
    - destruct (turn_counts d th _ _ _ (accounted_counted d s0 s i th IH Hr Hls Hd0 Hi) Ht) as [Hset [Hd' Hmv]].
      split; cbn [threads gateway]; [by apply Forall_insert|done|..]; intros id; destruct (Hmv id) as [Hmc Hml];
        rewrite (number_insert _ _ _ _ _ _ Hi).
      + rewrite Hmc, Hc. lia.
      + rewrite Hml, Hl, <-option_fmap_compose. apply option_fmap_ext. intros n. simpl. rewrite wrap64_add. f_equal. lia.
    - destruct (Hoth _ _ Ho Hd) as [Hd' Hsame]. split; cbn [threads gateway]; [done|done|..]; intros id; destruct (Hsame id) as [E1 E2]; rewrite ?E1, ?E2; auto. }
  split; [intros id; split; apply Hac|]. intros th [i Hi]%list_elem_of_lookup.
  apply turn_no_negative. by eapply accounted_counted.
Qed.

(** ** What a request has passed when the transport hears of it *)

(** The checks of [rq] that do not look at the gateway's state. *)
Definition passed d (rq : GatewayRequest) : Prop :=
  exists res, Lookup (routes d) (Method rq) (Path rq) = Some res /\
    authorised d rq (lr_entry res) /\ schema_accepts d rq (lr_entry res).

Definition auth_header (rq : GatewayRequest) : string := header (Headers rq) "Authorization".

(** What a thread that has come in with [rq] knows before its [n]-th check. *)
Record checked d (rq : GatewayRequest) (n : nat) (lc : LifecycleContext) (res : LookupResult) : Prop := {
  ck_lookup : Lookup (routes d) (Method rq) (Path rq) = Some res;
  ck_route : Route lc = Some (lr_entry res);
  ck_header : (n <= 3)%nat -> auth_header (Request lc) = auth_header rq;
  ck_body : (n <= 4)%nat -> Body (Request lc) = Body rq;
  ck_auth : (3 < n)%nat -> authorised d rq (lr_entry res);
  ck_schema : (4 < n)%nat -> schema_accepts d rq (lr_entry res);
}.

Definition vetted d (rq : GatewayRequest) (th : Thread) : Prop :=
  match pc th with
  | Begin _ rq' => rq' = rq
  | Checking n _ _ => exists res, checked d rq n (t_lc th) res
  | Selecting _ _ | Acquiring _ _ _ _ | Tracking _ _ _ _ | Sending _ _ _ _ | Receiving _ _ _ | Untracking _ _ _ _ => passed d rq
  | _ => True
  end.

Lemma checked_passed d rq n l res : (4 < n)%nat -> checked d rq n l res -> passed d rq.
Proof. intros Hn [HL _ _ _ Ha Hs]. exists res. split_and!; [done|apply Ha; lia|by apply Hs]. Qed.

Lemma stage_checked c d key n st r r' rq res :
  Forall transparent (Dispatcher.listeners d) -> stages c d key !! n = Some st -> st r = Ret (Continue, r') ->
  checked d rq n (lc r) res -> checked d rq (S n) (lc r') res.
Proof.
  intros Hls Hn Hs [HL HR Hh Hb Ha Hsc]. destruct (stage_frame _ _ _ _ _ _ _ _ Hls Hn Hs) as (_ & _ & _ & HR').
  assert (Dispatcher.route r = lr_entry res) as Hrt by (unfold Dispatcher.route; by rewrite HR).
  unfold stages in Hn. destruct n as [|[|[|[|[|[|n]]]]]]; cbn in Hn; try injection Hn as <-; [| | | | | |done].
  - assert (Request (lc r') = Request (lc r)) as Hq.
    { unfold checkCircuitBreaker in Hs. destruct (on_breaker _ _ _) as [[[] ?] ?]; by simplify_eq/=. }
    split; [done|congruence|intros _; rewrite Hq; apply Hh; lia|intros _; rewrite Hq; apply Hb; lia|lia|lia].
  - destruct (routeMatch_loop_spec _ _ _ _ Hls Hs) as (_ & Hq & _).
    split; [done|congruence|intros _; rewrite Hq; apply Hh; lia|intros _; rewrite Hq; apply Hb; lia|lia|lia].
  - destruct (checkDrainStatus_spec _ _ _ Hs) as (_ & Hq & _).
    split; [done|congruence|intros _; rewrite Hq; apply Hh; lia|intros _; rewrite Hq; apply Hb; lia|lia|lia].
  - destruct (validateJWT_spec _ _ _ _ Hs) as (_ & Hq & _ & _ & Hauth). specialize (Hauth eq_refl).
    split; [done|congruence|lia|intros _; rewrite Hq; apply Hb; lia| |lia]. intros _. rewrite Hrt in Hauth. revert Hauth. unfold authorised.
    change (header (Headers (Request (lc r))) "Authorization") with (auth_header (Request (lc r))). by rewrite Hh by lia.
  - destruct (validateSchema_spec _ _ _ _ Hs) as (_ & _ & _ & Hacc). specialize (Hacc eq_refl).
    split; [done|congruence|lia|lia|intros _; apply Ha; lia|]. intros _. rewrite Hrt in Hacc. revert Hacc.
    unfold schema_accepts. by rewrite Hb by lia.
  - split; [done|congruence|lia|lia|intros _; apply Ha; lia|intros _; apply Hsc; lia].
Qed.

Lemma turn_vetted d rq th w th' w' :
  Forall transparent (Dispatcher.listeners d) -> vetted d rq th -> turn d th w = Ret (th', w') ->
  vetted d rq th' /\ (wire w' <> wire w -> passed d rq).
Proof.
  intros Hls Hv. destruct th as [c p l z]. destruct p; unfold turn; cbn [pc t_clk]; cbn in Hv.
  - subst. destruct (initCorrelationID uuid rq) as [cid rq'] eqn:EI. unfold initCorrelationID in EI. injection EI as <- <-.
    unfold lookupRoute, req. cbn. destruct (Lookup _ _ _) as [res|] eqn:EL; intros [= <- <-]; [|done]. split.
    + exists res. split; try lia; [done|done|..]; intros _; [|done]. unfold auth_header, header. cbn. by rewrite lookup_insert_ne.
    + intros Hw. destruct Hw. exact (on_breaker_wire _ _ _).
  - destruct Hv as [res Hck]. destruct (stages c d key !! n) as [st|] eqn:En.
    + destruct (st _) as [[v r]|] eqn:Es; [|done].
      destruct (stage_frame c d key n st _ _ _ Hls En Es) as (_ & Hw & _ & _).
      destruct v as [|resp]; intros [= <- <-]; (split; [|by intros []]); [|done].
      exists res. by eapply (stage_checked c d key n st (run_of (mkThread c (Checking n key cid) l z) w)).
    + intros [= <- <-]. split; [|by intros []]. apply checked_passed with n l res; [|done].
      apply lookup_ge_None in En. cbn in En. lia.
  - destruct (selectWorker _ _) as [[sel w1]|] eqn:ES; [|done]. destruct (selectWorker_spec _ _ _ _ ES) as [-> _].
    destruct (buildIPCPayload _ _ _ _); by intros [= <- <-].
  - destruct (acquire _ _) as [r|]; [|done]. by intros [= <- <-].
  - by intros [= <- <-].
  - destruct (send_half _ _ _ _ _ _) as [[o|] r]; by intros [= <- <-].
  - destruct (receive_half _ _ _ _ _ _) as [o r]; by intros [= <- <-].
  - intros [= <- <-]. by destruct res.
  - pose proof (processWorkerResponse_frame d (c 4%nat) key cid wr (run_of (mkThread c (Processing key cid wr) l z) w)) as Hf.
    destruct (processWorkerResponse _ _ _ _ _ _) as [resp r]. destruct Hf as (_ & Hw & _). intros [= <- <-]. by split; [|intros []].
  - destruct (releaseInFlight _) as [r|] eqn:ER; [|done]. intros [= <- <-]. split; [done|].
    destruct (releaseInFlight_frame _ _ ER) as (-> & _). by intros [].
  - intros [= <- <-]. split; [done|]. by rewrite notified_wire; intros [].
  - intros [= <- <-]. split; [done|]. by intros [].
Qed.

(** C4: No interleaving lets an unchecked request through.  Whatever requests are
    under way at the same time and whatever else changes in the gateway
    meanwhile, a turn that moves the transport belongs to a request for an
    existing route, whose token was accepted with one of the roles the route
    asks for and whose body satisfies the route's schema. *)
Theorem only_checked_requests_reach_workers others d s0 s i c uuid rq th th' w' :
  Forall transparent (Dispatcher.listeners d) ->
  threads s0 !! i = Some (start c uuid rq) -> rtc (step others d) s0 s ->
  threads s !! i = Some th -> turn d th (gateway s) = Ret (th', w') ->
  wire w' <> wire (gateway s) -> passed d rq.
Proof.
  intros Hls H0 Hrun Hi Ht. assert (exists th, threads s !! i = Some th /\ vetted d rq th) as (th1 & Hi1 & Hv).
  { clear th th' w' Hi Ht. revert s Hrun. apply rtc_ind_r; [by exists (start c uuid rq)|].
    intros s s' _ Hstep (th & Hi & Hv). destruct Hstep as [s j thj thj' w' Hj Ht|s w' Ho]; [|by exists th].
    cbn [threads]. destruct (decide (i = j)) as [->|Hne].
    - rewrite Hi in Hj. injection Hj as <-. exists thj'. split; [apply list_lookup_insert_eq; by eapply lookup_lt_Some|].
      by eapply turn_vetted.
    - exists th. by rewrite list_lookup_insert_ne. }
  rewrite Hi in Hi1. injection Hi1 as <-. by eapply turn_vetted.
Qed.


(** ** Stopping a worker while requests are under way *)

Lemma track_wire f id w : wire (track f id w) = wire w.
Proof. unfold track. destruct (poolMgr w); [|done]. by destruct (GetPool _ _). Qed.
Lemma send_half_wire d now key id payload r o r' :
  send_half d now key id payload r = (o, r') ->
  wire (wd r') = (Dispatcher.Send id (mkMessage TypeRequest payload) (wire (wd r))).2.
Proof.
  unfold send_half. destruct (Dispatcher.Send _ _ _) as [[err|] t1]; intros [= <- <-]; [|done].
  unfold handleSendError. match goal with |- context [worker_failed ?d ?now ?key ?id ?e ?r] =>
    destruct (worker_failed_frame d now key id e r) as (_ & -> & _) end. done.
Qed.

Definition after_drain_check (p : Pc) : option (string * bytes) :=
  match p with Acquiring _ _ id payload => Some (id, payload) | _ => None end.

(** C10: Draining misses the requests that are past its check.  A request has
    passed the drain check and picked its worker, and no other request holds
    that worker.  Then whoever marks the worker as draining and drains it now
    is told at once that nothing is in flight; and the request goes on to
    send itself to the worker, which is by then being stopped. *)
Theorem drain_misses_requests d th w dr id payload :
  after_drain_check (pc th) = Some (id, payload) ->
  drainer w = Some dr -> drainer_ok dr -> default 0 (count id dr) = 0 ->
  Drain id [] (MarkDraining id dr) = Ret (None, [], MarkDraining id dr) /\
  exists th' w', turns 3 d th (w_drainer (Some (MarkDraining id dr)) w) = Ret (th', w') /\
    wire w' = (Dispatcher.Send id (mkMessage TypeRequest payload) (wire w)).2.
Proof.
  intros Hpc Hd Hok H0. split.
  { unfold Drain. cbn [inflight MarkDraining]. unfold count in H0. destruct (inflight dr !! id) as [g|]; [|done].
    cbn in H0. unfold wait, waiter_turn. change (Drainer.counter g (MarkDraining id dr)) with (Drainer.counter g dr). by rewrite H0. }
  destruct th as [c p l z]. destruct p as [| | |key cid id' payload'| | | | | | | |]; try done. injection Hpc as -> ->.
  set (r := mkRun (w_drainer (Some (MarkDraining id dr)) w) l z).
  assert (exists r1, acquire id r = Ret r1 /\ wire (wd r1) = wire w) as (r1 & EA & Hw1).
  { unfold acquire. cbn. destruct (Acquire_total id (MarkDraining id dr)) as [dr' ->]; [|by eexists].
    by destruct (drainer_step_ok dr (OMark id) _ Hok eq_refl). }
  change (mkThread c _ l z) with (at_pc c (Acquiring key cid id payload) r). change (w_drainer _ w) with (wd r).
  rewrite turns_next with (p' := Tracking key cid id payload) (r' := r1)
    by (unfold turn; rewrite run_of_at; cbn [pc at_pc]; by rewrite EA).
  set (r2 := on_wd (track IncrementActiveReqs id) r1). rewrite turns_next with (p' := Sending key cid id payload) (r' := r2)
    by (unfold turn; by rewrite run_of_at).
  assert (wire (wd r2) = wire w) as Hw2 by (rewrite <-Hw1; apply track_wire).
  destruct (send_half d (c 3%nat) key id payload r2) as [o r3] eqn:ES.
  assert (wire (wd r3) = (Dispatcher.Send id (mkMessage TypeRequest payload) (wire w)).2) as Hw3.
  { rewrite <-Hw2. by eapply send_half_wire. }
  rewrite turns_S. unfold turn. rewrite run_of_at. cbn [pc at_pc t_clk]. rewrite ES. destruct o; by do 2 eexists.
Qed.

(** C11: Stopping a worker makes the requests it gave up on panic.  [StopWorker]
    cleans up after its drain even when the drain has timed out.  If a request
    still holds the worker then, and another request takes the worker after the
    clean-up, the second of the two to be released panics with a negative wait
    group: both count down the new group, which only one has counted up. *)
Theorem cleanup_makes_requests_panic d w dr dr' id c1 c2 resp1 e1 l1 z1 resp2 e2 l2 z2 :
  drainer_ok dr -> id <> "" -> Acquire id (Cleanup id dr) = Ret dr' -> drainer w = Some dr' ->
  lcWorkerID l1 = id -> lcWorkerID l2 = id ->
  exists w', turn d (mkThread c1 (Releasing resp1 e1) l1 z1) w = Ret (mkThread c1 (Ending resp1 e1) l1 z1, w') /\
    forall w'', drainer w'' = drainer w' ->
      turn d (mkThread c2 (Releasing resp2 e2) l2 z2) w'' = Panic "sync: negative WaitGroup counter".
Proof.
  intros Hok Hid HA Hd Hl1 Hl2.
  destruct (drainer_step_ok dr (OCleanup id) _ Hok eq_refl) as [Hok1 Hc1].
  destruct (drainer_step_ok _ (OAcquire id) dr' Hok1 HA) as [Hok2 Hc2].
  assert (count id dr' = Some 1) as H1.
  { rewrite Hc2, Hc1. cbn [tally]. by rewrite String.eqb_refl. }
  destruct (drainer_step_total dr' (ORelease id) Hok2) as [[dr2 Hr]|(x & [= <-] & Hx & _)]; [|congruence].
  destruct (drainer_step_ok dr' (ORelease id) dr2 Hok2 Hr) as [Hok3 Hc3].
  assert (count id dr2 = Some 0) as H0.
  { rewrite Hc3, H1. cbn [tally]. by rewrite String.eqb_refl. }
  destruct (drainer_step_total dr2 (ORelease id) Hok3) as [[dr3 Hr3]|(x & [= <-] & _ & Hp)].
  { destruct (drainer_step_ok dr2 (ORelease id) dr3 Hok3 Hr3) as [[_ _ Hn] Hc4].
    specialize (Hc4 id). rewrite H0 in Hc4. cbn [tally] in Hc4. rewrite String.eqb_refl in Hc4. unfold count in Hc4.
    destruct (inflight dr3 !! id) as [g|]; [|done]. specialize (Hn g). injection Hc4 as Hc4. lia. }
  cbn [Drainer.step] in Hr, Hp. unfold turn. cbn [pc]. unfold releaseInFlight. cbn [run_of wd lc t_lc].
  rewrite Hd, Hl1. rewrite (proj2 (String.eqb_neq _ _) Hid), Hr. eexists. split; [done|].
  intros w'' Hw. cbn in Hw. rewrite Hw, Hl2. rewrite (proj2 (String.eqb_neq _ _) Hid). by rewrite Hp.
Qed.

End Threads.

(** ** Whose answer a request gets

    Requests that wait for the same worker, over the transport of [Uds.v]. *)
Section Answers.
Context {H : Type} (enc : Encoding).
Notation World := (World (T:=Wire) (H:=H)).
Notation Dispatcher := (Dispatcher (H:=H)).
Notation System := (System (T:=Wire) (H:=H)).

(** The turns of a list of requests, by their numbers.  Each turn has an agenda
    of its own: the connection's pump runs once, or the deadline passes. *)
Definition with_agenda (ag : list Event) (w : World) : World := w_wire (ag, (wire w).2) w.
Definition agenda (p : nat) (late : bool) : list Event := [if late then EDone ContextDeadline else EPump p].

Fixpoint run_calls (d : Dispatcher) (p : nat) (order : list (nat * bool)) (s : System) : outcome System :=
  match order with
  | [] => Ret s
  | (i, late) :: order' =>
      match threads s !! i with
      | None => run_calls d p order' s
      | Some th =>
          '(th, w) ← turn enc d th (with_agenda (agenda p late) (gateway s));
          run_calls d p order' (mkSystem (<[i := th]> (threads s)) w)
      end
  end.

(** The requests in the order of their first turns, in which they are sent,
    and in the order of their second, in which they take an answer unless
    their deadline passes; [sent] have had their first. *)
Fixpoint askers (sent : list nat) (order : list (nat * bool)) : list nat :=
  match order with
  | [] => []
  | (i, _) :: order' => if decide (i ∈ sent) then askers sent order' else i :: askers (i :: sent) order'
  end.
Fixpoint takers (sent : list nat) (order : list (nat * bool)) : list nat :=
  match order with
  | [] => []
  | (i, late) :: order' =>
      if decide (i ∈ sent) then if late then takers sent order' else i :: takers sent order'
      else takers (i :: sent) order'
  end.
Definition turns_of (i : nat) (order : list (nat * bool)) : nat := length (filter (fun x => x.1 = i) order).

(** About to send to [id]. *)
Definition asking (id : string) (th : Thread) : Prop := exists key cid payload, pc th = Sending key cid id payload.

(** Where a request stands when [sent] have been sent and those of [got] have
    what [got] says. *)
Definition stands (id : string) (sent : list nat) (got : nat -> option received) (i : nat) (th0 th : Thread) : Prop :=
  match got i with
  | Some res => exists key cid, pc th = Untracking key cid id res
  | None => Request (t_lc th) = Request (t_lc th0) /\
      if decide (i ∈ sent) then exists key cid, pc th = Receiving key cid id else asking id th
  end.

Definition correlation (th : Thread) : string := header (Headers (Request (t_lc th))) HeaderCorrelationID.

(** Requests of [ths0] over a connection on which [answers] are to come. *)
Record asking_well (id : string) (p : nat) (ths0 : list Thread) (sent : list nat) (got : nat -> option received)
    (order : list (nat * bool)) (answers : list Message) (rest : bytes) (s : System) : Prop := {
  aw_stands : forall i th0, ths0 !! i = Some th0 -> exists th, threads s !! i = Some th /\ stands id sent got i th0 th;
  aw_turns : forall i, (turns_of i order + (if decide (i ∈ sent) then 1 else 0) + (if got i then 1 else 0) <= 2)%nat;
  aw_got : forall i, is_Some (got i) -> i ∈ sent;
  aw_range : Forall (fun x => is_Some (ths0 !! x.1)) order;
  aw_wire : serving id p answers rest (wire (gateway s)).2;
  aw_answers : Forall (fun a => sendable a /\ mtype a = TypeResponse) answers;
  aw_enough : (length (takers sent order) <= length answers)%nat;
}.

Lemma turns_of_cons i j late order :
  turns_of i ((j, late) :: order) = ((if decide (j = i) then 1 else 0) + turns_of i order)%nat.
Proof. unfold turns_of. rewrite filter_cons. cbn [fst]. by destruct (decide (j = i)). Qed.

Lemma takers_asked sent order i : i ∈ takers sent order -> i ∈ sent \/ i ∈ askers sent order.
Proof.
  revert sent. induction order as [|[j late] order IH]; intros sent; cbn; [by intros ?%elem_of_nil|].
  case_decide as Hj.
  - destruct late; [apply IH|]. intros [->|Hi]%elem_of_cons; [by left|]. by apply IH.
  - intros Hi. apply IH in Hi as [[->|?]%elem_of_cons|?]; [right; by left|by left|right; by right].
Qed.
Lemma takers_twice sent order i :
  i ∈ takers sent order -> (2 <= turns_of i order + if decide (i ∈ sent) then 1 else 0)%nat.
Proof.
  revert sent. induction order as [|[j late] order IH]; intros sent; cbn [takers]; [by intros ?%elem_of_nil|].
  rewrite turns_of_cons. case_decide as Hj.
  - intros Hi. destruct (decide (j = i)) as [->|Hne]; [rewrite (decide_True (P := i ∈ sent)) by done|].
    + destruct late; [specialize (IH _ Hi); rewrite decide_True in IH by done; lia|lia].
    + destruct late; [specialize (IH _ Hi); lia|]. apply elem_of_cons in Hi as [->|Hi]; [done|]. specialize (IH _ Hi). lia.
  - intros Hi. specialize (IH _ Hi). destruct (decide (j = i)) as [->|Hne].
    + rewrite decide_True in IH by left. rewrite (decide_False (P := i ∈ sent)) by done. lia.
    + destruct (decide (i ∈ sent)); [rewrite decide_True in IH by (by right)|rewrite decide_False in IH by set_solver]; lia.
Qed.
Lemma takers_NoDup sent order :
  (forall i, turns_of i order + (if decide (i ∈ sent) then 1 else 0) <= 2)%nat -> NoDup (takers sent order).
Proof.
  revert sent. induction order as [|[j late] order IH]; intros sent Hocc; cbn [takers]; [constructor|].
  assert (forall i, turns_of i order + (if decide (i ∈ sent) then 1 else 0) <= 2)%nat as Hocc'.
  { intros i. specialize (Hocc i). rewrite turns_of_cons in Hocc. lia. }
  case_decide as Hj.
  - destruct late; [by apply IH|]. constructor; [|by apply IH]. intros Hin%takers_twice. specialize (Hocc j).
    rewrite turns_of_cons, (decide_True (P := j = j)) in Hocc by done. lia.
  - apply IH. intros i. specialize (Hocc i). rewrite turns_of_cons in Hocc. destruct (decide (j = i)) as [->|Hne].
    + rewrite decide_True by left. lia.
    + specialize (Hocc' i). destruct (decide (i ∈ sent)); [rewrite decide_True by (by right)|rewrite decide_False by set_solver]; lia.
Qed.
Lemma takers_askers order :
  (forall i, turns_of i order <= 2)%nat -> (length (takers [] order) <= length (askers [] order))%nat.
Proof.
  intros Hocc. apply submseteq_length, NoDup_submseteq.
  - apply takers_NoDup. intros i. rewrite decide_False by set_solver. specialize (Hocc i). lia.
  - intros i Hi. by destruct (takers_asked [] order i Hi) as [?%elem_of_nil|].
Qed.

Lemma stands_elsewhere id sent sent' got got' i th0 th :
  (i ∈ sent <-> i ∈ sent') -> got' i = got i -> stands id sent got i th0 th -> stands id sent' got' i th0 th.
Proof.
  unfold stands. intros Hs ->. destruct (got i); [done|]. destruct (decide (i ∈ sent)), (decide (i ∈ sent')); tauto.
Qed.

Lemma send_turn (d : Dispatcher) id p answers rest c key cid payload l z (w : World) :
  serving id p answers rest (wire w).2 ->
  exists w', turn enc d (mkThread c (Sending key cid id payload) l z) w = Ret (mkThread c (Receiving key cid id) l z, w') /\
    serving id p answers rest (wire w').2.
Proof.
  intros Hsv. destruct (serving_send id p answers rest (mkMessage TypeRequest payload) _ Hsv) as (t' & Hs & Hsv').
  unfold turn. cbn [pc]. unfold send_half. cbn [run_of wd Dispatcher.Send uds_wire]. rewrite Hs. by eexists.
Qed.

Lemma take_turn (d : Dispatcher) id p a answers rest c key cid l z (w : World) :
  serving id p (a :: answers) rest (wire w).2 -> sendable a -> mtype a = TypeResponse ->
  exists w', turn enc d (mkThread c (Receiving key cid id) l z) (with_agenda (agenda p false) w) =
      Ret (mkThread c (Untracking key cid id (decodeWorkerResponse enc a (header (Headers (Request l)) HeaderCorrelationID))) l z, w') /\
    serving id p answers rest (wire w').2.
Proof.
  intros Hsv Ha Hty. destruct (serving_receive id p a answers rest 0 _ Hsv Ha) as (t' & Hr & Hsv').
  { unfold is_response. rewrite Hty. by vm_compute. }
  unfold turn. cbn [pc]. unfold receive_half. cbn [run_of wd Dispatcher.ReceiveResponse uds_wire with_agenda wire w_wire snd fst].
  unfold agenda. cbn [replicate] in Hr. rewrite Hr. rewrite decide_False by (rewrite Hty; by vm_compute). by eexists.
Qed.

Lemma late_turn (d : Dispatcher) id p answers rest c key cid l z (w : World) :
  serving id p answers rest (wire w).2 ->
  exists l' z' w', turn enc d (mkThread c (Receiving key cid id) l z) (with_agenda (agenda p true) w) =
      Ret (mkThread c (Untracking key cid id (Failed None)) l' z', w') /\
    serving id p answers rest (wire w').2.
Proof.
  intros Hsv. pose proof (serving_ended id p answers rest [] ContextDeadline _ Hsv) as Hr.
  unfold turn. cbn [pc]. unfold receive_half. cbn [run_of wd Dispatcher.ReceiveResponse uds_wire with_agenda wire w_wire snd fst].
  unfold agenda. rewrite Hr. do 3 eexists. split; [done|].
  unfold handleReceiveError. cbn [resume]. by rewrite worker_failed_wire.
Qed.

(** One more request has its outcome, or is sent. *)
Lemma asking_well_got id p ths0 sent got i late order answers answers' rest s th0 th' key cid res w' :
  asking_well id p ths0 sent got ((i, late) :: order) answers rest s ->
  ths0 !! i = Some th0 -> i ∈ sent -> got i = None -> pc th' = Untracking key cid id res ->
  serving id p answers' rest (wire w').2 -> Forall (fun a => sendable a /\ mtype a = TypeResponse) answers' ->
  (length (takers sent order) <= length answers')%nat ->
  asking_well id p ths0 sent (fun j => if decide (j = i) then Some res else got j) order answers' rest
    (mkSystem (<[i := th']> (threads s)) w').
Proof.
  intros [Hst Hocc Hgot Hrng _ _ _] Hi0 Hsent Hgi Hpc Hw Hans Hen. destruct (Hst _ _ Hi0) as (th & Hi & _).
  assert (i < length (threads s))%nat as Hlt by by eapply lookup_lt_Some.
  split; cbn [threads gateway]; [| | |by inversion Hrng|done|done|done].
  - intros j th1 Hj. destruct (decide (j = i)) as [->|Hne].
    + eexists. split; [by apply list_lookup_insert_eq|]. unfold stands. rewrite decide_True by done. by exists key, cid.
    + destruct (Hst _ _ Hj) as (th1' & Hth & Hs). exists th1'. split; [by rewrite list_lookup_insert_ne|].
      eapply stands_elsewhere; [done| |exact Hs]. simpl. by rewrite decide_False.
  - intros j. specialize (Hocc j). rewrite turns_of_cons in Hocc. destruct (decide (j = i)) as [->|Hne].
    + rewrite Hgi, (decide_True (P := i = i)) in Hocc by done. lia.
    + rewrite (decide_False (P := i = j)) in Hocc by congruence. exact Hocc.
  - intros j. destruct (decide (j = i)) as [->|]; auto.
Qed.
Lemma asking_well_sent id p ths0 sent got i late order answers rest s th0 th' key cid w' :
  asking_well id p ths0 sent got ((i, late) :: order) answers rest s ->
  ths0 !! i = Some th0 -> i ∉ sent -> got i = None -> pc th' = Receiving key cid id ->
  Request (t_lc th') = Request (t_lc th0) -> serving id p answers rest (wire w').2 ->
  asking_well id p ths0 (i :: sent) got order answers rest (mkSystem (<[i := th']> (threads s)) w').
Proof.
  intros [Hst Hocc Hgot Hrng _ Hans Hen] Hi0 Hsent Hgi Hpc Hreq Hw. destruct (Hst _ _ Hi0) as (th & Hi & _).
  assert (i < length (threads s))%nat as Hlt by by eapply lookup_lt_Some.
  cbn [takers] in Hen. rewrite decide_False in Hen by done.
  split; cbn [threads gateway]; [| | |by inversion Hrng|done|done|done].
  - intros j th1 Hj. destruct (decide (j = i)) as [->|Hne].
    + rewrite Hi0 in Hj. injection Hj as <-. eexists. split; [by apply list_lookup_insert_eq|].
      unfold stands. rewrite Hgi. split; [done|]. rewrite decide_True by left. by exists key, cid.
    + destruct (Hst _ _ Hj) as (th1' & Hth & Hs). exists th1'. split; [by rewrite list_lookup_insert_ne|].
      eapply stands_elsewhere; [|done|exact Hs]. set_solver.
  - intros j. specialize (Hocc j). rewrite turns_of_cons in Hocc. destruct (decide (i = j)) as [<-|Hne].
    + rewrite (decide_False (P := i ∈ sent)) in Hocc by done. rewrite decide_True by left. lia.
    + destruct (decide (j ∈ sent)); [rewrite decide_True by (by right)|rewrite decide_False by set_solver]; done.
  - intros j Hj. right. auto.
Qed.

Lemma run_calls_answers (d : Dispatcher) id p ths0 rest order : forall sent got answers s,
  asking_well id p ths0 sent got order answers rest s ->
  exists s' got', run_calls d p order s = Ret s' /\
    (forall i th0 res, ths0 !! i = Some th0 -> got' i = Some res ->
       exists th key cid, threads s' !! i = Some th /\ pc th = Untracking key cid id res) /\
    (forall i res, got i = Some res -> got' i = Some res) /\
    forall k i a th0, takers sent order !! k = Some i -> answers !! k = Some a -> ths0 !! i = Some th0 ->
      got' i = Some (decodeWorkerResponse enc a (correlation th0)).
Proof.
  induction order as [|[i late] order IH]; intros sent got answers s Haw; pose proof Haw as [Hst Hocc Hgot Hrng Hw Hans Hen].
  { exists s, got. split; [done|]. split; [|done]. intros i th0 res Hi Hg. destruct (Hst _ _ Hi) as (th & Hth & Hs).
    unfold stands in Hs. rewrite Hg in Hs. destruct Hs as (key & cid & Hs). by exists th, key, cid. }
  apply Forall_cons in Hrng as [[th0 Hi0] _]. cbn [fst] in Hi0. destruct (Hst _ _ Hi0) as (th & Hi & Hs). cbn [run_calls takers]. rewrite Hi.
  cbn [takers] in Hen.
  assert (got i = None) as Hgi.
  { destruct (got i) eqn:E; [|done]. specialize (Hocc i). rewrite turns_of_cons, E, decide_True in Hocc by done.
    rewrite decide_True in Hocc by (apply Hgot; by eexists). lia. }
  unfold stands in Hs. rewrite Hgi in Hs. destruct Hs as [Hreq Hs].
  destruct (decide (i ∈ sent)) as [Hsent|Hsent]; destruct th as [c pc0 l z].
  - destruct Hs as (key & cid & Hpc). cbn in Hpc, Hreq. subst pc0. destruct late.
    + destruct (late_turn d id p answers rest c key cid l z _ Hw) as (l' & z' & w' & -> & Hw').
      cbn [mbind outcome_mbind outcome_bind].
      destruct (IH _ _ answers _ (asking_well_got _ _ _ _ _ _ _ _ _ answers _ _ _ (mkThread c (Untracking key cid id (Failed None)) l' z') key cid
        _ w' Haw Hi0 Hsent Hgi eq_refl Hw' Hans Hen)) as (s' & got' & Hrun & Hfin & Hext & Hres).
      exists s', got'. split_and!; [exact Hrun|exact Hfin| |exact Hres].
      intros j r Hj. apply Hext. rewrite decide_False; [done|]. intros ->. congruence.
    + destruct answers as [|a answers]; [simpl in Hen; lia|]. apply Forall_cons in Hans as [[Ha Hty] Hans].
      destruct (take_turn d id p a answers rest c key cid l z _ Hw Ha Hty) as (w' & -> & Hw').
      cbn [mbind outcome_mbind outcome_bind]. set (res := decodeWorkerResponse _ _ _).
      destruct (IH _ _ answers _ (asking_well_got _ _ _ _ _ _ _ _ _ answers _ _ _ (mkThread c (Untracking key cid id res) l z) key cid
        _ w' Haw Hi0 Hsent Hgi eq_refl Hw' Hans ltac:(simpl in Hen; lia))) as (s' & got' & Hrun & Hfin & Hext & Hres).
      exists s', got'. split_and!; [exact Hrun|exact Hfin| |].
      * intros j r Hj. apply Hext. rewrite decide_False; [done|]. intros ->. congruence.
      * intros [|k] j b th1; cbn; [|apply Hres]. intros [= <-] [= <-] Hj. rewrite Hi0 in Hj. injection Hj as <-.
        unfold correlation. rewrite <-Hreq. apply Hext. by rewrite decide_True.
  - destruct Hs as (key & cid & payload & Hpc). cbn in Hpc. subst pc0.
    destruct (send_turn d id p answers rest c key cid payload l z (with_agenda (agenda p late) (gateway s)) Hw) as (w' & -> & Hw').
    cbn [mbind outcome_mbind outcome_bind]. apply IH. by eapply asking_well_sent.
Qed.

(** C9: Answers go by order, not by request.  Requests wait for the same worker
    at the same time; their turns - each sends itself, then takes an answer or
    sees its deadline pass - interleave in any order.  The worker answers what
    it is sent, in order.  Then the request that is the [k]-th to take an
    answer gets the worker's answer to the request that was the [k]-th to be
    sent, whichever that is: two requests whose turns cross get each other's
    answers, and after one that has timed out every later one is given the
    answer before its own, for as long as the connection lasts. *)
Theorem answers_go_by_order (d : Dispatcher) id p (ths : list Thread) (order : list (nat * bool)) (reply_to : nat -> Message)
    rest (w : World) :
  Forall (asking id) ths -> Forall (fun x => is_Some (ths !! x.1)) order -> (forall i, turns_of i order <= 2)%nat ->
  (forall i, sendable (reply_to i) /\ mtype (reply_to i) = TypeResponse) ->
  serving id p (reply_to <$> askers [] order) rest (wire w).2 ->
  exists s', run_calls d p order (mkSystem ths w) = Ret s' /\
    forall k i j th0, takers [] order !! k = Some i -> askers [] order !! k = Some j -> ths !! i = Some th0 ->
      exists th key cid, threads s' !! i = Some th /\
        pc th = Untracking key cid id (decodeWorkerResponse enc (reply_to j) (correlation th0)).
Proof.
  intros Hask Hrng Hocc Hrep Hsv.
  destruct (run_calls_answers d id p ths rest order [] (fun _ => None) (reply_to <$> askers [] order) (mkSystem ths w))
    as (s' & got' & Hrun & Hfin & _ & Hres).
  { split; cbn [threads gateway]; [| | |done|done| |].
    - intros i th0 Hi. exists th0. split; [done|]. split; [done|]. rewrite decide_False by set_solver.
      by eapply Forall_lookup_1.
    - intros i. specialize (Hocc i). rewrite decide_False by set_solver. lia.
    - by intros i [? ?].
    - apply Forall_fmap, Forall_true. intros i. apply Hrep.
    - rewrite length_fmap. by apply takers_askers. }
  exists s'. split; [exact Hrun|]. intros k i j th0 Hk Hj Hi.
  destruct (Hfin i th0 _ Hi (Hres k i (reply_to j) th0 Hk ltac:(by rewrite list_lookup_fmap, Hj) Hi)) as (th & key & cid & ? & ?).
  by exists th, key, cid.
Qed.

End Answers.

(** ** Two requests at once *)

Definition demo_start (path token : string) : Thread := start (clock 5) "uuid" (ask path token).
Definition two_at_once : System (T:=list (string * Message)) (H:=AccessLog) :=
  mkSystem [demo_start "/admin/7" "Bearer good"; demo_start "/health" ""] demo_world.

(** Each request up to the exchange, in turns. *)
Definition both_sent : list nat := concat (replicate 11 [0%nat; 1%nat]).

Lemma demo_routed : routed demo_dispatcher.
Proof.
  intros method path res HL. apply Lookup_sound in HL as (Hin & _).
  assert (Forall (fun e => re_workerID e <> "") demo_routes) as HF by by_compute.
  rewrite Forall_forall in HF. by apply HF.
Qed.

(** Both are in flight to the same worker. *)
Lemma counters_count_requests_witness :
  exists s, run_turns demo_enc demo_dispatcher both_sent two_at_once = Ret s /\
    count_at "node:admin" (gateway s) = 2 /\
    forall th, th ∈ threads s -> turn demo_enc demo_dispatcher th (gateway s) <> Panic "sync: negative WaitGroup counter".
Proof.
  destruct (run_turns demo_enc demo_dispatcher both_sent two_at_once) as [s|] eqn:E; [|vm_compute in E; discriminate E].
  exists s. split; [reflexivity|].
  destruct (counters_count_requests demo_enc eq demo_dispatcher two_at_once s) as [Hc Hp].
  - intros w w' <- Hd. split; [exact Hd|]. intros id. split; reflexivity.
  - exact demo_routed.
  - constructor.
  - intros dr [= <-]. apply NewWorkerDrainer_ok.
  - intros id n Hn. vm_compute in Hn. discriminate Hn.
  - constructor; [|constructor; [|constructor]]; do 3 eexists; reflexivity.
  - exact (run_turns_steps demo_enc eq demo_dispatcher both_sent two_at_once s E).
  - split; [|exact Hp]. destruct (Hc "node:admin") as [-> _]. vm_compute in E. injection E as <-. vm_compute. reflexivity.
Defined.

(** The turn in which the first of them is sent. *)
Lemma only_checked_requests_reach_workers_witness :
  exists s th th' w', run_turns demo_enc demo_dispatcher (replicate 11 0%nat) two_at_once = Ret s /\
    threads s !! 0%nat = Some th /\ turn demo_enc demo_dispatcher th (gateway s) = Ret (th', w') /\
    wire w' <> wire (gateway s) /\ passed demo_dispatcher (ask "/admin/7" "Bearer good").
Proof.
  destruct (run_turns demo_enc demo_dispatcher (replicate 11 0%nat) two_at_once) as [s|] eqn:E; [|vm_compute in E; discriminate E].
  destruct (threads s !! 0%nat) as [th|] eqn:Eth; [|vm_compute in E; injection E as <-; vm_compute in Eth; discriminate Eth].
  destruct (turn demo_enc demo_dispatcher th (gateway s)) as [[th' w']|] eqn:Et;
    [|vm_compute in E; injection E as <-; vm_compute in Eth; injection Eth as <-; vm_compute in Et; discriminate Et].
  assert (wire w' <> wire (gateway s)) as Hw.
  { vm_compute in E. injection E as <-. vm_compute in Eth. injection Eth as <-. vm_compute in Et. injection Et as _ <-.
    vm_compute. discriminate. }
  exists s, th, th', w'. split; [reflexivity|]. split; [exact Eth|]. split; [exact Et|]. split; [exact Hw|].
  apply (only_checked_requests_reach_workers demo_enc eq demo_dispatcher two_at_once s 0 (clock 5) "uuid"
    (ask "/admin/7" "Bearer good") th th' w').
  - constructor.
  - reflexivity.
  - exact (run_turns_steps demo_enc eq demo_dispatcher (replicate 11 0%nat) two_at_once s E).
  - exact Eth.
  - exact Et.
  - exact Hw.
Defined.

(** A request that has picked its worker when the drain begins. *)
Lemma drain_misses_requests_witness :
  exists s th w', run_turns demo_enc demo_dispatcher (replicate 9 1%nat) two_at_once = Ret s /\
    threads s !! 1%nat = Some th /\ wire w' = [("node:admin", mkMessage TypeRequest (of_string "/health"))] /\
    exists th', turns demo_enc 3 demo_dispatcher th (w_drainer (Some (MarkDraining "node:admin" NewWorkerDrainer)) (gateway s)) = Ret (th', w').
Proof.
  destruct (run_turns demo_enc demo_dispatcher (replicate 9 1%nat) two_at_once) as [s|] eqn:E; [|vm_compute in E; discriminate E].
  destruct (threads s !! 1%nat) as [th|] eqn:Eth; [|vm_compute in E; injection E as <-; vm_compute in Eth; discriminate Eth].
  destruct (drain_misses_requests demo_enc demo_dispatcher th (gateway s) NewWorkerDrainer "node:admin" (of_string "/health"))
    as [_ (th' & w' & Ht & Hw)].
  - vm_compute in E. injection E as <-. vm_compute in Eth. injection Eth as <-. vm_compute. reflexivity.
  - vm_compute in E. injection E as <-. vm_compute. reflexivity.
  - apply NewWorkerDrainer_ok.
  - reflexivity.
  - exists s, th, w'. split; [reflexivity|]. split; [exact Eth|]. split; [|exists th'; exact Ht].
    rewrite Hw. vm_compute in E. injection E as <-. vm_compute. reflexivity.
Defined.

(** One request holds the worker, the clean-up comes, another takes the
    worker: when both have their answers, the second release panics. *)
Definition cleaned (s : System (T:=list (string * Message)) (H:=AccessLog)) : System :=
  mkSystem (threads s) (w_drainer (Cleanup "node:admin" <$> drainer (gateway s)) (gateway s)).
Definition stop_in_between : outcome (System (T:=list (string * Message)) (H:=AccessLog)) :=
  s ← run_turns demo_enc demo_dispatcher (replicate 11 0%nat) two_at_once;
  run_turns demo_enc demo_dispatcher (replicate 15 1%nat ++ replicate 4 0%nat) (cleaned s).
Example crash :
  (s ← stop_in_between; run_turns demo_enc demo_dispatcher [0; 1]%nat s) = Panic "sync: negative WaitGroup counter".
Proof. vm_compute. reflexivity. Qed.

Lemma cleanup_makes_requests_panic_witness :
  exists dr dr' (w' : World (T:=list (string * Message)) (H:=AccessLog)), Acquire "node:admin" (Cleanup "node:admin" dr) = Ret dr' /\
    turn demo_enc demo_dispatcher (mkThread (clock 5) (Releasing None None) (lc_worker "node:admin" (NewLifecycleContext (ask "/health" ""))) 200)
      w' = Panic "sync: negative WaitGroup counter".
Proof.
  destruct (Acquire "node:admin" NewWorkerDrainer) as [dr|] eqn:E1; [|vm_compute in E1; discriminate E1].
  destruct (Acquire "node:admin" (Cleanup "node:admin" dr)) as [dr'|] eqn:E2;
    [|vm_compute in E1; injection E1 as <-; vm_compute in E2; discriminate E2].
  set (l := lc_worker "node:admin" (NewLifecycleContext (ask "/health" ""))).
  destruct (cleanup_makes_requests_panic demo_enc demo_dispatcher (w_drainer (Some dr') demo_world) dr dr' "node:admin"
    (clock 5) (clock 5) None None l 200 None None l 200) as (w' & _ & Hp).
  - exact (proj1 (drainer_step_ok _ (OAcquire "node:admin") dr NewWorkerDrainer_ok E1)).
  - discriminate.
  - exact E2.
  - reflexivity.
  - reflexivity.
  - reflexivity.
  - exists dr, dr', w'. split; [exact E2|]. exact (Hp w' eq_refl).
Defined.

(** Alice, Bob and Carol ask the same worker.  Alice is sent first, then Bob;
    Alice's deadline passes before Carol is sent, and Carol takes first. *)
Definition sending (who : string) : Thread :=
  mkThread (clock 5) (Sending "GET:/health" who "node:admin" (of_string who))
    (NewLifecycleContext (mkRequest "GET" "/health" {["X-Request-Id" := who]} ∅ None [] None "10.0.0.1")) 0.
Definition crossed : list (nat * bool) := [(0, false); (1, false); (0, true); (2, false); (2, false); (1, false)]%nat.
Definition reply_to (i : nat) : Message :=
  answer match i with 0%nat => "for alice" | 1%nat => "for bob" | _ => "for carol" end.
Definition three_callers : World (T:=Wire) (H:=AccessLog) :=
  mkWorld (NewRegistry demo_config false) None None demo_heap
    ([], accept "node:admin" [concat (frame <$> (reply_to <$> [0; 1; 2]%nat))] (New "/tmp/vyx")) (mkAccessLog ∅ []).

Lemma answers_go_by_order_witness :
  exists s' th key cid, run_calls demo_enc demo_dispatcher 0 crossed
      (mkSystem [sending "alice"; sending "bob"; sending "carol"] three_callers) = Ret s' /\
    threads s' !! 2%nat = Some th /\
    pc th = Untracking key cid "node:admin" (Failed (Some (mkResponse 200 ∅ (of_string "for alice") "carol"))).
Proof.
  destruct (answers_go_by_order demo_enc demo_dispatcher "node:admin" 0 [sending "alice"; sending "bob"; sending "carol"]
    crossed reply_to [] three_callers) as (s' & Hrun & Hk).
  - repeat constructor; do 3 eexists; reflexivity.
  - by_compute.
  - intros i. destruct i as [|[|[|i]]]; vm_compute; lia.
  - intros i. split; [|reflexivity]. destruct i as [|[|i]]; by_compute.
  - split; [vm_compute; reflexivity|]. eexists. split; [vm_compute; reflexivity|].
    split; [split; vm_compute; reflexivity|split; reflexivity].
  - destruct (Hk 0%nat 2%nat 0%nat (sending "carol")) as (th & key & cid & Hth & Hpc); [vm_compute; reflexivity..|].
    exists s', th, key, cid. split; [exact Hrun|]. split; [exact Hth|]. rewrite Hpc. vm_compute. reflexivity.
Defined.
