(* ===== verification/Pipe.v ===== *)
(** * The Windows named pipes ([core/infrastructure/ipc/uds/named_pipe_windows.go])

    The transport of the Windows build.  The system's calls are a class: a
    handle is a number that names an open object of the process, and a number
    that has been closed may name the next object opened.  The goroutine of
    [acceptPipe] waits in [ConnectNamedPipe]; what it gets back is an [Event].
    Listeners and connections are shared by pointer between the maps and the
    goroutines, so they live in stores. *)
From S2P Require Import Prelude GoStrings Ipc Circuit Worker Pool PoolManager Drainer Gateway Dispatcher DispatchFacts Uds.
Local Open Scope string_scope.
Local Open Scope list_scope.
Local Open Scope Z_scope.

Definition namedPipePrefix : string := "\\.\pipe\vyx-".
Definition pipePath (workerID : string) : string := namedPipePrefix +:+ workerID.

Notation handle := Z.

Class PipeOS (O : Type) := {
  OpenCurrentProcessToken : O -> option error * O;
  Token_Close : O -> O;
  GetTokenUser : O -> result string;
  SecurityDescriptorFromString : string -> option error;
  UTF16PtrFromString : string -> option error;
  CreateNamedPipe : string -> string -> O -> result handle * O;
  CreateFile : string -> O -> result handle * O;
  FlushAndDisconnect : handle -> O -> O;
  CloseHandle : handle -> O -> option error * O;
}.

(** Opening gives a number that was not open; closing takes a number away,
    whatever it names. *)
Class PipeLaws (O : Type) `{!PipeOS O} := {
  open_handles : O -> gset handle;
  Token_open o : open_handles (OpenCurrentProcessToken o).2 = open_handles o;
  Token_Close_open o : open_handles (Token_Close o) = open_handles o;
  CreateNamedPipe_open p sd o :
    match CreateNamedPipe p sd o with
    | (Ok h, o') => h ∉ open_handles o /\ open_handles o' = {[h]} ∪ open_handles o
    | (Err _, o') => open_handles o' = open_handles o
    end;
  Flush_open h o : open_handles (FlushAndDisconnect h o) = open_handles o;
  CloseHandle_open h o : open_handles (CloseHandle h o).2 = open_handles o ∖ {[h]};
}.

(** ** The transport *)

(** [l_handle] is [None] for [windows.InvalidHandle]. *)
Record namedPipeListener := mkListener { l_path : string; l_handle : option handle }.
(** A [handleConn]: [once] tells whether [Close] has run; input and output as
    in [Uds]. *)
Record handleConn := mkHandleConn {
  c_handle : handle; c_path : string; once : bool;
  c_input : reader; c_sent : bytes; c_fault : option error;
}.
Definition newHandleConn (h : handle) (path : string) (r : reader) : handleConn := mkHandleConn h path false r [] None.

Record NamedPipeTransport := mkTransport {
  listeners : gmap string nat;
  connections : gmap string nat;
  lns : list namedPipeListener;
  cns : list handleConn;
  accepting : list (string * nat);   (* the goroutines of acceptPipe *)
}.
Definition NewNamedPipeTransport : NamedPipeTransport := mkTransport ∅ ∅ [] [] [].

Section Transport.
Context {O : Type} `{OS : !PipeOS O}.

Definition sddl (sid : string) : string := "O:" +:+ sid +:+ "D:(A;;GA;;;" +:+ sid +:+ ")".
Definition createSecureNamedPipe (path : string) (o : O) : result handle * O :=
  match OpenCurrentProcessToken o with
  | (Some err, o) => (Err (WrapErr "named pipe: OpenCurrentProcessToken: " err ""), o)
  | (None, o) =>
      match GetTokenUser o with
      | Err err => (Err (WrapErr "named pipe: GetTokenUser: " err ""), Token_Close o)
      | Ok sid =>
          match SecurityDescriptorFromString (sddl sid) with
          | Some err => (Err (WrapErr "named pipe: SecurityDescriptorFromString: " err ""), Token_Close o)
          | None =>
              match UTF16PtrFromString path with
              | Some err => (Err (WrapErr "named pipe: UTF16PtrFromString: " err ""), Token_Close o)
              | None =>
                  match CreateNamedPipe path (sddl sid) o with
                  | (Err err, o) => (Err (WrapErr "named pipe: CreateNamedPipe: " err ""), Token_Close o)
                  | (Ok h, o) => (Ok h, Token_Close o)
                  end
              end
          end
      end
  end.

(** [handleConn.Close], once. *)
Definition close_conn (p : nat) (t : NamedPipeTransport) (o : O) : NamedPipeTransport * O :=
  match cns t !! p with
  | Some c =>
      if once c then (t, o)
      else (mkTransport (listeners t) (connections t) (lns t)
              (<[p := mkHandleConn (c_handle c) (c_path c) true (c_input c) (c_sent c) (c_fault c)]> (cns t)) (accepting t),
            (CloseHandle (c_handle c) (FlushAndDisconnect (c_handle c) o)).2)
  | None => (t, o)
  end.
Definition drop_conn (workerID : string) (t : NamedPipeTransport) (o : O) : NamedPipeTransport * O :=
  match connections t !! workerID with
  | None => (t, o)
  | Some p =>
      let '(t, o) := close_conn p t o in
      (mkTransport (listeners t) (delete workerID (connections t)) (lns t) (cns t) (accepting t), o)
  end.
Definition drop_listener (workerID : string) (t : NamedPipeTransport) (o : O) : NamedPipeTransport * O :=
  match listeners t !! workerID with
  | None => (t, o)
  | Some l =>
      (mkTransport (delete workerID (listeners t)) (connections t) (lns t) (cns t) (accepting t),
       match lns t !! l ≫= l_handle with Some h => (CloseHandle h o).2 | None => o end)
  end.

Definition Register (workerID : string) (t : NamedPipeTransport) (o : O) : option error * NamedPipeTransport * O :=
  let path := pipePath workerID in
  match createSecureNamedPipe path o with
  | (Err err, o) => (Some err, t, o)
  | (Ok h, o) =>
      let '(t, o) := drop_conn workerID t o in
      let l := length (lns t) in
      (None, mkTransport (<[workerID := l]> (listeners t)) (connections t) (lns t ++ [mkListener path (Some h)])
               (cns t) (accepting t ++ [(workerID, l)]), o)
  end.

(** The end of the [k]-th [acceptPipe]: the worker has connected and [r] is
    what it will send, or the wait has failed or been cancelled. *)
Inductive Event := Connected (k : nat) (r : reader) | Failed (k : nat).
Definition end_accept (k : nat) (t : NamedPipeTransport) : NamedPipeTransport :=
  mkTransport (listeners t) (connections t) (lns t) (cns t) (delete k (accepting t)).
Definition acceptPipe (e : Event) (t : NamedPipeTransport) (o : O) : NamedPipeTransport * O :=
  match e with
  | Failed k =>
      match accepting t !! k with
      | None => (t, o)
      | Some (_, l) =>
          (end_accept k t, match lns t !! l ≫= l_handle with Some h => (CloseHandle h o).2 | None => o end)
      end
  | Connected k r =>
      match accepting t !! k with
      | None => (t, o)
      | Some (workerID, l) =>
          match lns t !! l with
          | Some (mkListener path (Some h)) =>
              (mkTransport (listeners t) (<[workerID := length (cns t)]> (connections t))
                 (<[l := mkListener path None]> (lns t)) (cns t ++ [newHandleConn h path r]) (delete k (accepting t)), o)
          | _ => (end_accept k t, o)
          end
      end
  end.

Definition Deregister (workerID : string) (t : NamedPipeTransport) (o : O) : option error * NamedPipeTransport * O :=
  let '(t, o) := drop_conn workerID t o in
  let '(t, o) := drop_listener workerID t o in (None, t, o).

(** [o1] and [o2] are the orders in which the runtime ranges over the maps. *)
Definition Close (o1 o2 : list string) (t : NamedPipeTransport) (o : O) : option error * NamedPipeTransport * O :=
  let '(t, o) := foldl (fun to id => drop_conn id to.1 to.2) (t, o) o1 in
  let '(t, o) := foldl (fun to id => drop_listener id to.1 to.2) (t, o) o2 in (None, t, o).
End Transport.

(** ** Sending and receiving *)

Definition getConn (workerID : string) (t : NamedPipeTransport) : result nat :=
  match connections t !! workerID with
  | None => Err (not_connected workerID)
  | Some p => Ok p
  end.

(** A closed handle is refused by the system. *)
Definition ErrInvalidHandle := Sentinel "windows.ERROR_INVALID_HANDLE" "The handle is invalid.".
Definition Write_ (b : bytes) (c : handleConn) : option error * handleConn :=
  if once c then (Some ErrInvalidHandle, c)
  else match c_fault c with
       | Some e => (Some e, c)
       | None => (None, mkHandleConn (c_handle c) (c_path c) (once c) (c_input c) (c_sent c ++ b) (c_fault c))
       end.
Definition set_conn (p : nat) (c : handleConn) (t : NamedPipeTransport) : NamedPipeTransport :=
  mkTransport (listeners t) (connections t) (lns t) (<[p := c]> (cns t)) (accepting t).

Definition Send (workerID : string) (msg : Message) (t : NamedPipeTransport) : option error * NamedPipeTransport :=
  match getConn workerID t with
  | Err err => (Some err, t)
  | Ok p =>
      match cns t !! p with
      | None => (None, t)
      | Some c => let '(err, c) := Ipc.Write Write_ msg c in (err, set_conn p c t)
      end
  end.

Definition Receive (workerID : string) (t : NamedPipeTransport) : result Message * NamedPipeTransport :=
  match getConn workerID t with
  | Err err => (Err err, t)
  | Ok p =>
      match cns t !! p with
      | None => (Err (not_connected workerID), t)
      | Some c =>
          if once c then (Err (WrapErr "framing: read header: " ErrInvalidHandle ""), t)
          else let '(res, r) := Read (c_input c) in
               (res, set_conn p (mkHandleConn (c_handle c) (c_path c) (once c) r (c_sent c) (c_fault c)) t)
      end
  end.
(** There is no demultiplexer, and the context is not looked at. *)
Definition ReceiveResponse := Receive.

(** The transport as the dispatcher sees it: no deadline ever expires. *)
#[export] Instance pipe_transport : Dispatcher.Transport NamedPipeTransport := {
  Dispatcher.Send := Send;
  Dispatcher.ReceiveResponse workerID t := let '(res, t) := ReceiveResponse workerID t in (res, false, t);
}.

(** [DialNamedPipe]: the handle and path of the client's connection. *)
Definition DialNamedPipe {O} `{!PipeOS O} (workerID : string) (r : reader) (o : O) : result handleConn * O :=
  let path := pipePath workerID in
  match UTF16PtrFromString path with
  | Some err => (Err (WrapErr "named pipe: UTF16PtrFromString: " err ""), o)
  | None =>
      match CreateFile path o with
      | (Err err, o) => (Err (WrapErr "named pipe: CreateFile: " err ""), o)
      | (Ok h, o) => (Ok (newHandleConn h path r), o)
      end
  end.
Definition PlatformTransport : NamedPipeTransport := NewNamedPipeTransport.

(** ** Handles *)

Section Handles.
Context {O : Type} `{OS : !PipeOS O} `{LAWS : !PipeLaws O}.

Lemma createSecureNamedPipe_open path o :
  match createSecureNamedPipe path o with
  | (Ok h, o') => h ∉ open_handles o /\ open_handles o' = {[h]} ∪ open_handles o
  | (Err _, o') => open_handles o' = open_handles o
  end.
Proof.
  unfold createSecureNamedPipe. pose proof (Token_open o) as ET.
  destruct (OpenCurrentProcessToken o) as [[e|] o1]; cbn in ET; [done|].
  destruct (GetTokenUser o1) as [sid|e]; [|by rewrite Token_Close_open].
  destruct (SecurityDescriptorFromString _); [by rewrite Token_Close_open|].
  destruct (UTF16PtrFromString path); [by rewrite Token_Close_open|].
  pose proof (CreateNamedPipe_open path (sddl sid) o1) as EC.
  destruct (CreateNamedPipe path (sddl sid) o1) as [[h|e] o2]; rewrite Token_Close_open; [|congruence].
  by rewrite <-ET.
Qed.

(** What a registration of a worker without a connection does. *)
Lemma Register_fresh w t o t' o' :
  connections t !! w = None -> Register w t o = (None, t', o') ->
  exists h, h ∉ open_handles o /\ open_handles o' = {[h]} ∪ open_handles o /\
    t' = mkTransport (<[w := length (lns t)]> (listeners t)) (connections t)
           (lns t ++ [mkListener (pipePath w) (Some h)]) (cns t) (accepting t ++ [(w, length (lns t))]).
Proof.
  intros Hc. unfold Register. pose proof (createSecureNamedPipe_open (pipePath w) o) as EC.
  destruct (createSecureNamedPipe (pipePath w) o) as [[h|e] o1]; [|done].
  unfold drop_conn. rewrite Hc. intros [= <- <-]. exists h. by destruct EC.
Qed.
End Handles.

(** A handle is closed twice, and the second time it is somebody else's.
    [Deregister] closes the handle of a pipe its worker has not connected to
    yet without marking the listener, so the wait in [ConnectNamedPipe] fails
    and [acceptPipe] closes the same number again.  If a pipe registered in
    between - for the same worker on its restart, or for any other - was given
    that number, as the system may, it is that pipe that is closed: the
    worker's listener, still in the table with its goroutine still waiting,
    holds a handle that is not open, so the worker can never connect. *)
Theorem stale_accept_closes_new_pipe {O} `{!PipeOS O} `{!PipeLaws O}
    (w1 w2 : string) (h : handle) (t t1 t2 t3 : NamedPipeTransport) (o o1 o2 o3 : O) :
  connections t !! w1 = None -> connections t !! w2 = None ->
  Register w1 t o = (None, t1, o1) -> Deregister w1 t1 o1 = (None, t2, o2) -> Register w2 t2 o2 = (None, t3, o3) ->
  lns t1 !! length (lns t) = Some (mkListener (pipePath w1) (Some h)) ->
  lns t3 !! length (lns t1) = Some (mkListener (pipePath w2) (Some h)) ->
  h ∈ open_handles o1 /\ h ∉ open_handles o2 /\ h ∈ open_handles o3 /\
  let '(t4, o4) := acceptPipe (Failed (length (accepting t))) t3 o3 in
  listeners t4 !! w2 = Some (length (lns t1)) /\
  lns t4 !! length (lns t1) = Some (mkListener (pipePath w2) (Some h)) /\
  (w2, length (lns t1)) ∈ accepting t4 /\ h ∉ open_handles o4.
Proof.
  intros Hc1 Hc2 R1 D R2 L1 L3.
  destruct (Register_fresh _ _ _ _ _ Hc1 R1) as (h1 & Hh1 & Ho1 & Et1).
  assert (lns t1 !! length (lns t) = Some (mkListener (pipePath w1) (Some h1))) as L1' by (by rewrite Et1; cbn; rewrite list_lookup_middle).
  assert (h1 = h) as -> by congruence. clear L1'.
  assert (t2 = mkTransport (delete w1 (listeners t1)) (connections t1) (lns t1) (cns t1) (accepting t1) /\
    o2 = (CloseHandle h o1).2) as [Et2 Eo2].
  { revert D. unfold Deregister, drop_conn, drop_listener.
    assert (connections t1 !! w1 = None) as -> by (by rewrite Et1).
    assert (listeners t1 !! w1 = Some (length (lns t))) as -> by (by rewrite Et1; cbn; rewrite lookup_insert_eq).
    rewrite L1. cbn. by intros [= <- <-]. }
  destruct (Register_fresh w2 t2 o2 t3 o3) as (h3 & Hh3 & Ho3 & Et3); [by rewrite Et2, Et1|done|].
  assert (lns t3 !! length (lns t1) = Some (mkListener (pipePath w2) (Some h3))) as L3'.
  { rewrite Et3, Et2. cbn. by rewrite list_lookup_middle. }
  assert (h3 = h) as -> by congruence. clear L3'.
  split; [rewrite Ho1; set_solver|]. split; [done|]. split; [rewrite Ho3; set_solver|].
  assert (accepting t3 !! length (accepting t) = Some (w1, length (lns t))) as HA.
  { rewrite Et3, Et2, Et1. cbn. rewrite <-app_assoc. cbn [app]. by rewrite list_lookup_middle. }
  assert (lns t3 !! length (lns t) = Some (mkListener (pipePath w1) (Some h))) as HL.
  { rewrite Et3, Et2. cbn. rewrite lookup_app_l by (by eapply lookup_lt_Some). done. }
  unfold acceptPipe. rewrite HA, HL. cbn. split; [|split; [done|split]].
  - rewrite Et3, Et2. cbn. by rewrite lookup_insert_eq.
  - rewrite Et3, Et2, Et1. cbn. rewrite <-app_assoc. cbn [app].
    rewrite delete_middle. rewrite elem_of_app. right. set_solver.
  - rewrite CloseHandle_open. set_solver.
Qed.

(** ** Answers *)

Section Answers.
Context {H : Type} (enc : Encoding).
Implicit Types r : Run (T:=NamedPipeTransport) (H:=H).

(** On Windows a request is answered by whatever frame comes next.  The
    heartbeat loop and the dispatcher read the same connection, without a
    demultiplexer and without a deadline: over a healthy connection on which
    the frames [m :: ms] are to come, the exchange of a request takes [m],
    be it the answer to an earlier request or a heartbeat, and leaves [ms].
    A heartbeat becomes a response with status 200 and an empty body. *)
Theorem next_frame_answers (d : Dispatcher (H:=H)) (now : Z) (key workerID : string) (payload : bytes)
    (correlationID : string) r (p : nat) (c : handleConn) (m : Message) (ms : list Message) (rest : bytes) :
  connections (wire (wd r)) !! workerID = Some p -> cns (wire (wd r)) !! p = Some c ->
  once c = false -> c_fault c = None ->
  concat (c_input c) = concat (frame <$> m :: ms) ++ rest -> sendable m -> mtype m <> TypeError ->
  exists r' c', exchange enc d now key workerID payload correlationID r
      = (decodeWorkerResponse enc m correlationID, r') /\
    cns (wire (wd r')) !! p = Some c' /\ concat (c_input c') = concat (frame <$> ms) ++ rest /\
    c_sent c' = c_sent c ++ frame (mkMessage TypeRequest payload) /\
    (forall e, m = mkMessage TypeHeartbeat [] -> unmarshal enc [] = Err e ->
       decodeWorkerResponse enc m correlationID = Dispatcher.Failed (Some (mkResponse 200 ∅ [] correlationID))).
Proof.
  intros Hc Hp Ho Hf Hin Hm Ht. unfold exchange. cbn [Dispatcher.Send Dispatcher.ReceiveResponse pipe_transport].
  unfold Send, getConn. rewrite Hc, Hp. unfold Ipc.Write, Write_. rewrite Ho, Hf. cbn [on_wd wd w_wire wire].
  unfold ReceiveResponse, Receive, getConn. cbn [connections set_conn cns]. rewrite Hc.
  pose proof (lookup_lt_Some _ _ _ Hp) as Hlt. rewrite list_lookup_insert_eq by done. cbn [once c_input].
  rewrite fmap_cons in Hin. cbn [concat] in Hin. rewrite <-app_assoc in Hin.
  destruct (Read_frame _ _ _ Hm Hin) as (rd & HR & Hrd). rewrite HR. rewrite decide_False by done.
  eexists _, _. split; [reflexivity|]. cbn [on_wd wd w_wire wire cns set_conn].
  rewrite list_lookup_insert_eq by (by rewrite length_insert). split; [done|]. split; [done|]. split; [done|].
  intros e -> He. unfold decodeWorkerResponse. cbn [Payload]. by rewrite He.
Qed.
End Answers.

(** ** A system in memory, and witnesses *)

Definition next_handle (X : gset handle) : handle := foldr Z.max 0 (elements X) + 4.
#[export] Instance memory_pipes : PipeOS (gset handle) := {
  OpenCurrentProcessToken o := (None, o);
  Token_Close o := o;
  GetTokenUser _ := Ok "S-1-5-21";
  SecurityDescriptorFromString _ := None;
  UTF16PtrFromString _ := None;
  CreateNamedPipe _ _ o := (Ok (next_handle o), {[next_handle o]} ∪ o);
  CreateFile _ o := (Ok (next_handle o), {[next_handle o]} ∪ o);
  FlushAndDisconnect _ o := o;
  CloseHandle h o := (None, o ∖ {[h]});
}.
#[export, refine] Instance memory_pipes_laws : PipeLaws (gset handle) := { open_handles o := o }.
Proof.
  all: try done.
  intros p sd o. cbn. split; [|done]. intros Hin. apply elem_of_elements in Hin.
  assert (forall h, h ∈ elements o -> h <= foldr Z.max 0 (elements o)) as Hm.
  { clear. intros h. induction (elements o) as [|a l IH]; [set_solver|]. intros [->|Hh]%elem_of_cons; cbn; [lia|].
    specialize (IH Hh). lia. }
  specialize (Hm _ Hin). unfold next_handle in Hm. lia.
Defined.

Definition registered (w : string) (to : NamedPipeTransport * gset handle) : NamedPipeTransport * gset handle :=
  let '(_, t, o) := Register w to.1 to.2 in (t, o).
Definition deregistered (w : string) (to : NamedPipeTransport * gset handle) : NamedPipeTransport * gset handle :=
  let '(_, t, o) := Deregister w to.1 to.2 in (t, o).
Definition start : NamedPipeTransport * gset handle := (NewNamedPipeTransport, ∅).
Definition restarted := registered "node:api" (deregistered "node:api" (registered "node:api" start)).

Lemma stale_accept_closes_new_pipe_witness :
  let '(t, o) := acceptPipe (Failed 0) restarted.1 restarted.2 in
  listeners t !! "node:api" = Some 1%nat /\ lns t !! 1%nat = Some (mkListener (pipePath "node:api") (Some 4)) /\ 4 ∉ open_handles o.
Proof.
  destruct (stale_accept_closes_new_pipe "node:api" "node:api" 4 start.1 (registered "node:api" start).1
    (deregistered "node:api" (registered "node:api" start)).1 restarted.1 start.2 (registered "node:api" start).2
    (deregistered "node:api" (registered "node:api" start)).2 restarted.2) as (_ & _ & _ & HA).
  - vm_compute. reflexivity.
  - vm_compute. reflexivity.
  - vm_compute. reflexivity.
  - vm_compute. reflexivity.
  - vm_compute. reflexivity.
  - vm_compute. reflexivity.
  - vm_compute. reflexivity.
  - change (length (accepting start.1)) with 0%nat in HA.
    change (length (lns (registered "node:api" start).1)) with 1%nat in HA.
    destruct (acceptPipe (Failed 0) restarted.1 restarted.2) as [t o]. destruct HA as (H1 & H2 & _ & H3). by split_and!.
Defined.

Definition piped : NamedPipeTransport :=
  mkTransport ∅ {["node:api" := 0%nat]} []
    [newHandleConn 4 (pipePath "node:api") [frame (mkMessage TypeHeartbeat []); frame (mkMessage TypeResponse (of_string "{}"))]] [].
Definition piped_run : Run (T:=NamedPipeTransport) (H:=AccessLog) :=
  mkRun (mkWorld (NewRegistry demo_config false) None None demo_heap piped (mkAccessLog ∅ []))
    (NewLifecycleContext (ask "/admin/7" "Bearer good")) 0.
Definition deaf_enc : Encoding := mkEncoding (fun p => Ok (p_Body p)) (fun b => Err (NewErr "unexpected end of JSON input")) (fun _ => "").

Lemma next_frame_answers_witness :
  exists r', exchange deaf_enc demo_dispatcher 5 "key" "node:api" (of_string "{}") "id" piped_run
    = (Dispatcher.Failed (Some (mkResponse 200 ∅ [] "id")), r').
Proof.
  destruct (next_frame_answers deaf_enc demo_dispatcher 5 "key" "node:api" (of_string "{}") "id" piped_run 0
    (newHandleConn 4 (pipePath "node:api") [frame (mkMessage TypeHeartbeat []); frame (mkMessage TypeResponse (of_string "{}"))])
    (mkMessage TypeHeartbeat []) [mkMessage TypeResponse (of_string "{}")] [])
    as (r' & c' & E & _ & _ & _ & HE); [reflexivity..|by_compute|by_compute|].
  exists r'. rewrite E, (HE (NewErr "unexpected end of JSON input") eq_refl eq_refl). reflexivity.
Defined.
