(* ===== verification/ConnPool.v ===== *)
(** * The socket connection pool ([infrastructure/ipc/uds/pool.go])

    The pool at the granularity of its mutex: an operation that gives the lock
    up in the middle ([Acquire], [Close], the replenishing goroutines) is
    several steps, and [System] adds the goroutines that are between two of
    them and the connections that callers hold.  [NewPool] has no caller in
    the repository besides the tests: the theorems are about the contract its
    comments state.

    A [*pooledConn] is an address in the heap [conns]; every dial makes one
    connection and wraps it once, so a cell holds the socket as well: whether
    it is closed and its write deadline.  The counters [total] and [inUse] are
    left exact: they move by one per call. *)
From S2P Require Import Prelude.
Local Open Scope string_scope.
Local Open Scope list_scope.
Local Open Scope Z_scope.

Definition DefaultMinSize : Z := 2.
Definition DefaultMaxSize : Z := 16.
Definition DefaultIdleTimeout : Z := 30 * second.
Definition DefaultDialTimeout : Z := 5 * second.

Definition ErrPoolClosed := Sentinel "uds.ErrPoolClosed" "uds pool: closed".
Definition ErrPoolExhausted := Sentinel "uds.ErrPoolExhausted" "uds pool: exhausted".

Record PoolConfig := mkPoolConfig {
  SocketPath : string;
  MinSize : Z;
  MaxSize : Z;
  IdleTimeout : Z;
  DialTimeout : Z;
}.

(** ** Connections

    [net.Conn] as far as the pool and its callers rely on it: a deadline that
    is set stays until it is set again, and a write after it fails; every call
    on a closed connection fails. *)
Record pooledConn := mkPooledConn {
  lastUsed : Z;
  writeDeadline : option Z;
  socket_closed : bool;
}.

Definition net_ErrClosed := Sentinel "net.ErrClosed" "use of closed network connection".
Definition ErrDeadlineExceeded := Sentinel "os.ErrDeadlineExceeded" "i/o timeout".

Definition conn_Close (c : pooledConn) : pooledConn := mkPooledConn (lastUsed c) (writeDeadline c) true.
Definition touch (now : Z) (c : pooledConn) : pooledConn :=
  mkPooledConn now (writeDeadline c) (socket_closed c).
Definition SetWriteDeadline (t : Z) (c : pooledConn) : option error * pooledConn :=
  if socket_closed c then (Some net_ErrClosed, c)
  else (None, mkPooledConn (lastUsed c) (Some t) (socket_closed c)).

(** What a [Write] that the peer would take at once returns at [now]. *)
Definition write_error (now : Z) (c : pooledConn) : option error :=
  if socket_closed c then Some net_ErrClosed
  else match writeDeadline c with
       | Some t => if t <=? now then Some ErrDeadlineExceeded else None
       | None => None
       end.

(** ** The pool *)

(** [cancelled] is [lifecycleCtx]; the heap [conns] stands for the memory. *)
Record Pool := mkPool {
  cfg : PoolConfig;
  idle : list nat;
  total : Z;
  inUse : Z;
  closed : bool;
  cancelled : bool;
  conns : list pooledConn;
}.

Definition set_idle (l : list nat) (p : Pool) : Pool :=
  mkPool (cfg p) l (total p) (inUse p) (closed p) (cancelled p) (conns p).
Definition count (dt du : Z) (p : Pool) : Pool :=
  mkPool (cfg p) (idle p) (total p + dt) (inUse p + du) (closed p) (cancelled p) (conns p).
Definition set_conns (cs : list pooledConn) (p : Pool) : Pool :=
  mkPool (cfg p) (idle p) (total p) (inUse p) (closed p) (cancelled p) cs.
Definition on_conn (f : pooledConn -> pooledConn) (a : nat) (p : Pool) : Pool :=
  set_conns (alter f a (conns p)) p.

(** A connection the dialer returned, wrapped: its address is the next one. *)
Definition wrap (now : Z) (p : Pool) : nat * Pool :=
  (length (conns p), set_conns (conns p ++ [mkPooledConn now None false]) p).

(** [isAlive] sets a deadline 100 ms ahead and reports what that returns. *)
Definition isAlive (now : Z) (a : nat) (p : Pool) : option error * Pool :=
  match conns p !! a with
  | None => (None, p)
  | Some c =>
      let '(err, c) := SetWriteDeadline (now + 100 * 10 ^ 6) c in
      (err, set_conns (<[a := c]> (conns p)) p)
  end.

(** *** Acquire

    How a locked stretch of [Acquire] ends: it returns, or goes on without the
    lock to close a dead connection and look again, or to dial. *)
Inductive acquiring :=
  | Got (a : nat)
  | Refused (err : error)
  | Closing (a : nat)
  | Dialling.

Definition acquire_scan (now : Z) (p : Pool) : acquiring * Pool :=
  match last (idle p) with
  | Some a =>
      let p := set_idle (removelast (idle p)) p in
      let '(err, p) := isAlive now a p in
      match err with
      | Some _ => (Closing a, count (-1) 0 p)
      | None => (Got a, count 0 1 p)
      end
  | None =>
      if MaxSize (cfg p) <=? total p then (Refused ErrPoolExhausted, p)
      else (Dialling, count 1 1 p)
  end.

Definition Acquire (now : Z) (p : Pool) : acquiring * Pool :=
  if closed p then (Refused ErrPoolClosed, p) else acquire_scan now p.

(** After the dial; [dialled] is its error. *)
Definition acquire_dialled (dialled : option error) (now : Z) (p : Pool) : result nat * Pool :=
  match dialled with
  | Some err => (Err (WrapErr "uds pool: dial: " err ""), count (-1) (-1) p)
  | None => let '(a, p) := wrap now p in (Ok a, p)
  end.

(** *** Release *)

Definition Release (a : nat) (now : Z) (p : Pool) : Pool :=
  let p := on_conn (touch now) a p in
  if closed p || (MaxSize (cfg p) <=? Z.of_nat (length (idle p)))
  then on_conn conn_Close a (count (-1) (-1) p)
  else count 0 (-1) (set_idle (idle p ++ [a]) p).

(** *** Close: first the context, then the locked part *)

Definition close_cancel (p : Pool) : Pool :=
  mkPool (cfg p) (idle p) (total p) (inUse p) (closed p) true (conns p).
Definition close_each (l : list nat) (cs : list pooledConn) : list pooledConn :=
  foldl (fun cs a => alter conn_Close a cs) cs l.
Definition close_locked (p : Pool) : Pool :=
  mkPool (cfg p) [] (total p - inUse p) (inUse p) true (cancelled p)
    (close_each (idle p) (conns p)).
Definition Close (p : Pool) : Pool :=
  if cancelled p then p else close_locked (close_cancel p).

(** *** Adding idle connections *)

(** [dialAndAdd] after its dial. *)
Definition add_dialled (now : Z) (p : Pool) : option error * Pool :=
  let '(a, p) := wrap now p in
  if closed p then (Some ErrPoolClosed, on_conn conn_Close a p)
  else (None, count 1 0 (set_idle (idle p ++ [a]) p)).
Definition dialAndAdd (dialled : option error) (now : Z) (p : Pool) : option error * Pool :=
  match dialled with
  | Some err => (Some err, p)
  | None => add_dialled now p
  end.

(** [reap]; also returns how many replenishing goroutines it starts. *)
Definition expired (now : Z) (p : Pool) (a : nat) : bool :=
  match conns p !! a with
  | Some c => IdleTimeout (cfg p) <? time_sub now (lastUsed c)
  | None => false
  end.
Definition reap (now : Z) (p : Pool) : Z * Pool :=
  if closed p then (0, p) else
    let old := filter (fun a => expired now p a = true) (idle p) in
    let keep := filter (fun a => expired now p a = false) (idle p) in
    let p := set_conns (close_each old (conns p)) (count (- Z.of_nat (length old)) 0 p) in
    let need := MinSize (cfg p) - Z.of_nat (length keep) in
    let started := if (0 <? need) && (total p + need <=? MaxSize (cfg p)) then need else 0 in
    (started, set_idle keep p).

Record PoolStats := mkPoolStats { s_Idle : Z; s_InUse : Z; s_Total : Z }.
Definition Stats (p : Pool) : PoolStats :=
  mkPoolStats (Z.of_nat (length (idle p))) (inUse p) (total p).

(** *** NewPool

    The [i]-th dial ends with [dials i] at [clk i]. *)
Definition with_defaults (c : PoolConfig) : PoolConfig :=
  let min := if MinSize c <=? 0 then DefaultMinSize else MinSize c in
  let max := if MaxSize c <=? 0 then DefaultMaxSize else MaxSize c in
  mkPoolConfig (SocketPath c) min (if max <? min then min else max)
    (if IdleTimeout c <=? 0 then DefaultIdleTimeout else IdleTimeout c)
    (if DialTimeout c <=? 0 then DefaultDialTimeout else DialTimeout c).

Fixpoint prewarm (dials : nat -> option error) (clk : nat -> Z) (i n : nat) (p : Pool)
    : option error * Pool :=
  match n with
  | O => (None, p)
  | S n' =>
      match dialAndAdd (dials i) (clk i) p with
      | (Some err, p) => (Some (WrapErr "uds pool: pre-warm: " err ""), Close p)
      | (None, p) => prewarm dials clk (S i) n' p
      end
  end.

Definition empty_pool (c : PoolConfig) : Pool := mkPool c [] 0 0 false false [].

(** [time.NewTicker] panics for an interval that is not positive. *)
Definition NewPool (c : PoolConfig) (dials : nat -> option error) (clk : nat -> Z)
    : outcome (result Pool) :=
  if String.eqb (SocketPath c) "" then Ret (Err (NewErr "uds pool: SocketPath is required"))
  else
    let c := with_defaults c in
    match prewarm dials clk 0 (Z.to_nat (MinSize c)) (empty_pool c) with
    | (Some err, _) => Ret (Err err)
    | (None, p) =>
        if IdleTimeout c / 2 <=? 0 then Panic "non-positive interval for NewTicker"
        else Ret (Ok p)
    end.

(** ** The pool and the goroutines around it

    [held]: connections callers have and have not released; [closing] and
    [dialling]: [Acquire] calls between two locked stretches; [spawned]:
    replenishing goroutines that have not looked at the context yet, [adding]
    those that dial. *)
Record System := mkSystem {
  pool : Pool;
  held : list nat;
  closing : list nat;
  dialling : nat;
  spawned : nat;
  adding : nat;
}.

Inductive Event :=
  | EAcquire (now : Z)
  | EClosed (a : nat) (now : Z)
  | EDialled (err : option error) (now : Z)
  | ERelease (a : nat) (now : Z)
  | EHolderCloses (a : nat)
  | ECancel
  | EClose
  | EReap (now : Z)
  | EStart
  | EAdded (err : option error) (now : Z).

Definition after_scan (r : acquiring * Pool) (s : System) : System :=
  match r with
  | (Got a, p) => mkSystem p (a :: held s) (closing s) (dialling s) (spawned s) (adding s)
  | (Refused _, p) => mkSystem p (held s) (closing s) (dialling s) (spawned s) (adding s)
  | (Closing a, p) => mkSystem p (held s) (a :: closing s) (dialling s) (spawned s) (adding s)
  | (Dialling, p) => mkSystem p (held s) (closing s) (S (dialling s)) (spawned s) (adding s)
  end.

(** Remove one occurrence. *)
Fixpoint remove_one (a : nat) (l : list nat) : list nat :=
  match l with
  | [] => []
  | b :: l' => if bool_decide (a = b) then l' else b :: remove_one a l'
  end.

(** One step; [None] when the event cannot happen.  A caller releases what it
    holds, once. *)
Definition fire (e : Event) (s : System) : option System :=
  let p := pool s in
  match e with
  | EAcquire now => Some (after_scan (Acquire now p) s)
  | EClosed a now =>
      if bool_decide (a ∈ closing s) then
        let s := mkSystem p (held s) (remove_one a (closing s)) (dialling s) (spawned s) (adding s) in
        Some (after_scan (acquire_scan now (on_conn conn_Close a p)) s)
      else None
  | EDialled err now =>
      match dialling s with
      | O => None
      | S n =>
          match acquire_dialled err now p with
          | (Ok a, p) => Some (mkSystem p (a :: held s) (closing s) n (spawned s) (adding s))
          | (Err _, p) => Some (mkSystem p (held s) (closing s) n (spawned s) (adding s))
          end
      end
  | ERelease a now =>
      if bool_decide (a ∈ held s) then
        Some (mkSystem (Release a now p) (remove_one a (held s)) (closing s) (dialling s) (spawned s) (adding s))
      else None
  | EHolderCloses a =>
      if bool_decide (a ∈ held s) then
        Some (mkSystem (on_conn conn_Close a p) (held s) (closing s) (dialling s) (spawned s) (adding s))
      else None
  | ECancel => Some (mkSystem (close_cancel p) (held s) (closing s) (dialling s) (spawned s) (adding s))
  | EClose =>
      if cancelled p && negb (closed p)
      then Some (mkSystem (close_locked p) (held s) (closing s) (dialling s) (spawned s) (adding s))
      else None
  | EReap now =>
      let '(n, p) := reap now p in
      Some (mkSystem p (held s) (closing s) (dialling s) (Z.to_nat n + spawned s) (adding s))
  | EStart =>
      match spawned s with
      | O => None
      | S n => Some (mkSystem p (held s) (closing s) (dialling s) n
                       (if cancelled p then adding s else S (adding s)))
      end
  | EAdded err now =>
      match adding s with
      | O => None
      | S n => Some (mkSystem (dialAndAdd err now p).2 (held s) (closing s) (dialling s) (spawned s) n)
      end
  end.

Fixpoint steps (es : list Event) (s : System) : option System :=
  match es with
  | [] => Some s
  | e :: es' => match fire e s with Some s' => steps es' s' | None => None end
  end.

Definition start (p : Pool) : System := mkSystem p [] [] 0 0 0.

(** A system that a pool made by [NewPool] gets to. *)
Definition reachable (c : PoolConfig) (s : System) : Prop :=
  exists dials clk p es, NewPool c dials clk = Ret (Ok p) /\ steps es (start p) = Some s.

(** ** Accounting

    [surplus] is what [total] has over the connections and dials there are. *)
Definition surplus (p : Pool) : Z := total p - inUse p - Z.of_nat (length (idle p)).

(** Idle and held connections are different and exist. *)
Definition owned (p : Pool) (hs : list nat) : Prop :=
  NoDup (idle p ++ hs) /\ Forall (fun a => (a < length (conns p))%nat) (idle p ++ hs).

Record accounted (s : System) : Prop := {
  ac_owned : owned (pool s) (held s);
  ac_inUse : inUse (pool s) = Z.of_nat (length (held s) + dialling s);
  ac_open : closed (pool s) = false -> surplus (pool s) = 0;
  ac_closed : closed (pool s) = true -> idle (pool s) = [];
}.

(** What a step may do to a pool: it keeps the configuration, a closed pool
    stays closed, keeps its surplus and gets no idle connection, and an open
    one has no surplus. *)
Record pool_step (p p' : Pool) : Prop := {
  ps_cfg : cfg p' = cfg p;
  ps_closed : closed p = true -> closed p' = true;
  ps_idle : (closed p = true -> idle p = []) -> closed p' = true -> idle p' = [];
  ps_surplus : (closed p = true -> idle p = []) -> closed p = true -> surplus p' = surplus p;
  ps_open : (closed p = false -> surplus p = 0) -> closed p' = false -> surplus p' = 0;
}.

Lemma pool_step_refl p : pool_step p p.
Proof. split; auto. Qed.

Lemma pool_step_trans p q r : pool_step p q -> pool_step q r -> pool_step p r.
Proof. intros [] []. split; intuition congruence. Qed.

(** Steps that leave the fields alone but for the heap and the context. *)
Lemma pool_step_same p p' :
  cfg p' = cfg p -> closed p' = closed p -> idle p' = idle p -> surplus p' = surplus p -> pool_step p p'.
Proof. intros H1 H2 H3 H4. split; rewrite ?H1, ?H2, ?H3, ?H4; auto. Qed.

Lemma length_close_each l cs : length (close_each l cs) = length cs.
Proof.
  revert cs. induction l as [|a l IH]; intros cs; cbn; [done|].
  fold (close_each l (alter conn_Close a cs)). by rewrite IH, length_alter.
Qed.

Lemma isAlive_fields now a p :
  let p' := (isAlive now a p).2 in
  cfg p' = cfg p /\ idle p' = idle p /\ total p' = total p /\ inUse p' = inUse p /\
  closed p' = closed p /\ cancelled p' = cancelled p /\ length (conns p') = length (conns p).
Proof.
  unfold isAlive. destruct (conns p !! a) as [c|]; [|by split_and!].
  destruct (SetWriteDeadline _ c) as [e c']. simpl. by rewrite length_insert.
Qed.

(** The three ways a locked stretch of [Acquire] goes. *)
Lemma acquire_scan_spec now p r p' :
  acquire_scan now p = (r, p') ->
  (exists l a, idle p = l ++ [a] /\ idle p' = l /\ cfg p' = cfg p /\ closed p' = closed p /\
     cancelled p' = cancelled p /\ conns p' = conns (isAlive now a p).2 /\
     ((r = Got a /\ total p' = total p /\ inUse p' = inUse p + 1 /\ (isAlive now a p).1 = None) \/
      (r = Closing a /\ total p' = total p - 1 /\ inUse p' = inUse p))) \/
  (idle p = [] /\ r = Refused ErrPoolExhausted /\ p' = p /\ MaxSize (cfg p) <= total p) \/
  (idle p = [] /\ r = Dialling /\ p' = count 1 1 p /\ total p < MaxSize (cfg p)).
Proof.
  unfold acquire_scan. destruct (last (idle p)) as [a|] eqn:El.
  - apply last_Some in El as [l El]. intros Hs. left. exists l, a.
    rewrite El, removelast_last in Hs. unfold isAlive in *. cbn [set_idle conns] in Hs.
    destruct (conns p !! a) as [c|]; [destruct (SetWriteDeadline _ c) as [[e|] c']|]; simplify_eq/=;
      split_and!; try done; naive_solver lia.
  - apply last_None in El. intros Hs. right.
    destruct (MaxSize (cfg p) <=? total p) eqn:E; bool_to_prop; simplify_eq; naive_solver.
Qed.

Lemma acquire_scan_step now p r p' : acquire_scan now p = (r, p') -> pool_step p p'.
Proof.
  intros [(l & a & Hi & Hi' & Hc & Hcl & _ & _ & Hr)|[(Hi & _ & -> & _)|(Hi & _ & -> & _)]]%acquire_scan_spec.
  - assert (surplus p' = surplus p) as Hs.
    { unfold surplus. rewrite Hi, Hi', length_app. cbn [length]. destruct Hr as [(_ & ? & ? & _)|(_ & ? & ?)]; lia. }
    split; try congruence.
    + intros Hz Hcl'. rewrite Hz in Hi by congruence. by destruct l.
    + rewrite Hcl, Hs. auto.
  - apply pool_step_refl.
  - apply pool_step_same; try done. unfold surplus. simpl. lia.
Qed.

Lemma acquire_scan_owned now p r p' hs :
  acquire_scan now p = (r, p') -> owned p hs ->
  owned p' (match r with Got a => a :: hs | _ => hs end).
Proof.
  intros [(l & a & Hi & Hi' & _ & _ & _ & Hcs & Hr)|[(_ & -> & -> & _)|(_ & -> & -> & _)]]%acquire_scan_spec;
    [|done..].
  unfold owned. rewrite Hi, Hi', Hcs. destruct (isAlive_fields now a p) as (_ & _ & _ & _ & _ & _ & ->).
  rewrite <-(assoc_L (++)). simpl. intros [Hn Hf].
  destruct Hr as [(-> & _)|(-> & _)]; [done|]. split.
  - apply NoDup_app in Hn as (? & Hd & [_ ?]%NoDup_cons). apply NoDup_app. split_and!; [done| |done].
    intros x Hx Hx'. eapply Hd; [done|]. by right.
  - rewrite Forall_app, Forall_cons in Hf. rewrite Forall_app. naive_solver.
Qed.

Lemma remove_one_perm a l : a ∈ l -> l ≡ₚ a :: remove_one a l.
Proof.
  induction l as [|b l IH]; simpl; [by intros ?%elem_of_nil|]. case_bool_decide as E; [by subst|].
  intros [?|Hl]%elem_of_cons; [done|]. rewrite (IH Hl) at 1. by constructor.
Qed.

Lemma owned_perm p hs hs' : hs ≡ₚ hs' -> owned p hs -> owned p hs'.
Proof. unfold owned. by intros ->. Qed.

(** A pool whose idle connections are among those that were idle or given
    back, over a heap that did not shrink. *)
Lemma owned_mono p p' hs hs' :
  (length (conns p) <= length (conns p'))%nat -> idle p' ++ hs' ⊆+ idle p ++ hs ->
  owned p hs -> owned p' hs'.
Proof.
  intros Hl Hsub [Hn Hf]. split.
  { destruct (submseteq_Permutation _ _ Hsub) as [k Hk]. rewrite Hk in Hn. by apply NoDup_app in Hn as [? _]. }
  rewrite Forall_forall in *. intros a Ha. eapply elem_of_submseteq in Ha; [|done].
  specialize (Hf a Ha). lia.
Qed.

Lemma owned_new p p' hs hs' :
  length (conns p') = S (length (conns p)) -> idle p' ++ hs' ≡ₚ length (conns p) :: idle p ++ hs ->
  owned p hs -> owned p' hs'.
Proof.
  intros Hl Hp [Hn Hf]. unfold owned. rewrite Hp, Hl. split.
  - constructor; [|done]. intros Hin. rewrite Forall_forall in Hf. specialize (Hf _ Hin). lia.
  - constructor; [lia|]. eapply Forall_impl; [done|]. simpl. lia.
Qed.

Lemma Release_step a now p : pool_step p (Release a now p).
Proof.
  unfold Release. destruct (_ || _) eqn:Hc.
  - apply pool_step_same; try done. unfold surplus. simpl. lia.
  - apply orb_false_iff in Hc as [Hc _]. cbn in Hc. split; simpl; try congruence.
    intros Hs Ho. specialize (Hs Hc). unfold surplus in *. simpl. rewrite length_app. simpl. lia.
Qed.

Lemma Release_owned a now p hs : a ∈ hs -> owned p hs -> owned (Release a now p) (remove_one a hs).
Proof.
  intros Ha%remove_one_perm Ho. apply (owned_perm _ _ _ Ha) in Ho. clear Ha. revert Ho.
  generalize (remove_one a hs). intros rest. unfold Release.
  destruct (_ || _); apply owned_mono; cbn; rewrite ?length_alter; try done.
  - apply submseteq_app; [done|]. by apply submseteq_cons.
  - by rewrite <-(assoc_L (++)).
Qed.

Lemma Release_inUse a now p : inUse (Release a now p) = inUse p - 1.
Proof. unfold Release. case_if; simpl; lia. Qed.

Lemma close_locked_step p : closed p = false -> pool_step p (close_locked p).
Proof. intros H. split; simpl; congruence. Qed.

Lemma filter_split {A} (f : A -> bool) (l : list A) :
  (length (filter (fun a => f a = true) l) + length (filter (fun a => f a = false) l) = length l)%nat.
Proof.
  induction l as [|a l IH]; [done|]. rewrite !filter_cons.
  destruct (f a); repeat case_decide; simpl; try done; lia.
Qed.

Lemma reap_step now p : pool_step p (reap now p).2.
Proof.
  unfold reap. destruct (closed p) eqn:E; [apply pool_step_refl|]. split; simpl; try congruence.
  intros Hs _. specialize (Hs E). unfold surplus in *. simpl.
  pose proof (filter_split (expired now p) (idle p)). lia.
Qed.

Lemma reap_owned now p hs : owned p hs -> owned (reap now p).2 hs.
Proof.
  unfold reap. destruct (closed p); [done|]. apply owned_mono; simpl; [by rewrite length_close_each|].
  apply submseteq_app; [|done]. apply sublist_submseteq, sublist_filter.
Qed.

Lemma reap_inUse now p : inUse (reap now p).2 = inUse p.
Proof. unfold reap. destruct (closed p); simpl; lia. Qed.

Lemma dialAndAdd_step err now p : pool_step p (dialAndAdd err now p).2.
Proof.
  destruct err as [e|]; [apply pool_step_refl|]. cbn. unfold add_dialled, wrap. cbn.
  destruct (closed p) eqn:E; [by apply pool_step_same|]. split; simpl; try congruence.
  intros Hs _. specialize (Hs E). unfold surplus in *. simpl. rewrite length_app. simpl. lia.
Qed.

Lemma dialAndAdd_owned err now p hs : owned p hs -> owned (dialAndAdd err now p).2 hs.
Proof.
  destruct err as [e|]; [done|]. cbn. unfold add_dialled, wrap. cbn. destruct (closed p).
  - apply owned_mono; simpl; [rewrite length_alter, length_app; lia|done].
  - apply owned_new; simpl; [rewrite length_app; simpl; lia|]. solve_Permutation.
Qed.

Lemma dialAndAdd_inUse err now p : inUse (dialAndAdd err now p).2 = inUse p.
Proof.
  destruct err as [e|]; [done|]. cbn. unfold add_dialled, wrap. cbn. destruct (closed p); simpl; lia.
Qed.

Lemma acquire_scan_inUse now p r p' :
  acquire_scan now p = (r, p') ->
  inUse p' = inUse p + match r with Got _ | Dialling => 1 | _ => 0 end.
Proof.
  intros [(l & a & _ & _ & _ & _ & _ & _ & [(-> & _ & ? & _)|(-> & _ & ?)])|[(_ & -> & -> & _)|(_ & -> & -> & _)]]
    %acquire_scan_spec; simpl; lia.
Qed.

Lemma accounted_step s p hs cl n sp ad :
  accounted s -> pool_step (pool s) p -> owned p hs -> inUse p = Z.of_nat (length hs + n) ->
  accounted (mkSystem p hs cl n sp ad).
Proof. intros [_ _ Ho Hc] [_ _ ? _ ?] ? ?. split; simpl; auto. Qed.

(** A step of the system: what the pool does and that the books stay right. *)
Definition good_step (s s' : System) : Prop := pool_step (pool s) (pool s') /\ accounted s'.

Lemma after_scan_good now s0 p s :
  accounted s -> pool_step (pool s) p -> owned p (held s) -> inUse p = inUse (pool s) ->
  held s0 = held s -> dialling s0 = dialling s -> good_step s (after_scan (acquire_scan now p) s0).
Proof.
  intros Ha Hp Ho Hi Hh Hd. destruct (acquire_scan now p) as [r p'] eqn:E.
  assert (pool_step (pool s) p') as Hp' by (eapply pool_step_trans; [done|by eapply acquire_scan_step]).
  pose proof (acquire_scan_owned _ _ _ _ _ E Ho) as Ho'.
  pose proof (acquire_scan_inUse _ _ _ _ E) as Hi'. pose proof (ac_inUse _ Ha) as Hu.
  destruct r; simpl in *; rewrite ?Hh, ?Hd; (split; [done|]);
    (eapply accounted_step; [exact Ha|done..|simpl; lia]).
Qed.

Lemma on_conn_owned f a p hs : owned p hs -> owned (on_conn f a p) hs.
Proof. apply owned_mono; simpl; [by rewrite length_alter|done]. Qed.

Lemma remove_one_length a l : a ∈ l -> length l = S (length (remove_one a l)).
Proof. intros H%remove_one_perm. by rewrite H at 1. Qed.

Lemma fire_good e s s' : accounted s -> fire e s = Some s' -> good_step s s'.
Proof.
  intros Ha. pose proof (ac_owned _ Ha) as Ho. pose proof (ac_inUse _ Ha) as Hu.
  destruct e as [now|a now|err now|a now|a| | |now| |err now]; simpl.
  - intros [= <-]. unfold Acquire. destruct (closed (pool s)).
    + split; [apply pool_step_refl|]. by destruct s.
    + by apply after_scan_good.
  - case_bool_decide; [|done]. intros [= <-].
    apply after_scan_good; try done. by apply on_conn_owned.
  - destruct (dialling s) as [|n] eqn:En; [done|]. destruct err as [e|]; simpl; intros [= <-].
    + assert (pool_step (pool s) (count (-1) (-1) (pool s))) as Hp.
      { apply pool_step_same; try done. unfold surplus. simpl. lia. }
      split; [done|]. eapply accounted_step; [done..|simpl; lia].
    + split; [by apply pool_step_same|]. eapply accounted_step; [done|by apply pool_step_same| |simpl; lia].
      eapply owned_new; [..|exact Ho]; simpl; [rewrite length_app; simpl; lia|]. solve_Permutation.
  - case_bool_decide as Hin; [|done]. intros [= <-]. split; [apply Release_step|].
    eapply accounted_step; [done|apply Release_step|by apply Release_owned|].
    rewrite Release_inUse, Hu, (remove_one_length _ _ Hin). lia.
  - case_bool_decide; [|done]. intros [= <-]. split; [by apply pool_step_same|].
    eapply accounted_step; [done|by apply pool_step_same|by apply on_conn_owned|done].
  - intros [= <-]. split; [by apply pool_step_same|].
    by eapply accounted_step; [|apply pool_step_same|..].
  - destruct (_ && _) eqn:E; [|done]. bool_to_prop. intros [= <-].
    split; [by apply close_locked_step|]. eapply accounted_step; [done|by apply close_locked_step| |done].
    revert Ho. apply owned_mono; simpl; [by rewrite length_close_each|].
    by apply submseteq_inserts_l.
  - destruct (reap now (pool s)) as [n p'] eqn:E. intros [= <-].
    pose proof (reap_step now (pool s)) as Hp. pose proof (reap_owned now _ _ Ho) as Ho'.
    pose proof (reap_inUse now (pool s)) as Hi. rewrite E in *. simpl in *.
    split; [done|]. eapply accounted_step; [done..|lia].
  - destruct (spawned s); [done|]. intros [= <-]. split; [apply pool_step_refl|].
    eapply accounted_step; [done|apply pool_step_refl|done..].
  - destruct (adding s); [done|]. intros [= <-]. split; [apply dialAndAdd_step|].
    eapply accounted_step; [done|apply dialAndAdd_step|by apply dialAndAdd_owned|].
    by rewrite dialAndAdd_inUse.
Qed.

(** Rule induction over runs. *)
Lemma steps_ind (P : System -> Prop) :
  (forall e s s', P s -> fire e s = Some s' -> P s') ->
  forall es s s', P s -> steps es s = Some s' -> P s'.
Proof.
  intros Hstep es. induction es as [|e es IH]; simpl; intros s s' Hs.
  - congruence.
  - destruct (fire e s) eqn:E; [|done]. eauto.
Qed.

Lemma steps_good es s s' : accounted s -> steps es s = Some s' -> good_step s s'.
Proof.
  intros Ha. apply (steps_ind (fun s' => good_step s s')).
  - intros e s1 s2 [H1 H2] He. destruct (fire_good _ _ _ H2 He) as [H3 H4].
    split; [by eapply pool_step_trans|done].
  - split; [apply pool_step_refl|done].
Qed.

(** *** What [NewPool] returns *)

Lemma prewarm_spec dials clk n i p p' :
  closed p = false -> owned p [] -> prewarm dials clk i n p = (None, p') ->
  pool_step p p' /\ owned p' [] /\ closed p' = false /\ inUse p' = inUse p /\
  length (idle p') = (length (idle p) + n)%nat /\ cancelled p' = cancelled p.
Proof.
  revert i p. induction n as [|n IH]; intros i p Hc Ho; simpl.
  - intros [= <-]. by split_and!.
  - pose proof (dialAndAdd_step (dials i) (clk i) p) as Hp.
    pose proof (dialAndAdd_owned (dials i) (clk i) p [] Ho) as Ho'.
    destruct (dials i) as [e|]; [done|]. cbn in *. unfold add_dialled in *. cbn in *. rewrite Hc in *.
    intros (H1 & H2 & H3 & H4 & H5 & H6)%IH; [|done..].
    split_and!; try done; [by eapply pool_step_trans|simpl in *; lia|].
    rewrite H5. simpl. rewrite length_app. simpl. lia.
Qed.

Lemma NewPool_spec c dials clk p :
  NewPool c dials clk = Ret (Ok p) ->
  accounted (start p) /\ cfg p = with_defaults c /\ closed p = false /\ cancelled p = false /\ inUse p = 0 /\
  length (idle p) = Z.to_nat (MinSize (with_defaults c)).
Proof.
  unfold NewPool. case_if; [done|].
  destruct (prewarm _ _ _ _ _) as [[e|] p'] eqn:E; [done|]. case_if; [done|]. intros [= <-].
  apply prewarm_spec in E as (Hp & Ho & Hc & Hi & Hl & Hx); [|done|by split; constructor].
  destruct Hp as [Hcfg _ _ _ Hopen]. split_and!; try done.
  split; simpl; [done|by rewrite Hi|by auto|congruence].
Qed.

Lemma reachable_accounted c s : reachable c s -> accounted s /\ cfg (pool s) = with_defaults c.
Proof.
  intros (dials & clk & p & es & Hn & Hs). apply NewPool_spec in Hn as (Ha & Hcfg & _).
  destruct (steps_good _ _ _ Ha Hs) as [Hp Ha']. split; [done|]. by rewrite (ps_cfg _ _ Hp).
Qed.

(** ** What the pool promises *)

(** C24: The pool's books are right and connections are not shared.  In every
    state that any interleaving of acquiring, releasing, reaping, replenishing
    and closing leads to, no connection is held twice or held and idle at
    once, and [Stats] tells the idle connections, those held or being dialled,
    and - until the pool is closed - their sum. *)
Theorem connections_accounted c s :
  reachable c s ->
  NoDup (idle (pool s) ++ held s) /\
  s_Idle (Stats (pool s)) = Z.of_nat (length (idle (pool s))) /\
  s_InUse (Stats (pool s)) = Z.of_nat (length (held s) + dialling s) /\
  (closed (pool s) = false ->
     s_Total (Stats (pool s)) = s_Idle (Stats (pool s)) + s_InUse (Stats (pool s))) /\
  (closed (pool s) = true -> s_Idle (Stats (pool s)) = 0).
Proof.
  intros [[[Hn _] Hu Ho Hc] _]%reachable_accounted. simpl. split_and!; try done.
  - intros Hop. specialize (Ho Hop). unfold surplus in Ho. lia.
  - intros Hcl. by rewrite (Hc Hcl).
Qed.

(** [Close] spoils [Total].  It subtracts the connections in use where the
    comment says they remain: from then on [Total] is off by the number of
    idle connections that were closed less the number then in use, whatever
    happens, so once all are returned it is that difference, not zero. *)
Theorem close_miscounts c s s1 es s2 :
  reachable c s -> fire EClose s = Some s1 -> steps es s1 = Some s2 ->
  s_Total (Stats (pool s2)) =
    s_InUse (Stats (pool s2)) + (s_Idle (Stats (pool s)) - s_InUse (Stats (pool s))).
Proof.
  intros [Ha _]%reachable_accounted Hf Hs.
  destruct (fire_good _ _ _ Ha Hf) as [_ Ha1]. destruct (steps_good _ _ _ Ha1 Hs) as [Hp _].
  simpl in Hf. destruct (_ && _) eqn:E; [|done]. bool_to_prop. simplify_eq.
  pose proof (ac_open _ Ha ltac:(done)) as Hz0.
  pose proof (ps_surplus _ _ Hp ltac:(done) ltac:(done)) as Hz1.
  pose proof (ps_idle _ _ Hp ltac:(done) (ps_closed _ _ Hp ltac:(done))) as Hz2.
  unfold surplus in *. rewrite Hz2 in Hz1. simpl in *. lia.
Qed.

(** *** Size *)

Definition pending (s : System) : Z := Z.of_nat (spawned s + adding s).

(** Every [reap] of the run finds the goroutines of the one before done. *)
Fixpoint quiet (es : list Event) (s : System) : Prop :=
  match es with
  | [] => True
  | e :: es' =>
      (match e with EReap _ => pending s = 0 | _ => True end) /\
      match fire e s with Some s' => quiet es' s' | None => True end
  end.

Definition sized (s : System) : Prop :=
  let c := cfg (pool s) in
  0 <= MinSize c /\ pending s <= MinSize c /\ total (pool s) + pending s <= MaxSize c + MinSize c.

Lemma sized_step s p hs cl n sp ad :
  sized s -> cfg p = cfg (pool s) -> Z.of_nat (sp + ad) <= pending s ->
  total p + Z.of_nat (sp + ad) <= total (pool s) + pending s -> sized (mkSystem p hs cl n sp ad).
Proof. unfold sized, pending. simpl. intros (? & ? & ?) -> ? ?. lia. Qed.

Lemma sized_scan now s0 p s :
  sized s -> cfg p = cfg (pool s) -> total p = total (pool s) ->
  spawned s0 = spawned s -> adding s0 = adding s -> sized (after_scan (acquire_scan now p) s0).
Proof.
  intros Hz Hc Ht Hs Ha. destruct (acquire_scan now p) as [r p'] eqn:E.
  destruct (acquire_scan_spec _ _ _ _ E)
    as [(l & a & _ & _ & Hc' & _ & _ & _ & [(-> & Ht' & _)|(-> & Ht' & _)])|[(_ & -> & -> & _)|(_ & -> & -> & Hlt)]];
    simpl; rewrite ?Hs, ?Ha; try (apply (sized_step s); [done|congruence|done|unfold pending; simpl; lia]).
  destruct Hz as (? & ? & ?). unfold sized, pending in *. rewrite Hc in Hlt. simpl. rewrite Hc. lia.
Qed.

Lemma sized_reap now s n p :
  sized s -> pending s = 0 -> reap now (pool s) = (n, p) ->
  sized (mkSystem p (held s) (closing s) (dialling s) (Z.to_nat n + spawned s) (adding s)).
Proof.
  intros (H1 & H2 & H3) Hq. unfold reap. destruct (closed (pool s)).
  - intros [= <- <-]. by apply (sized_step s).
  - set (old := length _). set (keep := filter _ (idle (pool s))).
    intros [= <- <-]. unfold sized, pending in *. simpl.
    destruct (_ && _) eqn:E; bool_to_prop; simpl in *; lia.
Qed.

Lemma sized_fire e s s' :
  accounted s -> sized s -> (match e with EReap _ => pending s = 0 | _ => True end) ->
  fire e s = Some s' -> sized s'.
Proof.
  intros Ha Hz. pose proof (ac_inUse _ Ha) as Hu.
  assert (Hstep := sized_step s). unfold pending in Hstep.
  destruct e as [now|a now|err now|a now|a| | |now| |err now]; simpl; intros Hq.
  - intros [= <-]. unfold Acquire. destruct (closed (pool s)); [by destruct s|by apply (sized_scan _ _ _ s)].
  - case_bool_decide; [|done]. intros [= <-]. by apply (sized_scan _ _ _ s).
  - destruct (dialling s); [done|]. destruct err; simpl; intros [= <-]; apply Hstep; simpl; try done; lia.
  - case_bool_decide; [|done]. intros [= <-]. unfold Release. case_if; apply Hstep; simpl; try done; lia.
  - case_bool_decide; [|done]. intros [= <-]. by apply Hstep.
  - intros [= <-]. by apply Hstep.
  - destruct (_ && _); [|done]. intros [= <-]. apply Hstep; simpl; try done; lia.
  - destruct (reap now (pool s)) as [n p] eqn:E. intros [= <-]. by eapply sized_reap.
  - destruct (spawned s) eqn:E; [done|]. intros [= <-]. case_if; apply Hstep; try done; lia.
  - destruct (adding s) eqn:E; [done|]. intros [= <-]. destruct err; [apply Hstep; simpl; try done; lia|].
    simpl. unfold add_dialled, wrap. cbn. case_if; apply Hstep; simpl; try done; lia.
Qed.

Lemma with_defaults_sizes c : 0 < MinSize (with_defaults c) <= MaxSize (with_defaults c).
Proof. unfold with_defaults, DefaultMinSize, DefaultMaxSize. simpl. split_ifs; lia. Qed.

(** The pool can outgrow [MaxSize], by [MinSize] and not more.  [reap]
    checks the room before the goroutines it starts have dialled, and
    [dialAndAdd] does not check it: callers can take the room in between.  As
    long as each [reap] finds the goroutines of the last one done - dialling
    times out well before - the connections are at most
    [MaxSize + MinSize]; the witness reaches that number. *)
Theorem pool_size_bounded c dials clk p es s :
  NewPool c dials clk = Ret (Ok p) -> quiet es (start p) -> steps es (start p) = Some s ->
  s_Total (Stats (pool s)) <= MaxSize (with_defaults c) + MinSize (with_defaults c).
Proof.
  intros (Ha & Hc & Hop & _ & Hi & Hl)%NewPool_spec.
  assert (cfg (pool s) = with_defaults c /\ sized s ->
          total (pool s) <= MaxSize (with_defaults c) + MinSize (with_defaults c)) as Hgoal.
  { intros [Hcs (? & ? & ?)]. rewrite Hcs in *. unfold pending in *. lia. }
  assert (sized (start p)) as Hz.
  { pose proof (with_defaults_sizes c). pose proof (ac_open _ Ha Hop) as Hz. unfold surplus in Hz.
    unfold sized, pending, start in *. cbn [pool spawned adding] in *. rewrite Hc. lia. }
  change p with (pool (start p)) in Hc. clear Hop Hi Hl. revert Ha Hc Hz. generalize (start p).
  intros s0 Ha Hc Hz Hq Hs. apply Hgoal. clear Hgoal. revert s0 Ha Hc Hz Hq Hs.
  induction es as [|e es IH]; simpl; intros s0 Ha Hc Hz Hq Hs.
  - by simplify_eq.
  - destruct (fire e s0) as [s1|] eqn:E; [|done]. destruct Hq as [Hq1 Hq2].
    destruct (fire_good _ _ _ Ha E) as [Hp Ha1].
    eapply (IH s1); try done; [by rewrite (ps_cfg _ _ Hp)|exact (sized_fire _ _ _ Ha Hz Hq1 E)].
Qed.

(** *** Deadlines *)

(** The connection at [a] keeps its write deadline and is not reopened. *)
Definition keeps (a : nat) (p p' : Pool) : Prop :=
  forall c, conns p !! a = Some c ->
    exists c', conns p' !! a = Some c' /\ writeDeadline c' = writeDeadline c /\
      (socket_closed c = true -> socket_closed c' = true).

Lemma keeps_same a p p' : conns p' = conns p -> keeps a p p'.
Proof. intros H c Hc. rewrite H. eauto. Qed.

Lemma keeps_trans a p q r : keeps a p q -> keeps a q r -> keeps a p r.
Proof.
  intros H1 H2 c Hc. destruct (H1 _ Hc) as (c1 & Hc1 & E1 & F1).
  destruct (H2 _ Hc1) as (c2 & Hc2 & E2 & F2). exists c2. split_and!; [done|congruence|auto].
Qed.

Lemma keeps_on_conn a b f p :
  (forall c, writeDeadline (f c) = writeDeadline c /\ (socket_closed c = true -> socket_closed (f c) = true)) ->
  keeps a p (on_conn f b p).
Proof.
  intros Hf c Hc. simpl. destruct (decide (b = a)) as [->|Hne].
  - rewrite list_lookup_alter_eq, Hc. simpl. exists (f c). destruct (Hf c). by split_and!.
  - rewrite list_lookup_alter_ne by done. eauto.
Qed.

Lemma keeps_close a b p : keeps a p (on_conn conn_Close b p).
Proof. by apply keeps_on_conn. Qed.
Lemma keeps_touch a b now p : keeps a p (on_conn (touch now) b p).
Proof. by apply keeps_on_conn. Qed.

Lemma keeps_close_each a l p : keeps a p (set_conns (close_each l (conns p)) p).
Proof.
  revert p. induction l as [|b l IH]; intros p; [by apply keeps_same|].
  eapply keeps_trans; [apply (keeps_close a b)|]. exact (IH (on_conn conn_Close b p)).
Qed.

Lemma keeps_isAlive a b now p : b <> a -> keeps a p (isAlive now b p).2.
Proof.
  intros Hne c Hc. unfold isAlive. destruct (conns p !! b) as [cb|]; [|eauto].
  destruct (SetWriteDeadline _ cb). simpl. rewrite list_lookup_insert_ne by done. eauto.
Qed.

Lemma keeps_grow a now p : keeps a p (wrap now p).2.
Proof. intros c Hc. simpl. rewrite lookup_app_l by (by eapply lookup_lt_Some). eauto. Qed.

(** The connections a look through the idle ones may touch are idle. *)
Lemma keeps_scan a now p r p' hs :
  acquire_scan now p = (r, p') -> owned p hs -> a ∈ hs -> keeps a p p'.
Proof.
  intros [(l & b & Hi & _ & _ & _ & _ & Hcs & _)|[(_ & _ & -> & _)|(_ & _ & -> & _)]]%acquire_scan_spec
    [Hn _] Ha; [|by apply keeps_same..].
  eapply keeps_trans; [apply (keeps_isAlive a b now)|by apply keeps_same].
  intros ->. apply NoDup_app in Hn as (_ & Hd & _). apply (Hd a); [|done].
  rewrite Hi. apply elem_of_app. right. by left.
Qed.

Lemma after_scan_held a r s : a ∈ held s -> a ∈ held (after_scan r s).
Proof. destruct r as [[] p]; simpl; [by right|done..]. Qed.

Lemma pool_after_scan r s : pool (after_scan r s) = r.2.
Proof. by destruct r as [[] p]. Qed.

Lemma remove_one_ne a b l : a <> b -> a ∈ l -> a ∈ remove_one b l.
Proof.
  intros Hne. induction l as [|x l IH]; simpl; [by intros ?%elem_of_nil|].
  intros Ha. case_bool_decide as E.
  - apply elem_of_cons in Ha as [->|]; [by subst|done].
  - apply elem_of_cons in Ha as [->|]; [by left|right; auto].
Qed.

(** What others do to a connection that a caller holds and does not release. *)
Lemma fire_keeps a e s s' :
  accounted s -> a ∈ held s -> (forall now, e <> ERelease a now) -> fire e s = Some s' ->
  a ∈ held s' /\ keeps a (pool s) (pool s').
Proof.
  intros Hac Ha He. pose proof (ac_owned _ Hac) as Ho.
  destruct e as [now|b now|err now|b now|b| | |now| |err now]; simpl.
  - intros [= <-]. split; [by apply after_scan_held|]. rewrite pool_after_scan. unfold Acquire.
    destruct (closed (pool s)); [by apply keeps_same|].
    destruct (acquire_scan now (pool s)) as [r p'] eqn:E. by eapply keeps_scan.
  - case_bool_decide; [|done]. intros [= <-]. split; [by apply after_scan_held|]. rewrite pool_after_scan.
    destruct (acquire_scan now _) as [r p'] eqn:E.
    eapply keeps_trans; [apply keeps_close|]. eapply keeps_scan; [done|by apply on_conn_owned|done].
  - destruct (dialling s); [done|]. destruct err; simpl; intros [= <-]; simpl.
    + split; [done|]. by apply keeps_same.
    + split; [by right|]. apply (keeps_grow a now).
  - case_bool_decide; [|done]. intros [= <-]. simpl. split; [apply remove_one_ne; [|done]; naive_solver|].
    unfold Release. case_if; eapply keeps_trans; try apply (keeps_touch a b now); [|by apply keeps_same].
    eapply keeps_trans; [|apply keeps_close]. by apply keeps_same.
  - case_bool_decide; [|done]. intros [= <-]. split; [done|]. apply keeps_close.
  - intros [= <-]. split; [done|]. by apply keeps_same.
  - destruct (_ && _); [|done]. intros [= <-]. split; [done|].
    eapply keeps_trans; [apply (keeps_close_each a (idle (pool s)))|]. by apply keeps_same.
  - destruct (reap now (pool s)) as [n p'] eqn:E. intros [= <-]. simpl. split; [done|].
    unfold reap in E. destruct (closed (pool s)); simplify_eq; [by apply keeps_same|].
    eapply keeps_trans; [apply keeps_close_each|]. by apply keeps_same.
  - destruct (spawned s); [done|]. intros [= <-]. split; [done|]. by apply keeps_same.
  - destruct (adding s); [done|]. intros [= <-]. simpl. split; [done|].
    destruct err; [by apply keeps_same|]. simpl. unfold add_dialled.
    pose proof (keeps_grow a now (pool s)) as Hg. destruct (wrap now (pool s)) as [b p]. simpl in Hg.
    case_if; simpl; [|done]. eapply keeps_trans; [done|]. apply keeps_close.
Qed.

Lemma steps_keep a es s s' :
  accounted s -> a ∈ held s -> Forall (fun e => forall n, e <> ERelease a n) es -> steps es s = Some s' ->
  a ∈ held s' /\ keeps a (pool s) (pool s').
Proof.
  intros Ha Hin Hes. revert s Ha Hin. induction Hes as [|e es He Hes IH]; intros s Ha Hin Hs; simpl in Hs.
  - simplify_eq. split; [done|]. by apply keeps_same.
  - destruct (fire e s) as [s1|] eqn:E; [|done]. destruct (fire_good _ _ _ Ha E) as [_ Ha1].
    destruct (fire_keeps _ _ _ _ Ha Hin He E) as [Hin1 Hk1]. destruct (IH _ Ha1 Hin1 Hs) as [Hin2 Hk2].
    split; [done|]. by eapply keeps_trans.
Qed.

(** An idle connection that passes the probe leaves it with a deadline. *)
Lemma acquired_deadline now p a p' hs :
  acquire_scan now p = (Got a, p') -> owned p hs ->
  exists k, conns p' !! a = Some k /\ writeDeadline k = Some (now + 100 * 10 ^ 6).
Proof.
  intros [(l & b & Hi & _ & _ & _ & _ & Hcs & [(Hb & _ & _ & Hal)|(? & _)])|[(_ & ? & _)|(_ & ? & _)]]
    %acquire_scan_spec [_ Hlt]; try done. injection Hb as <-.
  rewrite Hcs. revert Hal. rewrite Forall_forall in Hlt.
  destruct (lookup_lt_is_Some_2 (conns p) a) as [cl Hcl]; [apply Hlt; rewrite Hi; set_solver|].
  unfold isAlive. rewrite Hcl. unfold SetWriteDeadline. destruct (socket_closed cl); [done|]. intros _.
  eexists. split; [apply list_lookup_insert_eq; by eapply lookup_lt_Some|done].
Qed.

Lemma cons_ne {A} (x : A) l : l <> x :: l.
Proof. intros E. apply (f_equal length) in E. simpl in E. lia. Qed.

(** A connection that was idle stops writing 100 ms after [Acquire].  The
    probe [isAlive] sets a write deadline that nothing clears: as long as the
    caller holds the connection, and whatever the pool and other callers do
    meanwhile, every write from then on fails. *)
Theorem reused_connection_expires c s now s1 a es s2 t :
  reachable c s -> fire (EAcquire now) s = Some s1 -> held s1 = a :: held s ->
  Forall (fun e => forall n, e <> ERelease a n) es -> steps es s1 = Some s2 ->
  now + 100 * 10 ^ 6 <= t ->
  a ∈ held s2 /\
  exists k, conns (pool s2) !! a = Some k /\
    (write_error t k = Some ErrDeadlineExceeded \/ write_error t k = Some net_ErrClosed).
Proof.
  intros [Ha _]%reachable_accounted Hf Hh Hes Hs Ht.
  destruct (fire_good _ _ _ Ha Hf) as [_ Ha1]. assert (a ∈ held s1) as Hin by (rewrite Hh; by left).
  destruct (steps_keep _ _ _ _ Ha1 Hin Hes Hs) as [Hin2 Hkp]. split; [done|].
  simpl in Hf. injection Hf as <-. rewrite pool_after_scan in Hkp. revert Hh Hkp. unfold Acquire.
  destruct (closed (pool s)); [intros Hh; by apply cons_ne in Hh|].
  destruct (acquire_scan now (pool s)) as [r p'] eqn:E.
  destruct r; simpl; intros Hh Hkp; try (by apply cons_ne in Hh). simplify_eq.
  destruct (acquired_deadline _ _ _ _ _ E (ac_owned _ Ha)) as (k & Hk & Hd).
  destruct (Hkp _ Hk) as (k' & Hk' & Hd' & _). exists k'. split; [done|].
  unfold write_error. rewrite Hd', Hd. destruct (socket_closed k'); [by right|left].
  by rewrite (proj2 (Z.leb_le _ _)).
Qed.

(** A pool that is closed can still hand out connections.  An [Acquire]
    that is closing a dead connection while [Close] runs does not look at
    [closed] again: below [MaxSize] it dials and returns a connection of the
    closed pool. *)
Theorem acquire_outlives_close s a now now' :
  closed (pool s) = true -> idle (pool s) = [] -> total (pool s) < MaxSize (cfg (pool s)) ->
  a ∈ closing s ->
  exists s1, steps [EClosed a now; EDialled None now'] s = Some s1 /\
    held s1 = length (conns (pool s)) :: held s /\ closed (pool s1) = true.
Proof.
  intros Hc Hi Ht Ha. cbn [steps fire]. rewrite bool_decide_true by done.
  unfold acquire_scan. cbn [on_conn set_conns idle cfg total]. rewrite Hi. cbn [last].
  rewrite (proj2 (Z.leb_gt _ _)) by done. cbn. rewrite length_alter. eexists. by split_and!.
Qed.

(** *** Reaping *)

Lemma close_each_lookup l cs a k :
  NoDup l -> cs !! a = Some k ->
  close_each l cs !! a = Some (if bool_decide (a ∈ l) then conn_Close k else k).
Proof.
  intros Hl. revert cs k. induction Hl as [|b l Hb Hl IH]; intros cs k Hk; cbn; [done|].
  fold (close_each l (alter conn_Close b cs)). destruct (decide (b = a)) as [->|Hne].
  - rewrite (IH _ (conn_Close k)); [|by rewrite list_lookup_alter_eq, Hk].
    rewrite (bool_decide_true (a ∈ a :: l)), bool_decide_false; [done|done|by left].
  - rewrite (IH _ k); [|by rewrite list_lookup_alter_ne].
    f_equal. erewrite bool_decide_ext; [done|]. set_solver.
Qed.

(** [reap] closes the connections idle for longer than the timeout and
    no other: they leave the pool, the rest stay in their order and untouched,
    and the count follows. *)
Theorem reap_closes_expired now c s n p :
  reachable c s -> closed (pool s) = false -> reap now (pool s) = (n, p) ->
  (forall a, a ∈ idle p <-> a ∈ idle (pool s) /\ expired now (pool s) a = false) /\
  idle p `sublist_of` idle (pool s) /\
  s_Total (Stats p) = s_Idle (Stats p) + s_InUse (Stats p) /\
  (forall a k, conns (pool s) !! a = Some k ->
     conns p !! a = Some (if bool_decide (a ∈ idle (pool s)) && expired now (pool s) a then conn_Close k else k)).
Proof.
  intros [Ha _]%reachable_accounted Hc. unfold reap. rewrite Hc. intros [= <- <-]. cbn.
  pose proof (ac_open _ Ha Hc) as Hz. unfold surplus in Hz.
  pose proof (filter_split (expired now (pool s)) (idle (pool s))).
  split_and!; [intros a; rewrite list_elem_of_filter; naive_solver|apply sublist_filter|lia|].
  intros a k Hk. rewrite (close_each_lookup _ _ _ k); [| |done].
  - f_equal. erewrite bool_decide_ext; [|apply list_elem_of_filter].
    rewrite bool_decide_and, andb_comm. by destruct (expired now (pool s) a).
  - apply NoDup_filter. apply ac_owned in Ha as [Hn _]. by apply NoDup_app in Hn as [? _].
Qed.

(** ** A small pool: two connections kept, at most two, idle for a minute *)

Definition small : PoolConfig := mkPoolConfig "/tmp/vyx/api.sock" 2 2 (60 * second) 0.
Definition no_errors (_ : nat) : option error := None.
Definition at_zero (_ : nat) : Z := 0.
Definition small_pool : Pool :=
  mkPool (with_defaults small) [0; 1]%nat 2 0 false false (replicate 2 (mkPooledConn 0 None false)).

Lemma small_pool_new : NewPool small no_errors at_zero = Ret (Ok small_pool).
Proof. reflexivity. Qed.

Lemma small_reachable es s : steps es (start small_pool) = Some s -> reachable small s.
Proof. intros H. exists no_errors, at_zero, small_pool, es. by split. Qed.

Definition after (es : list Event) : System := default (start small_pool) (steps es (start small_pool)).

Lemma connections_accounted_witness :
  let s := after [EAcquire 5; EAcquire 6; ERelease 0 7]%nat in
  Stats (pool s) = mkPoolStats 1 1 2 /\ NoDup (idle (pool s) ++ held s).
Proof.
  split; [reflexivity|]. apply (connections_accounted small).
  by apply (small_reachable [EAcquire 5; EAcquire 6; ERelease 0 7]%nat).
Defined.

(** Two in use, none idle when the pool closes; both come back: -2. *)
Lemma close_miscounts_witness :
  s_Total (Stats (pool (after [EAcquire 5; EAcquire 6; ECancel; EClose; ERelease 0 8; ERelease 1 9]%nat))) = -2.
Proof.
  set (s := after [EAcquire 5; EAcquire 6; ECancel]). set (s1 := after [EAcquire 5; EAcquire 6; ECancel; EClose]).
  assert (steps [EAcquire 5; EAcquire 6; ECancel] (start small_pool) = Some s) as Hs by (vm_compute; reflexivity).
  assert (fire EClose s = Some s1) as Hf by (vm_compute; reflexivity).
  match goal with |- s_Total (Stats (pool ?t)) = _ => set (s2 := t) end.
  assert (steps [ERelease 0 8; ERelease 1 9]%nat s1 = Some s2) as Hs2 by (vm_compute; reflexivity).
  etransitivity; [exact (close_miscounts small s s1 _ s2 (small_reachable _ _ Hs) Hf Hs2)|vm_compute; reflexivity].
Defined.

(** Both idle connections expire, two goroutines start, two callers take the
    room, the goroutines add their connections: four. *)
Definition overfull : list Event :=
  [EReap (100 * second); EStart; EStart; EAcquire 0; EDialled None 0; EAcquire 0; EDialled None 0;
   EAdded None 0; EAdded None 0].

Lemma pool_size_bounded_witness :
  s_Total (Stats (pool (after overfull))) = 4 /\ s_Total (Stats (pool (after overfull))) <= 2 + 2.
Proof.
  split; [vm_compute; reflexivity|].
  assert (steps overfull (start small_pool) = Some (after overfull)) as Hs by (vm_compute; reflexivity).
  assert (quiet overfull (start small_pool)) as Hq by (vm_compute; tauto).
  exact (pool_size_bounded small no_errors at_zero small_pool overfull _ small_pool_new Hq Hs).
Defined.

Lemma reused_connection_expires_witness :
  exists k, conns (pool (after [EAcquire 5; EAcquire 6])) !! 1%nat = Some k /\
    (write_error (100 * 10 ^ 6 + 5) k = Some ErrDeadlineExceeded \/
     write_error (100 * 10 ^ 6 + 5) k = Some net_ErrClosed).
Proof.
  apply (reused_connection_expires small (start small_pool) 5 (after [EAcquire 5]) 1%nat [EAcquire 6]
    (after [EAcquire 5; EAcquire 6])); try reflexivity.
  - by apply (small_reachable []).
  - by repeat constructor.
Defined.

(** A caller broke connection 1 and released it; the next [Acquire] finds it
    dead, and the pool is closed meanwhile. *)
Definition caught : System :=
  after [EAcquire 1; EHolderCloses 1; ERelease 1 2; EAcquire 3; ECancel; EClose]%nat.

Lemma acquire_outlives_close_witness :
  exists s1, steps [EClosed 1%nat 4; EDialled None 5] caught = Some s1 /\ held s1 = [2]%nat /\
    closed (pool s1) = true.
Proof. apply (acquire_outlives_close caught 1%nat 4 5); try reflexivity. by left. Defined.

Lemma reap_closes_expired_witness :
  let p := (reap (100 * second) (pool (after [EAcquire 5; ERelease 1 (50 * second)]%nat))).2 in
  idle p = [1]%nat /\ idle p `sublist_of` [0; 1]%nat.
Proof.
  split; [reflexivity|].
  apply (reap_closes_expired (100 * second) small (after [EAcquire 5; ERelease 1 (50 * second)]%nat) 1);
    try reflexivity.
  by apply (small_reachable [EAcquire 5; ERelease 1 (50 * second)]%nat).
Defined.
