(* ===== verification/Jwt.v ===== *)
(** * The token validator ([infrastructure/gateway/jwt.go])

    Parsing a token and checking its signature is the golang-jwt library's:
    the parameter [ParseWithClaims], which calls back for the key.  What this
    code adds - the key function, and the checks of issuer, audience and
    not-before - is modelled, and the validator is put under the dispatcher. *)
From S2P Require Import Prelude GoStrings Ipc RouteMap Circuit Worker Pool PoolManager Drainer Gateway Dispatcher DispatchFacts.
Local Open Scope string_scope.
Local Open Scope list_scope.
Local Open Scope Z_scope.

(** The library's [jwt.SigningMethod]: its HMAC type, with the name of the
    algorithm, and all others. *)
Inductive SigningMethod :=
  | SigningMethodHMAC (alg : string)
  | OtherMethod (alg : string).

(** [vyxClaims] with the fields of [RegisteredClaims] that are read. *)
Record vyxClaims := mkVyxClaims {
  v_UserID : string;
  v_Roles : list string;
  Issuer : string;
  Audience : list string;
  NotBefore : option Z;
}.

Record Token := mkToken {
  tk_Method : SigningMethod;
  tk_Claims : vyxClaims;
  tk_Valid : bool;
}.

Record JWTValidator := mkJWTValidator {
  secret : bytes;
  issuer : string;
  audience : string;
}.

Definition NewJWTValidatorWithClaims (secret : bytes) (issuer audience : string) : JWTValidator :=
  mkJWTValidator secret issuer audience.
Definition NewJWTValidator (secret : bytes) : JWTValidator := NewJWTValidatorWithClaims secret "" "".

Fixpoint contains (slice : list string) (target : string) : bool :=
  match slice with
  | [] => false
  | s :: slice' => if String.eqb s target then true else contains slice' target
  end.

(** The function the library calls for the key. *)
Definition keyFunc (v : JWTValidator) (m : SigningMethod) : result bytes :=
  match m with
  | SigningMethodHMAC _ => Ok (secret v)
  | OtherMethod alg => Err (NewErr ("unexpected signing method: " +:+ alg))
  end.

Section Validate.
(** [jwt.ParseWithClaims] at a time: the claims it returns are the
    [*vyxClaims] it was given. *)
Context (ParseWithClaims : Z -> string -> (SigningMethod -> result bytes) -> result Token).

(** The clock is read by the library, [now], and for [nbf], [now']. *)
Definition Validate (v : JWTValidator) (now now' : Z) (tokenStr : string) : result Claims :=
  match ParseWithClaims now tokenStr (keyFunc v) with
  | Err err => Err err
  | Ok token =>
      let c := tk_Claims token in
      if negb (tk_Valid token) then Err (NewErr "jwt: invalid token claims")
      else if negb (String.eqb (issuer v) "") && negb (String.eqb (Issuer c) (issuer v))
      then Err ErrUnauthorized
      else if negb (String.eqb (audience v) "") && negb (contains (Audience c) (audience v))
      then Err ErrUnauthorized
      else
        let early := match NotBefore c with Some nbf => now' <? nbf | None => false end in
        if early then Err ErrUnauthorized
        else Ok (mkClaims (v_UserID c) (v_Roles c))
  end.

(** ** What a token must be *)

Lemma contains_spec l x : contains l x = true <-> x ∈ l.
Proof.
  induction l as [|y l IH]; simpl; [by rewrite elem_of_nil|].
  destruct (String.eqb_spec y x) as [->|Hne]; rewrite elem_of_cons; [naive_solver|]. rewrite IH. naive_solver.
Qed.

(** The checks on a token's claims, for a validator at a time. *)
Record acceptable (v : JWTValidator) (now : Z) (c : vyxClaims) : Prop := {
  ok_issuer : issuer v <> "" -> Issuer c = issuer v;
  ok_audience : audience v <> "" -> audience v ∈ Audience c;
  ok_nbf : forall nbf, NotBefore c = Some nbf -> nbf <= now;
}.

Lemma Validate_accepts_iff v now now' s claims :
  Validate v now now' s = Ok claims <->
  exists t, ParseWithClaims now s (keyFunc v) = Ok t /\ tk_Valid t = true /\
    acceptable v now' (tk_Claims t) /\ claims = mkClaims (v_UserID (tk_Claims t)) (v_Roles (tk_Claims t)).
Proof.
  unfold Validate. destruct (ParseWithClaims now s (keyFunc v)) as [t|e]; [|naive_solver].
  trans (tk_Valid t = true /\ acceptable v now' (tk_Claims t) /\
    claims = mkClaims (v_UserID (tk_Claims t)) (v_Roles (tk_Claims t))); [|naive_solver].
  destruct (tk_Valid t); simpl; [|naive_solver].
  assert (forall a b, negb (String.eqb a "") && negb b = false <-> (a <> "" -> b = true)) as Hif.
  { intros a b. destruct (String.eqb_spec a ""), b; naive_solver. }
  destruct (negb (String.eqb (issuer v) "") && _) eqn:Ei.
  { split; [done|]. intros (_ & [H _ _] & _). apply not_false_iff_true in Ei. destruct Ei. apply Hif.
    intros Hne. by apply String.eqb_eq, H. }
  destruct (negb (String.eqb (audience v) "") && _) eqn:Ea.
  { split; [done|]. intros (_ & [_ H _] & _). apply not_false_iff_true in Ea. destruct Ea. apply Hif.
    intros Hne. by apply contains_spec, H. }
  rewrite Hif in Ei, Ea. setoid_rewrite String.eqb_eq in Ei. setoid_rewrite contains_spec in Ea.
  destruct (NotBefore (tk_Claims t)) as [nbf|] eqn:En; [destruct (now' <? nbf) eqn:E; bool_to_prop|].
  - split; [done|]. intros (_ & [_ _ H] & _). specialize (H _ En). lia.
  - split; [|naive_solver]. intros [= <-]. split_and!; try done. split; try done. naive_solver.
  - split; [|naive_solver]. intros [= <-]. split_and!; try done. split; try done. by rewrite En.
Qed.

Lemma Validate_accepts v now now' s claims :
  Validate v now now' s = Ok claims ->
  exists t, ParseWithClaims now s (keyFunc v) = Ok t /\ acceptable v now' (tk_Claims t) /\
    claims = mkClaims (v_UserID (tk_Claims t)) (v_Roles (tk_Claims t)).
Proof. intros (t & ? & _ & ? & ?)%Validate_accepts_iff. eauto. Qed.

(** [Validate] accepts exactly the tokens the library parses and finds
    valid with this validator's key function, whose issuer and audience are
    the expected ones where such are set, and which are not from the future;
    what it returns is the identity and the roles the token carries. *)
Theorem Validate_accepts_exactly v now now' s claims :
  Validate v now now' s = Ok claims <->
  exists t, ParseWithClaims now s (keyFunc v) = Ok t /\ tk_Valid t = true /\
    acceptable v now' (tk_Claims t) /\ claims = mkClaims (v_UserID (tk_Claims t)) (v_Roles (tk_Claims t)).
Proof. apply Validate_accepts_iff. Qed.

(** ** Under the dispatcher *)

Section Protected.
Context {T : Type} `{TR : !Transport T} {H : Type} (enc : Encoding).

(** [signed_by alg key s t]: the string [s] is the token [t] signed with the
    HMAC algorithm [alg] under [key]. *)
Context (signed_by : string -> bytes -> string -> Token -> Prop).

(** What the library documents: a token it returns without an error had a key
    from the key function and a signature that verifies with it. *)
Definition parse_verifies : Prop := forall now s kf t,
  ParseWithClaims now s kf = Ok t ->
  exists key, kf (tk_Method t) = Ok key /\
    (forall alg, tk_Method t = SigningMethodHMAC alg -> signed_by alg key s t).

(** Behind a route that asks for roles, a worker hears only of requests
    that carry a token signed with the configured secret.  With the validator
    plugged into the dispatcher, either the transport is as it was or the
    Authorization header, less its prefix, is a token that an HMAC algorithm
    signed under the secret, acceptable in its claims, and with one of the
    roles of the route. *)
Theorem protected_routes_need_signed_tokens v now now' (d : Dispatcher (H:=H)) clk uuid rq
    (w : World (T:=T) (H:=H)) reply res :
  parse_verifies -> jwt d = Some (Validate v now now') ->
  registry_ok (circuits w) -> Forall transparent (listeners d) ->
  Dispatch enc clk uuid d rq w = Ret reply ->
  Lookup (routes d) (Method rq) (Path rq) = Some res -> re_authRoles (lr_entry res) <> [] ->
  wire (wd (final reply)) = wire w \/
  exists alg t role, tk_Method t = SigningMethodHMAC alg /\
    signed_by alg (secret v) (stripBearerPrefix (header (Headers rq) "Authorization")) t /\
    acceptable v now' (tk_Claims t) /\
    role ∈ v_Roles (tk_Claims t) /\ role ∈ re_authRoles (lr_entry res).
Proof.
  intros Hpv Hj Hok Hls HD EL Hroles.
  destruct (Dispatch_breaker _ _ _ _ _ _ _ _ Hok Hls HD EL) as (b & _ & [[_ ?]|[(_ & _ & Hau & _) _]]); [by left|].
  right. destruct Hau as [?|(validate & claims & role & Hj' & _ & Hval & Hr1 & Hr2)]; [done|].
  rewrite Hj in Hj'. injection Hj' as <-.
  apply Validate_accepts in Hval as (t & Hp & Hacc & ->).
  destruct (Hpv _ _ _ _ Hp) as (key & Hkey & Hsig). destruct (tk_Method t) as [alg|alg] eqn:Em; [|done].
  simpl in Hkey. injection Hkey as <-. exists alg, t, role. split_and!; auto.
Qed.
End Protected.
End Validate.

(** ** A concrete library

    Tokens are the two literals below; the signature is the key appended. *)
Definition demo_token : Token :=
  mkToken (SigningMethodHMAC "HS256") (mkVyxClaims "u1" ["admin"] "" [] (Some 3)) true.
Definition none_token : Token := mkToken (OtherMethod "none") (mkVyxClaims "u1" ["admin"] "" [] None) true.
Definition demo_signed (alg : string) (key : bytes) (s : string) (t : Token) : Prop :=
  of_string s = of_string "admin." ++ key /\ t = demo_token.
Definition demo_parse (_ : Z) (s : string) (kf : SigningMethod -> result bytes) : result Token :=
  if String.eqb s "none" then
    match kf (tk_Method none_token) with Err e => Err e | Ok _ => Ok none_token end
  else
    match kf (tk_Method demo_token) with
    | Err e => Err e
    | Ok key => if bool_decide (of_string s = of_string "admin." ++ key) then Ok demo_token
                else Err (NewErr "signature is invalid")
    end.
Definition demo_validator : JWTValidator := NewJWTValidator (of_string "s3cret").

(** The token of no algorithm is refused by the key function. *)
Example none_refused : Validate demo_parse demo_validator 5 5 "none" = Err (NewErr "unexpected signing method: none").
Proof. reflexivity. Qed.
(** A not-before in the future is refused even without an issuer. *)
Example early_refused : Validate demo_parse demo_validator 2 2 "admin.s3cret" = Err ErrUnauthorized.
Proof. reflexivity. Qed.

Lemma demo_parse_verifies : parse_verifies demo_parse demo_signed.
Proof.
  intros now s kf t. unfold demo_parse. destruct (String.eqb s "none").
  - destruct (kf (tk_Method none_token)) as [key|] eqn:E; [|done]. intros [= <-]. by exists key.
  - destruct (kf (tk_Method demo_token)) as [key|] eqn:E; [|done]. case_bool_decide as Hs; [|done].
    intros [= <-]. exists key. split; [done|]. by split.
Qed.

Definition jwt_dispatcher : Dispatcher (H:=AccessLog) :=
  (NewDispatcher NewAccessLogLifecycle
     (mkDispatcherConfig (NewRouteMap demo_routes) (Some (Validate demo_parse demo_validator 5 5)) None (30 * second)) []).1.

Lemma protected_routes_need_signed_tokens_witness :
  exists reply res,
    Dispatch demo_enc (clock 5) "uuid" jwt_dispatcher (ask "/admin/7" "Bearer admin.s3cret") demo_world = Ret reply /\
    Lookup (routes jwt_dispatcher) "GET" "/admin/7" = Some res /\
    wire (wd (final reply)) <> [] /\
    (wire (wd (final reply)) = [] \/
     exists alg t role, tk_Method t = SigningMethodHMAC alg /\
       demo_signed alg (of_string "s3cret") "admin.s3cret" t /\
       acceptable demo_validator 5 (tk_Claims t) /\ role ∈ v_Roles (tk_Claims t) /\ role ∈ re_authRoles (lr_entry res)).
Proof.
  destruct (Dispatch demo_enc (clock 5) "uuid" jwt_dispatcher (ask "/admin/7" "Bearer admin.s3cret") demo_world)
    as [reply|] eqn:E; [|vm_compute in E; discriminate E].
  destruct (Lookup (routes jwt_dispatcher) "GET" "/admin/7") as [res|] eqn:EL; [|vm_compute in EL; discriminate EL].
  exists reply, res. split_and!; [reflexivity|reflexivity| |].
  - vm_compute in E. injection E as <-. discriminate.
  - apply (protected_routes_need_signed_tokens demo_parse demo_enc demo_signed demo_validator 5 5
      jwt_dispatcher (clock 5) "uuid" (ask "/admin/7" "Bearer admin.s3cret") demo_world reply res);
      [apply demo_parse_verifies|reflexivity|apply NewRegistry_ok|constructor|exact E|exact EL|].
    vm_compute in EL. injection EL as <-. discriminate.
Defined.
