(* ===== verification/WebSocket.v ===== *)
(** * The WebSocket proxy ([infrastructure/gateway/websocket.go])

    An upgrade request is checked, the worker is told of the session, and two
    goroutines pump frames between the client and the transport that the
    session shares with every other session and with the dispatcher.  A
    session runs under a schedule: which pump makes its next round, and what
    others do to the transport in between.

    The WebSocket protocol (x/net/websocket) and the JSON encoding are
    parameters; the transport is the dispatcher's. *)
From S2P Require Import Prelude GoStrings Ipc RouteMap Circuit Worker Pool PoolManager Drainer RateLimiter Gateway Dispatcher DispatchFacts ClientIP Server Uds.
Local Open Scope string_scope.
Local Open Scope list_scope.
Local Open Scope Z_scope.

(** ** Payloads ([domain/ipc/message.go]) *)

Record WSOpenPayload := mkWSOpen {
  o_SessionID : string;
  o_Path : string;
  o_Headers : headers;
  o_Claims : option Claims;
}.

Record WSMessagePayload := mkWSMessage {
  m_SessionID : string;
  Data : bytes;
  IsBinary : bool;
}.

(** [json.Marshal] and [json.Unmarshal] at these types. *)
Record WSEncoding := mkWSEncoding {
  marshal_open : WSOpenPayload -> result bytes;
  marshal_message : WSMessagePayload -> result bytes;
  unmarshal_message : bytes -> result WSMessagePayload;
}.

(** [payload, _ := json.Marshal(v)]: nil when it fails. *)
Definition or_nil (r : result bytes) : bytes := match r with Ok b => b | Err _ => [] end.

(** [websocket.Message.Receive] and [.Send] on a client's connection. *)
Class ClientConn (C : Type) := {
  ws_Receive : C -> result bytes * C;
  ws_Send : bytes -> C -> option error * C;
}.

(** The proxy; its transport is passed along, its logger left out. *)
Record wsProxy := mkWSProxy {
  ws_routes : RouteMap;
  ws_jwt : option (string -> result Claims);
}.

(** ** The checks before the upgrade *)

Definition json_error (text : string) : string :=
  "{" +:+ String "034" ("error" +:+ String "034" (":" +:+ String "034" (text +:+ String "034" "}"))).

(** [strings.EqualFold] on the first seven bytes. *)
Definition ws_token (token : string) : string :=
  if (7 <? String.length token)%nat && String.eqb (to_lower (take_str 7 token)) "bearer "
  then drop_str 7 token else token.

Definition hasWSRole (callerRoles required : list string) : bool :=
  let set : gset string := list_to_set callerRoles in
  existsb (fun r => bool_decide (r ∈ set)) required.

(** The claims of the caller, or the response that refuses. *)
Definition ws_authorise (p : wsProxy) (rt : RouteEntry) (authorization : string)
    : outcome (HttpResponse + option Claims) :=
  match re_authRoles rt with
  | [] => Ret (inr None)
  | required =>
      match ws_jwt p with
      | None => Panic "nil pointer dereference"
      | Some validate =>
          match validate (ws_token authorization) with
          | Err _ => Ret (inl (http_Error 401 (json_error "unauthorized")))
          | Ok c =>
              if hasWSRole (Roles c) required then Ret (inr (Some c))
              else Ret (inl (http_Error 403 (json_error "forbidden")))
          end
      end
  end.

Section Proxy.
Context {T : Type} `{TR : !Dispatcher.Transport T} {C : Type} `{CC : !ClientConn C}.
Context (enc : WSEncoding).

(** ** A session

    [client_done] and [worker_done]: what a pump has sent on [errCh], once it
    has returned. *)
Record Session := mkSession {
  sessionID : string;
  workerID : string;
  conn : C;
  client_done : option error;
  worker_done : option error;
}.

(** One round of [pumpClientToWorker]. *)
Definition pumpClientToWorker (s : Session) (t : T) : Session * T :=
  match client_done s with
  | Some _ => (s, t)
  | None =>
      match ws_Receive (conn s) with
      | (Err err, c) => (mkSession (sessionID s) (workerID s) c (Some err) (worker_done s), t)
      | (Ok data, c) =>
          let payload := or_nil (marshal_message enc (mkWSMessage (sessionID s) data false)) in
          let '(err, t) := Dispatcher.Send (workerID s) (mkMessage TypeWSMessage payload) t in
          (mkSession (sessionID s) (workerID s) c err (worker_done s), t)
      end
  end.

(** The data a message from the worker has for a session. *)
Definition frame_for (sid : string) (msg : Message) : option bytes :=
  if negb (Ascii.eqb (mtype msg) TypeWSMessage) then None
  else match unmarshal_message enc (Payload msg) with
       | Err _ => None
       | Ok m => if negb (String.eqb (m_SessionID m) sid) then None else Some (Data m)
       end.

(** One round of [pumpWorkerToClient]. *)
Definition pumpWorkerToClient (s : Session) (t : T) : Session * T :=
  match worker_done s with
  | Some _ => (s, t)
  | None =>
      let '(r, _, t) := Dispatcher.ReceiveResponse (workerID s) t in
      match r with
      | Err err => (mkSession (sessionID s) (workerID s) (conn s) (client_done s) (Some err), t)
      | Ok msg =>
          match frame_for (sessionID s) msg with
          | None => (s, t)
          | Some data =>
              let '(err, c) := ws_Send data (conn s) in
              (mkSession (sessionID s) (workerID s) c (client_done s) err, t)
          end
      end
  end.

Definition buildHeadersSnapshot (r : HttpRequest) : headers :=
  omap (fun vs => match vs with v :: _ => Some v | [] => None end) (h_Header r).

Definition notifyWorkerOpen (sid : string) (r : HttpRequest) (wid : string) (claims : option Claims) (t : T)
    : option error * T :=
  let openPayload := or_nil (marshal_open enc (mkWSOpen sid (h_Path r) (buildHeadersSnapshot r) claims)) in
  Dispatcher.Send wid (mkMessage TypeWSOpen openPayload) t.

(** Up to the start of the pumps: the response, the session if there is one,
    the transport.  [upgrade] is the handshake: its response and, unless it
    refuses, the connection. *)
Definition ServeHTTP (upgrade : HttpRequest -> HttpResponse * option C) (p : wsProxy) (uuid : string)
    (r : HttpRequest) (t : T) : outcome (HttpResponse * option Session * T) :=
  match Lookup (ws_routes p) "WS" (h_Path r) with
  | None => Ret (http_Error 404 (json_error "route not found"), None, t)
  | Some result =>
      let rt := lr_entry result in
      match ws_authorise p rt (Header_Get r "Authorization") with
      | Panic e => Panic e
      | Ret (inl refused) => Ret (refused, None, t)
      | Ret (inr claims) =>
          match upgrade r with
          | (resp, None) => Ret (resp, None, t)
          | (resp, Some c) =>
              match notifyWorkerOpen uuid r (re_workerID rt) claims t with
              | (Some _, t) => Ret (resp, None, t)
              | (None, t) => Ret (resp, Some (mkSession uuid (re_workerID rt) c None None), t)
              end
          end
      end
  end.

(** ** Schedules

    [Other f]: what the rest of the core does to the transport. *)
Inductive Move := FromClient | FromWorker | Other (f : T -> T).

Definition move (m : Move) (st : Session * T) : Session * T :=
  match m with
  | FromClient => pumpClientToWorker st.1 st.2
  | FromWorker => pumpWorkerToClient st.1 st.2
  | Other f => (st.1, f st.2)
  end.

Definition run_session (ms : list Move) (st : Session * T) : Session * T :=
  foldl (fun st m => move m st) st ms.
End Proxy.
Arguments Session C : clear implicits.
Arguments Move T : clear implicits.

(** ** The checks *)

Lemma hasWSRole_eq caller required : hasWSRole caller required = hasRequiredRole caller required.
Proof. done. Qed.

(** What lets a caller through. *)
Definition ws_admitted (p : wsProxy) (rt : RouteEntry) (authorization : string) (claims : option Claims) : Prop :=
  (re_authRoles rt = [] /\ claims = None) \/
  exists validate c role, ws_jwt p = Some validate /\ validate (ws_token authorization) = Ok c /\
    claims = Some c /\ role ∈ Roles c /\ role ∈ re_authRoles rt.

Lemma ws_authorise_admits p rt a claims : ws_authorise p rt a = Ret (inr claims) -> ws_admitted p rt a claims.
Proof.
  unfold ws_authorise, ws_admitted. destruct (re_authRoles rt) as [|r rs] eqn:Er; [intros [= <-]; by left|].
  destruct (ws_jwt p) as [validate|]; [|done]. destruct (validate (ws_token a)) as [c|e] eqn:Ev; [|done].
  rewrite hasWSRole_eq. destruct (hasRequiredRole (Roles c) (r :: rs)) eqn:Eh; [|done]. intros [= <-].
  apply hasRequiredRole_spec in Eh as (role & H1 & H2). right. by exists validate, c, role.
Qed.

Section Gates.
Context {T : Type} `{TR : !Dispatcher.Transport T} {C : Type}.
Context (enc : WSEncoding).

(** C22: A worker hears of a session only after its checks.  Either the
    transport is as it was and no session is there, or the path has a WS
    route, the caller was admitted to it, the handshake went through, and the
    one message sent is the announcement, to the worker of that route, of the
    session with the caller's claims; there is a session exactly when that
    message went out. *)
Theorem ws_session_needs_admission (upgrade : HttpRequest -> HttpResponse * option C) p uuid r t resp os t' :
  ServeHTTP enc upgrade p uuid r t = Ret (resp, os, t') ->
  (t' = t /\ os = None) \/
  exists res claims c err, Lookup (ws_routes p) "WS" (h_Path r) = Some res /\
    ws_admitted p (lr_entry res) (Header_Get r "Authorization") claims /\
    upgrade r = (resp, Some c) /\
    Dispatcher.Send (re_workerID (lr_entry res)) (mkMessage TypeWSOpen
      (or_nil (marshal_open enc (mkWSOpen uuid (h_Path r) (buildHeadersSnapshot r) claims)))) t = (err, t') /\
    os = match err with
         | None => Some (mkSession uuid (re_workerID (lr_entry res)) c None None)
         | Some _ => None
         end.
Proof.
  unfold ServeHTTP, notifyWorkerOpen. destruct (Lookup _ _ _) as [res|]; [|intros [= _ <- <-]; by left].
  destruct (ws_authorise _ _ _) as [[refused|claims]|] eqn:Ea; [intros [= _ <- <-]; by left| |done].
  apply ws_authorise_admits in Ea.
  destruct (upgrade r) as [resp' [c|]]; [|intros [= _ <- <-]; by left].
  destruct (Dispatcher.Send _ _ t) as [[err|] t1] eqn:Es; intros [= <- <- <-]; right;
    by exists res, claims, c; eexists.
Qed.
End Gates.

(** ** The same checks as the dispatcher's *)

Section Same.
Context {T : Type} `{TR : !Dispatcher.Transport T} {H : Type}.

(** Upper or mixed case in the scheme of the header. *)
Definition folded_bearer (token : string) : bool :=
  (7 <? String.length token)%nat && String.eqb (to_lower (take_str 7 token)) "bearer " &&
  negb (String.eqb (take_str 7 token) "Bearer ").

Lemma ws_token_strip token : folded_bearer token = false -> ws_token token = stripBearerPrefix token.
Proof.
  unfold folded_bearer, ws_token, stripBearerPrefix. destruct (7 <? String.length token)%nat; [|done].
  generalize (drop_str 7 token), (take_str 7 token). intros rest pre. cbn [andb].
  destruct (String.eqb_spec pre "Bearer ") as [->|Hne]; [done|]. by destruct (String.eqb _ "bearer ").
Qed.

(** The proxy decides as the dispatcher does.  For a header that is not
    empty and whose scheme is not a case variant of "Bearer ", with the same
    validator and route: the two let the same callers through, with the same
    claims, refuse the others with the same status, and panic together when
    there is no validator. *)
Theorem ws_auth_same_as_http p (d : Dispatcher (H:=H)) (r : Run (T:=T) (H:=H)) :
  ws_jwt p = jwt d -> header (Headers (req r)) "Authorization" <> "" ->
  folded_bearer (header (Headers (req r)) "Authorization") = false ->
  match ws_authorise p (Dispatcher.route r) (header (Headers (req r)) "Authorization"), validateJWT d r with
  | Ret (inr claims), Ret (Continue, r') =>
      rclaims (req r') = match claims with Some c => Some c | None => rclaims (req r) end
  | Ret (inl resp), Ret (Stop None, r') => code r' = rs_status resp
  | Panic e, Panic e' => e = e'
  | _, _ => False
  end.
Proof.
  intros Hj Hne Hf. unfold ws_authorise, validateJWT, refuse.
  destruct (re_authRoles (Dispatcher.route r)) as [|role roles]; [done|].
  rewrite (proj2 (String.eqb_neq _ _)) by done. rewrite Hj, (ws_token_strip _ Hf).
  destruct (jwt d) as [validate|]; [|done]. destruct (validate _) as [c|e]; [|done].
  rewrite hasWSRole_eq. by destruct (hasRequiredRole _ _).
Qed.
End Same.

(** ** What a session relays *)

Section Relay.
Context {T : Type} `{TR : !Dispatcher.Transport T} {C : Type} `{CC : !ClientConn C}.
Context (enc : WSEncoding).

(** A transport and a connection that remember what went through them. *)
Record Tapped := mkTapped { on_wire : T; w_sent : list (string * Message); w_got : list Message }.
Record TappedConn := mkTappedConn { on_conn : C; c_sent : list bytes; c_got : list bytes }.

#[local] Instance tapped : Dispatcher.Transport Tapped := {
  Dispatcher.Send id m t := let '(e, w) := Dispatcher.Send id m (on_wire t) in
    (e, mkTapped w (w_sent t ++ [(id, m)]) (w_got t));
  Dispatcher.ReceiveResponse id t := let '(r, b, w) := Dispatcher.ReceiveResponse id (on_wire t) in
    (r, b, mkTapped w (w_sent t) (match r with Ok m => w_got t ++ [m] | Err _ => w_got t end));
}.
#[local] Instance tapped_conn : ClientConn TappedConn := {
  ws_Receive k := let '(r, c) := ws_Receive (on_conn k) in
    (r, mkTappedConn c (c_sent k) (match r with Ok b => c_got k ++ [b] | Err _ => c_got k end));
  ws_Send b k := let '(e, c) := ws_Send b (on_conn k) in (e, mkTappedConn c (c_sent k ++ [b]) (c_got k));
}.

(** The session without the taps. *)
Definition untap (st : Session TappedConn * Tapped) : Session C * T :=
  (mkSession (sessionID st.1) (workerID st.1) (on_conn (conn st.1)) (client_done st.1) (worker_done st.1),
   on_wire st.2).
Definition tap_move (m : Move T) : Move Tapped :=
  match m with
  | FromClient => FromClient
  | FromWorker => FromWorker
  | Other f => Other (fun t => mkTapped (f (on_wire t)) (w_sent t) (w_got t))
  end.

Lemma untap_move m st : untap (move enc (tap_move m) st) = move enc m (untap st).
Proof.
  destruct st as [[sid wid [k cs cg] cd wdn] t], m; cbn; [..|done].
  - unfold pumpClientToWorker, untap. cbn. destruct cd; [done|].
    destruct (ws_Receive k) as [[data|e] c]; cbn; [|done]. by destruct (Dispatcher.Send _ _ (on_wire t)).
  - unfold pumpWorkerToClient, untap. cbn. destruct wdn; [done|].
    destruct (Dispatcher.ReceiveResponse _ (on_wire t)) as [[[m|e] b] w]; cbn; [|done].
    destruct (frame_for enc sid m); cbn; [|done]. by destruct (ws_Send _ k).
Qed.

(** The books of a session: what was sent to the worker is what the client
    sent, wrapped; what was sent to the client is what came for it. *)
Record relayed (sid wid : string) (st : Session TappedConn * Tapped) : Prop := {
  rl_sid : sessionID st.1 = sid;
  rl_wid : workerID st.1 = wid;
  rl_up : w_sent st.2 =
    (fun data => (wid, mkMessage TypeWSMessage (or_nil (marshal_message enc (mkWSMessage sid data false)))))
      <$> c_got (conn st.1);
  rl_down : c_sent (conn st.1) = omap (frame_for enc sid) (w_got st.2);
}.

Lemma relayed_move sid wid m st : relayed sid wid st -> relayed sid wid (move enc (tap_move m) st).
Proof.
  intros [Hs Hw Hu Hd]. destruct st as [s t], m; cbn in *; [..|by split].
  - unfold pumpClientToWorker. destruct (client_done s); [by split|]. cbn.
    destruct (ws_Receive (on_conn (conn s))) as [[data|e] c]; cbn; [|by split].
    destruct (Dispatcher.Send _ _ (on_wire t)). cbn. split; cbn; try done.
    by rewrite Hu, fmap_app, Hs, Hw.
  - unfold pumpWorkerToClient. destruct (worker_done s); [by split|]. cbn.
    destruct (Dispatcher.ReceiveResponse _ (on_wire t)) as [[[m|e] b] w]; cbn; [|by split].
    rewrite Hs. destruct (frame_for enc sid m) as [data|] eqn:Ef; cbn;
      [destruct (ws_Send data (on_conn (conn s))); cbn|];
      split; cbn; try done; rewrite omap_app; cbn; rewrite Ef, Hd; [done|by rewrite app_nil_r].
Qed.

Lemma run_session_taps ms st :
  untap (run_session enc (tap_move <$> ms) st) = run_session enc ms (untap st) /\
  (forall sid wid, relayed sid wid st -> relayed sid wid (run_session enc (tap_move <$> ms) st)).
Proof.
  unfold run_session. revert st. induction ms as [|m ms IH]; intros st; [done|]. rewrite fmap_cons. cbn [foldl].
  destruct (IH (move enc (tap_move m) st)) as [H1 H2]. split; [by rewrite H1, untap_move|].
  intros sid wid Hr. by apply H2, relayed_move.
Qed.

(** A session relays faithfully what reaches its pumps.  Under any
    schedule and whatever others do to the transport, the session with taps
    on its two ends runs as it does without; what it has sent to its worker
    is, in order, the client's frames, each as one WSMessage of the session -
    so never a WSClose - and what it has sent to the client is, in order, the
    data of those messages it received that are for it. *)
Theorem ws_session_relays sid wid c t ms :
  let st := run_session enc (tap_move <$> ms)
    (mkSession sid wid (mkTappedConn c [] []) None None, mkTapped t [] []) in
  untap st = run_session enc ms (mkSession sid wid c None None, t) /\
  w_sent st.2 = (fun data =>
    (wid, mkMessage TypeWSMessage (or_nil (marshal_message enc (mkWSMessage sid data false)))))
      <$> c_got (conn st.1) /\
  c_sent (conn st.1) = omap (frame_for enc sid) (w_got st.2) /\
  Forall (fun im => mtype im.2 <> TypeWSClose) (w_sent st.2).
Proof.
  intros st. destruct (run_session_taps ms (mkSession sid wid (mkTappedConn c [] []) None None, mkTapped t [] []))
    as [H1 H2].
  destruct (H2 sid wid) as [_ _ Hu Hd]; [by split|]. split_and!; [exact H1|exact Hu|exact Hd|].
  fold st in Hu. rewrite Hu. apply Forall_fmap, Forall_true. intros data. by vm_compute.
Qed.
End Relay.

(** ** One queue for sessions and requests *)

Section Mixed.
Context {C : Type} `{CC : !ClientConn C} {H : Type} (enc : WSEncoding) (henc : Encoding).

(** Sessions and HTTP requests take each other's messages.  Over the
    socket transport, the pump of a session takes the next message of its
    worker whatever it is: an answer to an HTTP request, or a message of
    another session, is gone with nobody told.  And an HTTP request to that
    worker takes a session's message for its answer. *)
Theorem sessions_and_requests_mix (s : Session C) (p n : nat) (a : Message) answers rest t
    (d : Dispatcher (H:=H)) now key request correlation (r : Run (T:=Wire) (H:=H)) :
  worker_done s = None -> serving (workerID s) p (a :: answers) rest t -> sendable a ->
  (mtype a = TypeResponse \/ mtype a = TypeWSMessage) ->
  (frame_for enc (sessionID s) a = None ->
     exists t', pumpWorkerToClient enc s (EPump p :: replicate n (EPump p), t)
         = (s, (replicate n (EPump p), t')) /\
       serving (workerID s) p answers rest t') /\
  (exchange henc d now key (workerID s) request correlation
     (on_wd (w_wire (EPump p :: replicate n (EPump p), t)) r)).1
    = decodeWorkerResponse henc a correlation.
Proof.
  intros Hw Hsv Ha Hty.
  assert (is_response a = true) as Hr by (unfold is_response; destruct Hty as [->| ->]; by vm_compute).
  assert (mtype a <> TypeError) as Hne by (destruct Hty as [->| ->]; by vm_compute).
  split.
  - intros Hf. destruct (serving_receive _ p a answers rest n t Hsv Ha Hr) as (t' & Ht & Hsv').
    exists t'. split; [|done]. unfold pumpWorkerToClient. rewrite Hw. cbn [Dispatcher.ReceiveResponse uds_wire fst snd].
    by rewrite Ht, Hf.
  - unfold exchange. cbn [Dispatcher.Send uds_wire].
    destruct (serving_send _ p (a :: answers) rest (mkMessage TypeRequest request) t Hsv) as (t1 & Hs1 & Hsv1).
    cbn [on_wd wd w_wire wire snd fst]. rewrite Hs1. cbn [on_wd wd w_wire wire snd fst Dispatcher.ReceiveResponse uds_wire].
    destruct (serving_receive _ p a answers rest n t1 Hsv1 Ha Hr) as (t2 & -> & _).
    by rewrite decide_False.
Qed.
End Mixed.

(** ** Witnesses: sessions have two-letter names, which lead the payload *)

Definition demo_ws : WSEncoding :=
  mkWSEncoding (fun o => Ok (of_string (o_SessionID o +:+ o_Path o)))
    (fun m => Ok (of_string (m_SessionID m) ++ Data m))
    (fun b => Ok (mkWSMessage (String.string_of_list_ascii (take 2 b)) (drop 2 b) false)).

(** A client: the frames it will send, the frames it got. *)
#[export] Instance demo_client : ClientConn (list bytes * list bytes) := {
  ws_Receive c := match c.1 with [] => (Err EOF, c) | b :: bs => (Ok b, (bs, c.2)) end;
  ws_Send b c := (None, (c.1, c.2 ++ [b]));
}.

Definition chat_proxy : wsProxy :=
  mkWSProxy (NewRouteMap [mkRouteEntry "/ws/chat" "WS" "node:admin" ["admin"] "" ""]) (Some demo_jwt).
Definition chat_request (auth : string) : HttpRequest :=
  mkHttpRequest "GET" "/ws/chat" {["Upgrade" := ["websocket"]; "Authorization" := [auth]]} ∅ [] "10.0.0.1:99".
Definition accepts (_ : HttpRequest) : HttpResponse * option (list bytes * list bytes) :=
  (mkHttpResponse 101 ∅ (BRaw []), Some ([of_string "hi"], [])).

Lemma ws_session_needs_admission_witness :
  exists resp os t, ServeHTTP demo_ws accepts chat_proxy "s1" (chat_request "bearer good") [] = Ret (resp, os, t) /\
    t = [("node:admin", mkMessage TypeWSOpen (of_string "s1/ws/chat"))] /\
    ((t = [] /\ os = None) \/ exists res claims, Lookup (ws_routes chat_proxy) "WS" "/ws/chat" = Some res /\
       ws_admitted chat_proxy (lr_entry res) "bearer good" claims).
Proof.
  destruct (ServeHTTP demo_ws accepts chat_proxy "s1" (chat_request "bearer good") []) as [[[resp os] t]|] eqn:E;
    [|vm_compute in E; discriminate E].
  exists resp, os, t. split; [reflexivity|]. split; [vm_compute in E; injection E as _ _ <-; reflexivity|].
  destruct (ws_session_needs_admission demo_ws accepts chat_proxy "s1" (chat_request "bearer good") [] resp os t E)
    as [?|(res & claims & c & err & H1 & H2 & _)]; [by left|]. right. by exists res, claims.
Defined.

(** The dispatcher takes "bearer good" for the token itself. *)
Example bearer_case :
  (ws_token "bearer good", stripBearerPrefix "bearer good") = ("good", "bearer good").
Proof. reflexivity. Qed.

Definition chat_run (auth : string) : Run (T:=list (string * Message)) (H:=AccessLog) :=
  mkRun demo_world
    (lc_route (mkRouteEntry "/ws/chat" "WS" "node:admin" ["admin"] "" "")
       (NewLifecycleContext (ask "/ws/chat" auth))) 0.

Lemma ws_auth_same_as_http_witness :
  match ws_authorise chat_proxy (Dispatcher.route (chat_run "Bearer good")) "Bearer good",
        validateJWT demo_dispatcher (chat_run "Bearer good") with
  | Ret (inr claims), Ret (Continue, r') =>
      rclaims (req r') = match claims with Some c => Some c | None => None end
  | Ret (inl resp), Ret (Stop None, r') => code r' = rs_status resp
  | Panic e, Panic e' => e = e'
  | _, _ => False
  end.
Proof. apply (ws_auth_same_as_http chat_proxy demo_dispatcher (chat_run "Bearer good")); done. Defined.

(** Session s1 takes the frame of session s2. *)
Definition for_s2 : Message := mkMessage TypeWSMessage (of_string "s2hello").
Definition chatty : Uds.Transport := accept "node:admin" [concat (frame <$> [for_s2])] (New "/tmp/vyx").
Definition session_one : Session (list bytes * list bytes) := mkSession "s1" "node:admin" ([], []) None None.

Lemma sessions_and_requests_mix_witness :
  (exists t', pumpWorkerToClient demo_ws session_one ([EPump 0%nat], chatty) = (session_one, ([], t')) /\
     serving "node:admin" 0 [] [] t') /\
  (exchange demo_enc demo_dispatcher 0 "GET:/health" "node:admin" [] "c1"
     (on_wd (w_wire ([EPump 0%nat], chatty)) waiting)).1
    = Failed (Some (mkResponse 200 ∅ (of_string "s2hello") "c1")).
Proof.
  destruct (sessions_and_requests_mix demo_ws demo_enc session_one 0 0 for_s2 [] [] chatty demo_dispatcher 0
    "GET:/health" [] "c1" waiting) as [H1 H2].
  - reflexivity.
  - split; [vm_compute; reflexivity|]. eexists. split; [vm_compute; reflexivity|].
    split; [split; vm_compute; reflexivity|split; reflexivity].
  - by_compute.
  - by right.
  - split; [apply H1; vm_compute; reflexivity|]. refine (eq_trans H2 _). vm_compute. reflexivity.
Defined.
