(* ===== verification/Stream.v ===== *)
(** * Codec selection and streaming ([core/infrastructure/ipc/codec])

    [selector.go] chooses a codec and a message type by the size of the
    payload; [stream.go] splits a large payload into a start message, chunks
    and an end message, and assembles them again. *)
From S2P Require Import Prelude GoStrings Ipc PoolManager.
Local Open Scope string_scope.
Local Open Scope list_scope.
Local Open Scope Z_scope.
Local Open Scope go_scope.

(** ** Selection *)

Record TransferConfig := mkTransferConfig {
  ArrowThreshold : Z;
  ArrowMMapThreshold : Z;
  ArrowStreamingThreshold : Z;
}.

Inductive Codec := ArrowCodec | MsgPackCodec.

Definition defaultArrowThreshold : Z := 512 * 1024.
Definition defaultMMapThreshold : Z := 4 * 1024 * 1024.
Definition defaultStreamThreshold : Z := 256 * 1024 * 1024.

Definition threshold_or (configured default : Z) : Z := if 0 <? configured then configured else default.

Definition SelectCodec (payloadSize : Z) (cfg : TransferConfig) : Codec :=
  if threshold_or (ArrowThreshold cfg) defaultArrowThreshold <=? payloadSize
  then ArrowCodec else MsgPackCodec.

Definition SelectMessageType (payloadSize : Z) (cfg : TransferConfig) : MessageType :=
  let threshold := threshold_or (ArrowThreshold cfg) defaultArrowThreshold in
  let mmapThreshold := threshold_or (ArrowMMapThreshold cfg) defaultMMapThreshold in
  let streamThreshold := threshold_or (ArrowStreamingThreshold cfg) defaultStreamThreshold in
  if payloadSize <? threshold then TypeRequest
  else if streamThreshold <=? payloadSize then TypeStreamStart
  else if mmapThreshold <=? payloadSize then TypeArrowSHM
  else TypeArrowData.

(** Whatever the configuration, every type [SelectMessageType] picks for a
    payload that is not a plain request is one that [framing.Read] refuses:
    a frame of it cannot be received. *)
Theorem large_payloads_have_unreadable_types (payloadSize : Z) (cfg : TransferConfig) :
  SelectMessageType payloadSize cfg = TypeRequest <-> 
  validateType (SelectMessageType payloadSize cfg) = None.
Proof. unfold SelectMessageType. by repeat case_if; vm_compute. Qed.

(** ** Splitting *)

Definition defaultChunkSize : Z := Z.shiftl 1 20.

(** A message in [Sprintf]'s format: the identifier is not escaped. *)
Definition quote (s : string) : string := String "034" (s +:+ String "034" "").
Definition startPayload (streamID : string) (totalLen : Z) : bytes :=
  of_string ("{" +:+ quote "stream_id" +:+ ":" +:+ quote streamID +:+ "," +:+ quote "total_size"
             +:+ ":" +:+ itoa totalLen +:+ "}").
Definition endPayload (streamID : string) : bytes :=
  of_string ("{" +:+ quote "stream_id" +:+ ":" +:+ quote streamID +:+ "}").

(** The loop over the offsets; [payload] is what is left from the offset on.
    Each round takes [size > 0] bytes or the rest, so the length of the
    payload bounds the rounds. *)
Fixpoint chunk_loop (fuel : nat) (size : nat) (payload : bytes) : list Message :=
  match fuel with
  | O => []
  | S fuel' =>
      match payload with
      | [] => []
      | _ => mkMessage TypeStreamChunk (take size payload) :: chunk_loop fuel' size (drop size payload)
      end
  end.

Definition Split (chunkSize : Z) (streamID : string) (payload : bytes) : list Message :=
  let size := if chunkSize <=? 0 then defaultChunkSize else chunkSize in
  [mkMessage TypeStreamStart (startPayload streamID (Z.of_nat (length payload)))]
  ++ chunk_loop (length payload) (Z.to_nat size) payload
  ++ [mkMessage TypeStreamEnd (endPayload streamID)].

(** ** Assembling *)

Record streamState := mkStream {
  totalSize : Z;
  received : Z;
  chunks : list bytes;
}.
Notation StreamAssembler := (gmap string streamState).
Definition NewStreamAssembler : StreamAssembler := ∅.

(** The slices [make] refuses: a negative capacity or one beyond the address
    space. *)
Definition maxAlloc : Z := 2 ^ 48.

Section Assemble.
(** [json.Unmarshal] into the two anonymous structs. *)
Context (parse_start : bytes -> result (string * Z)) (parse_end : bytes -> result string).

Definition add_chunk (p : bytes) (st : streamState) : streamState :=
  mkStream (totalSize st) (received st +64 Z.of_nat (length p)) (chunks st ++ [p]).

(** [Feed]; the nil slice is [None]. *)
Definition Feed (msg : Message) (a : StreamAssembler) : outcome (result (option bytes) * StreamAssembler) :=
  if decide (mtype msg = TypeStreamStart) then
    match parse_start (Payload msg) with
    | Err e => Ret (Err (WrapErr "stream: parse start: " e ""), a)
    | Ok (streamID, total) =>
        if String.eqb streamID "" then
          Ret (Err (NewErr "stream: empty stream_id in start message"), a)
        else Ret (Ok None, <[streamID := mkStream total 0 []]> a)
    end
  else if decide (mtype msg = TypeStreamChunk) then
    Ret (Ok None, add_chunk (Payload msg) <$> a)
  else if decide (mtype msg = TypeStreamEnd) then
    match parse_end (Payload msg) with
    | Err e => Ret (Err (WrapErr "stream: parse end: " e ""), a)
    | Ok streamID =>
        match a !! streamID with
        | None => Ret (Err (NewErr ("stream: unknown stream " +:+ streamID)), a)
        | Some state =>
            if (totalSize state <? 0) || (maxAlloc <? totalSize state)
            then Panic "runtime error: makeslice: cap out of range"
            else Ret (Ok (Some (concat (chunks state))), delete streamID a)
        end
    end
  else Ret (Ok None, a).

Fixpoint feed_all (msgs : list Message) (a : StreamAssembler)
    : outcome (list (result (option bytes)) * StreamAssembler) :=
  match msgs with
  | [] => Ret ([], a)
  | m :: ms =>
      '(r, a) ← Feed m a;
      '(rs, a) ← feed_all ms a;
      Ret (r :: rs, a)
  end.

(** *** The assembler by its history

    The chunks between the last start of a stream and now, whosever they
    are. *)
Definition starts (id : string) (m : Message) : option Z :=
  if decide (mtype m = TypeStreamStart) then
    match parse_start (Payload m) with
    | Ok (x, total) => if String.eqb x "" then None else if String.eqb x id then Some total else None
    | Err _ => None
    end
  else None.
Definition ends (id : string) (m : Message) : bool :=
  bool_decide (mtype m = TypeStreamEnd) &&
  match parse_end (Payload m) with Ok x => String.eqb x id | Err _ => false end.
Definition chunk_of (m : Message) : bytes :=
  if decide (mtype m = TypeStreamChunk) then Payload m else [].

(** What the history makes of a stream: open with its announced size and the
    bytes that came since it was started, or not open. *)
Definition hear (id : string) (st : option (Z * bytes)) (m : Message) : option (Z * bytes) :=
  match starts id m with
  | Some total => Some (total, [])
  | None => if ends id m then None else (fun x => (x.1, x.2 ++ chunk_of m)) <$> st
  end.
Definition open_stream (id : string) (ms : list Message) : option (Z * bytes) := foldl (hear id) None ms.

Definition content (st : streamState) : Z * bytes := (totalSize st, concat (chunks st)).

Lemma Feed_hear m a r a' id :
  Feed m a = Ret (r, a') -> content <$> a' !! id = hear id (content <$> a !! id) m.
Proof.
  unfold Feed, hear, starts, ends, chunk_of. destruct m as [ty p]. cbn [mtype Payload].
  destruct (decide (ty = TypeStreamStart)) as [->|Hs].
  { assert (TypeStreamStart <> TypeStreamEnd /\ TypeStreamStart <> TypeStreamChunk) as [H1 H2] by done.
    rewrite bool_decide_eq_false_2, decide_False by done. cbn [andb].
    assert (forall o : option (Z * bytes), (fun x => (x.1, x.2 ++ [])) <$> o = o) as Hid.
    { intros [[z b]|]; cbn; [by rewrite app_nil_r|done]. }
    destruct (parse_start p) as [[x total]|e]; [|intros [= <- <-]; by rewrite Hid].
    destruct (String.eqb_spec x "") as [->|Hx]; [intros [= <- <-]; by rewrite Hid|].
    intros [= <- <-]. destruct (String.eqb_spec x id) as [->|Hne].
    - by rewrite lookup_insert_eq.
    - by rewrite lookup_insert_ne, Hid by done. }
  destruct (decide (ty = TypeStreamChunk)) as [->|Hc].
  { rewrite bool_decide_eq_false_2 by done. cbn [andb]. intros [= <- <-]. rewrite lookup_fmap.
    destruct (a !! id) as [st|]; cbn; [|done]. unfold content; cbn.
    rewrite concat_app. cbn [concat]. by rewrite app_nil_r. }
  destruct (decide (ty = TypeStreamEnd)) as [->|He].
  - rewrite bool_decide_eq_true_2 by done. cbn [andb].
    assert (forall o : option (Z * bytes), (fun x => (x.1, x.2 ++ [])) <$> o = o) as Hid.
    { intros [[z b]|]; cbn; [by rewrite app_nil_r|done]. }
    destruct (parse_end p) as [x|e]; [|intros [= <- <-]; by rewrite Hid].
    destruct (a !! x) as [st|] eqn:Ex.
    + case_if; [done|]. intros [= <- <-]. destruct (String.eqb_spec x id) as [->|Hne].
      * by rewrite lookup_delete_eq.
      * by rewrite lookup_delete_ne, Hid by done.
    + intros [= <- <-]. destruct (String.eqb_spec x id) as [->|Hne]; [by rewrite Ex|by rewrite Hid].
  - rewrite bool_decide_eq_false_2 by done. cbn [andb]. intros [= <- <-].
    destruct (a !! id) as [st|]; cbn; [by rewrite app_nil_r|done].
Qed.

Lemma feed_all_open ms a rs a' id :
  feed_all ms a = Ret (rs, a') ->
  content <$> a' !! id = foldl (hear id) (content <$> a !! id) ms.
Proof.
  revert a rs. induction ms as [|m ms IH]; intros a rs; cbn [feed_all foldl]; [by intros [= <- <-]|].
  destruct (Feed m a) as [[r a1]|] eqn:E; [|done]. cbn.
  destruct (feed_all ms a1) as [[rs1 a2]|] eqn:E1; [|done]. cbn. intros [= <- <-].
  rewrite <-(Feed_hear _ _ _ _ id E). by eapply IH.
Qed.

(** What an end message yields, for any history of starts, chunks, ends and
    other messages fed to a fresh assembler: the concatenation of all chunks
    fed since the stream was last started - the chunks of other open streams
    among them, since a chunk names no stream - or an error when the stream is
    not open, and the run time stops the process when the size the start
    message announced is negative or beyond the address space. *)
Theorem end_yields_chunks_since_start (ms : list Message) (m : Message) (id : string)
    (rs : list (result (option bytes))) (a : StreamAssembler) :
  feed_all ms NewStreamAssembler = Ret (rs, a) -> mtype m = TypeStreamEnd -> parse_end (Payload m) = Ok id ->
  match open_stream id ms with
  | None => Feed m a = Ret (Err (NewErr ("stream: unknown stream " +:+ id)), a)
  | Some (total, b) =>
      if (total <? 0) || (maxAlloc <? total)
      then Feed m a = Panic "runtime error: makeslice: cap out of range"
      else Feed m a = Ret (Ok (Some b), delete id a)
  end.
Proof.
  intros Hms Hty Hp. pose proof (feed_all_open ms _ rs a id Hms) as Ho.
  change (NewStreamAssembler !! id) with (None : option streamState) in Ho.
  unfold open_stream. change (content <$> None) with (None : option (Z * bytes)) in Ho. rewrite <-Ho.
  unfold Feed. rewrite Hty. rewrite decide_False, decide_False, decide_True by done. rewrite Hp.
  destruct (a !! id) as [st|]; cbn; [|done]. by case_if.
Qed.

(** *** Round trip *)

Lemma feed_all_app ms1 ms2 a :
  feed_all (ms1 ++ ms2) a = ('(rs1, a1) ← feed_all ms1 a; '(rs2, a2) ← feed_all ms2 a1; Ret (rs1 ++ rs2, a2)).
Proof.
  revert a. induction ms1 as [|m ms1 IH]; intros a; cbn [feed_all app].
  - cbn. by destruct (feed_all ms2 a) as [[]|].
  - destruct (Feed m a) as [[r a1]|]; [|done]. cbn. rewrite IH.
    destruct (feed_all ms1 a1) as [[rs1 a2]|]; [|done]. cbn.
    by destruct (feed_all ms2 a2) as [[]|].
Qed.

Definition is_chunk (m : Message) : Prop := mtype m = TypeStreamChunk.

Lemma feed_chunks ms a : Forall is_chunk ms ->
  exists a', feed_all ms a = Ret (replicate (length ms) (Ok None), a') /\
    forall id, content <$> a' !! id =
      (fun x : Z * bytes => (x.1, x.2 ++ concat (chunk_of <$> ms))) <$> (content <$> a !! id).
Proof.
  intros Hms. revert a. induction Hms as [|[ty p] ms Hm Hms IH]; intros a; cbn [feed_all fmap list_fmap].
  - exists a. split; [done|]. intros id. destruct (a !! id) as [st|]; cbn; [by rewrite app_nil_r|done].
  - unfold is_chunk in Hm. cbn in Hm. subst ty.
    assert (Feed (mkMessage TypeStreamChunk p) a = Ret (Ok None, add_chunk p <$> a)) as HF by done.
    rewrite HF. cbn. destruct (IH (add_chunk p <$> a)) as (a' & -> & Ha). cbn. exists a'. split; [done|].
    intros id. rewrite Ha, lookup_fmap. unfold chunk_of. cbn [mtype Payload].
    rewrite decide_True by done. destruct (a !! id) as [st|]; [|done]. cbn. unfold content. cbn.
    rewrite concat_app. cbn [concat]. by rewrite app_nil_r, app_assoc.
Qed.

Lemma chunk_loop_spec fuel size p :
  (0 < size)%nat -> (length p <= fuel)%nat ->
  Forall is_chunk (chunk_loop fuel size p) /\ concat (chunk_of <$> chunk_loop fuel size p) = p.
Proof.
  intros Hs. revert p. induction fuel as [|fuel IH]; intros p Hp; cbn [chunk_loop].
  - destruct p; [by split|simpl in Hp; lia].
  - destruct p as [|b p]; [by split|]. destruct (IH (drop size (b :: p))) as [Hall Hc].
    { rewrite length_drop. simpl in *. lia. }
    split; [by constructor|]. rewrite fmap_cons. cbn [concat]. rewrite Hc.
    unfold chunk_of. cbn [mtype Payload]. rewrite decide_True by done. apply take_drop.
Qed.

(** C33: Splitting and assembling.  The messages [Split] makes of a payload, fed
    one after the other to any assembler, yield nothing until the last, which
    yields the payload, whatever the chunk size; but every other stream that
    is open at the time has the payload appended to its own bytes, so two
    streams in flight at once spoil each other. *)
Theorem split_assembles (chunkSize : Z) (streamID : string) (payload : bytes) (a : StreamAssembler) :
  streamID <> "" -> Z.of_nat (length payload) <= maxAlloc ->
  parse_start (startPayload streamID (Z.of_nat (length payload))) = Ok (streamID, Z.of_nat (length payload)) ->
  parse_end (endPayload streamID) = Ok streamID ->
  exists rs a', feed_all (Split chunkSize streamID payload) a = Ret (rs ++ [Ok (Some payload)], a') /\
    Forall (fun r => r = Ok None) rs /\ a' !! streamID = None /\
    forall other, other <> streamID -> content <$> a' !! other =
      (fun x : Z * bytes => (x.1, x.2 ++ payload)) <$> (content <$> a !! other).
Proof.
  intros Hne Hlen Hps Hpe. unfold Split. set (size := if chunkSize <=? 0 then _ else _).
  assert (0 < Z.to_nat size)%nat as Hsize.
  { assert (0 < size); [|lia]. unfold size. case_if; bool_to_prop; [done|lia]. }
  clearbody size.
  destruct (chunk_loop_spec (length payload) (Z.to_nat size) payload Hsize ltac:(lia)) as [Hall Hcat].
  rewrite feed_all_app. cbn [feed_all].
  assert (Feed (mkMessage TypeStreamStart (startPayload streamID (Z.of_nat (length payload)))) a
    = Ret (Ok None, <[streamID := mkStream (Z.of_nat (length payload)) 0 []]> a)) as ->.
  { unfold Feed. cbn [mtype Payload]. rewrite decide_True, Hps by done.
    by destruct (String.eqb_spec streamID ""). }
  cbn. destruct (feed_chunks _ (<[streamID := mkStream (Z.of_nat (length payload)) 0 []]> a) Hall)
    as (a1 & Hf & Ha1). rewrite feed_all_app, Hf. cbn.
  pose proof (Ha1 streamID) as Hid. rewrite lookup_insert_eq, Hcat in Hid. cbn in Hid.
  destruct (a1 !! streamID) as [st|] eqn:Est; [|done]. injection Hid as Htot Hch.
  assert (Feed (mkMessage TypeStreamEnd (endPayload streamID)) a1
    = Ret (Ok (Some payload), delete streamID a1)) as ->.
  { unfold Feed. cbn [mtype Payload]. rewrite decide_False, decide_False, decide_True by done.
    rewrite Hpe, Est, Htot, Hch. by rewrite (proj2 (Z.ltb_ge _ _)), (proj2 (Z.ltb_ge _ _)) by lia. }
  cbn. eexists (Ok None :: replicate _ (Ok None)), (delete streamID a1). split; [reflexivity|]. split_and!.
  - constructor; [done|]. by apply Forall_replicate.
  - by rewrite lookup_delete_eq.
  - intros other Hother. rewrite lookup_delete_ne by done. rewrite Ha1, Hcat.
    by rewrite lookup_insert_ne.
Qed.
End Assemble.

(** ** Witnesses: a parser for the two formats *)

(** The part of the string up to the next quote, and after it. *)
Fixpoint until_quote (s : string) : string * string :=
  match s with
  | EmptyString => ("", "")
  | String c s' =>
      if Ascii.eqb c "034" then ("", s') else let '(a, b) := until_quote s' in (String c a, b)
  end.
Definition toy_end (b : bytes) : result string :=
  let s := String.string_of_list_ascii b in
  if has_prefix s ("{" +:+ quote "stream_id" +:+ ":" +:+ String "034" "")
  then Ok (until_quote (drop_str 14 s)).1 else Err (NewErr "unexpected end of JSON input").
Fixpoint digits (acc : Z) (s : string) : Z :=
  match s with
  | EmptyString => acc
  | String c s' =>
      if PoolManager.is_digit c then digits (acc * 10 + (Z.of_nat (nat_of_ascii c) - 48)) s' else acc
  end.
Definition toy_start (b : bytes) : result (string * Z) :=
  match toy_end b with
  | Err e => Err e
  | Ok id => Ok (id, digits 0 (drop_str 14 (until_quote (drop_str 14 (String.string_of_list_ascii b))).2))
  end.

Definition two_streams : list Message :=
  [mkMessage TypeStreamStart (startPayload "a" 4); mkMessage TypeStreamStart (startPayload "b" 2);
   mkMessage TypeStreamChunk (of_string "aaaa"); mkMessage TypeStreamChunk (of_string "bb")].

Lemma end_yields_chunks_since_start_witness :
  exists a, Feed toy_start toy_end (mkMessage TypeStreamEnd (endPayload "b")) a
    = Ret (Ok (Some (of_string "aaaabb")), delete "b" a).
Proof.
  destruct (feed_all toy_start toy_end two_streams NewStreamAssembler) as [[rs a]|] eqn:E;
    [|vm_compute in E; discriminate E].
  exists a. exact (end_yields_chunks_since_start toy_start toy_end two_streams
    (mkMessage TypeStreamEnd (endPayload "b")) "b" rs a E eq_refl eq_refl).
Defined.

Lemma split_assembles_witness :
  exists rs a', feed_all toy_start toy_end (Split 4 "up-1" (of_string "hello world")) NewStreamAssembler
    = Ret (rs ++ [Ok (Some (of_string "hello world"))], a').
Proof.
  destruct (split_assembles toy_start toy_end 4 "up-1" (of_string "hello world") NewStreamAssembler)
    as (rs & a' & H & _); [discriminate|vm_compute; discriminate|vm_compute; reflexivity|vm_compute; reflexivity|].
  exists rs, a'. exact H.
Defined.
