(* ===== verification/Heartbeat.v ===== *)
(** * Heartbeats and the handshake ([core/application/heartbeat],
      [core/application/handshake/handler.go])

    One loop per worker reads its heartbeats and reports to the lifecycle
    service; the receiver keeps one loop per worker running; the sender pings
    every worker; the handshake handler waits for a worker's first message.
    The service is the class [LifecycleService], an interface in the code
    too. *)
From S2P Require Import Prelude GoStrings Ipc RouteMap Worker Dispatcher.
Local Open Scope string_scope.
Local Open Scope list_scope.
Local Open Scope Z_scope.
Local Open Scope go_scope.

(** [heartbeat.LifecycleService]. *)
Class LifecycleService (S : Type) := {
  RecordHeartbeat : string -> S -> option error * S;
  MarkUnhealthy : string -> S -> option error * S;
  MarkRunning : string -> S -> option error * S;
}.

Record Config := mkConfig {
  Interval : Z;
  ReadTimeout : Z;
  MissedThreshold : Z;
  ConnectGrace : Z;
  RetryInterval : Z;
}.
Definition DefaultConfig : Config :=
  mkConfig (5 * second) (10 * second) 2 (30 * second) (500 * 10 ^ 6).

Definition isNotConnectedError (err : error) : bool :=
  contains (err_text err) "ipc: worker is not connected".

(** The deadline of a [Receive]. *)
Definition readTimeout (cfg : Config) : Z :=
  if ReadTimeout cfg =? 0 then wrap64 (Interval cfg * 2) else ReadTimeout cfg.

(** ** The loop ([loop.go]) *)

Section Loop.
Context {S : Type} `{LifecycleService S}.

(** What a round of the loop meets: whether the context is cancelled at its
    top, what [Receive] returns, whether the context is cancelled then, the
    time since the start, and whether it is cancelled while the loop waits to
    retry. *)
Record Round := mkRound {
  cancelled : bool;
  received : result Message;
  cancelled_on_error : bool;
  elapsed : Z;
  cancelled_in_grace : bool;
}.

Definition in_grace (cfg : Config) (rd : Round) (err : error) : bool :=
  isNotConnectedError err && (elapsed rd <? ConnectGrace cfg).

(** The number of misses, negative when the loop is to end. *)
Definition handleReceiveError (cfg : Config) (workerID : string) (missed : Z) (rd : Round) (err : error)
    (s : S) : Z * S :=
  if cancelled_on_error rd then (-1, s)
  else if in_grace cfg rd err then (if cancelled_in_grace rd then -1 else missed, s)
  else
    let missed := missed +64 1 in
    if MissedThreshold cfg <=? missed then (-1, (MarkUnhealthy workerID s).2) else (missed, s).

(** The branches that only write log lines change nothing. *)
Definition handleMessage (workerID : string) (msg : Message) (s : S) : S :=
  if decide (mtype msg = TypeHandshake) then (MarkRunning workerID s).2
  else if decide (mtype msg = TypeHeartbeat) then (RecordHeartbeat workerID s).2
  else s.

(** [Run] over the rounds to come: [None] when the loop has ended, else the
    misses so far. *)
Fixpoint Run (cfg : Config) (workerID : string) (rounds : list Round) (missed : Z) (s : S)
    : option Z * S :=
  match rounds with
  | [] => (Some missed, s)
  | rd :: rounds' =>
      if cancelled rd then (None, s)
      else
        match received rd with
        | Err err =>
            let '(missed, s) := handleReceiveError cfg workerID missed rd err s in
            if missed <? 0 then (None, s) else Run cfg workerID rounds' missed s
        | Ok msg => Run cfg workerID rounds' 0 (handleMessage workerID msg s)
        end
  end.

(** A missed heartbeat: a failed [Receive], not cancelled and not in the
    grace period of a worker that has yet to connect. *)
Definition missed_round (cfg : Config) (rd : Round) : Prop :=
  cancelled rd = false /\ cancelled_on_error rd = false /\
  exists err, received rd = Err err /\ in_grace cfg rd err = false.

Lemma Run_misses cfg workerID rounds missed s :
  Forall (missed_round cfg) rounds -> 0 <= missed < MissedThreshold cfg -> int64 (MissedThreshold cfg) ->
  Run cfg workerID rounds missed s =
  if decide (missed + Z.of_nat (length rounds) < MissedThreshold cfg)
  then (Some (missed + Z.of_nat (length rounds)), s)
  else (None, (MarkUnhealthy workerID s).2).
Proof.
  intros Hall. revert missed. induction Hall as [|rd rounds (Hc & Hce & err & Hr & Hg) Hall IH];
    intros missed Hm Hi; cbn [Run].
  - rewrite decide_True by (cbn; lia). by rewrite Z.add_0_r.
  - rewrite Hc, Hr. unfold handleReceiveError. rewrite Hce, Hg.
    rewrite wrap64_id by (unfold int64 in *; lia).
    destruct (MissedThreshold cfg <=? missed + 1) eqn:E; bool_to_prop.
    + rewrite decide_False by (cbn [length]; lia). done.
    + rewrite (proj2 (Z.ltb_ge _ _)) by lia. rewrite IH by (done || lia). cbn [length].
      rewrite Nat2Z.inj_succ. replace (missed + 1 + Z.of_nat (length rounds))
        with (missed + Z.succ (Z.of_nat (length rounds))) by lia. done.
Qed.

(** The threshold, exactly.  After any message, a loop counts the heartbeats
    missed in a row from zero: as long as there are fewer than the threshold
    it goes on and tells the service nothing; at the threshold it marks the
    worker unhealthy, once, and ends. *)
Theorem unhealthy_at_threshold (cfg : Config) (workerID : string) (rd : Round) (msg : Message)
    (misses : list Round) (missed : Z) (s : S) :
  cancelled rd = false -> received rd = Ok msg -> Forall (missed_round cfg) misses ->
  0 < MissedThreshold cfg -> int64 (MissedThreshold cfg) ->
  Run cfg workerID (rd :: misses) missed s =
  let s1 := handleMessage workerID msg s in
  if decide (Z.of_nat (length misses) < MissedThreshold cfg)
  then (Some (Z.of_nat (length misses)), s1)
  else (None, (MarkUnhealthy workerID s1).2).
Proof.
  intros Hc Hr Hall Ht Hi. cbn [Run]. rewrite Hc, Hr. by rewrite Run_misses by (done || lia).
Qed.
End Loop.

(** ** The receiver ([receiver.go])

    The loops ever launched: the worker of each, the context it was launched
    under, and whether its own cancel function was called and its goroutine has
    ended; [running] maps a worker to the loop whose cancel function it
    holds.  Contexts end outside the receiver. *)
Record LoopState := mkLoop { of_worker : string; parent : Context; stopped_by : bool; ended : bool }.
#[export] Instance LoopState_eq_dec : EqDecision LoopState.
Proof. solve_decision. Defined.

Record Receiver := mkReceiver {
  running : gmap string nat;
  loops : list LoopState;
}.
Definition NewReceiver : Receiver := mkReceiver ∅ [].

(** [context.WithCancel(ctx)] and the goroutine. *)
Definition launchLocked (ctx : Context) (workerID : string) (r : Receiver) : Receiver :=
  mkReceiver (<[workerID := length (loops r)]> (running r)) (loops r ++ [mkLoop workerID ctx false false]).

Definition cancel_loop (k : nat) (r : Receiver) : Receiver :=
  mkReceiver (running r) (alter (fun l => mkLoop (of_worker l) (parent l) true (ended l)) k (loops r)).
Definition forget (workerID : string) (r : Receiver) : Receiver :=
  mkReceiver (delete workerID (running r)) (loops r).

Definition StartLoop (ctx : Context) (workerID : string) (r : Receiver) : Receiver :=
  match running r !! workerID with
  | Some _ => r
  | None => launchLocked ctx workerID r
  end.

Definition stop_loop (workerID : string) (r : Receiver) : Receiver :=
  match running r !! workerID with
  | Some k => forget workerID (cancel_loop k r)
  | None => r
  end.

Definition RestartLoop (ctx : Context) (workerID : string) (r : Receiver) : Receiver :=
  launchLocked ctx workerID (stop_loop workerID r).

(** [live] in the order of its map, [order] the range order of [running]. *)
Definition reconcile (ctx : Context) (live : result (list string)) (order : list string) (r : Receiver) : Receiver :=
  match live with
  | Err _ => r
  | Ok ids =>
      let r := foldl (fun r id => StartLoop ctx id r) r ids in
      foldl (fun r id => if decide (id ∈ ids) then r else stop_loop id r) r order
  end.

Definition stopAll (order : list string) (r : Receiver) : Receiver :=
  foldl (fun r id => stop_loop id r) r order.

(** The end of the goroutine of a loop, with its deferred [delete]: its context
    is over, or the worker has missed too many heartbeats. *)
Definition loop_ends (k : nat) (r : Receiver) : Receiver :=
  match loops r !! k with
  | None => r
  | Some l =>
      if ended l then r
      else forget (of_worker l)
             (mkReceiver (running r) (<[k := mkLoop (of_worker l) (parent l) (stopped_by l) true]> (loops r)))
  end.

(** A call of the receiver, or the end of a loop. *)
Inductive ReceiverCall :=
  | RStart (ctx : Context) (id : string)
  | RRestart (ctx : Context) (id : string)
  | RReconcile (ctx : Context) (live : result (list string)) (order : list string)
  | RStopAll (order : list string)
  | REnds (k : nat).
Definition receive_call (r : Receiver) (c : ReceiverCall) : Receiver :=
  match c with
  | RStart ctx id => StartLoop ctx id r
  | RRestart ctx id => RestartLoop ctx id r
  | RReconcile ctx live order => reconcile ctx live order r
  | RStopAll order => stopAll order r
  | REnds k => loop_ends k r
  end.
Definition after_calls (cs : list ReceiverCall) (r : Receiver) : Receiver := foldl receive_call r cs.

(** A loop that goes on reading its worker's heartbeats, [over] being the
    contexts that have ended. *)
Definition reads (over : list Context) (id : string) (l : LoopState) : Prop :=
  of_worker l = id /\ parent l ∉ over /\ stopped_by l = false /\ ended l = false.
#[export] Instance reads_dec over id l : Decision (reads over id l).
Proof. unfold reads. apply _. Defined.
Definition reading (over : list Context) (id : string) (r : Receiver) : list LoopState :=
  filter (reads over id) (loops r).

(** *** The receiver's calls in elementary steps

    Every call is made of launches, stops and ends. *)
Definition recorded (r : Receiver) : Prop := forall id k, running r !! id = Some k ->
  exists ctx, loops r !! k = Some (mkLoop id ctx false false).

Section Steps.
Context (P : Receiver -> Prop).
Hypothesis launch_keeps : forall ctx id r, P r -> running r !! id = None -> P (launchLocked ctx id r).
Hypothesis stop_keeps : forall id r, P r -> P (stop_loop id r).
Hypothesis end_keeps : forall k r, P r -> P (loop_ends k r).

Lemma stop_loop_gone id r : running (stop_loop id r) !! id = None.
Proof. unfold stop_loop. destruct (running r !! id) eqn:E; [apply lookup_delete_eq|done]. Qed.

Lemma foldl_keeps {A} (f : Receiver -> A -> Receiver) xs r :
  (forall r x, P r -> P (f r x)) -> P r -> P (foldl f r xs).
Proof. intros Hf. revert r. induction xs as [|x xs IH]; intros r Hr; cbn; auto. Qed.

Lemma StartLoop_keeps ctx id r : P r -> P (StartLoop ctx id r).
Proof. intros Hr. unfold StartLoop. destruct (running r !! id) eqn:E; [done|by apply launch_keeps]. Qed.
Lemma reconcile_keeps ctx live order r : P r -> P (reconcile ctx live order r).
Proof.
  intros Hr. unfold reconcile. destruct live; [|done]. apply foldl_keeps; [intros; case_decide; auto|].
  apply foldl_keeps; [|done]. intros. by apply StartLoop_keeps.
Qed.
Lemma call_keeps r c : P r -> P (receive_call r c).
Proof.
  intros Hr. destruct c as [ctx id|ctx id|ctx live order|order|k]; cbn [receive_call].
  - by apply StartLoop_keeps.
  - apply launch_keeps; [by apply stop_keeps|apply stop_loop_gone].
  - by apply reconcile_keeps.
  - apply foldl_keeps; auto.
  - by apply end_keeps.
Qed.
Lemma calls_keep cs r : P r -> P (after_calls cs r).
Proof. apply foldl_keeps. intros. by apply call_keeps. Qed.
End Steps.

Lemma launch_recorded ctx id r : recorded r -> running r !! id = None -> recorded (launchLocked ctx id r).
Proof.
  intros Hr _ id' k. cbn. intros [[<- <-]|[Hne Hk]]%lookup_insert_Some.
  - exists ctx. by rewrite lookup_app_r, Nat.sub_diag.
  - destruct (Hr _ _ Hk) as [c Hc]. exists c. by apply lookup_app_l_Some.
Qed.
Lemma stop_recorded id r : recorded r -> recorded (stop_loop id r).
Proof.
  intros Hr. unfold stop_loop. destruct (running r !! id) as [j|] eqn:E; [|done].
  intros id' k. cbn. intros [Hne Hk]%lookup_delete_Some. destruct (Hr _ _ Hk) as [c Hc]. exists c. cbn.
  rewrite list_lookup_alter_ne; [done|]. intros ->. destruct (Hr _ _ E) as [c' Hc']. congruence.
Qed.
Lemma end_recorded k r : recorded r -> recorded (loop_ends k r).
Proof.
  intros Hr. unfold loop_ends. destruct (loops r !! k) as [l|] eqn:E; [|done]. destruct (ended l); [done|].
  intros id' j. cbn. intros [Hne Hj]%lookup_delete_Some. destruct (Hr _ _ Hj) as [c Hc]. exists c. cbn.
  rewrite list_lookup_insert_ne; [done|]. intros ->. rewrite E in Hc. injection Hc as ->. done.
Qed.
Lemma calls_recorded cs : recorded (after_calls cs NewReceiver).
Proof.
  apply calls_keep; auto using launch_recorded, stop_recorded, end_recorded.
  intros id k. cbn. by rewrite lookup_empty.
Qed.

(** *** Two loops

    A loop no entry leads to: whatever is called, nobody cancels it. *)
Definition orphaned (k : nat) (l : LoopState) (r : Receiver) : Prop :=
  loops r !! k = Some l /\ forall x, running r !! x <> Some k.

Lemma launch_orphaned k l c x r : orphaned k l r -> orphaned k l (launchLocked c x r).
Proof.
  intros [Hk Hn]. split; cbn; [by apply lookup_app_l_Some|].
  intros y [[<- Hy]|[_ Hy]]%lookup_insert_Some; [|by apply (Hn y)].
  apply lookup_lt_Some in Hk. lia.
Qed.
Lemma stop_orphaned k l x r : orphaned k l r -> orphaned k l (stop_loop x r).
Proof.
  intros [Hk Hn]. unfold stop_loop. destruct (running r !! x) as [j|] eqn:E; [|by split].
  split; cbn; [rewrite list_lookup_alter_ne; [done|]; intros ->; by apply (Hn x)|].
  intros y [_ Hy]%lookup_delete_Some. by apply (Hn y).
Qed.
Lemma end_orphaned k id ctx j r :
  (exists e, orphaned k (mkLoop id ctx false e) r) -> exists e, orphaned k (mkLoop id ctx false e) (loop_ends j r).
Proof.
  intros (e & Hk & Hn). unfold loop_ends. destruct (loops r !! j) as [l|] eqn:E; [|by exists e].
  destruct (ended l); [by exists e|]. exists (if decide (j = k) then true else e).
  split; cbn; [|intros y [_ Hy]%lookup_delete_Some; by apply (Hn y)].
  case_decide as Hjk; [subst j|by rewrite list_lookup_insert_ne].
  rewrite list_lookup_insert_eq by by eapply lookup_lt_Some. rewrite E in Hk. by injection Hk as ->.
Qed.

(** The loop recorded for [id] is a new one under [ctx]. *)
Definition renewed (k : nat) (id : string) (ctx : Context) (r : Receiver) : Prop :=
  exists n, n <> k /\ running r !! id = Some n /\ loops r !! n = Some (mkLoop id ctx false false).

Lemma start_renewed k id ctx x r : renewed k id ctx r -> renewed k id ctx (StartLoop ctx x r).
Proof.
  intros (n & Hn & Hr & Hl). unfold StartLoop. destruct (running r !! x) eqn:E; [by exists n|].
  exists n. split_and!; [done| |cbn; by apply lookup_app_l_Some]. cbn. rewrite lookup_insert_ne; [done|congruence].
Qed.
Lemma starts_renewed k id ctx (ids : list string) r :
  (k < length (loops r))%nat -> (running r !! id = None /\ id ∈ ids) \/ renewed k id ctx r ->
  renewed k id ctx (foldl (fun r x => StartLoop ctx x r) r ids).
Proof.
  revert r. induction ids as [|x ids IH]; intros r Hk [[Hr Hin]|Hr]; cbn [foldl]; [by apply not_elem_of_nil in Hin|done|..].
  - assert (k < length (loops (StartLoop ctx x r)))%nat as Hk'.
    { unfold StartLoop. destruct (running r !! x); [done|]. cbn. rewrite length_app. cbn. lia. }
    apply IH; [done|]. destruct (decide (x = id)) as [->|Hne].
    + right. unfold StartLoop. rewrite Hr. exists (length (loops r)). cbn.
      rewrite lookup_insert_eq, lookup_app_r, Nat.sub_diag by done. split_and!; [lia|done..].
    + left. split; [|set_solver]. unfold StartLoop. destruct (running r !! x); [done|]. cbn. by rewrite lookup_insert_ne.
  - apply IH; [|right; by apply start_renewed]. unfold StartLoop. destruct (running r !! x); [done|].
    cbn. rewrite length_app. cbn. lia.
Qed.

Lemma stops_renewed k id ctx (ids order : list string) r :
  id ∈ ids -> recorded r -> renewed k id ctx r ->
  renewed k id ctx (foldl (fun r x => if decide (x ∈ ids) then r else stop_loop x r) r order).
Proof.
  intros Hin. revert r. induction order as [|x order IH]; intros r Hok Hr; cbn [foldl]; [done|].
  case_decide as Hx; [by apply IH|]. apply IH; [by apply stop_recorded|]. destruct Hr as (n & Hn & Hr & Hl).
  unfold stop_loop. destruct (running r !! x) as [j|] eqn:E; [|by exists n].
  exists n. cbn. rewrite lookup_delete_ne by (intros ->; done). split_and!; [done..|].
  rewrite list_lookup_alter_ne; [done|]. intros ->. destruct (Hok _ _ E) as [c Hc]. rewrite Hl in Hc. injection Hc as ->. done.
Qed.

Lemma reconcile_renewed k id ctx (ids order : list string) r :
  recorded r -> (k < length (loops r))%nat -> running r !! id = None -> id ∈ ids ->
  renewed k id ctx (reconcile ctx (Ok ids) order r).
Proof.
  intros Hok Hk Hr Hin. cbn. apply stops_renewed; [done| |apply starts_renewed; [done|by left]].
  clear Hk Hr Hin. generalize ids as xs. intros xs. revert r Hok.
  induction xs as [|x xs IH]; intros r Hok; cbn [foldl]; [done|]. apply IH.
  unfold StartLoop. destruct (running r !! x) eqn:E; [done|by apply launch_recorded].
Qed.

Lemma insert_alter_same {A} (f : A -> A) (x : A) k (l : list A) : <[k := x]> (alter f k l) = <[k := x]> l.
Proof. revert k. induction l as [|y l IH]; intros [|k]; cbn; [done..|]. by f_equal. Qed.

Lemma filter_two {A} (P : A -> Prop) `{!forall x, Decision (P x)} (l : list A) i j x y :
  i <> j -> l !! i = Some x -> l !! j = Some y -> P x -> P y -> (2 <= length (filter P l))%nat.
Proof.
  revert i j. induction l as [|z l IH]; intros [|i] [|j] Hne Hx Hy HPx HPy; cbn in Hx, Hy; try done; rewrite filter_cons.
  - injection Hx as ->. rewrite decide_True by done. cbn. apply le_n_S.
    assert (y ∈ filter P l) as Hin by (apply list_elem_of_filter; split; [done|by eapply list_elem_of_lookup_2]).
    destruct (filter P l); [by apply not_elem_of_nil in Hin|cbn; lia].
  - injection Hy as ->. rewrite decide_True by done. cbn. apply le_n_S.
    assert (x ∈ filter P l) as Hin by (apply list_elem_of_filter; split; [done|by eapply list_elem_of_lookup_2]).
    destruct (filter P l); [by apply not_elem_of_nil in Hin|cbn; lia].
  - pose proof (IH i j ltac:(congruence) Hx Hy HPx HPy). case_decide; cbn; lia.
Qed.

(** A restart, after which the goroutine of the loop it has cancelled ends. *)
Lemma replaced r ctx id k :
  recorded r -> running r !! id = Some k -> let r1 := loop_ends k (RestartLoop ctx id r) in
  orphaned (length (loops r)) (mkLoop id ctx false false) r1 /\ recorded r1 /\ running r1 !! id = None.
Proof.
  intros Hok Hk r1. destruct (Hok _ _ Hk) as [c Hc]. assert (k < length (loops r))%nat as Hlt by by eapply lookup_lt_Some.
  assert (recorded r1) as Hr1
    by (apply end_recorded, launch_recorded; [by apply stop_recorded|apply stop_loop_gone]).
  assert (r1 = forget id (mkReceiver (<[id := length (loops r)]> (delete id (running r)))
                 (<[k := mkLoop id c true true]> (loops r) ++ [mkLoop id ctx false false]))) as E.
  { unfold r1, RestartLoop, stop_loop. rewrite Hk. unfold launchLocked, loop_ends. cbn.
    rewrite length_alter, lookup_app_l by (by rewrite length_alter).
    rewrite list_lookup_alter_eq, Hc. cbn. unfold forget. cbn.
    by rewrite insert_app_l, insert_alter_same by (by rewrite length_alter). }
  split_and!; [|done|rewrite E; apply lookup_delete_eq]. rewrite E. split; cbn.
  - by rewrite lookup_app_r, length_insert, Nat.sub_diag by (by rewrite length_insert).
  - intros x [Hne Hx]%lookup_delete_Some. rewrite lookup_insert_ne, lookup_delete_ne in Hx by done.
    destruct (Hok _ _ Hx) as [c' Hc']. apply lookup_lt_Some in Hc'. lia.
Qed.

(** C35: Two loops for one worker.  The receiver has come to any state by its calls
    and runs a loop for a live worker.  [RestartLoop] puts a new one in its
    place; when the old one, cancelled, gets to its end, its deferred [delete]
    drops the entry of the new one, and the next [reconcile], which finds no
    entry, starts another.  Both loops read the worker's heartbeats, each
    missing the ones the other gets, as long as the contexts they were launched
    under go on; and whatever calls of the receiver follow - a shutdown, more
    restarts of that worker - none cancels the first of the two: only the end of
    the context given to [RestartLoop] does. *)
Theorem restart_leaves_two_loops (past future : list ReceiverCall) (ctx root : Context) (id : string) (k : nat)
    (ids order : list string) :
  let r := after_calls past NewReceiver in
  running r !! id = Some k -> id ∈ ids ->
  let r' := reconcile root (Ok ids) order (loop_ends k (RestartLoop ctx id r)) in
  exists orphan newer, orphan <> newer /\
    loops r' !! orphan = Some (mkLoop id ctx false false) /\
    loops r' !! newer = Some (mkLoop id root false false) /\ running r' !! id = Some newer /\
    (forall over, ctx ∉ over -> root ∉ over -> (2 <= length (reading over id r'))%nat) /\
    (exists e, loops (after_calls future r') !! orphan = Some (mkLoop id ctx false e)).
Proof.
  intros r Hk Hin. pose proof (calls_recorded past) as Hok. fold r in Hok. clearbody r.
  destruct (replaced r ctx id k Hok Hk) as (Ho & Hr1 & Hn). set (r1 := loop_ends k (RestartLoop ctx id r)) in *.
  intros r'. assert (orphaned (length (loops r)) (mkLoop id ctx false false) r') as Ho'.
  { apply reconcile_keeps; [intros; by apply launch_orphaned|intros; by apply stop_orphaned|done]. }
  destruct (reconcile_renewed (length (loops r)) id root ids order r1 Hr1 (lookup_lt_Some _ _ _ (proj1 Ho)) Hn Hin)
    as (n & Hne & Hrn & Hln). fold r' in Hrn, Hln.
  exists (length (loops r)), n. split_and!; [done|apply Ho'|done|done| |].
  - intros over Hc Hro. unfold reading.
    eapply (filter_two _ _ _ n (mkLoop id ctx false false) (mkLoop id root false false)); [|apply Ho'|exact Hln|done..]. done.
  - enough (exists e, orphaned (length (loops r)) (mkLoop id ctx false e) (after_calls future r')) as (e & He & _)
      by by exists e.
    apply (calls_keep (fun x => exists e, orphaned (length (loops r)) (mkLoop id ctx false e) x)).
    + intros c x y [e He] _. exists e. by apply launch_orphaned.
    + intros x y [e He]. exists e. by apply stop_orphaned.
    + intros j y. apply end_orphaned.
    + by exists false.
Qed.

(** A loop started under a context that is over reads nothing, and its entry
    keeps [StartLoop] from starting another. *)
Lemma restarted_loop_dies r (ctx : Context) (over : list Context) (id : string) :
  recorded r ->
  (forall j l, loops r !! j = Some l -> reads over id l -> running r !! id = Some j) ->
  ctx ∈ over ->
  let r' := RestartLoop ctx id r in
  reading over id r' = [] /\ forall root, StartLoop root id r' = r'.
Proof.
  intros Hok Honly Hc. cbn zeta. split.
  - unfold reading. apply elem_of_nil_inv. intros l [Hl Hin]%list_elem_of_filter.
    apply list_elem_of_lookup_1 in Hin as [j Hj]. unfold RestartLoop, launchLocked in Hj. cbn in Hj.
    apply lookup_app_Some in Hj as [Hj|[_ Hj]].
    + destruct Hl as (Hid & Hp & Hs & He). unfold stop_loop in Hj. destruct (running r !! id) as [k|] eqn:Ek.
      * cbn in Hj. destruct (decide (j = k)) as [->|Hne].
        { rewrite list_lookup_alter_eq in Hj. destruct (loops r !! k); [|done]. cbn in Hj. injection Hj as <-. done. }
        rewrite list_lookup_alter_ne in Hj by done. assert (Some k = Some j) by (eapply Honly; [exact Hj|done]).
        congruence.
      * assert (None = Some j) by (eapply Honly; [exact Hj|done]). congruence.
    + apply list_lookup_singleton_Some in Hj as [_ <-]. destruct Hl as (_ & Hp & _). by apply Hp.
  - intros root. unfold StartLoop, RestartLoop, launchLocked. cbn. by rewrite lookup_insert_eq.
Qed.

(** ** The sender ([sender.go]) *)

Fixpoint send_each {T} `{Dispatcher.Transport T} (msg : Message) (ids : list string) (t : T) : T :=
  match ids with
  | [] => t
  | id :: ids' => send_each msg ids' (Dispatcher.Send id msg t).2
  end.
Definition sendAll {T} `{Dispatcher.Transport T} (ids : result (list string)) (t : T) : T :=
  match ids with
  | Err _ => t
  | Ok ids => send_each (mkMessage TypeHeartbeat []) ids t
  end.

(** ** The handshake ([handler.go]) *)

Record HandshakeCapability := mkCapability { cap_Path : string; cap_Method : string }.
Record HandshakePayload := mkHandshake { hs_WorkerID : string; Capabilities : list HandshakeCapability }.

Section Handshake.
Context {S : Type} `{LifecycleService S}.
(** [json.Unmarshal] into a [HandshakePayload]. *)
Context (unmarshal : bytes -> result HandshakePayload).

(** The look-ups of [validateCapabilities]; their results are only logged.
    Reading the root of a nil route map is a nil dereference. *)
Definition validateCapabilities (routes : option RouteMap) (caps : list HandshakeCapability) : outcome unit :=
  match caps, routes with
  | _ :: _, None => Panic "nil pointer dereference"
  | _, _ => Ret tt
  end.

(** [received] is what [Receive] returns, [ctx_err] the error of the context
    afterwards. *)
Definition Handle (routes : option RouteMap) (workerID : string) (received : result Message)
    (ctx_err : option error) (s : S) : outcome (option error * S) :=
  match received with
  | Err err =>
      Ret (Some match ctx_err with
                | Some e => WrapErr ("handshake: worker " +:+ workerID +:+
                              " did not send handshake within deadline: ") e ""
                | None => WrapErr ("handshake: receive from worker " +:+ workerID +:+ ": ") err ""
                end, s)
  | Ok msg =>
      if decide (mtype msg = TypeHandshake) then
        match unmarshal (Payload msg) with
        | Err err => Ret (Some (WrapErr ("handshake: worker " +:+ workerID +:+ " sent malformed payload: ") err ""), s)
        | Ok payload =>
            _ ← validateCapabilities routes (Capabilities payload);
            let '(err, s) := MarkRunning workerID s in
            Ret (match err with
                 | Some e => Some (WrapErr ("handshake: MarkRunning for worker " +:+ workerID +:+ ": ") e "")
                 | None => None
                 end, s)
        end
      else Ret (Some (NewErr ("handshake: worker " +:+ workerID +:+ " sent unexpected message type " +:+
                        MessageType_String (mtype msg) +:+ " (want handshake)")), s)
  end.

(** When a handshake succeeds.  With a route map, [Handle] returns nil
    exactly when a handshake message came whose payload parses and the service
    marked the worker running; the capabilities make no difference.  Without
    one - the way [main.go] builds the handler - a worker that declares any
    capability makes it panic before the worker is marked. *)
Theorem handshake_outcome (routes : option RouteMap) (workerID : string) (rcv : result Message)
    (ctx_err : option error) (s : S) :
  match Handle routes workerID rcv ctx_err s with
  | Panic _ => exists msg payload, rcv = Ok msg /\ mtype msg = TypeHandshake /\
      unmarshal (Payload msg) = Ok payload /\ routes = None /\ Capabilities payload <> []
  | Ret (None, s') => exists msg payload, rcv = Ok msg /\ mtype msg = TypeHandshake /\
      unmarshal (Payload msg) = Ok payload /\ MarkRunning workerID s = (None, s') /\
      (routes = None -> Capabilities payload = [])
  | Ret (Some _, s') => s' = s \/ exists e, MarkRunning workerID s = (Some e, s')
  end.
Proof.
  unfold Handle. destruct rcv as [msg|err]; [|by left]. case_decide as Hty; [|by left].
  destruct (unmarshal (Payload msg)) as [payload|err] eqn:Hu; [|by left].
  destruct (Capabilities payload) as [|c caps] eqn:Hcaps; [|destruct routes as [rm|]]; cbn;
    [destruct (MarkRunning workerID s) as [[e|] s'] eqn:Hm..|]; try (right; by eexists);
    exists msg, payload; split_and!; try done; by rewrite Hcaps.
Qed.
End Handshake.

(** ** Witnesses *)

(** A service that counts what it hears. *)
Definition Reports := list (string * string).
#[export] Instance counting : LifecycleService Reports := {
  RecordHeartbeat id l := (None, l ++ [("heartbeat", id)]);
  MarkUnhealthy id l := (None, l ++ [("unhealthy", id)]);
  MarkRunning id l := (None, l ++ [("running", id)]);
}.
Definition beat_round : Round := mkRound false (Ok (mkMessage TypeHeartbeat [])) false 0 false.
Definition lost_round : Round := mkRound false (Err (NewErr "EOF")) false (60 * second) false.

Lemma unhealthy_at_threshold_witness :
  Run DefaultConfig "w" [beat_round; lost_round] 1 [] = (Some 1, [("heartbeat", "w")]) /\
  Run DefaultConfig "w" [beat_round; lost_round; lost_round] 1 []
  = (None, [("heartbeat", "w"); ("unhealthy", "w")]).
Proof.
  assert (missed_round DefaultConfig lost_round) as Hl.
  { split; [reflexivity|split; [reflexivity|]]. eexists. split; reflexivity. }
  split.
  - etransitivity; [apply (unhealthy_at_threshold DefaultConfig "w" beat_round (mkMessage TypeHeartbeat [])
      [lost_round]); [reflexivity|reflexivity|constructor; [exact Hl|constructor]|reflexivity|by_compute]|].
    vm_compute. reflexivity.
  - etransitivity; [apply (unhealthy_at_threshold DefaultConfig "w" beat_round (mkMessage TypeHeartbeat [])
      [lost_round; lost_round]); [reflexivity|reflexivity|constructor; [exact Hl|constructor; [exact Hl|constructor]]
      |reflexivity|by_compute]|].
    vm_compute. reflexivity.
Defined.

(** The loop started by [main.go] under the root context 0; a restart under 1. *)
Lemma restart_leaves_two_loops_witness :
  let r := reconcile 0%nat (Ok ["w"]) ["w"] (loop_ends 0 (RestartLoop 1%nat "w" (StartLoop 0%nat "w" NewReceiver))) in
  (2 <= length (reading [] "w" r))%nat /\
  exists e, In (mkLoop "w" 1%nat false e) (loops (stopAll ["w"] (RestartLoop 2%nat "w" r))).
Proof.
  destruct (restart_leaves_two_loops [RStart 0%nat "w"] [RRestart 2%nat "w"; RStopAll ["w"]] 1%nat 0%nat "w" 0 ["w"] ["w"])
    as (orphan & newer & _ & _ & _ & _ & Hn & e & He); [reflexivity|by left|].
  split; [apply (Hn []); by apply not_elem_of_nil|]. exists e. apply list_elem_of_In. by eapply list_elem_of_lookup_2.
Defined.
