(* ===== verification/Monitor.v ===== *)
(** * The health monitor ([core/application/monitor/monitor.go])

    Every interval the monitor looks at the workers and schedules a restart,
    after a backoff, for each whose last heartbeat is too old.  The last part
    puts it together with the heartbeat loop and the lifecycle service: what
    becomes of a worker whose process has died. *)
From S2P Require Import Prelude GoStrings Ipc Worker Pool PoolManager Drainer Runtime Lifecycle Heartbeat.
Local Open Scope string_scope.
Local Open Scope list_scope.
Local Open Scope Z_scope.
Local Open Scope go_scope.

Definition defaultHeartbeatInterval : Z := 5 * second.
Definition backoffBase : Z := 1 * second.
Definition backoffMax : Z := 30 * second.
Definition backoffMapMaxSize : nat := 1000.

(** [waiting] are the goroutines of [scheduleRestart] that sleep, by worker. *)
Record Monitor := mkMonitor {
  interval : Z;
  backoffs : gmap string Z;
  backoffOrder : list string;
  waiting : list string;
}.
Definition NewMonitor : Monitor := mkMonitor defaultHeartbeatInterval ∅ [] [].

Definition attempts (id : string) (m : Monitor) : Z := default 0 (backoffs m !! id).

(** *** Backoff

    [1e9 * 2^n] is exact in a [float64]; [out_of_range] is what the conversion
    of a [float64] beyond [int64] gives, which Go leaves to the
    implementation: the least [int64] on amd64, the greatest on arm64. *)
Definition float_backoff (out_of_range n : Z) : Z :=
  let d := backoffBase * 2 ^ n in if d <? 2 ^ 63 then d else out_of_range.
Definition nextBackoff (out_of_range : Z) (id : string) (m : Monitor) : Z :=
  let duration := float_backoff out_of_range (attempts id m) in
  if backoffMax <? duration then backoffMax else duration.

Definition set_backoffs (b : gmap string Z) (o : list string) (m : Monitor) : Monitor :=
  mkMonitor (interval m) b o (waiting m).
Definition set_waiting (ws : list string) (m : Monitor) : Monitor :=
  mkMonitor (interval m) (backoffs m) (backoffOrder m) ws.

(** The eviction of the oldest entry. *)
Definition evict (m : Monitor) : Monitor :=
  if (backoffMapMaxSize <=? size (backoffs m))%nat then
    match backoffOrder m with
    | [] => m
    | oldest :: o => set_backoffs (delete oldest (backoffs m)) o m
    end
  else m.
Definition addBackoffEntry (id : string) (m : Monitor) : Monitor :=
  let m := match backoffs m !! id with
           | Some _ => m
           | None => let m := evict m in set_backoffs (backoffs m) (backoffOrder m ++ [id]) m
           end in
  set_backoffs (<[id := attempts id m +64 1]> (backoffs m)) (backoffOrder m) m.

Fixpoint remove_id (id : string) (o : list string) : list string :=
  match o with
  | [] => []
  | v :: o' => if String.eqb v id then o' else v :: remove_id id o'
  end.
Definition removeBackoffEntry (id : string) (m : Monitor) : Monitor :=
  set_backoffs (delete id (backoffs m)) (remove_id id (backoffOrder m)) m.

(** The table and its order list each worker once, and no more of them than
    the limit. *)
Record backoff_ok (m : Monitor) : Prop := {
  bo_nodup : NoDup (backoffOrder m);
  bo_keys : forall id, id ∈ backoffOrder m <-> is_Some (backoffs m !! id);
  bo_size : (size (backoffs m) <= backoffMapMaxSize)%nat;
}.

Lemma remove_id_spec id o : NoDup o -> NoDup (remove_id id o) /\ forall x, x ∈ remove_id id o <-> x ∈ o /\ x <> id.
Proof.
  induction 1 as [|v o Hv Hnd [IHn IHi]]; cbn [remove_id]; [split; [constructor|set_solver]|].
  destruct (String.eqb_spec v id) as [->|Hne].
  - split; [done|]. set_solver.
  - split; [constructor; [rewrite IHi; naive_solver|done]|]. set_solver.
Qed.

Lemma evict_ok m id : backoff_ok m -> backoffs m !! id = None ->
  backoff_ok (evict m) /\ backoffs (evict m) !! id = None /\ (size (backoffs (evict m)) < backoffMapMaxSize)%nat.
Proof.
  intros [Hn Hk Hs] Hid. unfold evict. destruct (_ <=? _)%nat eqn:E.
  - apply Nat.leb_le in E. destruct (backoffOrder m) as [|oldest o] eqn:Eo.
    + assert (backoffs m = ∅) as Hem.
      { apply map_empty. intros x. destruct (backoffs m !! x) eqn:Ex; [|done].
        assert (x ∈ ([] : list string)) as Hx by (rewrite Hk; by eexists). by apply not_elem_of_nil in Hx. }
      rewrite Hem, map_size_empty in E. unfold backoffMapMaxSize in E. lia.
    + apply NoDup_cons in Hn as [Ho Hn]. assert (is_Some (backoffs m !! oldest)) as Hold by (apply Hk; set_solver).
      assert (size (delete oldest (backoffs m)) = pred (size (backoffs m))) as Hsz.
      { rewrite map_size_delete. by destruct Hold as [x ->]. }
      assert (size (backoffs m) <> 0%nat) by (intros H0; rewrite H0 in E; unfold backoffMapMaxSize in E; lia).
      split_and!; cbn.
      * split; cbn; [done| |lia]. intros x. destruct (decide (x = oldest)) as [->|Hne].
        -- rewrite lookup_delete_eq. split; [done|]. by intros [? ?].
        -- rewrite lookup_delete_ne by done. rewrite <-Hk. set_solver.
      * destruct (decide (id = oldest)) as [->|]; [by rewrite lookup_delete_eq|by rewrite lookup_delete_ne].
      * lia.
  - apply Nat.leb_gt in E. by split_and!.
Qed.

Lemma addBackoffEntry_ok id m : backoff_ok m -> backoff_ok (addBackoffEntry id m).
Proof.
  intros Hm. unfold addBackoffEntry. destruct (backoffs m !! id) as [n|] eqn:E.
  - destruct Hm as [Hn Hk Hs]. split; cbn; [done| |].
    + intros x. rewrite Hk. destruct (decide (x = id)) as [->|]; [|by rewrite lookup_insert_ne].
      rewrite lookup_insert_eq, E. split; eauto.
    + by rewrite map_size_insert, E.
  - destruct (evict_ok m id Hm E) as ([Hn Hk Hs] & Hid & Hlt). split; cbn.
    + apply NoDup_snoc; [done|]. rewrite Hk, Hid. by intros [? ?].
    + intros x. rewrite elem_of_app, list_elem_of_singleton, Hk.
      destruct (decide (x = id)) as [->|Hne]; [rewrite lookup_insert_eq|rewrite lookup_insert_ne by done].
      * split; eauto.
      * naive_solver.
    + rewrite map_size_insert, Hid. lia.
Qed.

Lemma removeBackoffEntry_ok id m : backoff_ok m -> backoff_ok (removeBackoffEntry id m).
Proof.
  intros [Hn Hk Hs]. destruct (remove_id_spec id _ Hn) as [Hn' Hi]. split; cbn; [done| |].
  - intros x. rewrite Hi, Hk. destruct (decide (x = id)) as [->|Hne].
    + rewrite lookup_delete_eq. split; [by intros [_ ?]|by intros [? ?]].
    + rewrite lookup_delete_ne by done. naive_solver.
  - rewrite map_size_delete. etrans; [|exact Hs]. destruct (backoffs m !! id); cbn; lia.
Qed.

(** The backoff table under any sequence of failures and successes: it and its
    order list hold the same workers, each once, and never more than the
    limit. *)
Inductive BackoffOp := BFailed (id : string) | BRestarted (id : string).
Definition backoff_step (m : Monitor) (op : BackoffOp) : Monitor :=
  match op with BFailed id => addBackoffEntry id m | BRestarted id => removeBackoffEntry id m end.
Theorem backoff_table_bounded (ops : list BackoffOp) : backoff_ok (run backoff_step ops NewMonitor).
Proof.
  apply run_invariant.
  - intros m [id|id]; [apply addBackoffEntry_ok|apply removeBackoffEntry_ok].
  - split; cbn; [apply NoDup_nil_2| |rewrite map_size_empty; lia].
    intros id. rewrite lookup_empty. split; [by intros ?%not_elem_of_nil|by intros [? ?]].
Qed.

(** The delay a worker is restarted with after [n] failed restarts: 1, 2, 4,
    8, 16 and then 30 seconds, up to the 33rd; from the 34th on the product
    does not fit in an [int64], and on amd64 the delay is negative, so the
    worker is restarted at once. *)
Theorem backoff_delays (out_of_range n : Z) (id : string) (m : Monitor) :
  attempts id m = n -> 0 <= n ->
  nextBackoff out_of_range id m =
  if n <=? 4 then 2 ^ n * second
  else if n <=? 33 then 30 * second
  else Z.min out_of_range (30 * second).
Proof.
  intros Hn H0. unfold nextBackoff, float_backoff, backoffBase, backoffMax, second. rewrite Hn.
  assert (forall k, 0 <= k -> k <= n -> 2 ^ k <= 2 ^ n) as Hmono by (intros; apply Z.pow_le_mono_r; lia).
  assert (forall k, n <= k -> 2 ^ n <= 2 ^ k) as Hmono' by (intros; apply Z.pow_le_mono_r; lia).
  change (10 ^ 9) with 1000000000. change (2 ^ 63) with 9223372036854775808.
  destruct (n <=? 4) eqn:E4; [|destruct (n <=? 33) eqn:E33]; bool_to_prop.
  - specialize (Hmono' 4 E4). change (2 ^ 4) with 16 in Hmono'.
    rewrite (proj2 (Z.ltb_lt _ 9223372036854775808)) by lia.
    rewrite (proj2 (Z.ltb_ge _ (1 * 1000000000 * 2 ^ n))) by lia. lia.
  - specialize (Hmono' 33 E33). specialize (Hmono 5 ltac:(lia) ltac:(lia)).
    change (2 ^ 33) with 8589934592 in Hmono'. change (2 ^ 5) with 32 in Hmono.
    rewrite (proj2 (Z.ltb_lt _ 9223372036854775808)) by lia.
    by rewrite (proj2 (Z.ltb_lt _ (1 * 1000000000 * 2 ^ n))) by lia.
  - specialize (Hmono 34 ltac:(lia) ltac:(lia)). change (2 ^ 34) with 17179869184 in Hmono.
    rewrite (proj2 (Z.ltb_ge _ 9223372036854775808)) by lia. case_if; bool_to_prop; lia.
Qed.

(** ** Looking at the workers *)

Section Checking.
Context {M T C I : Type} `{WorkerManager M} `{Endpoints T} `{ReceiverStarter C} `{Installer I}.
Implicit Types (s : Service M T C I).

(** The zero [time.Time] is 0. *)
Definition overdue (iv now : Z) (w : Worker) : bool :=
  String.eqb (wstate w) StateRunning && negb (LastHeartbeat w =? 0)
  && (LastHeartbeat w <? now + wrap64 (wrap64 (- iv) * 2)).

(** The loop of [checkAll] over the copies of [FindAll]: the workers to
    restart.  [now i] is the clock for the [i]-th of them. *)
Fixpoint check_each (iv : Z) (now : nat -> Z) (clk : nat -> nat -> Z) (i : nat) (ws : list loc) s
    : list string * Service M T C I :=
  match ws with
  | [] => ([], s)
  | q :: ws' =>
      let w := deref (hp s) q in
      if overdue iv (now i) w then
        let s := (Lifecycle.MarkUnhealthy (clk i) (ID w) s).2 in
        let '(ids, s) := check_each iv now clk (S i) ws' s in (ID w :: ids, s)
      else check_each iv now clk (S i) ws' s
  end.

Definition checkAll (now : nat -> Z) (clk : nat -> nat -> Z) (order : list string) (m : Monitor) s
    : Monitor * Service M T C I :=
  let '(ws, hr) := Repository.FindAll order (hp s, repo s) in
  let '(ids, s) := check_each (interval m) now clk 0 ws (with_store hr s) in
  (set_waiting (waiting m ++ ids) m, s).

(** The end of [scheduleRestart], when its delay has passed; [ctx] is the
    context of [Run]. *)
Definition restart_due (ctx : Context) (clk : nat -> Z) (during : list DrainEvent) (id : string) (m : Monitor) s
    : outcome (Monitor * Service M T C I) :=
  '(err, s) ← RestartWorker ctx clk during id s;
  Ret (if err is Some _ then addBackoffEntry id m else removeBackoffEntry id m, s).

Inductive MStep :=
  | MCheck (now : nat -> Z) (clk : nat -> nat -> Z) (order : list string)
  | MRestart (ctx : Context) (clk : nat -> Z) (during : list DrainEvent) (k : nat).

Definition mstep (e : MStep) (m : Monitor) s : outcome (Monitor * Service M T C I) :=
  match e with
  | MCheck now clk order => Ret (checkAll now clk order m s)
  | MRestart ctx clk during k =>
      match waiting m !! k with
      | None => Ret (m, s)
      | Some id => restart_due ctx clk during id (set_waiting (delete k (waiting m)) m) s
      end
  end.
Fixpoint msteps (es : list MStep) (m : Monitor) s : outcome (Monitor * Service M T C I) :=
  match es with
  | [] => Ret (m, s)
  | e :: es' => '(m, s) ← mstep e m s; msteps es' m s
  end.

(** ** A worker that is not running is left alone *)

Definition down (id : string) (w : Worker) (m : Monitor) s : Prop :=
  stored s /\ view s !! id = Some w /\ wstate w <> StateRunning /\ id ∉ waiting m.

(** The copies of [checkAll]: none of them is a running worker called [id]. *)
Definition no_running (id : string) (ws : list loc) s : Prop :=
  Forall (fun q => exists w, holds q w s /\ (ID w = id -> wstate w <> StateRunning)) ws.

Lemma no_running_kept id ws s s' :
  (forall q w, holds q w s -> holds q w s') -> no_running id ws s -> no_running id ws s'.
Proof. intros Hk Hws. eapply Forall_impl; [exact Hws|]. intros q (w & Hw & ?). eauto. Qed.

Lemma check_each_down iv now clk i ws s id :
  stored s -> no_running id ws s ->
  let '(ids, s') := check_each iv now clk i ws s in
  stored s' /\ view s' !! id = view s !! id /\ id ∉ ids.
Proof.
  intros Hs Hws. revert i s Hs Hws. induction ws as [|q ws IH]; intros i s Hs Hws; cbn [check_each].
  { split_and!; [done|done|apply not_elem_of_nil]. }
  apply Forall_cons in Hws as [(w & Hq & Hw) Hws]. rewrite (held_value _ _ _ Hq).
  destruct (overdue iv (now i) w) eqn:Eo; [|by apply IH].
  assert (ID w <> id) as Hne.
  { intros Hid. apply (Hw Hid). unfold overdue in Eo. by bool_to_prop. }
  destruct (MarkUnhealthy_spec (clk i) (ID w) s Hs) as (Hs1 & Hk & Hv).
  specialize (IH (S i) _ Hs1 (no_running_kept _ _ _ _ Hk Hws)).
  destruct (check_each _ _ _ _ ws _) as [ids s']. destruct IH as (Hs' & Hv' & Hin).
  split_and!; [done| |].
  - rewrite Hv', Hv. destruct (view s !! ID w); [by rewrite lookup_insert_ne|done].
  - apply not_elem_of_cons. split; [done|exact Hin].
Qed.

Lemma checkAll_down now clk order id w m s :
  down id w m s -> let '(m', s') := checkAll now clk order m s in down id w m' s'.
Proof.
  intros (Hs & Hv & Hr & Hw). unfold checkAll. pose proof (FindAll_spec order s Hs) as Hf.
  destruct (Repository.FindAll _ _) as [ws hr]. destruct Hf as [Hq Hall].
  assert (stored (with_store hr s)) as Hs1 by by eapply quiet_stored.
  pose proof (check_each_down (interval m) now clk 0 ws (with_store hr s) id Hs1) as Hc.
  destruct (check_each _ _ _ _ _ _) as [ids s']. destruct Hc as (Hs' & Hv' & Hin).
  { eapply Forall2_Forall_r; [exact Hall|]. apply Forall_forall. intros x _ q (v & Hx & Hh).
    exists v. split; [done|]. intros Hid. pose proof (stored_ID _ _ _ Hs Hx). congruence. }
  split_and!; [done| |done|].
  - by rewrite Hv', (quiet_view _ _ Hq Hs).
  - cbn. rewrite elem_of_app. tauto.
Qed.

Lemma waiting_add id m : waiting (addBackoffEntry id m) = waiting m.
Proof.
  unfold addBackoffEntry, evict. destruct (backoffs m !! id); [done|].
  case_if; [|done]. by destruct (backoffOrder m).
Qed.

Lemma mstep_down e id w m s m' s' : down id w m s -> mstep e m s = Ret (m', s') -> down id w m' s'.
Proof.
  intros Hd. destruct e as [now clk order|ctx clk during k]; cbn [mstep].
  - pose proof (checkAll_down now clk order id w m s Hd) as Hc.
    destruct (checkAll _ _ _ _ _). by intros [= <- <-].
  - destruct Hd as (Hs & Hv & Hr & Hw). destruct (waiting m !! k) as [x|] eqn:Ek; [|by intros [= <- <-]].
    assert (x <> id) as Hx by (intros ->; by apply Hw, list_elem_of_lookup_2 with k).
    unfold restart_due. destruct (RestartWorker ctx clk during x s) as [[err s1]|] eqn:E; [|done].
    cbn. intros [= <- <-]. destruct (RestartWorker_elsewhere ctx clk during x s err s1 id Hs ltac:(done) E) as [Hs1 Hv1].
    split_and!; [done|congruence|done|].
    assert (id ∉ delete k (waiting m)) as Hdel.
    { intros Hin. apply Hw. by eapply elem_of_submseteq; [|eapply sublist_submseteq, sublist_delete]. }
    destruct err; [by rewrite waiting_add|done].
Qed.

Lemma msteps_down es id w m s m' s' : down id w m s -> msteps es m s = Ret (m', s') -> down id w m' s'.
Proof.
  revert m s. induction es as [|e es IH]; intros m s Hd; cbn [msteps]; [by intros [= <- <-]|].
  destruct (mstep e m s) as [[m1 s1]|] eqn:E; [|done]. cbn. apply IH. by eapply mstep_down.
Qed.

(** ** A worker that crashes *)

(** The reports of a heartbeat loop to the service; every report reads the
    clock anew. *)
#[export] Instance service_reports : LifecycleService ((nat -> nat -> Z) * Service M T C I) := {
  Heartbeat.RecordHeartbeat id cs :=
    let '(e, s) := Lifecycle.RecordHeartbeat (cs.1 0%nat) id cs.2 in (e, ((fun i => cs.1 (S i)), s));
  Heartbeat.MarkUnhealthy id cs :=
    let '(e, s) := Lifecycle.MarkUnhealthy (cs.1 0%nat) id cs.2 in (e, ((fun i => cs.1 (S i)), s));
  Heartbeat.MarkRunning id cs :=
    let '(e, s) := Lifecycle.MarkRunning (cs.1 0%nat) id cs.2 in (e, ((fun i => cs.1 (S i)), s));
}.

(** C14: A crashed worker is never restarted.  When a worker's process dies its
    connection fails, so the next reads of the heartbeat loop fail at once:
    the loop marks the worker unhealthy and ends.  From then on the monitor
    skips it, whose checks only look at workers in state "running": in any
    sequence of checks and of the restarts they scheduled for other workers,
    at any times, no restart of this worker is ever scheduled and it stays
    unhealthy. *)
Theorem crashed_worker_never_restarted (cfg : Config) (id : string) (failures : list Round)
    (clk : nat -> nat -> Z) (es : list MStep) (m m' : Monitor) s s' :
  stored s -> is_Some (view s !! id) -> id ∉ waiting m ->
  Forall (missed_round cfg) failures -> 0 < MissedThreshold cfg <= Z.of_nat (length failures) ->
  int64 (MissedThreshold cfg) ->
  let '(missed, (_, s1)) := Run cfg id failures 0 (clk, s) in
  msteps es m s1 = Ret (m', s') ->
  missed = None /\ id ∉ waiting m' /\ wstate <$> view s' !! id = Some StateUnhealthy.
Proof.
  intros Hs [w Hv] Hw Hall Hth Hi. rewrite Run_misses by (done || lia).
  rewrite decide_False by lia. cbn [Heartbeat.MarkUnhealthy service_reports fst snd].
  destruct (MarkUnhealthy_spec (clk 0%nat) id s Hs) as (Hs1 & _ & Hv1). rewrite Hv in Hv1.
  destruct (Lifecycle.MarkUnhealthy (clk 0%nat) id s) as [e s1]. cbn [snd] in *. intros Hms.
  assert (down id (set_UpdatedAt (clk 0%nat 0%nat) (set_State StateUnhealthy w)) m s1) as Hd.
  { split_and!; [done|by rewrite Hv1, lookup_insert_eq|done|done]. }
  destruct (msteps_down _ _ _ _ _ _ _ Hd Hms) as (_ & Hv' & _ & Hw').
  split_and!; [done|done|]. by rewrite Hv'.
Qed.
End Checking.

(** ** A crash, step by step

    Worker "a" of the demo service is running; its connection breaks; an hour
    of checks follows. *)
Definition broken_pipe : Round :=
  mkRound false (Err (WrapErr "framing: read header: " EOF "")) false (60 * second) false.
Definition hourly : list MStep :=
  (fun k => MCheck (fun _ => k * 60 * second) (fun _ => tick (k * 60 * second)) ["a"; "broken"; "b"])
    <$> [1; 2; 3; 60].

Lemma crashed_worker_never_restarted_witness :
  exists s m' s', demo_run = Ret s /\
    msteps hourly NewMonitor (Run DefaultConfig "a" [broken_pipe; broken_pipe] 0 (fun _ => tick 50, s)).2.2
      = Ret (m', s') /\
    "a" ∉ waiting m' /\ wstate <$> view s' !! "a" = Some StateUnhealthy.
Proof.
  destruct demo_run as [s|] eqn:E; [|vm_compute in E; discriminate E].
  assert (stored s) as Hs by (apply (calls_consistent skip_runtime demo_calls demo_service s); [reflexivity..|exact E]).
  assert (bool_decide (is_Some (view s !! "a")) = true) as Hv.
  { vm_compute in E. injection E as <-. vm_compute. reflexivity. }
  apply bool_decide_eq_true in Hv.
  pose proof (fun m' s' => crashed_worker_never_restarted DefaultConfig "a" [broken_pipe; broken_pipe]
    (fun _ => tick 50) hourly NewMonitor m' s s') as Hc.
  destruct (msteps hourly NewMonitor (Run DefaultConfig "a" [broken_pipe; broken_pipe] 0 (fun _ => tick 50, s)).2.2)
    as [[m' s']|] eqn:Em.
  - specialize (Hc m' s' Hs Hv). exists s, m', s'. split; [reflexivity|].
    destruct (Run _ _ _ _ _) as [missed [clk s1]]. cbn [snd] in *. split; [exact Em|].
    destruct Hc as (_ & Hw & Hst); [by_compute| |by_compute|by_compute|exact Em|by split].
    assert (missed_round DefaultConfig broken_pipe) as Hb.
    { split; [reflexivity|split; [reflexivity|]]. eexists. split; [reflexivity|vm_compute; reflexivity]. }
    constructor; [exact Hb|constructor; [exact Hb|constructor]].
  - vm_compute in E. injection E as <-. vm_compute in Em. discriminate Em.
Defined.

Lemma backoff_delays_witness :
  let m := set_backoffs {["a" := 34]} ["a"] NewMonitor in
  attempts "a" m = 34 /\ nextBackoff (- 2 ^ 63) "a" m = - 2 ^ 63.
Proof.
  split; [reflexivity|]. rewrite (backoff_delays (- 2 ^ 63) 34 "a"); [reflexivity|reflexivity|discriminate].
Defined.
