(* ===== verification/Config.v ===== *)
(** * Configuration and its reload ([core/domain/config/config.go],
      [core/infrastructure/config/loader.go])

    The schema of vyx.yaml with its defaults and its validation, and the
    loader that rereads the file and the route table on SIGHUP.  Reading files,
    YAML and JSON are parameters. *)
From S2P Require Import Prelude GoStrings Ipc RouteMap Pool PoolManager.
Local Open Scope string_scope.
Local Open Scope list_scope.
Local Open Scope Z_scope.

(** ** The schema *)

Record ProjectConfig := mkProject { Name : string; Version : string }.

Record WorkerConfig := mkWorkerConfig {
  wc_ID : string;
  wc_Command : string;
  wc_WorkingDir : string;
  wc_RuntimeVersion : string;
  wc_Replicas : Z;
  wc_Strategy : string;
  wc_PoolSize : Z;
  wc_StartupTimeout : Z;
  wc_ShutdownTimeout : Z;
}.

Record RateLimitConfig := mkRateLimit { PerIP : Z; PerToken : Z }.
Record CircuitBreakerConfig := mkCircuitBreaker { cb_Failures : Z; cb_Cooldown : Z; cb_HalfOpenMax : Z }.

Record SecurityConfig := mkSecurity {
  JWTSecretEnv : string;
  RateLimit : RateLimitConfig;
  CircuitBreaker : CircuitBreakerConfig;
  PayloadMaxSize : string;
  GlobalTimeout : Z;
}.

Record IPCConfig := mkIPC { SocketDir : string; ArrowThreshold : string }.
Record BuildConfig := mkBuild { SchemasDir : string; RouteMapOutput : string }.

Record Config := mkConfig {
  Project : ProjectConfig;
  Workers : list WorkerConfig;
  Security : SecurityConfig;
  IPC : IPCConfig;
  Build : BuildConfig;
}.

Definition Defaults : Config :=
  mkConfig (mkProject "" "0.2.0") []
    (mkSecurity "JWT_SECRET" (mkRateLimit 100 500) (mkCircuitBreaker 5 (30 * second) 3) "1mb" (30 * second))
    (mkIPC "/tmp/vyx" "512kb")
    (mkBuild "./schemas" "./route_map.json").

(** ** Validation *)

(** [errors.Join] of at least one error, as the text it prints. *)
Definition newline : string := String "010" "".
Definition Join (errs : list error) : option error :=
  match errs with
  | [] => None
  | _ => Some (NewErr (join newline (err_text <$> errs)))
  end.

Definition problem (b : bool) (text : string) : list error := if b then [NewErr text] else [].

Section Validation.
(** The verb [%q]. *)
Context (Quote : string -> string).

Definition worker_problem (idx : nat) (text : string) : string :=
  "workers[" +:+ itoa (Z.of_nat idx) +:+ "]." +:+ text.
Definition with_id (w : WorkerConfig) (text : string) : string :=
  text +:+ " (id: " +:+ Quote (wc_ID w) +:+ ")".

Definition validateWorker (w : WorkerConfig) (idx : nat) : option error :=
  Join (problem (String.eqb (wc_ID w) "") (worker_problem idx "id is required")
    ++ problem (String.eqb (wc_Command w) "") (worker_problem idx (with_id w "command is required"))
    ++ problem (wc_Replicas w <? 0) (worker_problem idx (with_id w "replicas must be >= 0"))
    ++ problem (wc_PoolSize w <? 0) (worker_problem idx (with_id w "pool_size must be >= 0"))
    ++ problem (negb (bool_decide (wc_Strategy w ∈ ["round-robin"; "least-loaded"; ""])))
         (worker_problem idx (with_id w ("strategy " +:+ Quote (wc_Strategy w) +:+ " is invalid; use "
            +:+ String "034" ("round-robin" +:+ String "034" (" or " +:+ String "034"
                ("least-loaded" +:+ String "034" ""))))))
    ++ problem (wc_ShutdownTimeout w <? 0) (worker_problem idx (with_id w "shutdown_timeout must be >= 0"))).

Definition validateProject (c : Config) : option error :=
  if String.eqb (Name (Project c)) "" then Some (NewErr "project.name is required") else None.

Definition validateSecurity (c : Config) : option error :=
  let cb := CircuitBreaker (Security c) in
  Join (problem (cb_Failures cb <? 0) "security.circuit_breaker.failures must be >= 0"
    ++ problem (cb_Cooldown cb <? 0) "security.circuit_breaker.cooldown must be >= 0"
    ++ problem (cb_HalfOpenMax cb <? 0) "security.circuit_breaker.half_open_max must be >= 0").

Definition errs_of (o : option error) : list error := match o with Some e => [e] | None => [] end.

Definition Validate (c : Config) : option error :=
  Join (errs_of (validateProject c)
    ++ concat (imap (fun i w => errs_of (validateWorker w i)) (Workers c))
    ++ errs_of (validateSecurity c)).

(** What a validated configuration satisfies. *)
Record worker_ok (w : WorkerConfig) : Prop := {
  wo_id : wc_ID w <> "";
  wo_command : wc_Command w <> "";
  wo_replicas : 0 <= wc_Replicas w;
  wo_pool : 0 <= wc_PoolSize w;
  wo_strategy : wc_Strategy w ∈ ["round-robin"; "least-loaded"; ""];
  wo_shutdown : 0 <= wc_ShutdownTimeout w;
}.
Record config_ok (c : Config) : Prop := {
  co_name : Name (Project c) <> "";
  co_workers : Forall worker_ok (Workers c);
  co_failures : 0 <= cb_Failures (CircuitBreaker (Security c));
  co_cooldown : 0 <= cb_Cooldown (CircuitBreaker (Security c));
  co_halfopen : 0 <= cb_HalfOpenMax (CircuitBreaker (Security c));
}.

Lemma Join_none errs : Join errs = None <-> errs = [].
Proof. by destruct errs. Qed.
Lemma problem_nil b text : problem b text = [] <-> b = false.
Proof. by destruct b. Qed.
Lemma errs_of_nil o : errs_of o = [] <-> o = None.
Proof. by destruct o. Qed.

Lemma validateWorker_ok w idx : validateWorker w idx = None <-> worker_ok w.
Proof.
  unfold validateWorker. rewrite Join_none, !app_nil, !problem_nil, negb_false_iff, bool_decide_eq_true,
    !Z.ltb_ge, !String.eqb_neq.
  split; [intros (? & ? & ? & ? & ? & ?); by split|by intros []].
Qed.

Lemma imap_concat_nil {A B} (f : nat -> A -> list B) (l : list A) :
  concat (imap f l) = [] <-> forall i x, l !! i = Some x -> f i x = [].
Proof.
  revert f. induction l as [|y l IH]; intros f; cbn; [by split|].
  rewrite app_nil, IH. split.
  - intros [Hy Hl] [|i] x; cbn; [by intros [= <-]|apply (Hl i)].
  - intros Hall. split; [by apply (Hall 0%nat)|]. intros i x. apply (Hall (S i)).
Qed.

Lemma Validate_config_ok (c : Config) : Validate c = None <-> config_ok c.
Proof.
  unfold Validate, validateProject, validateSecurity.
  rewrite Join_none, !app_nil, !errs_of_nil, Join_none, !app_nil, !problem_nil, !Z.ltb_ge, imap_concat_nil.
  assert ((forall i w, Workers c !! i = Some w -> errs_of (validateWorker w i) = [])
    <-> Forall worker_ok (Workers c)) as ->.
  { rewrite Forall_lookup. by setoid_rewrite errs_of_nil; setoid_rewrite validateWorker_ok. }
  destruct (String.eqb_spec (Name (Project c)) ""); (split; [intros (? & ? & ? & ? & ?); by split|intros []; by split_and!]).
Qed.

(** [Validate] accepts exactly the configurations with a project name, workers
    with an identifier, a command, a known strategy and no negative number,
    and no negative number among the breaker's; a worker that is wrong makes
    it fail wherever it stands in the list. *)
Theorem Validate_spec (c : Config) : Validate c = None <-> config_ok c.
Proof. apply Validate_config_ok. Qed.

(** ** The loader *)

Record Loader := mkLoader {
  configPath : string;
  routeMapPath : string;
  current : option Config;
  routeMap : option RouteMap;
}.

Definition NewLoader (configPath : string) : Loader := mkLoader configPath "" None None.
Definition WithRouteMap (path : string) (rm : RouteMap) (l : Loader) : Loader :=
  mkLoader (configPath l) path (current l) (Some rm).
Definition SetCurrent (cfg : option Config) (l : Loader) : Loader :=
  mkLoader (configPath l) (routeMapPath l) cfg (routeMap l).

(** [os.ReadFile], [yaml.Unmarshal] over a value, and [json.Unmarshal] into
    the route table. *)
Context (ReadFile : string -> result bytes).
Context (yaml : bytes -> Config -> result Config) (json_routes : bytes -> result (list RouteEntry)).

Definition LoadConfig (l : Loader) : result Config :=
  match ReadFile (configPath l) with
  | Err err => Err (WrapErr ("config: read " +:+ configPath l +:+ ": ") err "")
  | Ok data =>
      match yaml data Defaults with
      | Err err => Err (WrapErr ("config: parse " +:+ configPath l +:+ ": ") err "")
      | Ok cfg =>
          match Validate cfg with
          | Some err => Err (WrapErr "config: validation failed: " err "")
          | None => Ok cfg
          end
      end
  end.

Definition MustLoad (l : Loader) : outcome Config :=
  match LoadConfig l with Ok cfg => Ret cfg | Err err => Panic (err_text err) end.

Definition reloadRouteMap (l : Loader) : Loader :=
  match ReadFile (routeMapPath l) with
  | Err _ => l
  | Ok data =>
      match json_routes data with
      | Err _ => l
      | Ok routes =>
          mkLoader (configPath l) (routeMapPath l) (current l) ((fun rm => Swap rm routes) <$> routeMap l)
      end
  end.

Definition reloadAll (l : Loader) : Loader :=
  let l := match LoadConfig l with Ok cfg => SetCurrent (Some cfg) l | Err _ => l end in
  match routeMap l with
  | Some _ => if String.eqb (routeMapPath l) "" then l else reloadRouteMap l
  | None => l
  end.

(** A reload never leaves the process with half a configuration.  Whatever
    the two files hold, and whether or not they can be read, after a reload
    the current configuration is the one before or one that was
    read whole and satisfies [config_ok], and the route table is the one
    before or the table of a list of routes that was read whole; the two are
    reloaded independently, so either may be new while the other is kept. *)
Theorem reload_all_or_nothing (l : Loader) :
  (exists cfg, current l = Some cfg /\ config_ok cfg) ->
  let l' := reloadAll l in
  (exists cfg, current l' = Some cfg /\ config_ok cfg) /\
  (current l' = current l \/
     exists data cfg, ReadFile (configPath l) = Ok data /\ yaml data Defaults = Ok cfg /\ current l' = Some cfg) /\
  (routeMap l' = routeMap l \/
     exists data routes, ReadFile (routeMapPath l) = Ok data /\ json_routes data = Ok routes /\
       routeMap l' = Some (NewRouteMap routes)).
Proof.
  intros Hcur l'.
  set (l1 := match LoadConfig l with Ok cfg => SetCurrent (Some cfg) l | Err _ => l end).
  assert (routeMap l1 = routeMap l /\ routeMapPath l1 = routeMapPath l) as [Hrm Hrp].
  { unfold l1. by destruct (LoadConfig l). }
  assert (l' = match routeMap l with
               | Some _ => if String.eqb (routeMapPath l) "" then l1 else reloadRouteMap l1
               | None => l1
               end) as Hl' by (rewrite <-Hrm, <-Hrp; done).
  assert (current l' = current l1) as Hc'.
  { rewrite Hl'. unfold reloadRouteMap. by repeat case_match. }
  rewrite Hc'. split_and!.
  - unfold l1. destruct (LoadConfig l) as [cfg|] eqn:E; [|done]. exists cfg. split; [done|].
    unfold LoadConfig in E. destruct (ReadFile (configPath l)) as [data|]; [|done].
    destruct (yaml data Defaults) as [cfg'|]; [|done]. destruct (Validate cfg') eqn:Ev; [done|].
    injection E as <-. by apply Validate_config_ok.
  - unfold l1. destruct (LoadConfig l) as [cfg|] eqn:E; [|by left]. right.
    unfold LoadConfig in E. destruct (ReadFile (configPath l)) as [data|] eqn:Er; [|done].
    destruct (yaml data Defaults) as [cfg'|] eqn:Ey; [|done]. destruct (Validate cfg'); [done|].
    injection E as ->. by exists data, cfg.
  - rewrite Hl'. clearbody l1. destruct (routeMap l) as [rm|] eqn:Em; [|by left].
    destruct (String.eqb _ ""); [by left|]. unfold reloadRouteMap. rewrite Hrp.
    destruct (ReadFile (routeMapPath l)) as [data|] eqn:Er; [|by left].
    destruct (json_routes data) as [routes|] eqn:Ej; [|by left].
    right. exists data, routes. split_and!; [done..|]. cbn. by rewrite Hrm.
Qed.
End Validation.

(** ** A reload whose configuration is bad and whose routes are good *)

Definition demo_file (path : string) : result bytes :=
  if String.eqb path "vyx.yaml" then Ok (of_string "project: {}")
  else if String.eqb path "route_map.json" then Ok (of_string "{}")
  else Err (NewErr "no such file").
Definition named (c : Config) : Config :=
  mkConfig (mkProject "demo" (Version (Project c))) (Workers c) (Security c) (IPC c) (Build c).
Definition demo_loader : Loader :=
  mkLoader "vyx.yaml" "route_map.json" (Some (named Defaults))
    (Some (NewRouteMap [mkRouteEntry "/health" "GET" "w" [] "" ""])).

Lemma reload_all_or_nothing_witness :
  let l' := reloadAll (fun s => s) demo_file (fun _ c => Ok c) (fun _ => Ok []) demo_loader in
  (exists cfg, current l' = Some cfg /\ config_ok cfg) /\
  current l' = Some (named Defaults) /\ routeMap l' = Some (NewRouteMap []).
Proof.
  intros l'. destruct (reload_all_or_nothing (fun s => s) demo_file (fun _ c => Ok c) (fun _ => Ok []) demo_loader)
    as (Hok & _ & _).
  - exists (named Defaults). split; [reflexivity|]. apply (Validate_config_ok (fun s => s)). vm_compute. reflexivity.
  - split; [exact Hok|]. split; vm_compute; reflexivity.
Defined.
