(* ===== verification/Regexp.v ===== *)
(** * The fragment of Go's [regexp] that the annotation scanner uses

    Its patterns are sequences of literal characters and of repeated
    character classes, some of them captured.  A match is the leftmost one,
    and among those the one a backtracking search that repeats as often as it
    can finds first.  Strings are bytes: the classes are complements of ASCII
    characters or ASCII themselves, so on UTF-8 text a repetition of bytes is
    one of characters. *)
From S2P Require Import Prelude GoStrings.
Local Open Scope string_scope.
Local Open Scope list_scope.

(** [Many least cls cap]: at least [least] characters of [cls], captured if
    [cap]. *)
Inductive item :=
  | Lit (c : ascii)
  | Many (least : nat) (cls : ascii -> bool) (cap : bool).
Definition pattern := list item.

(** The longest prefix in a class. *)
Fixpoint span_len (cls : ascii -> bool) (s : string) : nat :=
  match s with
  | String a s' => if cls a then S (span_len cls s') else 0
  | EmptyString => 0
  end.

(** The first success among [f k], [f (k - 1)], ..., [f least]. *)
Fixpoint down_from {A} (k least : nat) (f : nat -> option A) : option A :=
  if (k <? least)%nat then None
  else match f k with
       | Some a => Some a
       | None => match k with O => None | S k' => down_from k' least f end
       end.

(** A match at the beginning of [s]: what its groups captured. *)
Fixpoint match_here (p : pattern) (s : string) : option (list string) :=
  match p with
  | [] => Some []
  | Lit c :: p' =>
      match s with
      | String a s' => if Ascii.eqb a c then match_here p' s' else None
      | EmptyString => None
      end
  | Many least cls cap :: p' =>
      down_from (span_len cls s) least (fun k =>
        match match_here p' (drop_str k s) with
        | Some caps => Some (if cap then take_str k s :: caps else caps)
        | None => None
        end)
  end.

(** [FindStringSubmatch], without the whole match. *)
Fixpoint find (p : pattern) (s : string) : option (list string) :=
  match match_here p s with
  | Some caps => Some caps
  | None => match s with EmptyString => None | String _ s' => find p s' end
  end.

Definition MatchString (p : pattern) (s : string) : bool :=
  match find p s with Some _ => true | None => false end.

(** Literal text. *)
Fixpoint lits (s : string) : pattern :=
  match s with EmptyString => [] | String a s' => Lit a :: lits s' end.

(** [\s], [\w] and [[^c]]. *)
Definition re_space (a : ascii) : bool :=
  let n := nat_of_ascii a in ((n =? 9) || (n =? 10) || (n =? 12) || (n =? 13) || (n =? 32))%nat.
Definition re_word (a : ascii) : bool :=
  let n := nat_of_ascii a in
  ((48 <=? n) && (n <=? 57) || (65 <=? n) && (n <=? 90) || (97 <=? n) && (n <=? 122) || (n =? 95))%nat.
Definition re_not (c a : ascii) : bool := negb (Ascii.eqb a c).

(** ** What a match is, without a search *)

Fixpoint all_in (cls : ascii -> bool) (s : string) : Prop :=
  match s with EmptyString => True | String a s' => cls a = true /\ all_in cls s' end.

(** [matches p s caps]: some prefix of [s] is in the language of [p], cut
    into the pieces whose captured ones are [caps]. *)
Inductive matches : pattern -> string -> list string -> Prop :=
  | m_end s : matches [] s []
  | m_lit c p s caps : matches p s caps -> matches (Lit c :: p) (String c s) caps
  | m_many least cls cap p w s caps :
      (least <= String.length w)%nat -> all_in cls w -> matches p s caps ->
      matches (Many least cls cap :: p) (w +:+ s) (if cap then w :: caps else caps).

Lemma down_from_Some {A} k least (f : nat -> option A) a :
  down_from k least f = Some a -> exists j, (least <= j <= k)%nat /\ f j = Some a.
Proof.
  induction k as [|k IH]; simpl; destruct (_ <? _)%nat eqn:E; try done; apply Nat.ltb_ge in E.
  - destruct (f 0%nat) eqn:Ef; [|done]. intros [= <-]. exists 0%nat. split; [lia|done].
  - destruct (f (S k)) eqn:Ef; [intros [= <-]; exists (S k); split; [lia|done]|].
    intros (j & Hj & Hf)%IH. exists j. split; [lia|done].
Qed.

Lemma down_from_None {A} k least (f : nat -> option A) :
  down_from k least f = None -> forall j, (least <= j <= k)%nat -> f j = None.
Proof.
  induction k as [|k IH]; simpl; destruct (_ <? _)%nat eqn:E; (apply Nat.ltb_lt in E || apply Nat.ltb_ge in E).
  - lia.
  - destruct (f 0%nat) eqn:Ef; [done|]. intros _ j Hj. by replace j with 0%nat by lia.
  - lia.
  - destruct (f (S k)) eqn:Ef; [done|]. intros Hd j Hj. destruct (decide (j = S k)) as [->|]; [done|].
    apply IH; [done|lia].
Qed.

Lemma span_prefix cls k s :
  (k <= span_len cls s)%nat -> all_in cls (take_str k s) /\ String.length (take_str k s) = k.
Proof.
  revert s. induction k as [|k IH]; intros s Hk; [by destruct s|].
  destruct s as [|a s]; simpl in *; [lia|]. destruct (cls a) eqn:E; [|lia].
  destruct (IH s ltac:(lia)) as [H1 H2]. split; [done|by rewrite H2].
Qed.

Lemma take_drop_str k s : take_str k s +:+ drop_str k s = s.
Proof. revert s. induction k as [|k IH]; intros [|a s]; simpl; try done. by rewrite string_app_cons, IH. Qed.

Lemma span_app cls w s : all_in cls w -> (String.length w <= span_len cls (w +:+ s))%nat.
Proof.
  induction w as [|a w IH]; [simpl; lia|]. rewrite string_app_cons. simpl. intros [-> ?].
  specialize (IH ltac:(done)). lia.
Qed.

Lemma drop_app_str w s : drop_str (String.length w) (w +:+ s) = s.
Proof. induction w as [|a w IH]; [done|]. by rewrite string_app_cons. Qed.
Lemma take_app_str w s : take_str (String.length w) (w +:+ s) = w.
Proof. induction w as [|a w IH]; [by destruct s|]. rewrite string_app_cons. simpl. by rewrite IH. Qed.

(** The search finds only matches, *)
Lemma match_here_sound p s caps : match_here p s = Some caps -> matches p s caps.
Proof.
  revert s caps. induction p as [|[c|least cls cap] p IH]; intros s caps; simpl.
  - intros [= <-]. constructor.
  - destruct s as [|a s]; [done|]. destruct (Ascii.eqb_spec a c) as [->|]; [|done]. intros H.
    constructor. by apply IH.
  - intros (k & Hk & Hf)%down_from_Some. destruct (match_here p (drop_str k s)) as [caps'|] eqn:E; [|done].
    injection Hf as <-. rewrite <-(take_drop_str k s) at 1.
    destruct (span_prefix cls k s ltac:(lia)) as [H1 H2]. constructor; [lia|done|by apply IH].
Qed.

(** and misses none. *)
Lemma match_here_complete p s caps : matches p s caps -> is_Some (match_here p s).
Proof.
  induction 1 as [s|c p s caps _ IH|least cls cap p w s caps Hl Hw _ IH]; simpl; [by eexists| |].
  - by rewrite Ascii.eqb_refl.
  - destruct (down_from _ _ _) eqn:E; [by eexists|].
    pose proof (down_from_None _ _ _ E (String.length w) (conj Hl (span_app _ _ _ Hw))) as Hn.
    cbv beta in Hn. rewrite drop_app_str in Hn. destruct IH as [caps' Hc]. by rewrite Hc in Hn.
Qed.

(** The search agrees with the language: [find] succeeds exactly when some
    suffix of the text has a match at its beginning, and what it captures is
    one of that suffix, the first that has any. *)
Lemma find_first p s :
  match find p s with
  | Some caps => exists pre suf, s = pre +:+ suf /\ matches p suf caps /\
      (forall pre' suf', s = pre' +:+ suf' -> (String.length pre' < String.length pre)%nat ->
         forall caps', ~ matches p suf' caps')
  | None => forall pre suf caps, s = pre +:+ suf -> ~ matches p suf caps
  end.
Proof.
  assert (forall t : string, "" +:+ t = t) as Hnil by done.
  induction s as [|a s IH]; simpl.
  - destruct (match_here p "") as [caps|] eqn:E.
    + exists "", "". split_and!; [done|by apply match_here_sound|]. simpl. lia.
    + intros [|] suf caps Hs; rewrite ?Hnil, ?string_app_cons in Hs; [|done]. subst suf.
      intros Hm. apply match_here_complete in Hm as [? Hm]. congruence.
  - destruct (match_here p (String a s)) as [caps|] eqn:E.
    + exists "", (String a s). split_and!; [done|by apply match_here_sound|]. simpl. lia.
    + assert (forall caps, ~ matches p (String a s) caps) as Hno.
      { intros caps Hm. apply match_here_complete in Hm as [? Hm]. congruence. }
      destruct (find p s) as [caps|].
      * destruct IH as (pre & suf & -> & Hm & Hfirst). exists (String a pre), suf. split_and!; [done|done|].
        intros [|b pre'] suf' Hs Hlt; rewrite ?Hnil, ?string_app_cons in Hs; [by subst|].
        injection Hs as <- Hs. apply (Hfirst pre'); [done|simpl in Hlt; lia].
      * intros [|b pre] suf caps Hs; rewrite ?Hnil, ?string_app_cons in Hs; [by subst|].
        injection Hs as <- Hs. by apply (IH pre).
Qed.

(** *** Groups *)

Fixpoint groups (p : pattern) : nat :=
  match p with
  | [] => 0
  | Lit _ :: p' => groups p'
  | Many _ _ cap :: p' => (if cap then 1 else 0) + groups p'
  end.

Lemma match_here_groups p s caps : match_here p s = Some caps -> length caps = groups p.
Proof.
  intros H%match_here_sound. induction H as [s|c p s caps _ IH|least cls cap p w s caps _ _ _ IH]; simpl; [done|done|].
  destruct cap; simpl; by rewrite IH.
Qed.

Lemma find_groups p s caps : find p s = Some caps -> length caps = groups p.
Proof.
  induction s as [|a s IH]; simpl; destruct (match_here p _) as [caps'|] eqn:E; try done; auto;
    intros [= <-]; by eapply match_here_groups.
Qed.

Lemma match_here_find p s caps : match_here p s = Some caps -> find p s = Some caps.
Proof. intros H. destruct s; simpl in *; by rewrite H. Qed.
