(* ===== verification/Scanner.v ===== *)
(** * The annotation scanner ([scanner/])

    The build step that reads the annotations in the workers' sources and
    writes the route map the core serves: the line parsers for Go, TypeScript,
    Python and TSX pages, the validation of what they found, and [Generate].

    A directory walk is the list of the files it visits, each with what
    opening and reading it gives; messages keep their arguments and leave the
    wording out.  The patterns are those of [Regexp]. *)
From S2P Require Import Prelude Unicode GoStrings Ipc RouteMap Regexp.
Local Open Scope string_scope.
Local Open Scope list_scope.
Local Open Scope Z_scope.

(** ** Data ([types.go]) *)

Record Route := mkRoute {
  r_Path : string;
  r_Method : string;
  r_WorkerID : string;
  r_AuthRoles : list string;
  r_Validate : string;
  r_Type : string;
  r_File : string;
  r_Line : Z;
}.

(** The [Message] of an [AnnotationError]. *)
Inductive message :=
  | CannotOpen (err : error)
  | NoAnnotation
  | EmptyPagePath
  | UnknownMethod (method path : string)
  | PathWithoutSlash (path : string)
  | DuplicateRoute (method path : string)
  | NeedsValidate (method path : string)
  | NeedsAuth (method path : string).

Record AnnotationError := mkAnnotationError { ae_File : string; ae_Line : Z; Message : message }.

(** ** Lines ([bufio.Scanner])

    A line of 64 KiB or more ends the scan; the parsers do not ask why it
    ended. *)
Definition MaxScanTokenSize : nat := 65536.

(** The comparison with the size, without counting further than it. *)
Fixpoint shorter (s : string) (n : nat) : bool :=
  match n, s with
  | O, _ => false
  | S _, EmptyString => true
  | S n', String _ s' => shorter s' n'
  end.

Fixpoint drop_cr (s : string) : string :=
  match s with
  | EmptyString => ""
  | String a EmptyString => if Ascii.eqb a "013" then "" else s
  | String a s' => String a (drop_cr s')
  end.

Fixpoint drop_last_empty (ls : list string) : list string :=
  match ls with
  | [] => []
  | [l] => if is_empty l then [] else [l]
  | l :: ls' => l :: drop_last_empty ls'
  end.

Fixpoint until_long (ls : list string) : list string :=
  match ls with
  | [] => []
  | l :: ls' => if shorter l MaxScanTokenSize then drop_cr l :: until_long ls' else []
  end.

Definition scan_lines (content : string) : list string :=
  until_long (drop_last_empty (split_on "010" content)).

(** ** Patterns *)

Definition routeRe : pattern :=
  lits "@Route(" ++ [Many 0 re_space false; Many 1 re_word true; Many 1 re_space false;
                     Many 1 (re_not ")") true] ++ lits ")".
Definition validateRe : pattern :=
  lits "@Validate(" ++ [Many 0 re_space false; Many 1 (re_not ")") true; Many 0 re_space false] ++ lits ")".
Definition authRe : pattern :=
  lits "@Auth(roles:" ++ [Many 0 re_space false] ++ lits "[" ++ [Many 1 (re_not "]") true] ++ lits "])".
Definition tsPageRe : pattern := lits "@Page(" ++ [Many 1 (re_not ")") true] ++ lits ")".

(** These two begin with [^]: they are matched at the start of the line. *)
Definition tsxPageRe : pattern :=
  [Many 0 re_space false] ++ lits "//" ++ [Many 0 re_space false] ++ lits "@Page(" ++
  [Many 0 re_space false; Many 0 (re_not ")") true; Many 0 re_space false] ++ lits ")".
Definition tsxAuthRe : pattern :=
  [Many 0 re_space false] ++ lits "//" ++ [Many 0 re_space false] ++ lits "@Auth(roles:" ++
  [Many 0 re_space false] ++ lits "[" ++ [Many 1 (re_not "]") true] ++ lits "]" ++
  [Many 0 re_space false] ++ lits ")".

(** ** Building a route *)

(** [m[i]] of a submatch slice without its first element. *)
Definition submatch (m : option (list string)) (i : nat) : outcome string :=
  match m with
  | None => Panic "index out of range"
  | Some caps => match caps !! i with Some s => Ret s | None => Panic "index out of range" end
  end.

Definition validate_of (validateAnnot : string) : outcome string :=
  if String.eqb validateAnnot "" then Ret ""
  else match find validateRe validateAnnot with
       | None => Ret ""
       | vm => trim_space <$> submatch vm 0
       end.

Definition is_dquote (a : ascii) : bool := Ascii.eqb a "034".
Definition role_of (r : string) : string := trim is_dquote (trim_space r).
Definition roles_in (list_text : string) : list string :=
  filter (fun role => role <> "") (role_of <$> split_on "," list_text).
Definition roles_of (authAnnot : string) : outcome (list string) :=
  if String.eqb authAnnot "" then Ret []
  else match find authRe authAnnot with
       | None => Ret []
       | am => roles_in <$> submatch am 0
       end.

Definition buildRoute (file : string) (line : Z) (routeAnnot validateAnnot authAnnot workerID : string)
    : outcome Route :=
  let m := find routeRe routeAnnot in
  method ← submatch m 0;
  path ← submatch m 1;
  validate ← validate_of validateAnnot;
  roles ← roles_of authAnnot;
  Ret (mkRoute (trim_space path) (to_upper (trim_space method)) workerID roles validate "api" file line).

(** Word for word the same. *)
Definition buildPyRoute := buildRoute.

Definition buildTSRoute (file : string) (line : Z)
    (routeAnnot pageAnnot validateAnnot authAnnot workerID : string) : outcome (Route + AnnotationError) :=
  if negb (String.eqb routeAnnot "") then
    r ← buildRoute file line routeAnnot validateAnnot authAnnot workerID; Ret (inl r)
  else if negb (String.eqb pageAnnot "") then
    path ← submatch (find tsPageRe pageAnnot) 0;
    validate ← validate_of validateAnnot;
    roles ← roles_of authAnnot;
    Ret (inl (mkRoute (trim_space path) "GET" workerID roles validate "page" file line))
  else Ret (inr (mkAnnotationError file line NoAnnotation)).

(** ** The parsers' state and loop

    [pendingPage] is the TypeScript parser's alone. *)
Record Parser := mkParser {
  pendingRoute : string;
  pendingPage : string;
  pendingValidate : string;
  pendingAuth : string;
  routeLine : Z;
  lineNum : Z;
  routes : list Route;
  errs : list AnnotationError;
}.

Definition new_parser : Parser := mkParser "" "" "" "" 0 0 [] [].

(** Forget the annotations and add what was built. *)
Definition flushed (built : Route + AnnotationError) (st : Parser) : Parser :=
  match built with
  | inl r => mkParser "" "" "" "" (routeLine st) (lineNum st) (routes st ++ [r]) (errs st)
  | inr e => mkParser "" "" "" "" (routeLine st) (lineNum st) (routes st) (errs st ++ [e])
  end.

Definition flush_route (build : string -> Z -> string -> string -> string -> string -> outcome Route)
    (path workerID : string) (st : Parser) : outcome Parser :=
  if String.eqb (pendingRoute st) "" then Ret st
  else
    r ← build path (routeLine st) (pendingRoute st) (pendingValidate st) (pendingAuth st) workerID;
    Ret (flushed (inl r) st).

Definition flush_ts (path workerID : string) (st : Parser) : outcome Parser :=
  if String.eqb (pendingRoute st) "" && String.eqb (pendingPage st) "" then Ret st
  else
    built ← buildTSRoute path (routeLine st) (pendingRoute st) (pendingPage st) (pendingValidate st)
              (pendingAuth st) workerID;
    Ret (flushed built st).

Definition next_line (st : Parser) : Parser :=
  mkParser (pendingRoute st) (pendingPage st) (pendingValidate st) (pendingAuth st) (routeLine st)
    (lineNum st + 1) (routes st) (errs st).
Definition set_route (c : string) (st : Parser) : Parser :=
  mkParser c (pendingPage st) (pendingValidate st) (pendingAuth st) (lineNum st) (lineNum st) (routes st) (errs st).
Definition set_page (c : string) (st : Parser) : Parser :=
  mkParser (pendingRoute st) c (pendingValidate st) (pendingAuth st) (lineNum st) (lineNum st) (routes st) (errs st).
Definition set_validate (c : string) (st : Parser) : Parser :=
  mkParser (pendingRoute st) (pendingPage st) c (pendingAuth st) (routeLine st) (lineNum st) (routes st) (errs st).
Definition set_auth (c : string) (st : Parser) : Parser :=
  mkParser (pendingRoute st) (pendingPage st) (pendingValidate st) c (routeLine st) (lineNum st) (routes st) (errs st).

(** The [switch] on a comment, with and without pages. *)
Definition note (comment : string) (st : Parser) : Parser :=
  if MatchString routeRe comment then set_route comment st
  else if MatchString validateRe comment then set_validate comment st
  else if MatchString authRe comment then set_auth comment st
  else st.
Definition note_ts (comment : string) (st : Parser) : Parser :=
  if MatchString routeRe comment then set_route comment st
  else if MatchString tsPageRe comment then set_page comment st
  else if MatchString validateRe comment then set_validate comment st
  else if MatchString authRe comment then set_auth comment st
  else st.

Definition comment_of (marker line : string) : string := trim_space (trim_prefix line marker).

Definition go_line (path workerID : string) (st : Parser) (text : string) : outcome Parser :=
  let st := next_line st in
  let line := trim_space text in
  if negb (has_prefix line "//") then flush_route buildRoute path workerID st
  else Ret (note (comment_of "//" line) st).

Definition py_line (path workerID : string) (st : Parser) (text : string) : outcome Parser :=
  let st := next_line st in
  let line := trim_space text in
  if has_prefix line "class " then Ret st
  else if negb (has_prefix line "#") then flush_route buildPyRoute path workerID st
  else Ret (note (comment_of "#" line) st).

Definition ts_line (path workerID : string) (st : Parser) (text : string) : outcome Parser :=
  let st := next_line st in
  let line := trim_space text in
  if negb (has_prefix line "//") then flush_ts path workerID st
  else Ret (note_ts (comment_of "//" line) st).

(** The loop over the lines. *)
Fixpoint each_line {S} (step : S -> string -> outcome S) (st : S) (ls : list string) : outcome S :=
  match ls with
  | [] => Ret st
  | l :: ls' => st ← step st l; each_line step st ls'
  end.

Definition found : Type := list Route * list AnnotationError.
Definition cannot_open (path : string) (err : error) : found := ([], [mkAnnotationError path 0 (CannotOpen err)]).

(** A line parser over an opened file, with the flush at its end. *)
Definition parse_with (step : string -> string -> Parser -> string -> outcome Parser)
    (flush : string -> string -> Parser -> outcome Parser) (path workerID : string)
    (file : result string) : outcome found :=
  match file with
  | Err err => Ret (cannot_open path err)
  | Ok content =>
      st ← each_line (step path workerID) new_parser (scan_lines content);
      st ← flush path workerID st;
      Ret (routes st, errs st)
  end.

Definition parseGoFile (path workerID : string) (file : result string) : outcome found :=
  parse_with go_line (flush_route buildRoute) path workerID file.
Definition parsePyFile (path workerID : string) (file : result string) : outcome found :=
  parse_with py_line (flush_route buildPyRoute) path workerID file.
Definition parseTSFile (path workerID : string) (file : result string) : outcome found :=
  parse_with ts_line flush_ts path workerID file.

(** ** Quoted roles ([strconv.Unquote]), on UTF-8 text *)

Definition digit (base : N) (a : ascii) : option N :=
  let n := N_of_ascii a in
  let v := if (48 <=? n)%N && (n <=? 57)%N then Some (n - 48)%N
           else if (97 <=? n)%N && (n <=? 102)%N then Some (n - 87)%N
           else if (65 <=? n)%N && (n <=? 70)%N then Some (n - 55)%N
           else None in
  match v with Some v => if (v <? base)%N then Some v else None | None => None end.

Fixpoint digits (base : N) (k : nat) (acc : N) (s : string) : option (N * string) :=
  match k, s with
  | O, _ => Some (acc, s)
  | S k', String a s' =>
      match digit base a with Some v => digits base k' (acc * base + v)%N s' | None => None end
  | S _, EmptyString => None
  end.

(** The continuation bytes of a character. *)
Fixpoint continuation (s : string) : string * string :=
  match s with
  | String a s' =>
      let n := N_of_ascii a in
      if (128 <=? n)%N && (n <? 192)%N then let '(c, r) := continuation s' in (String a c, r) else ("", s)
  | EmptyString => ("", "")
  end.

(** [UnquoteChar]: the bytes of the next character and what follows. *)
Definition unquote_char (quote : ascii) (s : string) : option (string * string) :=
  match s with
  | EmptyString => None
  | String "010" _ => None
  | String "\" s' =>
      match s' with
      | EmptyString => None
      | String "a" r => Some (byte_str 7, r) | String "b" r => Some (byte_str 8, r)
      | String "f" r => Some (byte_str 12, r) | String "n" r => Some (byte_str 10, r)
      | String "r" r => Some (byte_str 13, r) | String "t" r => Some (byte_str 9, r)
      | String "v" r => Some (byte_str 11, r) | String "\" r => Some ("\", r)
      | String "x" r => match digits 16 2 0 r with Some (v, r) => Some (byte_str (Z.of_N v), r) | None => None end
      | String "u" r =>
          match digits 16 4 0 r with
          | Some (v, r) => if valid_rune (Z.of_N v) then Some (utf8 (Z.of_N v), r) else None | None => None end
      | String "U" r =>
          match digits 16 8 0 r with
          | Some (v, r) => if valid_rune (Z.of_N v) then Some (utf8 (Z.of_N v), r) else None | None => None end
      | String c r =>
          if Ascii.eqb c "'" || Ascii.eqb c "034" then
            if Ascii.eqb c quote then Some (String c "", r) else None
          else match digits 8 3 0 s' with
               | Some (v, r) => if (v <? 256)%N then Some (byte_str (Z.of_N v), r) else None | None => None end
      end
  | String c s' => let '(cont, r) := continuation s' in Some (String c cont, r)
  end.

Fixpoint unquote_loop (fuel : nat) (quote : ascii) (s : string) : option string :=
  match fuel, s with
  | O, _ | _, EmptyString => None
  | S fuel', String c s' =>
      if Ascii.eqb c quote then (if is_empty s' then Some "" else None)
      else
        match unquote_char quote s with
        | None => None
        | Some (b, rest) =>
            if Ascii.eqb quote "'" then (if String.eqb rest (String quote "") then Some b else None)
            else match unquote_loop fuel' quote rest with Some t => Some (b +:+ t) | None => None end
        end
  end.

(** Between backquotes everything is taken but carriage returns. *)
Fixpoint unquote_raw (s : string) : option string :=
  match s with
  | EmptyString => None
  | String a s' =>
      if Ascii.eqb a "`" then (if is_empty s' then Some "" else None)
      else match unquote_raw s' with
           | Some t => Some (if Ascii.eqb a "013" then t else String a t) | None => None end
  end.

Definition Unquote (s : string) : option string :=
  match s with
  | String q s' =>
      if Ascii.eqb q "`" then unquote_raw s'
      else if Ascii.eqb q "034" || Ascii.eqb q "'" then unquote_loop (String.length s') q s'
      else None
  | EmptyString => None
  end.

Definition parseRoleList (raw : string) : list string :=
  omap (fun p => let p := trim_space p in
          match Unquote p with
          | Some unq => Some unq
          | None => if String.eqb p "" then None else Some p
          end) (split_on "," raw).

(** ** Pages ([tsx_parser.go]) *)

Record TSXParser := mkTSXParser {
  page : option Route;
  x_lineNum : Z;
  x_routes : list Route;
  x_errs : list AnnotationError;
}.

Definition flush_page (st : TSXParser) : list Route :=
  match page st with Some r => x_routes st ++ [r] | None => x_routes st end.

Definition with_roles (roles : list string) (r : Route) : Route :=
  mkRoute (r_Path r) (r_Method r) (r_WorkerID r) roles (r_Validate r) (r_Type r) (r_File r) (r_Line r).

Definition tsx_line (path workerID : string) (st : TSXParser) (line : string) : outcome TSXParser :=
  let n := x_lineNum st + 1 in
  match match_here tsxPageRe line with
  | Some caps =>
      raw ← submatch (Some caps) 0;
      let pagePath := trim_space raw in
      if String.eqb pagePath ""
      then Ret (mkTSXParser None n (flush_page st) (x_errs st ++ [mkAnnotationError path n EmptyPagePath]))
      else Ret (mkTSXParser (Some (mkRoute pagePath "GET" workerID [] "" "page" path n)) n (flush_page st) (x_errs st))
  | None =>
      match match_here tsxAuthRe line, page st with
      | Some caps, Some r =>
          raw ← submatch (Some caps) 0;
          Ret (mkTSXParser (Some (with_roles (parseRoleList raw) r)) n (x_routes st) (x_errs st))
      | _, None => Ret (mkTSXParser None n (x_routes st) (x_errs st))
      | None, Some r =>
          let t := trim_space line in
          if negb (String.eqb t "") && negb (has_prefix t "//")
          then Ret (mkTSXParser None n (x_routes st ++ [r]) (x_errs st))
          else Ret (mkTSXParser (Some r) n (x_routes st) (x_errs st))
      end
  end.

Definition parseTSXFile (path workerID : string) (file : result string) : outcome found :=
  match file with
  | Err err => Ret (cannot_open path err)
  | Ok content =>
      st ← each_line (tsx_line path workerID) (mkTSXParser None 0 [] []) (scan_lines content);
      Ret (flush_page st, x_errs st)
  end.

(** ** Directories

    [filepath.Walk]: the files in its order.  An entry it cannot read or a
    directory is skipped. *)
Record WalkEntry := mkWalkEntry {
  we_path : string;
  we_err : bool;
  we_IsDir : bool;
  we_open : result string;
}.


Fixpoint walk (wanted : string -> bool) (parse : string -> string -> result string -> outcome found)
    (workerID : string) (es : list WalkEntry) : outcome found :=
  match es with
  | [] => Ret ([], [])
  | e :: es' =>
      if we_err e || we_IsDir e || negb (wanted (we_path e)) then walk wanted parse workerID es'
      else
        f ← parse (we_path e) workerID (we_open e);
        g ← walk wanted parse workerID es';
        Ret (f.1 ++ g.1, f.2 ++ g.2)
  end.

Definition ParseGoFiles (dir : list WalkEntry) (workerID : string) : outcome found :=
  walk (fun p => has_suffix p ".go") parseGoFile workerID dir.
Definition ParseTSFiles (dir : list WalkEntry) (workerID : string) : outcome found :=
  walk (fun p => has_suffix p ".ts" || has_suffix p ".tsx") parseTSFile workerID dir.
Definition ParsePyFiles (dir : list WalkEntry) (workerID : string) : outcome found :=
  walk (fun p => has_suffix p ".py") parsePyFile workerID dir.
Definition ParseTSXFiles (dir : list WalkEntry) (workerID : string) : outcome found :=
  walk (fun p => has_suffix p ".tsx") parseTSXFile workerID dir.

(** ** Validation ([validator.go]) *)

Definition validMethods : list string := ["GET"; "POST"; "PUT"; "PATCH"; "DELETE"; "HEAD"; "OPTIONS"].

Definition validateRoute (r : Route) : list message :=
  (if bool_decide (r_Method r ∈ ["POST"; "PUT"; "PATCH"]) && String.eqb (r_Validate r) ""
   then [NeedsValidate (r_Method r) (r_Path r)] else []) ++
  (if bool_decide (r_AuthRoles r = []) && negb (String.eqb (r_Type r) "page")
   then [NeedsAuth (r_Method r) (r_Path r)] else []).

Definition route_key (r : Route) : string := r_Method r +:+ " " +:+ r_Path r.

Definition problems (seen : gset string) (r : Route) : list message :=
  (if bool_decide (r_Method r ∈ validMethods) then [] else [UnknownMethod (r_Method r) (r_Path r)]) ++
  (if has_prefix (r_Path r) "/" then [] else [PathWithoutSlash (r_Path r)]) ++
  (if bool_decide (route_key r ∈ seen) then [DuplicateRoute (r_Method r) (r_Path r)] else []) ++
  validateRoute r.

Fixpoint validate_loop (seen : gset string) (rs : list Route) : list AnnotationError :=
  match rs with
  | [] => []
  | r :: rs' =>
      (mkAnnotationError (r_File r) (r_Line r) <$> problems seen r) ++
      validate_loop ({[route_key r]} ∪ seen) rs'
  end.

(** The second result, the warnings, is always empty. *)
Definition Validate (rs : list Route) : list AnnotationError * list string := (validate_loop ∅ rs, []).

(** ** Generate ([generator.go]) *)

Definition trim_slashes (s : string) : string := trim_right (fun a => Ascii.eqb a "/") s.
Definition Base (path : string) : string :=
  if String.eqb path "" then "."
  else match last (split_on "/" (trim_slashes path)) with
       | Some "" | None => "/"
       | Some b => b
       end.

Inductive generated :=
  | Rejected (errs : list AnnotationError)
  | WriteFailed (err : error)
  | Written (rs : list Route).

(** A directory: its name, empty when none is given, and its walk.  [write]
    encodes the route map and puts it on disk. *)
Definition Dir : Type := string * list WalkEntry.

Definition scan_dir (parse : list WalkEntry -> string -> outcome found) (workerID : string) (d : Dir) : outcome found :=
  if String.eqb d.1 "" then Ret ([], []) else parse d.2 workerID.

Definition Generate (write : list Route -> option error) (goDir tsDir pyDir frontendDir : Dir) : outcome generated :=
  go ← scan_dir ParseGoFiles ("go:" +:+ Base goDir.1) goDir;
  ts ← scan_dir ParseTSFiles ("node:" +:+ Base tsDir.1) tsDir;
  py ← scan_dir ParsePyFiles ("python:" +:+ Base pyDir.1) pyDir;
  fe ← scan_dir ParseTSXFiles "node:ssr" frontendDir;
  let allRoutes := go.1 ++ ts.1 ++ py.1 ++ fe.1 in
  let allErrs := go.2 ++ ts.2 ++ py.2 ++ fe.2 ++ (Validate allRoutes).1 in
  match allErrs with
  | _ :: _ => Ret (Rejected allErrs)
  | [] => match write allRoutes with Some err => Ret (WriteFailed err) | None => Ret (Written allRoutes) end
  end.

(** What the core reads back: the fields that are encoded. *)
Definition to_entry (r : Route) : RouteEntry :=
  mkRouteEntry (r_Path r) (r_Method r) (r_WorkerID r) (r_AuthRoles r) (r_Validate r) (r_Type r).

(** ** No parser panics *)

Lemma submatch_found p s i :
  MatchString p s = true -> (i < groups p)%nat -> exists x, submatch (find p s) i = Ret x.
Proof.
  unfold MatchString, submatch. destruct (find p s) as [caps|] eqn:E; [|done]. intros _ Hi.
  rewrite <-(find_groups _ _ _ E) in Hi. destruct (lookup_lt_is_Some_2 caps i Hi) as [x ->]. by exists x.
Qed.

Lemma validate_of_total a : exists v, validate_of a = Ret v.
Proof.
  unfold validate_of. case_if; [by eexists|]. destruct (find validateRe a) as [caps|] eqn:E; [|by eexists].
  destruct (submatch_found validateRe a 0) as [x Hx]; [unfold MatchString; by rewrite E|simpl; lia|].
  rewrite E in Hx. rewrite Hx. by eexists.
Qed.

Lemma roles_of_total a : exists v, roles_of a = Ret v.
Proof.
  unfold roles_of. case_if; [by eexists|]. destruct (find authRe a) as [caps|] eqn:E; [|by eexists].
  destruct (submatch_found authRe a 0) as [x Hx]; [unfold MatchString; by rewrite E|simpl; lia|].
  rewrite E in Hx. rewrite Hx. by eexists.
Qed.

Lemma buildRoute_total file line ra va aa wid :
  MatchString routeRe ra = true ->
  exists m p v rs, buildRoute file line ra va aa wid = Ret (mkRoute p m wid rs v "api" file line) /\
    roles_of aa = Ret rs.
Proof.
  intros H. unfold buildRoute.
  destruct (submatch_found routeRe ra 0 H) as [m ->]; [simpl; lia|].
  destruct (submatch_found routeRe ra 1 H) as [p ->]; [simpl; lia|].
  destruct (validate_of_total va) as [v ->]. destruct (roles_of_total aa) as [rs ->]. simpl. by do 4 eexists.
Qed.

(** What every scanned route is. *)
Definition typed (r : Route) : Prop := r_Type r = "api" \/ (r_Type r = "page" /\ r_Method r = "GET").

Lemma buildTSRoute_total file line ra pa va aa wid :
  (ra <> "" -> MatchString routeRe ra = true) -> (pa <> "" -> MatchString tsPageRe pa = true) ->
  exists b, buildTSRoute file line ra pa va aa wid = Ret b /\ match b with inl r => typed r | inr _ => True end.
Proof.
  intros Hr Hp. unfold buildTSRoute. destruct (String.eqb_spec ra "") as [->|Hne]; simpl.
  - destruct (String.eqb_spec pa "") as [->|Hne]; simpl; [by eexists|].
    destruct (submatch_found tsPageRe pa 0 (Hp Hne)) as [p ->]; [simpl; lia|].
    destruct (validate_of_total va) as [v ->]. destruct (roles_of_total aa) as [rs ->].
    simpl. eexists. split; [done|]. by right.
  - destruct (buildRoute_total file line ra va aa wid (Hr Hne)) as (m & p & v & rs & -> & _). simpl.
    eexists. split; [done|]. by left.
Qed.

Record parser_ok (st : Parser) : Prop := {
  po_route : pendingRoute st <> "" -> MatchString routeRe (pendingRoute st) = true;
  po_page : pendingPage st <> "" -> MatchString tsPageRe (pendingPage st) = true;
  po_typed : Forall typed (routes st);
}.

Definition steps_ok {S} (ok : S -> Prop) (step : S -> outcome S) : Prop :=
  forall st, ok st -> exists st', step st = Ret st' /\ ok st'.

Lemma each_line_ok {S} (ok : S -> Prop) (step : S -> string -> outcome S) ls :
  (forall l, steps_ok ok (fun st => step st l)) -> steps_ok ok (fun st => each_line step st ls).
Proof.
  intros Hs. induction ls as [|l ls IH]; intros st Hok; simpl; [by exists st|].
  destruct (Hs l st Hok) as (st1 & -> & Hok1). simpl. by apply IH.
Qed.

Lemma flushed_ok b st :
  parser_ok st -> match b with inl r => typed r | inr _ => True end -> parser_ok (flushed b st).
Proof.
  intros [_ _ H3]. destruct b; simpl; intros Hb; split; simpl; try done. apply Forall_app. by split; [|constructor].
Qed.

Lemma flush_route_ok path wid : steps_ok parser_ok (flush_route buildRoute path wid).
Proof.
  intros st Hok. unfold flush_route. destruct (String.eqb_spec (pendingRoute st) "") as [|Hne]; [by exists st|].
  destruct (buildRoute_total path (routeLine st) (pendingRoute st) (pendingValidate st) (pendingAuth st) wid)
    as (m & p & v & rs & -> & _); [by apply Hok|].
  simpl. eexists. split; [done|]. apply (flushed_ok (inl _)); [done|]. by left.
Qed.

Lemma flush_ts_ok path wid : steps_ok parser_ok (flush_ts path wid).
Proof.
  intros st Hok. unfold flush_ts. case_if; [by exists st|].
  destruct (buildTSRoute_total path (routeLine st) (pendingRoute st) (pendingPage st) (pendingValidate st)
    (pendingAuth st) wid (po_route _ Hok) (po_page _ Hok)) as (b & -> & Hb). simpl.
  eexists. split; [done|]. by apply flushed_ok.
Qed.

Lemma note_ok c st : parser_ok st -> parser_ok (note c st).
Proof. intros []. unfold note. repeat case_if; split; simpl; auto. Qed.
Lemma note_ts_ok c st : parser_ok st -> parser_ok (note_ts c st).
Proof. intros []. unfold note_ts. repeat case_if; split; simpl; auto. Qed.
Lemma next_line_ok st : parser_ok st -> parser_ok (next_line st).
Proof. intros []. by split. Qed.

Lemma go_line_ok path wid l : steps_ok parser_ok (fun st => go_line path wid st l).
Proof.
  intros st Hok%next_line_ok. unfold go_line. case_if; [by apply flush_route_ok|].
  eexists. split; [done|]. by apply note_ok.
Qed.
Lemma py_line_ok path wid l : steps_ok parser_ok (fun st => py_line path wid st l).
Proof.
  intros st Hok%next_line_ok. unfold py_line. case_if; [by eexists|]. case_if; [by apply flush_route_ok|].
  eexists. split; [done|]. by apply note_ok.
Qed.
Lemma ts_line_ok path wid l : steps_ok parser_ok (fun st => ts_line path wid st l).
Proof.
  intros st Hok%next_line_ok. unfold ts_line. case_if; [by apply flush_ts_ok|].
  eexists. split; [done|]. by apply note_ts_ok.
Qed.

(** A parser of one file that always returns, typed routes. *)
Definition total_parser (parse : string -> string -> result string -> outcome found) : Prop :=
  forall path wid file, exists f, parse path wid file = Ret f /\ Forall typed f.1.

Lemma parse_with_total step flush :
  (forall path wid l, steps_ok parser_ok (fun st => step path wid st l)) ->
  (forall path wid, steps_ok parser_ok (flush path wid)) ->
  total_parser (parse_with step flush).
Proof.
  intros Hs Hf path wid [content|err]; simpl; [|by eexists].
  destruct (each_line_ok parser_ok (step path wid) (scan_lines content) (Hs path wid) new_parser) as (st & -> & Hok);
    [by split|]. simpl. destruct (Hf path wid st Hok) as (st' & -> & Hok'). simpl. eexists. split; [done|]. apply Hok'.
Qed.

Lemma tsx_line_ok path wid l :
  steps_ok (fun st => Forall typed (flush_page st)) (fun st => tsx_line path wid st l).
Proof.
  intros st Hok. unfold tsx_line, flush_page in *.
  assert (Forall typed (x_routes st)) as Hrs by (destruct (page st); [by apply Forall_app in Hok as [? _]|done]).
  destruct (match_here tsxPageRe l) as [caps|] eqn:E.
  - apply match_here_groups in E. destruct caps as [|raw caps]; [done|]. simpl. case_if; eexists; (split; [done|]); simpl.
    + by destruct (page st).
    + apply Forall_app. split; [by destruct (page st)|]. constructor; [by right|done].
  - destruct (match_here tsxAuthRe l) as [caps|] eqn:Ea, (page st) as [r|] eqn:Ep.
    + apply match_here_groups in Ea. destruct caps as [|raw caps]; [done|]. simpl. eexists. split; [done|]. simpl.
      apply Forall_app in Hok as [? Hr]. apply Forall_app. split; [done|].
      apply Forall_inv in Hr. constructor; [exact Hr|done].
    + by eexists.
    + case_if; eexists; (split; [done|]); by simpl.
    + by eexists.
Qed.

Lemma parseTSXFile_total : total_parser parseTSXFile.
Proof.
  intros path wid [content|err]; simpl; [|by eexists].
  destruct (each_line_ok _ (tsx_line path wid) (scan_lines content) (tsx_line_ok path wid) (mkTSXParser None 0 [] []))
    as (st & -> & Hok); [by constructor|]. simpl. by eexists.
Qed.

Lemma walk_total wanted parse wid es :
  total_parser parse -> exists f, walk wanted parse wid es = Ret f /\ Forall typed f.1.
Proof.
  intros Hp. induction es as [|e es (g & IH & Hg)]; simpl; [by eexists|]. case_if; [by eexists|].
  destruct (Hp (we_path e) wid (we_open e)) as (f & -> & Hf). simpl. rewrite IH. simpl.
  eexists. split; [done|]. by apply Forall_app.
Qed.

Lemma scan_dir_total wanted parse wid d :
  total_parser parse ->
  exists f, scan_dir (fun es wid => walk wanted parse wid es) wid d = Ret f /\ Forall typed f.1.
Proof. intros Hp. unfold scan_dir. case_if; [by eexists|by apply walk_total]. Qed.

Lemma parsers_total :
  total_parser parseGoFile /\ total_parser parsePyFile /\ total_parser parseTSFile.
Proof.
  split_and!; apply parse_with_total; auto using go_line_ok, py_line_ok, ts_line_ok, flush_route_ok, flush_ts_ok.
Qed.

(** ** What passes validation *)

Record valid_route (r : Route) : Prop := {
  vr_method : r_Method r ∈ validMethods;
  vr_path : has_prefix (r_Path r) "/" = true;
  vr_validate : r_Method r ∈ ["POST"; "PUT"; "PATCH"] -> r_Validate r <> "";
  vr_auth : r_Type r <> "page" -> r_AuthRoles r <> [];
}.

Lemma problems_nil seen r : problems seen r = [] <-> valid_route r /\ route_key r ∉ seen.
Proof.
  unfold problems, validateRoute. split.
  - repeat case_bool_decide; destruct (has_prefix (r_Path r) "/") eqn:Ep;
      destruct (String.eqb_spec (r_Validate r) ""); destruct (String.eqb_spec (r_Type r) "page"); simpl; try done;
      intros _; (split; [|done]); split; try done; tauto.
  - intros [[H1 H2 H3 H4] H5]. rewrite bool_decide_true, H2 by done. rewrite (bool_decide_false (_ ∈ seen)) by done. simpl.
    destruct (String.eqb_spec (r_Validate r) "") as [Ev|Ev], (String.eqb_spec (r_Type r) "page") as [Et|Et];
      rewrite ?andb_false_r, ?andb_true_r; simpl; repeat case_bool_decide; simpl; tauto.
Qed.

Lemma validate_loop_nil seen rs :
  validate_loop seen rs = [] <->
  Forall valid_route rs /\ NoDup (route_key <$> rs) /\ Forall (fun r => route_key r ∉ seen) rs.
Proof.
  revert seen. induction rs as [|r rs IH]; intros seen; simpl.
  - split; [|done]. intros _. split_and!; constructor.
  - assert (forall es, mkAnnotationError (r_File r) (r_Line r) <$> es = [] <-> es = []) as Hnil by (by intros []).
    rewrite app_nil, Hnil, problems_nil, IH. cbn [fmap list_fmap].
    rewrite NoDup_cons, !Forall_cons, list_elem_of_fmap.
    rewrite !Forall_forall. set_solver.
Qed.

Lemma generated_valid write goDir tsDir pyDir frontendDir :
  exists g, Generate write goDir tsDir pyDir frontendDir = Ret g /\
  forall rs, g = Written rs ->
    Forall valid_route rs /\ Forall typed rs /\ NoDup (route_key <$> rs) /\ write rs = None.
Proof.
  destruct parsers_total as (Hgo & Hpy & Hts). unfold Generate.
  unfold ParseGoFiles, ParseTSFiles, ParsePyFiles, ParseTSXFiles.
  destruct (scan_dir_total (fun p => has_suffix p ".go") _ ("go:" +:+ Base goDir.1) goDir Hgo) as (f1 & -> & H1).
  destruct (scan_dir_total (fun p => has_suffix p ".ts" || has_suffix p ".tsx") _ ("node:" +:+ Base tsDir.1) tsDir Hts)
    as (f2 & -> & H2).
  destruct (scan_dir_total (fun p => has_suffix p ".py") _ ("python:" +:+ Base pyDir.1) pyDir Hpy) as (f3 & -> & H3).
  destruct (scan_dir_total (fun p => has_suffix p ".tsx") _ "node:ssr" frontendDir parseTSXFile_total) as (f4 & -> & H4).
  simpl. set (rs := f1.1 ++ f2.1 ++ f3.1 ++ f4.1). set (es := f1.2 ++ _).
  destruct es as [|e es'] eqn:Ees; [|eexists; split; [done|]; done].
  subst es. rewrite !app_nil in Ees. destruct Ees as (_ & _ & _ & _ & Hv).
  destruct (write rs) as [err|] eqn:Ew; (eexists; split; [done|]); intros rs' [= <-].
  apply validate_loop_nil in Hv as (Hv1 & Hv2 & _). split_and!; try done. unfold rs. rewrite !Forall_app. by split_and!.
Qed.

(** C25: What [Generate] writes.  It never panics, whatever the files hold; if
    it writes a route map, every route in it has an HTTP method, a path from
    the root, a schema when its method carries a body and at least one role
    unless it is a page, no two routes have the same method and path, and
    every route is of type api, or of type page and answers GET. *)
Theorem generated_routes_valid write goDir tsDir pyDir frontendDir :
  exists g, Generate write goDir tsDir pyDir frontendDir = Ret g /\
  forall rs, g = Written rs ->
    Forall valid_route rs /\ Forall typed rs /\ NoDup (route_key <$> rs) /\ write rs = None.
Proof. apply generated_valid. Qed.

(** ** Annotations that go astray *)

Lemma each_line_app {S} (step : S -> string -> outcome S) ls1 ls2 st :
  each_line step st (ls1 ++ ls2) = (st1 ← each_line step st ls1; each_line step st1 ls2).
Proof.
  revert st. induction ls1 as [|l ls1 IH]; intros st; simpl; [done|]. destruct (step st l); simpl; [apply IH|done].
Qed.

Definition is_comment (marker text : string) : bool := has_prefix (trim_space text) marker.
Definition comment_text (marker text : string) : string := comment_of marker (trim_space text).

Lemma go_line_code path wid st l :
  is_comment "//" l = false -> go_line path wid st l = flush_route buildRoute path wid (next_line st).
Proof. unfold go_line, is_comment. by intros ->. Qed.
Lemma go_line_comment path wid st l :
  is_comment "//" l = true -> go_line path wid st l = Ret (note (comment_text "//" l) (next_line st)).
Proof. unfold go_line, is_comment. by intros ->. Qed.

(** Code while no route is pending: only the line number moves. *)
Lemma go_code path wid st ls :
  pendingRoute st = "" -> Forall (fun l => is_comment "//" l = false) ls ->
  exists n, each_line (go_line path wid) st ls =
    Ret (mkParser (pendingRoute st) (pendingPage st) (pendingValidate st) (pendingAuth st) (routeLine st) n
           (routes st) (errs st)).
Proof.
  intros Hp Hls. revert st Hp. induction Hls as [|l ls Hl Hls IH]; intros st Hp; simpl.
  - exists (lineNum st). by destruct st.
  - rewrite (go_line_code _ _ _ _ Hl). unfold flush_route. simpl. rewrite Hp. simpl.
    destruct (IH (next_line st) Hp) as (n & Hn). simpl in Hn. rewrite Hp in Hn. by exists n.
Qed.

(** A stray [@Auth] protects, or opens, the next route.  An [@Auth] that
    belongs to no [@Route] - followed by code, any amount of it - stays
    pending: the next route in the file that has none of its own gets its
    roles, and the validation that asks every route for roles is content. *)
Theorem stray_auth_reaches_next_route path wid content auth code route :
  scan_lines content = auth :: code ++ [route] ->
  is_comment "//" auth = true -> MatchString routeRe (comment_text "//" auth) = false ->
  MatchString validateRe (comment_text "//" auth) = false -> MatchString authRe (comment_text "//" auth) = true ->
  Forall (fun l => is_comment "//" l = false) code ->
  is_comment "//" route = true -> MatchString routeRe (comment_text "//" route) = true ->
  exists r roles, parseGoFile path wid (Ok content) = Ret ([r], []) /\
    roles_of (comment_text "//" auth) = Ret roles /\ r_AuthRoles r = roles.
Proof.
  intros Hc Ha1 Ha2 Ha3 Ha4 Hcode Hr1 Hr2. unfold parseGoFile, parse_with. rewrite Hc. cbn [each_line app].
  rewrite (go_line_comment _ _ _ _ Ha1). unfold note at 1. rewrite Ha2, Ha3, Ha4.
  cbn [mbind outcome_mbind outcome_bind]. rewrite each_line_app.
  destruct (go_code path wid (set_auth (comment_text "//" auth) (next_line new_parser)) code) as (n & Hn);
    [done|done|]. rewrite Hn. cbn [mbind outcome_mbind outcome_bind each_line].
  rewrite (go_line_comment _ _ _ _ Hr1). unfold note. rewrite Hr2.
  cbn [mbind outcome_mbind outcome_bind]. unfold flush_route. cbn [pendingRoute set_route].
  assert (comment_text "//" route <> "") as Hne by (intros E; rewrite E in Hr2; vm_compute in Hr2; done).
  rewrite (proj2 (String.eqb_neq _ _) Hne). cbn.
  destruct (buildRoute_total path (n + 1) (comment_text "//" route) "" (comment_text "//" auth) wid Hr2)
    as (m & p & v & rs & -> & Hrs).
  cbn. by do 2 eexists.
Qed.

Lemma tsx_page_line path wid st l raw :
  match_here tsxPageRe l = Some [raw] -> trim_space raw <> "" ->
  tsx_line path wid st l =
    Ret (mkTSXParser (Some (mkRoute (trim_space raw) "GET" wid [] "" "page" path (x_lineNum st + 1)))
           (x_lineNum st + 1) (flush_page st) (x_errs st)).
Proof. intros H Hne. unfold tsx_line. rewrite H. cbn. by rewrite (proj2 (String.eqb_neq _ _) Hne). Qed.

Lemma tsx_auth_line path wid st l roles rest :
  match_here tsxPageRe l = None -> match_here tsxAuthRe l = Some (roles :: rest) ->
  tsx_line path wid st l =
    Ret (mkTSXParser (with_roles (parseRoleList roles) <$> page st) (x_lineNum st + 1) (x_routes st) (x_errs st)).
Proof. intros H1 H2. unfold tsx_line. rewrite H1, H2. by destruct (page st). Qed.

(** On a page the order matters.  An [@Auth] line below [@Page] gives the
    page its roles; above it, it is dropped without an error, and since pages
    need no roles the page passes validation as one open to everybody. *)
Theorem auth_above_page_is_dropped path wid above below auth pg raw roles rest :
  match_here tsxPageRe pg = Some [raw] -> trim_space raw <> "" -> has_prefix (trim_space raw) "/" = true ->
  match_here tsxPageRe auth = None -> match_here tsxAuthRe auth = Some (roles :: rest) ->
  scan_lines above = [auth; pg] -> scan_lines below = [pg; auth] ->
  let open_page := mkRoute (trim_space raw) "GET" wid [] "" "page" path 2 in
  parseTSXFile path wid (Ok above) = Ret ([open_page], []) /\ Validate [open_page] = ([], []) /\
  parseTSXFile path wid (Ok below)
    = Ret ([mkRoute (trim_space raw) "GET" wid (parseRoleList roles) "" "page" path 1], []).
Proof.
  intros Hpg Hne Hslash Ha1 Ha2 Hab Hbe open_page. unfold parseTSXFile. rewrite Hab, Hbe. cbn [each_line]. split_and!.
  - rewrite (tsx_auth_line _ _ _ _ _ _ Ha1 Ha2). cbn. by rewrite (tsx_page_line _ _ _ _ _ Hpg Hne).
  - unfold Validate. f_equal. apply validate_loop_nil. split_and!; [|apply NoDup_singleton|by repeat constructor].
    constructor; [|done]. split; simpl; [by left|done|set_solver|done].
  - rewrite (tsx_page_line _ _ _ _ _ Hpg Hne). cbn. by rewrite (tsx_auth_line _ _ _ _ _ _ Ha1 Ha2).
Qed.

(** ** Go and Python *)

(** The same line in the two languages: a comment with the same text, or code
    on both sides, which in Python does not begin a class. *)
Definition same_line (go py : string) : Prop :=
  (is_comment "//" go = true /\ is_comment "#" py = true /\ comment_text "//" go = comment_text "#" py) \/
  (is_comment "//" go = false /\ is_comment "#" py = false).
Definition begins_class (py : string) : bool := has_prefix (trim_space py) "class ".

(** The Go and the Python scanner agree.  On files that say the same
    line by line, each in its comments, they find the same routes and report
    the same errors, provided no line of the Python file begins a class. *)
Theorem go_py_equivalent path wid go py :
  Forall2 same_line (scan_lines go) (scan_lines py) -> Forall (fun l => begins_class l = false) (scan_lines py) ->
  parseGoFile path wid (Ok go) = parsePyFile path wid (Ok py).
Proof.
  intros Hs Hc. unfold parseGoFile, parsePyFile, parse_with.
  enough (each_line (go_line path wid) new_parser (scan_lines go)
    = each_line (py_line path wid) new_parser (scan_lines py)) as -> by done.
  generalize new_parser. induction Hs as [|l m ls ms Hlm Hs IH]; intros st; [done|].
  apply Forall_cons in Hc as [Hm Hc]. cbn [each_line].
  assert (go_line path wid st l = py_line path wid st m) as ->.
  { unfold go_line, py_line. unfold begins_class in Hm. rewrite Hm.
    unfold same_line, is_comment, comment_text in Hlm.
    destruct Hlm as [(-> & -> & ->)|(-> & ->)]; [done|]. done. }
  destruct (py_line path wid st m); [|done]. simpl. by apply IH.
Qed.

(** ** Witnesses *)

Definition nl : string := String "010" "".
Definition text_of (ls : list string) : string := join nl ls +:+ nl.

Definition stray : string :=
  text_of ["// @Auth(roles: [guest])"; "func removed() {}"; ""; "// @Route(POST /admin/reset)"].

Lemma stray_auth_reaches_next_route_witness :
  exists r roles, parseGoFile "api.go" "go:api" (Ok stray) = Ret ([r], []) /\
    roles_of "@Auth(roles: [guest])" = Ret roles /\ r_AuthRoles r = roles /\
    r = mkRoute "/admin/reset" "POST" "go:api" ["guest"] "" "api" "api.go" 4.
Proof.
  destruct (stray_auth_reaches_next_route "api.go" "go:api" stray "// @Auth(roles: [guest])"
    ["func removed() {}"; ""] "// @Route(POST /admin/reset)") as (r & roles & H1 & H2 & H3);
    try (vm_compute; reflexivity).
  - repeat constructor.
  - exists r, roles. split_and!; [done|exact H2|done|]. vm_compute in H1. by injection H1 as <-.
Defined.

Lemma auth_above_page_is_dropped_witness :
  parseTSXFile "page.tsx" "node:ssr" (Ok (text_of ["// @Auth(roles: [admin])"; "// @Page(/admin)"]))
    = Ret ([mkRoute "/admin" "GET" "node:ssr" [] "" "page" "page.tsx" 2], []) /\
  parseTSXFile "page.tsx" "node:ssr" (Ok (text_of ["// @Page(/admin)"; "// @Auth(roles: [admin])"]))
    = Ret ([mkRoute "/admin" "GET" "node:ssr" ["admin"] "" "page" "page.tsx" 1], []).
Proof.
  destruct (auth_above_page_is_dropped "page.tsx" "node:ssr" (text_of ["// @Auth(roles: [admin])"; "// @Page(/admin)"])
    (text_of ["// @Page(/admin)"; "// @Auth(roles: [admin])"]) "// @Auth(roles: [admin])" "// @Page(/admin)"
    "/admin" "admin" []) as (H1 & _ & H3); try (vm_compute; reflexivity); [discriminate|].
  split; [exact H1|exact H3].
Defined.

Lemma go_py_equivalent_witness :
  parseGoFile "api" "w" (Ok (text_of ["// @Route(get /x)"; "  // @Auth(roles: [a, b])"; "func x() {"]))
  = parsePyFile "api" "w" (Ok (text_of ["# @Route(get /x)"; "#@Auth(roles: [a, b])"; "def x():"])) /\
  parseGoFile "api" "w" (Ok (text_of ["// @Route(get /x)"; "  // @Auth(roles: [a, b])"; "func x() {"]))
  = Ret ([mkRoute "/x" "GET" "w" ["a"; "b"] "" "api" "api" 1], []).
Proof.
  split; [|vm_compute; reflexivity]. apply go_py_equivalent.
  - apply Forall2_cons. split; [left; vm_compute; done|].
    apply Forall2_cons. split; [left; vm_compute; done|]. apply Forall2_cons. split; [right; vm_compute; done|].
    change (Forall2 same_line [] []). constructor.
  - by_compute.
Defined.

(** Two routes in one comment: the first is dropped without an error. *)
Example first_of_two_routes_lost :
  parseGoFile "api" "w" (Ok (text_of ["// @Route(GET /a)"; "// @Route(GET /b)"; "// @Auth(roles: [x])"]))
  = Ret ([mkRoute "/b" "GET" "w" ["x"] "" "api" "api" 2], []).
Proof. vm_compute. reflexivity. Qed.
Example single_quoted_role :
  parseRoleList "'admin', 'a', `b`" = ["'admin'"; "a"; "b"].
Proof. vm_compute. reflexivity. Qed.
