(* ===== verification/Generated.v ===== *)
(** * From the annotations to the gateway

    The route map that the scanner writes is the one the gateway serves: what
    the scanner's validation promises, in terms of what the dispatcher and the
    WebSocket proxy do with it.  The file in between is JSON with the same
    field names on both sides ([Scanner.to_entry]). *)
From S2P Require Import Prelude GoStrings Ipc RouteMap Circuit Worker Pool PoolManager Drainer RateLimiter Gateway Dispatcher DispatchFacts ClientIP Server Uds WebSocket Regexp Scanner.
Local Open Scope string_scope.
Local Open Scope list_scope.
Local Open Scope Z_scope.

Definition served (rs : list Route) : RouteMap := NewRouteMap (to_entry <$> rs).

(** A route that the gateway finds in a generated map was scanned and valid. *)
Lemma served_lookup write goDir tsDir pyDir frontendDir rs method path res :
  Generate write goDir tsDir pyDir frontendDir = Ret (Written rs) ->
  Lookup (served rs) method path = Some res ->
  exists r, r ∈ rs /\ lr_entry res = to_entry r /\ valid_route r /\ to_upper (r_Method r) = to_upper method.
Proof.
  intros HG HL. destruct (generated_valid write goDir tsDir pyDir frontendDir) as (g & Hg & Hv).
  rewrite HG in Hg. injection Hg as <-. destruct (Hv rs eq_refl) as (Hvalid & _).
  apply Lookup_sound in HL as (Hin & Hm & _). apply list_elem_of_fmap in Hin as (r & Hr & Hin).
  rewrite Hr in Hm. rewrite Forall_forall in Hvalid. exists r. split_and!; auto.
Qed.

Section Served.
Context {T : Type} `{TR : !Dispatcher.Transport T} {H : Type} (enc : Encoding).

(** A request without a route reaches no worker. *)
Lemma unrouted_unsent (d : Dispatcher (H:=H)) clk uuid rq (w : World (T:=T) (H:=H)) reply :
  Dispatch enc clk uuid d rq w = Ret reply -> Lookup (Dispatcher.routes d) (Method rq) (Path rq) = None ->
  wire (wd (final reply)) = wire w.
Proof.
  intros HD EL. pose proof (Dispatch_eq enc clk uuid d rq w) as HE. rewrite EL in HE.
  destruct HE as (reply' & HE & Hc & _). rewrite HE in HD. injection HD as <-.
  by destruct (core_eq_fields _ _ Hc) as (_ & _ & _ & _ & ->).
Qed.

(** Every API route of a generated map asks for a token.  When the
    dispatcher serves a map the scanner wrote, a request reaches a worker only
    if its route is a page or the caller's token was accepted and carries a
    role that the annotation of the route names. *)
Theorem generated_api_routes_need_roles write goDir tsDir pyDir frontendDir rs
    (d : Dispatcher (H:=H)) clk uuid rq (w : World (T:=T) (H:=H)) reply :
  Generate write goDir tsDir pyDir frontendDir = Ret (Written rs) -> Dispatcher.routes d = served rs ->
  registry_ok (circuits w) -> Forall transparent (Dispatcher.listeners d) ->
  Dispatch enc clk uuid d rq w = Ret reply ->
  wire (wd (final reply)) = wire w \/
  exists r, r ∈ rs /\
    (r_Type r = "page" \/
     exists validate claims role, jwt d = Some validate /\
       validate (stripBearerPrefix (header (Headers rq) "Authorization")) = Ok claims /\
       role ∈ Roles claims /\ role ∈ r_AuthRoles r).
Proof.
  intros HG Hd Hok Hls HD.
  destruct (Lookup (Dispatcher.routes d) (Method rq) (Path rq)) as [res|] eqn:EL.
  - destruct (Dispatch_breaker _ _ _ _ _ _ _ _ Hok Hls HD EL) as (b & _ & [[_ ?]|[(_ & _ & Hau & _) _]]); [by left|].
    right. rewrite Hd in EL. destruct (served_lookup _ _ _ _ _ _ _ _ _ HG EL) as (r & Hin & Hr & [_ _ _ Hauth] & _).
    exists r. split; [done|]. destruct (decide (r_Type r = "page")) as [|Hne]; [by left|right].
    rewrite Hr in Hau. destruct Hau as [Hnil|(validate & claims & role & H1 & _ & H2 & H3 & H4)].
    + by destruct (Hauth Hne).
    + by exists validate, claims, role.
  - left. by eapply unrouted_unsent.
Qed.
End Served.

(** No generated map has a WebSocket route.  The proxy looks for routes
    with the method WS, which the scanner's validation refuses: over a map
    that the scanner wrote, every upgrade request is answered 404. *)
Theorem generated_maps_have_no_websockets {T} `{TR : !Dispatcher.Transport T} {C} (wenc : WSEncoding)
    (upgrade : HttpRequest -> HttpResponse * option C) write goDir tsDir pyDir frontendDir rs p uuid r (t : T) :
  Generate write goDir tsDir pyDir frontendDir = Ret (Written rs) -> ws_routes p = served rs ->
  ServeHTTP wenc upgrade p uuid r t = Ret (http_Error 404 (json_error "route not found"), None, t).
Proof.
  intros HG Hp. unfold ServeHTTP. rewrite Hp.
  destruct (Lookup (served rs) "WS" (h_Path r)) as [res|] eqn:EL; [|done].
  destruct (served_lookup _ _ _ _ _ _ _ _ _ HG EL) as (x & _ & _ & [Hm _ _ _] & Hup).
  exfalso. revert Hup. unfold validMethods in Hm. repeat (apply elem_of_cons in Hm as [->|Hm]; [by vm_compute|]).
  by apply elem_of_nil in Hm.
Qed.

(** ** Witnesses: one Go file and one page *)

Definition go_walk : list WalkEntry :=
  [mkWalkEntry "backend" false true (Err (NewErr "is a directory"));
   mkWalkEntry "backend/admin.go" false false
     (Ok (text_of ["package main"; "// @Route(GET /admin/:id)"; "// @Auth(roles: [admin])"; "func Admin() {}"]))].
Definition page_walk : list WalkEntry :=
  [mkWalkEntry "frontend/home.tsx" false false (Ok (text_of ["// @Page(/)"; "export default Home"]))].
Definition scanned : list Route :=
  [mkRoute "/admin/:id" "GET" "go:backend" ["admin"] "" "api" "backend/admin.go" 2;
   mkRoute "/" "GET" "node:ssr" [] "" "page" "frontend/home.tsx" 1].

Lemma scanned_generated :
  Generate (fun _ => None) ("backend/", go_walk) ("", []) ("", []) ("frontend", page_walk) = Ret (Written scanned).
Proof. vm_compute. reflexivity. Qed.

Definition scanned_dispatcher : Dispatcher (H:=AccessLog) :=
  (NewDispatcher NewAccessLogLifecycle
     (mkDispatcherConfig (served scanned) (Some demo_jwt) None (30 * second)) []).1.

Lemma generated_api_routes_need_roles_witness :
  exists reply, Dispatch demo_enc (clock 5) "uuid" scanned_dispatcher (ask "/admin/7" "Bearer good") demo_world = Ret reply /\
    wire (wd (final reply)) <> [] /\
    (wire (wd (final reply)) = [] \/ exists r, r ∈ scanned).
Proof.
  destruct (Dispatch demo_enc (clock 5) "uuid" scanned_dispatcher (ask "/admin/7" "Bearer good") demo_world)
    as [reply|] eqn:E; [|vm_compute in E; discriminate E].
  exists reply. split; [reflexivity|]. split; [vm_compute in E; injection E as <-; discriminate|].
  destruct (generated_api_routes_need_roles demo_enc (fun _ => None) ("backend/", go_walk) ("", []) ("", [])
    ("frontend", page_walk) scanned scanned_dispatcher (clock 5) "uuid" (ask "/admin/7" "Bearer good") demo_world reply)
    as [?|(r & Hr & _)]; [apply scanned_generated|reflexivity|apply NewRegistry_ok|constructor|exact E|by left|].
  right. by exists r.
Defined.

Lemma generated_maps_have_no_websockets_witness :
  ServeHTTP demo_ws accepts (mkWSProxy (served scanned) (Some demo_jwt)) "s1" (chat_request "Bearer good")
    (@nil (string * Ipc.Message))
  = Ret (http_Error 404 (json_error "route not found"), None, []).
Proof.
  apply (generated_maps_have_no_websockets demo_ws accepts (fun _ => None) ("backend/", go_walk) ("", []) ("", [])
    ("frontend", page_walk) scanned); [apply scanned_generated|reflexivity].
Defined.
