(* ===== verification/Process.v ===== *)
(** * The process manager ([infrastructure/process/manager.go],
      [manager_unix.go])

    The implementation of [worker.Manager] with child processes: the two maps
    it keeps, what it asks of the platform, and the splitting of the workers'
    output into lines.  [manager.go] is built with one of two files for its
    platform, so the platform is an interface, the class [ProcOS]; here is the
    Unix file, over the system calls [UnixOS], and WinProcess.v has the other.
    A process and the channel that its waiting goroutine closes are both named
    by the process id.  The last section puts the manager under the lifecycle
    service. *)
From S2P Require Import Prelude GoStrings Ipc Worker Pool PoolManager Drainer Runtime Lifecycle.
Local Open Scope string_scope.
Local Open Scope list_scope.
Local Open Scope Z_scope.

(** ** The platform *)

(** [os_Start]: [exec.Cmd.Start] with the worker's command, arguments and
    directory and the attributes of [setProcAttr]; [StopProcess] and
    [KillProcess]: the two functions of the platform's file; [Exits pid
    timeout]: whether the process has been waited for before the timeout, and
    what the system is then. *)
Class ProcOS (O : Type) := {
  os_Start : string -> list string -> string -> O -> result nat * O;
  StopProcess : nat -> O -> option error * O;
  KillProcess : nat -> O -> option error * O;
  Exits : nat -> Z -> O -> bool * O;
}.

Definition defaultShutdownTimeout : Z := 5 * second.

Section Manager.
Context {O : Type} `{OS : !ProcOS O}.

Record Manager := mkManager {
  processes : gmap string nat;
  waitDone : gmap string nat;
  shutdownTimeout : Z;
  os : O;
}.

Definition New (timeout : Z) (o : O) : Manager := mkManager ∅ ∅ timeout o.
Definition with_os (o : O) (m : Manager) : Manager := mkManager (processes m) (waitDone m) (shutdownTimeout m) o.

Definition Spawn (w : Worker) (m : Manager) : option error * Manager :=
  if String.eqb (Command w) "" then (Some ErrInvalidCommand, m)
  else
    match os_Start (Command w) (Args w) (WorkDir w) (os m) with
    | (Err err, o) => (Some (WrapErr "" ErrSpawnFailed (": " +:+ err_text err)), with_os o m)
    | (Ok pid, o) =>
        (None, mkManager (<[ID w := pid]> (processes m)) (<[ID w := pid]> (waitDone m)) (shutdownTimeout m) o)
    end.

Definition forget (id : string) (m : Manager) : Manager :=
  mkManager (delete id (processes m)) (delete id (waitDone m)) (shutdownTimeout m) (os m).

Definition stop_timeout (m : Manager) : Z :=
  if 0 <? shutdownTimeout m then shutdownTimeout m else defaultShutdownTimeout.

Definition Stop (id : string) (m : Manager) : option error * Manager :=
  match processes m !! id with
  | None => (Some ErrNotFound, m)
  | Some pid =>
      match StopProcess pid (os m) with
      | (Some err, o) => (Some err, with_os o m)
      | (None, o) =>
          match waitDone m !! id with
          | None => (None, forget id (with_os o m))
          | Some ch =>
              let '(exited, o) := Exits ch (stop_timeout m) o in
              if exited then (None, forget id (with_os o m))
              else (Some ErrStopTimeout, forget id (with_os (KillProcess pid o).2 m))
          end
      end
  end.

(** [ids]: the identifiers in the order the runtime ranges over them. *)
Fixpoint stop_each (ids : list string) (lastErr : option error) (m : Manager) : option error * Manager :=
  match ids with
  | [] => (lastErr, m)
  | id :: ids' =>
      let '(err, m) := Stop id m in
      stop_each ids' (match err with
                      | Some e => if decide (e = ErrNotFound) then lastErr else Some e
                      | None => lastErr
                      end) m
  end.
Definition StopAll (order : gmap string nat -> list string) (m : Manager) : option error * Manager :=
  stop_each (order (processes m)) None m.

Definition SendHeartbeat (id : string) (m : Manager) : option error * Manager := (None, m).
End Manager.
Arguments Manager O : clear implicits.

(** [worker.Manager] is this manager. *)
#[export] Instance process_manager {O} `{!ProcOS O} : WorkerManager (Manager O) := {
  PoolManager.Spawn := Spawn;
  PoolManager.Stop := Stop;
}.

(** ** Output lines ([pipeLog]) *)

Definition newline : ascii := "010".

(** The loop of [processChunk]; [cur] is [data[start:i]]. *)
Fixpoint chunk_lines (cur data : bytes) : list bytes * bytes :=
  match data with
  | [] => ([], cur)
  | b :: data' =>
      if Ascii.eqb b newline then
        let '(ls, rest) := chunk_lines [] data' in
        (if decide (cur = []) then ls else cur :: ls, rest)
      else chunk_lines (cur ++ [b]) data'
  end.
(** The lines written and the incomplete one. *)
Definition processChunk (data : bytes) : list bytes * bytes := chunk_lines [] data.

(** The lines written and where the incomplete one starts. *)
Definition processBufferChunk (buf : bytes) : list bytes * Z :=
  let '(ls, rest) := chunk_lines [] buf in (ls, Z.of_nat (length buf) - Z.of_nat (length rest)).

(** [reads]: what the reads give until the last, which ends with the error or
    the cancelled context that makes the loop flush and return. *)
Fixpoint pipe_loop (partial : bytes) (reads : list bytes) : list bytes :=
  match reads with
  | [] => if decide (partial = []) then [] else [partial]
  | r :: reads' =>
      if decide (r = []) then pipe_loop partial reads'
      else let '(ls, partial) := processChunk (partial ++ r) in ls ++ pipe_loop partial reads'
  end.
Definition pipeLog (reads : list bytes) : list bytes := pipe_loop [] reads.

(** *** The lines of a text, said without a loop over chunks *)

Fixpoint pieces (s : bytes) : list bytes :=
  match s with
  | [] => [[]]
  | b :: s' =>
      if Ascii.eqb b newline then [] :: pieces s'
      else match pieces s' with p :: ps => (b :: p) :: ps | [] => [[b]] end
  end.
Fixpoint not_empty (ls : list bytes) : list bytes :=
  match ls with
  | [] => []
  | l :: ls' => if decide (l = []) then not_empty ls' else l :: not_empty ls'
  end.
Definition lines (s : bytes) : list bytes := not_empty (pieces s).

Lemma pieces_app cur s :
  Forall (fun b => b <> newline) cur ->
  pieces (cur ++ s) = match pieces s with p :: ps => (cur ++ p) :: ps | [] => [cur] end.
Proof.
  induction 1 as [|b cur Hb _ IH]; simpl.
  - destruct s as [|b s]; simpl; [done|]. case_if; [done|]. by destruct (pieces s).
  - destruct (Ascii.eqb_spec b newline); [done|]. rewrite IH. by destruct (pieces s).
Qed.

Lemma pieces_nl s : pieces (newline :: s) = [] :: pieces s.
Proof. done. Qed.

(** A chunk gives the lines of all text before its incomplete last one, and
    what is left over has no newline. *)
Lemma chunk_lines_spec cur data later :
  Forall (fun b => b <> newline) cur ->
  let '(ls, rest) := chunk_lines cur data in
  lines (cur ++ data ++ later) = ls ++ lines (rest ++ later) /\ Forall (fun b => b <> newline) rest.
Proof.
  revert cur. induction data as [|b data IH]; intros cur Hc; simpl.
  - by split.
  - destruct (Ascii.eqb_spec b newline) as [->|Hb].
    + specialize (IH [] ltac:(constructor)). destruct (chunk_lines [] data) as [ls rest]. destruct IH as [IH Hr].
      split; [|done]. unfold lines in *. rewrite (pieces_app cur (newline :: data ++ later) Hc), pieces_nl, app_nil_r.
      simpl in *. rewrite IH. by case_decide.
    + specialize (IH (cur ++ [b])). rewrite <-app_assoc in IH. apply IH. apply Forall_app. by repeat constructor.
Qed.

Lemma pipe_loop_spec partial reads :
  Forall (fun b => b <> newline) partial -> pipe_loop partial reads = lines (partial ++ concat reads).
Proof.
  revert partial. induction reads as [|r reads IH]; intros partial Hp; simpl.
  - unfold lines. rewrite (pieces_app partial [] Hp). simpl. by rewrite app_nil_r.
  - case_decide as Hr; [subst; by apply IH|].
    pose proof (chunk_lines_spec [] (partial ++ r) (concat reads) ltac:(constructor)) as Hs. unfold processChunk.
    destruct (chunk_lines [] (partial ++ r)) as [ls rest]. destruct Hs as [Hs Hrest].
    rewrite (IH _ Hrest), <-Hs. simpl. by rewrite <-app_assoc.
Qed.

(** However a worker's output is cut into reads, the log gets its lines:
    the pieces between newlines that are not empty, the last one also when no
    newline follows. *)
Theorem pipeLog_lines reads : pipeLog reads = lines (concat reads).
Proof. by apply pipe_loop_spec. Qed.

Example split_output :
  pipeLog (of_string <$> ["he"; "llo" +:+ String "010" ""; String "010" "wor"; ""; "ld"])
  = of_string <$> ["hello"; "world"].
Proof. reflexivity. Qed.

(** ** The manager's books *)

Section Books.
Context {O : Type} `{OS : !ProcOS O}.

Inductive Call := CSpawn (w : Worker) | CStop (id : string) | CStopAll (order : gmap string nat -> list string).
Definition call (m : Manager O) (c : Call) : Manager O :=
  match c with
  | CSpawn w => (Spawn w m).2
  | CStop id => (Stop id m).2
  | CStopAll order => (StopAll order m).2
  end.

Definition paired (m : Manager O) : Prop := waitDone m = processes m.

Lemma Spawn_paired w m : paired m -> paired (Spawn w m).2.
Proof.
  unfold paired, Spawn. intros H. case_if; [done|].
  destruct (os_Start _ _ _ (os m)) as [[pid|e] o]; simpl; [by rewrite H|done].
Qed.
Lemma Stop_paired id m : paired m -> paired (Stop id m).2.
Proof.
  unfold paired, Stop. intros H. destruct (processes m !! id) as [pid|]; [|done].
  destruct (StopProcess pid (os m)) as [[e|] o]; [done|]. destruct (waitDone m !! id) as [ch|]; simpl; [|by rewrite H].
  destruct (Exits ch _ o) as [[] o']; simpl; by rewrite H.
Qed.
Lemma stop_each_paired ids e m : paired m -> paired (stop_each ids e m).2.
Proof.
  revert e m. induction ids as [|id ids IH]; intros e m H; simpl; [done|].
  pose proof (Stop_paired id m H) as H'. destruct (Stop id m) as [err m']. by apply IH.
Qed.

(** What [Stop] does, after any calls.  For a worker that is not tracked
    it answers [ErrNotFound]; if the signal cannot be delivered, that error,
    and the worker stays tracked; otherwise nil or, when the process outlives
    the timeout and is killed, [ErrStopTimeout], and the worker - it alone -
    is forgotten. *)
Theorem Stop_outcomes timeout o cs id :
  let m := run call cs (New timeout o) in
  let '(err, m') := Stop id m in
  match processes m !! id with
  | None => err = Some ErrNotFound /\ m' = m
  | Some pid =>
      let '(serr, o1) := StopProcess pid (os m) in
      match serr with
      | Some e => err = Some e /\ processes m' = processes m /\ os m' = o1
      | None =>
          let '(exited, o2) := Exits pid (stop_timeout m) o1 in
          err = (if exited then None else Some ErrStopTimeout) /\ processes m' = delete id (processes m) /\
          os m' = (if exited then o2 else (KillProcess pid o2).2)
      end
  end.
Proof.
  intros m. assert (paired m) as Hp.
  { apply (run_invariant call paired); [|done].
    intros s [w|i|order]; [apply Spawn_paired|apply Stop_paired|apply stop_each_paired]. }
  unfold Stop. destruct (processes m !! id) as [pid|] eqn:E; [|done].
  destruct (StopProcess pid (os m)) as [[e|] o1]; [done|]. rewrite Hp, E.
  destruct (Exits pid (stop_timeout m) o1) as [[] o2]; done.
Qed.
End Books.

(** ** Unix ([manager_unix.go]) *)

Inductive Signal := SIGTERM | SIGKILL.

(** [unix_Start]: the start of a child, in a process group of its own when
    the flag is set; [os_Signal]: [os.Process.Signal]. *)
Class UnixOS (O : Type) := {
  unix_Start : bool -> string -> list string -> string -> O -> result nat * O;
  Getpgid : nat -> O -> result Z;
  Kill : Z -> Signal -> O -> option error * O;
  os_Signal : nat -> Signal -> O -> option error * O;
  unix_Exits : nat -> Z -> O -> bool * O;
}.

Section Unix.
Context {O : Type} `{!UnixOS O}.

(** The [Setpgid] of the attributes. *)
Definition setProcAttr : bool := true.

(** The group, or the process when it has none any more. *)
Definition signal_group (sig : Signal) (pid : nat) (o : O) : option error * O :=
  match Getpgid pid o with
  | Err _ => os_Signal pid sig o
  | Ok pgid => Kill (- pgid) sig o
  end.
Definition stopProcess : nat -> O -> option error * O := signal_group SIGTERM.
Definition killProcess : nat -> O -> option error * O := signal_group SIGKILL.

#[export] Instance unix : ProcOS O := {
  os_Start := unix_Start setProcAttr;
  StopProcess := stopProcess;
  KillProcess := killProcess;
  Exits := unix_Exits;
}.
End Unix.

(** ** Under the lifecycle service *)

(** The worker is known and its process is tracked by the manager, and
    [gone]. *)
Record crashed {O T C I} (gone : nat -> O -> Prop) (id : string) (s : Service (Manager O) T C I) : Prop := {
  cr_stored : stored s;
  cr_known : is_Some (view s !! id);
  cr_gone : exists pid, processes (manager s) !! id = Some pid /\ gone pid (os (manager s));
}.

Definition ErrProcessDone := Sentinel "os.ErrProcessDone" "os: process already finished".

Section Crashed.
Context {O T C I : Type} `{!UnixOS O} `{!Endpoints T} `{!ReceiverStarter C} `{!Installer I}.

(** [gone pid o]: the process has ended and its [Wait] has returned.  The
    system then has no group for it and [os.Process.Signal] answers
    [ErrProcessDone], and that stays so. *)
Context (gone : nat -> O -> Prop).
Definition gone_answers : Prop := forall pid o sig, gone pid o ->
  (exists e, Getpgid pid o = Err e) /\
  (os_Signal pid sig o).1 = Some ErrProcessDone /\ gone pid (os_Signal pid sig o).2.

Lemma Stop_gone id (m : Manager O) pid : gone_answers -> processes m !! id = Some pid -> gone pid (os m) ->
  exists o, Stop id m = (Some ErrProcessDone, with_os o m) /\ gone pid o.
Proof.
  intros Hgo Hpid Hgone. unfold Stop. rewrite Hpid. cbn [StopProcess unix]. unfold stopProcess, signal_group.
  destruct (Hgo pid (os m) SIGTERM Hgone) as ([e1 ->] & Hsig & Hgone').
  destruct (os_Signal pid SIGTERM (os m)) as [serr o]. simpl in *. subst serr. eauto.
Qed.

Lemma restart_crashed ctx clk during id (s : Service (Manager O) T C I) r s' :
  gone_answers -> crashed gone id s -> RestartWorker ctx clk during id s = Ret (r, s') ->
  r = Some ErrProcessDone /\ wstate <$> view s' !! id = Some StateRestarting /\ crashed gone id s'.
Proof.
  intros Hgo [Hs [w Hw] (pid & Hpid & Hgone)] HR.
  destruct (Stop_gone id (manager s) pid Hgo Hpid Hgone) as (o & Hstop & Hgone').
  destruct (RestartWorker_outcome _ _ _ _ _ _ _ _ Hs Hw HR) as [Hs' Hout]. cbn [PoolManager.Stop process_manager] in Hout.
  rewrite Hstop in Hout. destruct Hout as (-> & Hm & Hv). rewrite Hv. split_and!; [done|done|].
  split; [done|by rewrite Hv|]. exists pid. by rewrite Hm.
Qed.

(** Restarts of a worker, one after the other; what each of them answered. *)
Fixpoint restarts (calls : list (Context * (nat -> Z) * list DrainEvent)) (id : string) (s : Service (Manager O) T C I)
    : outcome (list (option error) * Service (Manager O) T C I) :=
  match calls with
  | [] => Ret ([], s)
  | (ctx, clk, during) :: calls' =>
      '(r, s) ← RestartWorker ctx clk during id s;
      '(rs, s) ← restarts calls' id s;
      Ret (r :: rs, s)
  end.

(** C15: A worker whose process has ended by itself is never restarted.  The
    manager still tracks the process, the signal that [Stop] begins with
    cannot be delivered, and [RestartWorker] returns that error before it
    spawns anything: every attempt fails with [ErrProcessDone] and leaves the
    worker in state restarting, for ever. *)
Theorem exited_worker_cannot_be_restarted id calls s rs s' :
  gone_answers -> crashed gone id s -> calls <> [] -> restarts calls id s = Ret (rs, s') ->
  Forall (fun r => r = Some ErrProcessDone) rs /\ wstate <$> view s' !! id = Some StateRestarting.
Proof.
  intros Hgo Hc Hne. revert s rs Hc. induction calls as [|[[ctx clk] during] calls IH]; intros s rs Hc; [done|]. cbn [restarts].
  destruct (RestartWorker ctx clk during id s) as [[r s1]|] eqn:E; [|done]. simpl.
  destruct (restart_crashed _ _ _ _ _ _ _ Hgo Hc E) as (-> & Hv & Hc1).
  destruct (restarts calls id s1) as [[rs1 s2]|] eqn:Er; [|done]. simpl. intros [= <- <-].
  destruct calls as [|c calls].
  - simpl in Er. injection Er as <- <-. by split; [repeat constructor|].
  - destruct (IH ltac:(done) s1 rs1 Hc1 Er) as [IH1 IH2]. split; [by constructor|done].
Qed.
End Crashed.

(** ** A concrete system: the processes, each with whether it lives *)

#[export] Instance demo_os : UnixOS (list bool) := {
  unix_Start _ _ _ _ o := (Ok (length o), o ++ [true]);
  Getpgid pid o := if default false (o !! pid) then Ok (Z.of_nat pid + 1) else Err (NewErr "no such process");
  Kill g sig o := (None, <[Z.to_nat (- g - 1) := false]> o);
  os_Signal pid sig o := if default false (o !! pid) then (None, <[pid := false]> o) else (Some ErrProcessDone, o);
  unix_Exits pid _ o := (negb (default false (o !! pid)), o);
}.

Definition proc_service : Service (Manager (list bool)) Log Log unit :=
  mkService (mkHeap (fun _ => blank) 0%nat) Repository.NewMemoryWorkerRepository (New 0 []) []
    (Some []) (Some []) (Some NewWorkerDrainer) None tt.
(** The worker is spawned and its process ends. *)
Definition after_crash : outcome (Service (Manager (list bool)) Log Log unit) :=
  '(_, s) ← SpawnWorker skip_runtime (tick 0) (node_worker "a") proc_service;
  Ret (with_manager (with_os [false] (manager s)) s).

Lemma after_crash_stored s : after_crash = Ret s -> stored s.
Proof.
  unfold after_crash, SpawnWorker.
  destruct (SpawnWorkerWithReplicas skip_runtime (tick 0) (node_worker "a") 1 "round-robin" proc_service)
    as [[r s1]|] eqn:E; [|done]. simpl. intros [= <-].
  apply Spawn_consistent in E; [exact (proj1 E)|]. by split.
Qed.

Lemma exited_worker_cannot_be_restarted_witness :
  exists s rs s', after_crash = Ret s /\ restarts [(0%nat, tick 10, []); (0%nat, tick 20, [])] "a" s = Ret (rs, s') /\
    rs = [Some ErrProcessDone; Some ErrProcessDone] /\
    Forall (fun r => r = Some ErrProcessDone) rs /\ wstate <$> view s' !! "a" = Some StateRestarting.
Proof.
  destruct after_crash as [s|] eqn:Es; [|vm_compute in Es; discriminate Es].
  destruct (restarts [(0%nat, tick 10, []); (0%nat, tick 20, [])] "a" s) as [[rs s']|] eqn:Er;
    [|vm_compute in Es; injection Es as <-; vm_compute in Er; discriminate Er].
  exists s, rs, s'. split; [reflexivity|]. split; [exact Er|]. split.
  - vm_compute in Es. injection Es as <-. vm_compute in Er. by injection Er as <- _.
  - apply (exited_worker_cannot_be_restarted (fun pid o => o !! pid = Some false) "a" [(0%nat, tick 10, []); (0%nat, tick 20, [])] s rs s').
    + intros pid o sig H. cbn. rewrite H. cbn. split_and!; [by eexists|reflexivity|exact H].
    + split; [by apply after_crash_stored|..]; vm_compute in Es; injection Es as <-.
      * vm_compute. by eexists.
      * exists 0%nat. split; reflexivity.
    + discriminate.
    + exact Er.
Defined.
