(* ===== verification/WinProcess.v ===== *)
(** * Child processes on Windows
      ([infrastructure/process/manager_windows.go])

    The other platform of the process manager of Process.v: the same [Spawn],
    [Stop] and [StopAll] over console control events and [TerminateProcess],
    which are the class [WindowsOS].  It differs from Unix where a worker has
    ended by itself: stopping it succeeds, so a restart brings it back. *)
From S2P Require Import Prelude GoStrings Ipc Worker Pool PoolManager Drainer Runtime Lifecycle Process.
Local Open Scope string_scope.
Local Open Scope list_scope.
Local Open Scope Z_scope.

(** [win_Start]: the start of a child with the given creation flags;
    [procGenerateConsoleCtrlEvent]: the call of the kernel's procedure with
    its result and the error that comes with it; [os_Kill]:
    [os.Process.Kill]. *)
Class WindowsOS (O : Type) := {
  win_Start : Z -> string -> list string -> string -> O -> result nat * O;
  procGenerateConsoleCtrlEvent : Z -> Z -> O -> Z * error * O;
  os_Kill : nat -> O -> option error * O;
  win_Exits : nat -> Z -> O -> bool * O;
}.

Section Windows.
Context {O : Type} `{!WindowsOS O}.

Definition CTRL_BREAK_EVENT : Z := 1.
Definition CREATE_NEW_PROCESS_GROUP : Z := 512.

Definition generateConsoleCtrlEvent (ctrlEvent processGroupID : Z) (o : O) : option error * O :=
  let '(r, err, o) := procGenerateConsoleCtrlEvent ctrlEvent processGroupID o in
  (if r =? 0 then Some err else None, o).

(** The creation flags of the attributes. *)
Definition setProcAttr : Z := CREATE_NEW_PROCESS_GROUP.

Definition isKillError (err : option error) : bool :=
  match err with
  | None => false
  | Some err => contains (err_text err) "Access is denied" || contains (err_text err) "invalid argument"
  end.

(** The conversion [uint32(pid)] wraps. *)
Definition stopProcess (pid : nat) (o : O) : option error * O :=
  (None, (generateConsoleCtrlEvent CTRL_BREAK_EVENT (Z.of_nat pid mod 2 ^ 32) o).2).

Definition killProcess (pid : nat) (o : O) : option error * O :=
  let '(err, o) := os_Kill pid o in
  match err with
  | Some e => if negb (isKillError (Some e)) then (Some e, o) else (None, o)
  | None => (None, o)
  end.

#[export] Instance windows : ProcOS O := {
  os_Start := win_Start setProcAttr;
  StopProcess := stopProcess;
  KillProcess := killProcess;
  Exits := win_Exits;
}.

(** Whatever the system answers, stopping a worker that is tracked ends with
    nil or with [ErrStopTimeout], and the worker, it alone, is forgotten. *)
Lemma tracked_worker_is_forgotten id (m : Manager O) :
  let '(err, m') := Stop id m in
  match processes m !! id with
  | None => err = Some ErrNotFound /\ m' = m
  | Some _ => (err = None \/ err = Some ErrStopTimeout) /\ processes m' = delete id (processes m)
  end.
Proof.
  unfold Stop. destruct (processes m !! id) as [pid|]; [|done]. cbn [StopProcess windows]. unfold stopProcess.
  destruct (waitDone m !! id) as [ch|]; [|by split; [left|]].
  destruct (Exits _ _ _) as [[] o]; split; auto.
Qed.

(** The error of [StopAll] can only be that of a timeout. *)
Theorem StopAll_only_times_out order (m : Manager O) :
  let err := (StopAll order m).1 in err = None \/ err = Some ErrStopTimeout.
Proof.
  unfold StopAll. generalize (order (processes m)) as ids. intros ids.
  cut (forall last m, last = None \/ last = Some ErrStopTimeout ->
    (stop_each ids last m).1 = None \/ (stop_each ids last m).1 = Some ErrStopTimeout); [eauto|].
  induction ids as [|id ids IH]; intros last m' Hlast; cbn; [done|].
  pose proof (tracked_worker_is_forgotten id m') as Hs. destruct (Stop id m') as [err m1]. apply IH.
  destruct (processes m' !! id); [destruct Hs as [[->| ->] _]|destruct Hs as [-> _]]; auto.
Qed.
End Windows.

(** ** A worker that has ended by itself *)

Section Crashed.
Context {O T C I : Type} `{!WindowsOS O} `{!Endpoints T} `{!ReceiverStarter C} `{!Installer I}.

(** [gone pid o]: the process has ended and its [Wait] has returned; then
    the channel is closed, whatever control event is sent to the group. *)
Context (gone : nat -> O -> Prop).
Definition gone_stays : Prop := forall pid o, gone pid o ->
  (forall t, (win_Exits pid t o).1 = true) /\
  forall ev group, gone pid (procGenerateConsoleCtrlEvent ev group o).2.

Lemma Stop_waited id (m : Manager O) pid : gone_stays -> waitDone m = processes m ->
  processes m !! id = Some pid -> gone pid (os m) -> (Stop id m).1 = None.
Proof.
  intros Hst Hw Hpid Hg. unfold Stop. rewrite Hpid, Hw, Hpid. cbn [StopProcess Exits windows].
  unfold stopProcess, generateConsoleCtrlEvent.
  destruct (Hst pid (os m) Hg) as [_ Hev]. specialize (Hev CTRL_BREAK_EVENT (Z.of_nat pid mod 2 ^ 32)).
  destruct (procGenerateConsoleCtrlEvent _ _ _) as [[r e] o]. cbn in *. destruct (Hst pid o Hev) as [Hx _].
  specialize (Hx (stop_timeout m)). by destruct (win_Exits _ _ _) as [[] o'].
Qed.

(** The restart that fails for ever on Unix
    ([Process.exited_worker_cannot_be_restarted]) succeeds here at once when
    the system starts processes and the endpoint can be registered; otherwise
    the worker is stopped, not left in state restarting. *)
Theorem exited_worker_restarts ctx clk during id (s : Service (Manager O) T C I) r s' :
  gone_stays -> crashed gone id s -> waitDone (manager s) = processes (manager s) ->
  RestartWorker ctx clk during id s = Ret (r, s') ->
  (r = None /\ wstate <$> view s' !! id = Some StateRunning \/
   r = Some ErrSpawnFailed /\ wstate <$> view s' !! id = Some StateStopped) /\
  ((forall t, (Register id t).1 = None) ->
   (forall c a d o, exists pid, (os_Start c a d o).1 = Ok pid) ->
   (forall w, view s !! id = Some w -> Command w <> "") -> r = None).
Proof.
  intros Hst [Hs [w Hw] (pid & Hpid & Hgone)] Hpair HR.
  pose proof (Stop_waited id (manager s) pid Hst Hpair Hpid Hgone) as Hstop.
  destruct (RestartWorker_outcome _ _ _ _ _ _ _ _ Hs Hw HR) as [_ Hout]. cbn [PoolManager.Stop process_manager] in Hout.
  destruct (Stop id (manager s)) as [err m]. cbn in Hstop. subst err.
  destruct Hout as [[-> Hv]|(-> & Hv & Hfail)]; rewrite Hv; (split; [auto|]); [done|].
  intros Hreg Hstart Hcmd. exfalso. destruct Hfail as [[t Ht]|[m' Hm']]; [by rewrite Hreg in Ht|]. apply Hm'.
  cbn [PoolManager.Spawn process_manager]. unfold Process.Spawn. cbn [Command restarting set_UpdatedAt set_RestartCount set_State].
  destruct (String.eqb_spec (Command w) ""); [by destruct (Hcmd w Hw)|].
  destruct (Hstart (Command w) (Args w) (WorkDir w) (os m')) as [pid' Hp]. cbn in Hp |- *.
  destruct (win_Start _ _ _ _ (os m')) as [[?|?] ?]; done.
Qed.
End Crashed.

(** ** A concrete system: the processes, each with whether it lives *)

#[export] Instance demo_windows : WindowsOS (list bool) := {
  win_Start _ _ _ _ o := (Ok (length o), o ++ [true]);
  procGenerateConsoleCtrlEvent _ group o :=
    if default false (o !! Z.to_nat group) then (1, NewErr "The operation completed successfully.", <[Z.to_nat group := false]> o)
    else (0, NewErr "The parameter is incorrect.", o);
  os_Kill pid o := if default false (o !! pid) then (None, <[pid := false]> o) else (Some ErrProcessDone, o);
  win_Exits pid _ o := (negb (default false (o !! pid)), o);
}.

(** The worker is spawned, its process ends, and it is restarted: the answer,
    the processes and the state of the worker. *)
Definition crash_and_restart (P : ProcOS (list bool)) : outcome (option error * list bool * option State) :=
  '(_, s) ← SpawnWorker skip_runtime (tick 0) (node_worker "a") proc_service;
  '(r, s) ← RestartWorker 0%nat (tick 10) [] "a" (with_manager (with_os [false] (manager s)) s);
  Ret (r, os (manager s), wstate <$> view s !! "a").

(** On Windows it runs again in a second process, on Unix it is lost. *)
Example restart_on_each_platform :
  crash_and_restart windows = Ret (None, [false; true], Some StateRunning) /\
  crash_and_restart unix = Ret (Some ErrProcessDone, [false], Some StateRestarting).
Proof. split; vm_compute; reflexivity. Qed.
