(* ===== verification/Logs.v ===== *)
(** * Log entries, the multiplexer and redaction ([domain/log],
      [infrastructure/log])

    Entries from all sources go into one ring buffer, from which the dashboard
    reads, and to the channels of its subscribers.  [json.Unmarshal] of a line
    is a parameter.  Strings are ASCII where they are mapped to lower case.
    [Push] takes the buffer's lock and then the subscribers'; here it is one
    step. *)
From S2P Require Import Prelude GoStrings.
Local Open Scope string_scope.
Local Open Scope list_scope.

(** ** Entries ([entry.go], [source.go]) *)

Record Entry := mkEntry {
  Timestamp : Z;
  Source : string;
  Level : string;
  Message : string;
  CorrelationID : string;
  Fields : gmap string string;
  Raw : string;
}.

(** [time.Time{}], in nanoseconds from 1970. *)
Definition zero_time : Z := (-62135596800 * second)%Z.
Definition empty_entry : Entry := mkEntry zero_time "" "" "" "" ∅ "".

Definition SourceCore := "CORE".
Definition SourceGo := "go".
Definition SourceNode := "node".
Definition SourcePython := "python".

Definition ParseSource (workerID : string) : string :=
  if String.eqb workerID "" then SourceCore
  else if has_prefix workerID "node:" then SourceNode
  else if has_prefix workerID "go:" then SourceGo
  else if has_prefix workerID "python:" then SourcePython
  else SourceGo.

Definition Tag (s workerID : string) : string := if String.eqb s SourceCore then "CORE" else workerID.

Section Parse.
Context (unmarshal : string -> option Entry).

Definition ParseEntry (now : Z) (workerID line : string) : Entry :=
  match unmarshal line with
  | Some entry =>
      if negb (Timestamp entry =? zero_time)%Z then entry
      else mkEntry now workerID "INFO" "" "" ∅ line
  | None => mkEntry now workerID "INFO" "" "" ∅ line
  end.

Definition set_Source (s : string) (e : Entry) : Entry :=
  mkEntry (Timestamp e) s (Level e) (Message e) (CorrelationID e) (Fields e) (Raw e).
Definition with_source (s : string) (e : Entry) : Entry :=
  if String.eqb (Source e) "" then set_Source s e else e.
End Parse.

(** ** The multiplexer *)

(** A subscriber's channel: its name and what waits in it. *)
Record Sub := mkSub { sub_id : nat; queue : list Entry }.
Definition subscriberBuffer : nat := 256.

Record Multiplexer := mkMultiplexer {
  entries : list Entry;
  size : nat;
  head : nat;
  count : nat;
  subs : list Sub;
  next_sub : nat;
}.

Definition defaultBufferSize : nat := 5000.
Definition New (capacity : option Z) : Multiplexer :=
  let cap := match capacity with
             | Some c => if (0 <? c)%Z then Z.to_nat c else defaultBufferSize
             | None => defaultBufferSize
             end in
  mkMultiplexer (replicate cap empty_entry) cap 0 0 [] 0.

(** A full channel drops the entry. *)
Definition notify (entry : Entry) (ss : list Sub) : list Sub :=
  (fun s => if (length (queue s) <? subscriberBuffer)%nat
            then mkSub (sub_id s) (queue s ++ [entry]) else s) <$> ss.

Definition Push (m : Multiplexer) (entry : Entry) : Multiplexer :=
  mkMultiplexer (<[head m := entry]> (entries m)) (size m) ((head m + 1) mod size m)
    (if (count m <? size m)%nat then count m + 1 else count m)
    (notify entry (subs m)) (next_sub m).

(** [m.head - m.count + m.size] does not go below zero: [count <= size]. *)
Definition Entries (m : Multiplexer) : list Entry :=
  let start := (head m + size m - count m) mod size m in
  (fun i => default empty_entry (entries m !! ((start + i) mod size m))) <$> seq 0 (count m).

Definition Subscribe (m : Multiplexer) : nat * Multiplexer :=
  (next_sub m, mkMultiplexer (entries m) (size m) (head m) (count m)
                 (subs m ++ [mkSub (next_sub m) []]) (S (next_sub m))).

(** The first subscriber with that channel goes and its channel is closed; a
    channel that is not there is left alone. *)
Fixpoint drop_sub (ch : nat) (ss : list Sub) : list Sub :=
  match ss with
  | [] => []
  | s :: ss' => if (sub_id s =? ch)%nat then ss' else s :: drop_sub ch ss'
  end.
Definition Unsubscribe (ch : nat) (m : Multiplexer) : Multiplexer :=
  mkMultiplexer (entries m) (size m) (head m) (count m) (drop_sub ch (subs m)) (next_sub m).

Definition processScannerLine (parseFn : string -> string -> Entry) (workerID line : string)
    (m : Multiplexer) : Multiplexer :=
  if String.eqb line "" then m else Push m (with_source workerID (parseFn workerID line)).

(** [muxLogWriter] of [main.go], for the output of workers, and the
    [muxWriteSyncer] there, for the program's own log lines. *)
Definition muxLogWriter (unmarshal : string -> option Entry) (now : Z) (workerID line : string) (m : Multiplexer)
    : Multiplexer :=
  Push m (with_source workerID (ParseEntry unmarshal now workerID line)).
Definition muxWrite (unmarshal : string -> option Entry) (now : Z) (p : string) (m : Multiplexer) : Multiplexer :=
  Push m (match unmarshal p with
          | None => mkEntry now "CORE" "INFO" "" "" ∅ p
          | Some entry => with_source "CORE" entry
          end).

(** One round of the goroutine of [scanSource], which has not been stopped:
    the scanner has a line, has come to the end, or has failed.  The boolean
    says whether the goroutine returns. *)
Inductive Scanned := SLine (s : string) | SEnd | SError.
Definition scan_round (parseFn : string -> string -> Entry) (workerID : string) (sc : Scanned)
    (m : Multiplexer) : bool * Multiplexer :=
  match sc with
  | SLine line => (false, processScannerLine parseFn workerID line m)
  | SEnd => (false, m)
  | SError => (true, m)
  end.

(** ** Filters *)

Definition FilterBySource (es : list Entry) (tag : string) : list Entry :=
  if String.eqb tag "" || String.eqb tag "ALL" then es else filter (fun e => Source e = tag) es.

Definition levelOrder (level : string) : option nat :=
  if String.eqb level "DEBUG" then Some 0
  else if String.eqb level "INFO" then Some 1
  else if String.eqb level "WARN" then Some 2
  else if String.eqb level "ERROR" then Some 3
  else None.

Definition levelGreaterOrEqual (level min : string) : bool :=
  match levelOrder (to_upper level) with
  | None => true
  | Some l => match levelOrder (to_upper min) with None => true | Some m => (m <=? l)%nat end
  end.
Definition FilterByLevel (es : list Entry) (minLevel : string) : list Entry :=
  if String.eqb minLevel "" || String.eqb minLevel "ALL" then es
  else filter (fun e => levelGreaterOrEqual (Level e) minLevel = true) es.

Definition containsField (e : Entry) (substr : string) : bool :=
  contains (Message e) substr || contains (Raw e) substr ||
  existsb (fun kv => contains kv.2 substr) (map_to_list (Fields e)).
Definition FilterByCorrelationID (es : list Entry) (corrID : string) : list Entry :=
  if String.eqb corrID "" then es
  else filter (fun e => String.eqb (CorrelationID e) corrID || containsField e corrID = true) es.

(** ** Redaction ([redact.go]) *)

Definition DefaultSensitiveFields : list string :=
  ["password"; "passwd"; "secret"; "token"; "api_key"; "apikey"; "access_token"; "refresh_token";
   "credit_card"; "cc_number"; "card_number"; "ssn"; "cpf"; "authorization"; "jwt"; "private_key"].

Definition quote : ascii := "034".
Definition char_at (s : string) (i : nat) : option ascii := String.get i s.

(** [strings.Index]. *)
Fixpoint index (s sub : string) : option nat :=
  if String.prefix sub s then Some 0
  else match s with
       | EmptyString => None
       | String _ s' => S <$> index s' sub
       end.
(** The first byte that satisfies a predicate, for [IndexByte], [IndexAny]. *)
Fixpoint index_if (p : ascii -> bool) (s : string) : option nat :=
  match s with
  | EmptyString => None
  | String a s' => if p a then Some 0 else S <$> index_if p s'
  end.
Definition ends_value (a : ascii) : bool :=
  existsb (Ascii.eqb a) [" "; ","; "}"; "010"; "009"; "&"]%char.

Fixpoint stars (n : nat) : string := match n with O => "" | S n' => String "*" (stars n') end.
(** [result[:i] + strings.Repeat("*", n) + result[i+n:]]. *)
Definition mask (i n : nat) (s : string) : string := take_str i s +:+ stars n +:+ drop_str (i + n) s.

(** What one round of the inner loop does at an occurrence: stop, or go on
    from an index with a text. *)
Definition redact_at (field : string) (pos : nat) (result : string) : option (nat * string) :=
  let next := pos + String.length field in
  match char_at result next with
  | None => None
  | Some sep0 =>
      let vs := if Ascii.eqb sep0 quote then S next else next in
      match char_at result vs with
      | None => None
      | Some sep =>
          if Ascii.eqb sep "=" || Ascii.eqb sep ":" then
            let rest := drop_str (S vs) result in
            let quoted := match rest with String q _ => Ascii.eqb q quote | EmptyString => false end in
            match (if quoted then index_if (fun a => Ascii.eqb a quote) (drop_str 1 rest) else None) with
            | Some e => Some (vs + 2 + e, mask (vs + 2) e result)
            | None =>
                let value := if quoted then drop_str 1 rest else rest in
                let e := default (String.length value) (index_if ends_value value) in
                Some (next, if (0 <? e)%nat then mask (vs + 1) e result else result)
            end
          else Some (next, result)
      end
  end.

Fixpoint redact_loop (fuel : nat) (field : string) (idx : nat) (result : string) : string :=
  match fuel with
  | O => result
  | S fuel' =>
      match index (to_lower (drop_str idx result)) field with
      | None => result
      | Some pos =>
          match redact_at field (pos + idx) result with
          | None => result
          | Some (idx, result) => redact_loop fuel' field idx result
          end
      end
  end.

(** Each round moves [idx] on, inside the text. *)
Definition redact_field (result field : string) : string :=
  redact_loop (S (String.length result)) field 0 result.
Definition Redact (input : string) : string := foldl redact_field input DefaultSensitiveFields.

(** The arguments of a logger: strings and other values. *)
Definition RedactFields {X : Type} (fields : list (string + X)) : list (string + X) :=
  (fun f => match f with inl s => inl (Redact s) | inr x => inr x end) <$> fields.

Definition IsSensitiveField (name : string) : bool :=
  existsb (fun f => String.eqb (to_lower name) f || contains (to_lower name) f) DefaultSensitiveFields.

(** ** The ring buffer keeps the last entries *)

(** The buffer after the entries [es] were pushed. *)
Record holds_last (es : list Entry) (m : Multiplexer) : Prop := {
  hl_size : (0 < size m)%nat;
  hl_length : length (entries m) = size m;
  hl_head : head m = length es mod size m;
  hl_count : count m = size m `min` length es;
  hl_at : forall j, (length es - size m <= j < length es)%nat -> entries m !! (j mod size m) = es !! j;
}.

Lemma mod_differs n i j : (i < j)%nat -> (j - i < n)%nat -> i mod n <> j mod n.
Proof.
  intros Hij Hn Heq. pose proof (Nat.div_mod_eq i n). pose proof (Nat.div_mod_eq j n).
  assert (j - i = n * (j / n - i / n))%nat as Hm by nia.
  destruct (j / n - i / n)%nat eqn:E; nia.
Qed.

Lemma Push_holds es m e : holds_last es m -> holds_last (es ++ [e]) (Push m e).
Proof.
  intros [Hs Hl Hh Hc Ha]. assert (length es mod size m < size m)%nat as Hlt by (apply Nat.mod_upper_bound; lia).
  split; simpl; rewrite ?length_insert, ?length_app; simpl; try done.
  - rewrite Hh, Nat.Div0.add_mod_idemp_l. done.
  - rewrite Hc. destruct (Nat.ltb_spec (size m `min` length es) (size m)); lia.
  - intros j Hj. rewrite Hh. destruct (decide (j = length es)) as [->|Hne].
    + rewrite list_lookup_insert_eq by lia. by rewrite lookup_app_r, Nat.sub_diag by lia.
    + rewrite list_lookup_insert_ne; [|apply not_eq_sym, mod_differs; lia].
      rewrite lookup_app_l by lia. apply Ha. lia.
Qed.

Lemma New_holds capacity : holds_last [] (New capacity).
Proof.
  unfold New, defaultBufferSize. set (cap := match capacity with Some _ => _ | None => _ end).
  assert (0 < cap)%nat as Hcap.
  { unfold cap. destruct capacity as [c|]; [|lia]. destruct (Z.ltb_spec 0 c); lia. }
  split; simpl; [done|by rewrite length_replicate|by rewrite Nat.Div0.mod_0_l|lia|lia].
Qed.

Lemma Entries_holds es m : holds_last es m -> Entries m = drop (length es - size m) es.
Proof.
  intros [Hs Hl Hh Hc Ha]. apply list_eq. intros i. unfold Entries. rewrite list_lookup_fmap, lookup_drop.
  destruct (decide (i < count m)%nat) as [Hi|Hi].
  - rewrite lookup_seq_lt by done. simpl.
    replace (((head m + size m - count m) mod size m + i) mod size m)
      with ((length es - size m + i) mod size m).
    + rewrite Ha by lia. destruct (lookup_lt_is_Some_2 es (length es - size m + i)) as [x ->]; [lia|done].
    + rewrite Nat.Div0.add_mod_idemp_l, Hh.
      destruct (Nat.le_gt_cases (size m) (length es)) as [Hge|Hlt].
      * rewrite Hc, Nat.min_l by lia. rewrite Nat.add_sub, Nat.Div0.add_mod_idemp_l.
        replace (length es + i)%nat with (length es - size m + i + 1 * size m)%nat by lia. by rewrite Nat.Div0.mod_add.
      * rewrite Hc, Nat.min_r by lia. rewrite (Nat.mod_small (length es)) by lia.
        replace (length es + size m - length es + i)%nat with (i + 1 * size m)%nat by lia.
        rewrite Nat.Div0.mod_add. f_equal. lia.
  - rewrite lookup_seq_ge by lia. simpl. symmetry. apply lookup_ge_None. lia.
Qed.

(** What the multiplexer's clients do. *)
Inductive MuxOp := MPush (e : Entry) | MSubscribe | MUnsubscribe (ch : nat).
Definition mux_step (m : Multiplexer) (op : MuxOp) : Multiplexer :=
  match op with
  | MPush e => Push m e
  | MSubscribe => (Subscribe m).2
  | MUnsubscribe ch => Unsubscribe ch m
  end.
Definition pushed (ops : list MuxOp) : list Entry :=
  omap (fun op => match op with MPush e => Some e | _ => None end) ops.

(** The buffer shows the last entries in their order.  After any pushes,
    subscriptions and unsubscriptions, [Entries] are the last [size] of the
    entries pushed, all of them if there were fewer, oldest first - as if the
    buffer were a list without an end, of which the last part is shown. *)
Theorem Entries_are_the_last capacity ops :
  let m := run mux_step ops (New capacity) in
  Entries m = drop (length (pushed ops) - size m) (pushed ops) /\ size m = size (New capacity).
Proof.
  intros m. assert (holds_last (pushed ops) m /\ size m = size (New capacity)) as [Hh Hs].
  { unfold m. clear m. induction ops as [|op ops [IH IHs]] using rev_ind; [split; [apply New_holds|done]|].
    rewrite run_app. simpl. unfold pushed. rewrite omap_app. fold (pushed ops).
    destruct op; simpl; [by split; [apply Push_holds|]|..]; rewrite app_nil_r; (split; [|done]);
      destruct IH; by split. }
  split; [by apply Entries_holds|done].
Qed.

(** The same for a series of pushes. *)
Lemma pushes_hold es m es0 : holds_last es0 m -> holds_last (es0 ++ es) (run Push es m).
Proof.
  revert m es0. induction es as [|e es IH]; intros m es0 Hm; [by rewrite app_nil_r|].
  change (run Push (e :: es) m) with (run Push es (Push m e)).
  change (e :: es) with ([e] ++ es). rewrite app_assoc. by apply IH, Push_holds.
Qed.

(** A source that has come to its end is polled for ever: the goroutine
    returns for a failure of the scanner or when it is stopped only. *)
Lemma ended_source_polled n parseFn wid m :
  Nat.iter n (fun st => if st.1 : bool then st else scan_round parseFn wid SEnd st.2) (false, m) = (false, m).
Proof. induction n as [|n IH]; [done|]. rewrite Nat.iter_succ, IH. done. Qed.

(** For levels that are known the filter is the order DEBUG < INFO < WARN <
    ERROR, whatever the case of the names, and it is transitive: what passes
    a filter passes every lower one.  Entries of an unknown level pass all
    filters. *)
Theorem levels_are_ordered es min1 min2 e :
  is_Some (levelOrder (to_upper min1)) -> is_Some (levelOrder (to_upper min2)) ->
  levelGreaterOrEqual min1 min2 = true ->
  e ∈ FilterByLevel es min1 -> e ∈ FilterByLevel es min2.
Proof.
  intros [l1 H1] [l2 H2] H12. unfold levelGreaterOrEqual in H12. rewrite H1, H2 in H12. apply Nat.leb_le in H12.
  assert (forall m l, levelOrder (to_upper m) = Some l ->
    String.eqb m "" || String.eqb m "ALL" = false) as Hne.
  { intros m l Hm. apply orb_false_iff. split; apply String.eqb_neq; intros ->; by vm_compute in Hm. }
  unfold FilterByLevel. rewrite (Hne _ _ H1), (Hne _ _ H2), !list_elem_of_filter.
  intros [Hl Hin]. split; [|done]. unfold levelGreaterOrEqual in *.
  destruct (levelOrder (to_upper (Level e))) as [l|]; [|done]. rewrite H1 in Hl. rewrite H2.
  apply Nat.leb_le in Hl. apply Nat.leb_le. lia.
Qed.

(** ** Redaction masks *)

(** [masked s t]: [t] is [s] with some characters replaced by stars. *)
Inductive masked : string -> string -> Prop :=
  | masked_nil : masked "" ""
  | masked_same a s t : masked s t -> masked (String a s) (String a t)
  | masked_star a s t : masked s t -> masked (String a s) (String "*" t).

Lemma masked_refl s : masked s s.
Proof. induction s; by constructor. Qed.
Lemma masked_trans s t u : masked s t -> masked t u -> masked s u.
Proof. intros H. revert u. induction H; intros u Hu; inversion Hu; subst; constructor; auto. Qed.
Lemma masked_length s t : masked s t -> String.length t = String.length s.
Proof. induction 1; simpl; congruence. Qed.

Lemma mask_cons a i n s : mask (S i) n (String a s) = String a (mask i n s).
Proof. done. Qed.

Lemma masked_mask i n s : (i + n <= String.length s)%nat -> masked s (mask i n s).
Proof.
  revert s. induction i as [|i IH]; intros s Hl.
  - unfold mask. destruct s as [|a s]; simpl in *; [by destruct n as [|n]; [constructor|lia]|].
    change ("" +:+ ?x) with x. revert a s Hl. induction n as [|n IHn]; intros a s Hl; [apply masked_refl|].
    change (stars (S n) +:+ drop_str (S n) (String a s)) with (String "*" (stars n +:+ drop_str n s)).
    apply masked_star. destruct s as [|b s]; [simpl in Hl; destruct n; [constructor|lia]|].
    apply IHn. simpl in *. lia.
  - destruct s as [|a s]; [simpl in Hl; lia|]. rewrite mask_cons. constructor. apply IH. simpl in Hl. lia.
Qed.

Lemma length_drop_str n s : String.length (drop_str n s) = (String.length s - n)%nat.
Proof. revert s. induction n as [|n IH]; intros [|a s]; simpl; auto. Qed.

Lemma char_at_lt s i a : char_at s i = Some a -> (i < String.length s)%nat.
Proof.
  unfold char_at. revert i. induction s as [|b s IH]; intros [|i]; simpl; try done; [lia|].
  intros H%IH. lia.
Qed.

Lemma index_if_lt p s i : index_if p s = Some i -> (i < String.length s)%nat.
Proof.
  revert i. induction s as [|a s IH]; intros i; simpl; [done|]. case_if; [intros [= <-]; lia|].
  destruct (index_if p s) as [k|]; [|done]. intros [= <-]. specialize (IH k eq_refl). lia.
Qed.

Lemma redact_at_spec field pos result idx result' :
  redact_at field pos result = Some (idx, result') ->
  masked result result' /\ (pos + String.length field <= idx <= String.length result)%nat.
Proof.
  unfold redact_at. destruct (char_at result (pos + String.length field)) as [sep0|] eqn:E0; [|done].
  apply char_at_lt in E0.
  set (vs := if Ascii.eqb sep0 quote then _ else _).
  assert (pos + String.length field <= vs)%nat as Hvs by (unfold vs; case_if; lia).
  destruct (char_at result vs) as [sep|] eqn:E1; [|done]. apply char_at_lt in E1.
  case_if; [|intros [= <- <-]; split; [apply masked_refl|lia]].
  pose proof (length_drop_str (S vs) result) as Hrest. set (rest := drop_str (S vs) result) in *.
  set (quoted := match rest with "" => false | String q _ => _ end).
  assert (quoted = true -> (1 <= String.length rest)%nat) as Hq by (unfold quoted; destruct rest; simpl; [done|lia]).
  pose proof (length_drop_str 1 rest) as Hrest1.
  destruct (if quoted then _ else None) as [e|] eqn:Ei.
  - destruct quoted; [|done]. apply index_if_lt in Ei. specialize (Hq eq_refl). intros [= <- <-].
    split; [apply masked_mask|]; lia.
  - set (value := if quoted then drop_str 1 rest else rest).
    assert (String.length value <= String.length rest)%nat as Hv by (unfold value; destruct quoted; lia).
    assert (default (String.length value) (index_if ends_value value) <= String.length value)%nat as He.
    { destruct (index_if ends_value value) eqn:E; [apply index_if_lt in E; simpl; lia|done]. }
    intros [= <- <-]. split; [|lia]. case_if; [apply masked_mask; lia|apply masked_refl].
Qed.

Lemma redact_loop_masked fuel field idx result : masked result (redact_loop fuel field idx result).
Proof.
  revert idx result. induction fuel as [|fuel IH]; intros idx result; simpl; [apply masked_refl|].
  destruct (index _ field) as [pos|]; [|apply masked_refl].
  destruct (redact_at field (pos + idx) result) as [[idx' result']|] eqn:E; [|apply masked_refl].
  apply redact_at_spec in E as [Hm _]. eapply masked_trans; [done|apply IH].
Qed.

(** [Redact] only masks: its result has the length of the input and
    differs from it in characters that have become stars. *)
Theorem Redact_masks input : masked input (Redact input) /\ String.length (Redact input) = String.length input.
Proof.
  assert (masked input (Redact input)) as Hm; [|split; [done|by apply masked_length]].
  unfold Redact. generalize DefaultSensitiveFields. intros fs. revert input.
  induction fs as [|f fs IH]; intros input; simpl; [apply masked_refl|].
  eapply masked_trans; [apply redact_loop_masked|apply IH].
Qed.

(** The search for a field ends: with a round for every character of the
    text that is left, and one to see that there is nothing more, the loop has
    come to its own end, and more rounds change nothing. *)
Theorem redact_loop_terminates fuel field idx result :
  field <> "" -> (String.length result - idx < fuel)%nat ->
  redact_loop fuel field idx result = redact_loop (S (String.length result)) field idx result.
Proof.
  intros Hf. assert (0 < String.length field)%nat as Hlen by (destruct field; simpl; [done|lia]).
  revert idx result. assert (forall f1 f2 idx result,
    (String.length result - idx < f1)%nat -> (String.length result - idx < f2)%nat ->
    redact_loop f1 field idx result = redact_loop f2 field idx result) as Hgen.
  { induction f1 as [|f1 IH]; intros f2 idx result H1 H2; [lia|]. destruct f2 as [|f2]; [lia|]. simpl.
    destruct (index _ field) as [pos|] eqn:Ei; [|done].
    destruct (redact_at field (pos + idx) result) as [[idx' result']|] eqn:E; [|done].
    apply redact_at_spec in E as [Hm%masked_length Hidx]. apply IH; lia. }
  intros idx result H. apply Hgen; lia.
Qed.

Lemma redact_loop_terminates_witness :
  redact_loop 30 "token" 0 "token=abc token=d" = redact_loop 18 "token" 0 "token=abc token=d" /\
  redact_loop 30 "token" 0 "token=abc token=d" = "token=*** token=*".
Proof.
  split; [|reflexivity]. apply (redact_loop_terminates 30 "token" 0 "token=abc token=d"); [discriminate|simpl; lia].
Defined.

(** What it misses: a blank after the colon, an escaped quote, and the last
    character of a string that is not closed. *)
Example redact_gaps :
  Redact "password: hunter2" = "password: hunter2" /\
  Redact (String quote ("jwt" +:+ String quote (":" +:+ String quote ("ab\" +:+ String quote "cd"))))
    = String quote ("jwt" +:+ String quote (":" +:+ String quote ("***" +:+ String quote "cd"))) /\
  Redact ("token=" +:+ String quote "abc") = "token=***c".
Proof. vm_compute. auto. Qed.

Lemma levels_are_ordered_witness :
  let e := mkEntry 5 "go:api" "error" "m" "" ∅ "" in
  e ∈ FilterByLevel [e] "WARN" /\ e ∈ FilterByLevel [e] "info".
Proof.
  intros e. assert (e ∈ FilterByLevel [e] "WARN") as H by (vm_compute; by left).
  split; [exact H|]. apply (levels_are_ordered [e] "WARN" "info" e); [by eexists..|reflexivity|exact H].
Defined.
