(* ===== verification/Main.v ===== *)
(** * The main program ([core/cmd/vyx/main.go], [platform_unix.go])

    How the parts are put together: the workers of the configuration are
    registered, started, waited for and given a heartbeat loop, one after the
    other; only then do the background services and the HTTP server start;
    a signal takes everything down.  The service, the socket transport and the
    heartbeat receiver are the modelled ones; the process manager and the
    runtime installer are interfaces, as in the service.

    A call that waits is given what happens meanwhile.  The goroutines that
    are started stand in a list; what they do is modelled in their own files. *)
From S2P Require Import Prelude GoStrings Ipc RouteMap Worker Pool PoolManager Drainer Dispatcher DispatchFacts.
From S2P Require Import Runtime Lifecycle Uds Heartbeat Monitor Config FilePath.
Local Open Scope string_scope.
Local Open Scope list_scope.
Local Open Scope Z_scope.
Local Open Scope go_scope.

(** [ctx.Err()] of a context with an optional deadline, whose parent has been
    cancelled or not. *)
Definition ctx_err (deadline : option Z) (cancelled : bool) (now : Z) : option error :=
  if cancelled then Some Canceled
  else match deadline with
       | Some dl => if dl <=? now then Some DeadlineExceeded else None
       | None => None
       end.

(** The context of the signals, under which [run] starts everything. *)
Definition root : Context := 0%nat.

(** ** Names of workers *)

Definition buildWorkerID (baseID : string) (index replicas : Z) : string :=
  if 1 <? replicas then baseID +:+ "-" +:+ itoa index else baseID.
Definition buildWorkerIDs (baseID : string) (replicas : Z) : list string :=
  (fun i => buildWorkerID baseID i replicas) <$> seqZ 0 replicas.

Definition replicas_of (wcfg : WorkerConfig) : Z := if wc_Replicas wcfg <=? 0 then 1 else wc_Replicas wcfg.

(** The processes to start, in the order of the two loops. *)
Definition instances (ws : list WorkerConfig) : list (WorkerConfig * string) :=
  ws ≫= fun w => pair w <$> buildWorkerIDs (wc_ID w) (replicas_of w).

(** ** The collaborators of the service *)

#[export] Instance uds_endpoints {O} `{!SocketOS O} : Endpoints (Transport * O) := {
  Lifecycle.Register id t := let '(err, tr, o) := Uds.Register id t.1 t.2 in (err, (tr, o));
  Lifecycle.Deregister id t := let '(err, tr, o) := Uds.Deregister id t.1 t.2 in (err, (tr, o));
}.
#[export] Instance heartbeat_receiver : ReceiverStarter Receiver := {
  Lifecycle.RestartLoop := Heartbeat.RestartLoop;
}.

#[export] Instance WorkerConfig_eq_dec : EqDecision WorkerConfig.
Proof. solve_decision. Defined.

Section Main.
Context {M I O : Type} `{!WorkerManager M} `{!Installer I} `{!SocketOS O}.
(** The environment, [os.Getwd], whether [os.Stat] finds a file, and
    [json.Unmarshal] of a handshake. *)
Context (Getenv : string -> string) (Getwd : result string) (Stat : string -> bool).
Context (unmarshal : bytes -> result HandshakePayload).

Definition Core : Type := Service M (Transport * O) Receiver I.

(** ** A worker's command *)

Definition parseArgs : string -> list string := Runtime.Fields.

Definition resolveCommand (cmd : string) : string :=
  if IsAbs cmd then cmd
  else match Abs Getwd cmd with
       | Ok abs => if Stat abs then abs else cmd
       | Err _ => cmd
       end.

(** [args[0]] of no arguments. *)
Definition prepareWorkerCommand (wcfg : WorkerConfig) (workerID socketDir : string)
    : outcome (string * list string) :=
  match parseArgs (wc_Command wcfg) with
  | [] => Panic "index out of range"
  | arg :: cmdArgs => Ret (resolveCommand arg, cmdArgs ++ ["--vyx-socket"; Join [socketDir; workerID +:+ ".sock"]])
  end.

Definition resolveWorkerDir (wcfg : WorkerConfig) (configPath : string) : string :=
  let workDir := wc_WorkingDir wcfg in
  if negb (String.eqb workDir "") && negb (IsAbs workDir) then
    let workDir := Join [Dir configPath; workDir] in
    match Abs Getwd workDir with Ok abs => abs | Err _ => workDir end
  else workDir.

Definition getVyxDir : string := if String.eqb (Getenv "VYX_DIR") "" then ".vyx" else Getenv "VYX_DIR".

(** The deadline of [createSpawnContext]. *)
Definition spawn_deadline (startupTimeout now : Z) : option Z :=
  if 0 <? startupTimeout then Some (now + startupTimeout) else None.

(** ** The handshake

    An attempt: what happens to the transport while [Receive] waits (and until
    the next attempt, for what it leaves), when it returns, whether the signal
    has come by then and by the end of the pause, and the clock of the
    service.  The handler and the loop ask [ctx.Err()] at the same instant. *)
Record Try := mkTry {
  agenda : list Uds.Event;
  at_ : Z;
  signalled : bool;
  signalled_in_pause : bool;
  readings : nat -> nat -> Z;
}.
Definition retryInterval : Z := 500 * 10 ^ 6.

Definition receive_on (id : string) (evs : list Uds.Event) (s : Core) : outcome (result Message * option context_end * Core) :=
  match transport s with
  | None => Panic "nil pointer dereference"
  | Some t =>
      let '(got, ended, (rest, tr)) := Receive id evs t.1 in
      Ret (got, ended, with_transport (Some (foldl (fun tr e => happen e tr) tr rest, t.2)) s)
  end.

Definition handshake_timeout (id : string) (e : error) : error :=
  WrapErr ("handshake timeout for worker " +:+ id +:+ ": ") e "".

(** [ctx.Err()] after [Receive]: if that returned because the context ended,
    it has. *)
Definition ctx_after (deadline : option Z) (t : Try) (ended : option context_end) : option error :=
  match ctx_err deadline (signalled t) (at_ t), ended with
  | Some e, _ => Some e
  | None, Some ContextCanceled => Some Canceled
  | None, Some ContextDeadline => (fun _ => DeadlineExceeded) <$> deadline
  | None, None => None
  end.

(** The error of the loop, or [None] while it still waits: for the next
    attempt, or in a [Receive] that nothing comes for, with no deadline and no
    signal. *)
Fixpoint waitForHandshake (deadline : option Z) (id : string) (tries : list Try) (s : Core)
    : outcome (option (option error) * Core) :=
  match tries with
  | [] => Ret (None, s)
  | t :: tries' =>
      '(got, ended, s) ← receive_on id (agenda t) s;
      let ctx := ctx_after deadline t ended in
      if bool_decide (is_Some ended) && bool_decide (ctx = None) then Ret (None, s)
      else
        '(err, cs) ← Handle unmarshal None id got ctx (readings t, s);
        let s := cs.2 in
        match err, ctx with
        | None, _ => Ret (Some None, s)
        | Some _, Some e => Ret (Some (Some (handshake_timeout id e)), s)
        | Some _, None =>
            match ctx_err deadline (signalled_in_pause t) (at_ t + retryInterval) with
            | Some e => Ret (Some (Some (handshake_timeout id e)), s)
            | None => waitForHandshake deadline id tries' s
            end
        end
  end.

(** ** Starting a worker

    [tries] are the attempts at its handshake; [stop_clk] and [during] belong
    to the [StopWorker] when they fail. *)
Record Startup := mkStartup {
  begun : Z;
  spawn_clk : nat -> Z;
  tries : list Try;
  stop_clk : nat -> Z;
  during : list DrainEvent;
}.

(** The boolean: whether the wait is over. *)
Definition waitForWorkerHandshake (deadline : option Z) (id : string) (i : Startup) (s : Core)
    : outcome (bool * Core) :=
  '(over, s) ← waitForHandshake deadline id (tries i) s;
  match over with
  | None => Ret (false, s)
  | Some None => Ret (true, s)
  | Some (Some _) => '(_, s) ← StopWorker (stop_clk i) (during i) id s; Ret (true, s)
  end.

Definition startWorkerHeartbeat (id : string) (s : Core) : Core :=
  with_receiver (StartLoop root id <$> receiver s) s.

Definition spawnWorkerInstance (socketDir : string) (wcfg : WorkerConfig) (workerID : string) (i : Startup) (s : Core)
    : outcome (bool * Core) :=
  match transport s with
  | None => Panic "nil pointer dereference"
  | Some t =>
      match Lifecycle.Register workerID t with
      | (Some _, t) => Ret (true, with_transport (Some t) s)
      | (None, t) =>
          let s := with_transport (Some t) s in
          '(cmd, cmdArgs) ← prepareWorkerCommand wcfg workerID socketDir;
          let workDir := resolveWorkerDir wcfg (Getenv "VYX_CONFIG") in
          let deadline := spawn_deadline (wc_StartupTimeout wcfg) (begun i) in
          '(w, s) ← SpawnWorker Getenv (spawn_clk i)
                      (mkSpawnConfig workerID cmd cmdArgs workDir (wc_ShutdownTimeout wcfg)
                         (wc_RuntimeVersion wcfg) getVyxDir) s;
          match w with
          | Err _ => Ret (true, s)
          | Ok p =>
              '(over, s) ← waitForWorkerHandshake deadline workerID i s;
              if over : bool then Ret (true, startWorkerHeartbeat (ID (deref (hp s) p)) s)
              else Ret (false, s)
          end
      end
  end.

(** The two loops; [inputs k] belongs to the [k]-th instance. *)
Fixpoint spawn_each (socketDir : string) (insts : list (WorkerConfig * string)) (k : nat) (inputs : nat -> Startup)
    (s : Core) : outcome (bool * Core) :=
  match insts with
  | [] => Ret (true, s)
  | (wcfg, id) :: insts' =>
      '(over, s) ← spawnWorkerInstance socketDir wcfg id (inputs k) s;
      if over : bool then spawn_each socketDir insts' (S k) inputs s else Ret (false, s)
  end.

Definition DefaultSocketDir := "/tmp/vyx".
Definition socket_dir (cfg : Config.Config) : string :=
  if String.eqb (SocketDir (IPC cfg)) "" then DefaultSocketDir else SocketDir (IPC cfg).
Definition spawnWorkers (cfg : Config.Config) (inputs : nat -> Startup) (s : Core) : outcome (bool * Core) :=
  spawn_each (socket_dir cfg) (instances (Workers cfg)) 0 inputs s.

(** ** Starting everything *)

Inductive Goroutine := Tui | SigUsr1 | HotReload | HealthMonitor | ConfigWatcher | HeartbeatSender
  | HeartbeatReceiver | HttpServer.

(** The goroutines started so far: the last five after the workers. *)
Definition startServices (devMode withTUI : bool) (cfg : Config.Config) (inputs : nat -> Startup) (s : Core)
    : outcome (list Goroutine * Core) :=
  let first := (if withTUI then [Tui] else []) ++ [SigUsr1] ++ (if devMode then [HotReload] else []) in
  '(over, s) ← spawnWorkers cfg inputs s;
  Ret (first ++ (if over : bool then [HealthMonitor; ConfigWatcher; HeartbeatSender; HeartbeatReceiver; HttpServer]
                 else []), s).

(** ** Shutdown

    [http.Server.Shutdown] closes the listeners and asks again and again for
    the number of active connections until there are none or its context has
    ended: [polls] are the answers with the state of the context after each.
    [None]: it still waits. *)
Fixpoint http_Shutdown (polls : list (nat * option error)) : option (option error) :=
  match polls with
  | [] => None
  | (active, ctx) :: polls' =>
      if (active =? 0)%nat then Some None
      else match ctx with
           | Some e => Some (Some e)
           | None => http_Shutdown polls'
           end
  end.

(** [waitForShutdown] from the signal on.  The context of the shutdown is made
    from the one that the signal has cancelled, so it has ended as it is made:
    the first poll of the [active] connections is the only one, and every
    [Drain] finds its context over; [stop_during] is what else happens during
    the [i]-th of them.  [o1], [o2], [order]: the orders in which the runtime
    ranges over the maps of the transport and the repository. *)
Record ShutdownInputs := mkShutdown {
  active : nat;
  o1 : list string;
  o2 : list string;
  order : list string;
  clk : nat -> nat -> Z;
  stop_during : nat -> list DrainEvent;
}.
Record Stopped := mkStopped {
  http_err : option (option error);
  stop_err : option error;
  exit_code : Z;
  core : Core;
}.
Definition waitForShutdown (i : ShutdownInputs) (s : Core) : outcome Stopped :=
  let shutdownCtx := ctx_err None true 0 in
  let http := http_Shutdown [(active i, shutdownCtx)] in
  match transport s with
  | None => Panic "nil pointer dereference"
  | Some t =>
      let '(_, tr, o) := Uds.Close (o1 i) (o2 i) t.1 t.2 in
      '(err, s) ← StopAll (clk i) (fun n => EEnd ContextCanceled :: stop_during i n) (order i) (with_transport (Some (tr, o)) s);
      Ret (mkStopped http err (if err is Some _ then 1 else 0) s)
  end.

(** SIGUSR1 and the hot reload restart a worker under a context that they
    cancel when they are done.  With that context over, the restarted worker
    has no heartbeat loop - if there was but one before - and, as long as the
    goroutine of the loop that has just ended has not removed its entry, the
    receiver starts no other. *)
Theorem reloaded_worker_has_no_loop (past : list ReceiverCall) (ctx : Context) (over : list Context) (s s' : Core)
    (clk : nat -> Z) (during : list DrainEvent) (id : string) :
  let r := after_calls past NewReceiver in
  receiver s = Some r ->
  (forall j l, loops r !! j = Some l -> reads over id l -> running r !! id = Some j) -> ctx ∈ over ->
  RestartWorker ctx clk during id s = Ret (None, s') ->
  exists r', receiver s' = Some r' /\ reading over id r' = [] /\ StartLoop root id r' = r'.
Proof.
  intros r Hr Honly Hc HR. apply restart_rearms in HR. rewrite Hr in HR. cbn in HR.
  destruct (restarted_loop_dies (after_calls past NewReceiver) ctx over id (calls_recorded past) Honly Hc) as [H1 H2].
  eexists. split; [exact HR|]. by split.
Qed.
End Main.
