(* ===== verification/Startup.v ===== *)
(** * What the start of the program leaves behind

    Properties of [Main]: which workers can be reached after the start, what
    the start waits for, and for how long. *)
From S2P Require Import Prelude GoStrings Ipc RouteMap Circuit Worker Pool PoolManager Drainer Runtime Lifecycle.
From S2P Require Import Uds Heartbeat Monitor Config FilePath Main Gateway Dispatcher DispatchFacts.
Local Open Scope string_scope.
Local Open Scope list_scope.
Local Open Scope Z_scope.
Local Open Scope go_scope.

(** ** A name the transport does not know *)

Record unknown (id : string) (t : Uds.Transport) : Prop := {
  un_conn : connections t !! id = None;
  un_pending : Forall (fun kl => kl.1 <> id) (pending t);
}.

Lemma happen_unknown id (e : Uds.Event) t : unknown id t -> unknown id (happen e t).
Proof.
  intros [Hc Hp]. destruct e as [p|p err|k r|k|]; simpl; try by split.
  - destruct (pending t !! k) as [[x l]|] eqn:E; [|by split].
    assert (Forall (fun kl => kl.1 <> id) (delete k (pending t))) as Hp' by by apply Forall_delete.
    case_match; split; simpl; try done.
    rewrite lookup_insert_ne; [done|]. exact (Forall_lookup_1 _ _ _ _ Hp E).
  - destruct (pending t !! k) as [[x l]|] eqn:E; split; simpl; try done. by apply Forall_delete.
Qed.
Lemma events_unknown id es t : unknown id t -> unknown id (foldl (fun t e => happen e t) t es).
Proof. revert t. induction es as [|e es IH]; intros t Ht; simpl; [done|]. by apply IH, happen_unknown. Qed.

Lemma receive_unknown id ch x evs t : unknown id t -> unknown id (receive ch x evs t).2.2.
Proof.
  intros Ht. unfold receive. destruct (getConn x t) as [p|]; [|done].
  revert t Ht. induction evs as [|e evs IH]; intros t Ht; cbn [receiveFrom].
  - destruct (conns t !! p) as [c|]; [|done]. destruct (poll _ _ _) as [[r c']|]; [|done]. destruct Ht. by split.
  - destruct e; try done; (destruct (conns t !! p) as [c|]; [|done];
      destruct (poll _ _ _) as [[rr c']|]; [destruct Ht; by split|by apply IH, happen_unknown]).
Qed.

Lemma Register_unknown {O} `{SocketOS O} id x (t : Uds.Transport * O) :
  id <> x -> unknown id t.1 -> unknown id (Lifecycle.Register x t).2.1.
Proof.
  intros Hne [Hc Hp]. simpl. unfold Uds.Register.
  destruct (MkdirAll _ _) as [[e|] o]; [by split|]. destruct (Listen _ _) as [[e|] o']; [by split|].
  destruct (Chmod _ _) as [[e|] o'']; [by split|]. split; simpl; [done|].
  apply Forall_app. split; [done|]. by repeat constructor.
Qed.

Lemma Send_unknown id msg t : unknown id t -> Uds.Send id msg t = (Some (not_connected id), t).
Proof. intros [Hc _]. unfold Uds.Send, getConn. by rewrite Hc. Qed.

(** ** Requests for it *)

Section Dispatching.
Context {H : Type} (enc : Encoding).
Implicit Types (w : Dispatcher.World (T:=Wire) (H:=H)) (r : Dispatcher.Run (T:=Wire) (H:=H)) (d : Dispatcher (H:=H)).

(** The checks answer with a 503 or not at all. *)
Lemma checks_answer clk d key r resp r' :
  registry_ok (circuits (wd r)) -> Dispatcher.listeners d = [] -> checks clk d key r = Ret (Stop (Some resp), r') ->
  StatusCode resp = 503.
Proof.
  intros Hok Hls Hs. unfold checks in Hs.
  apply seq_inv in Hs as [(r1 & _ & Hs)|(x & [= <-] & Hs)].
  2: { destruct (checkCircuitBreaker_spec _ _ _ _ _ Hok Hs) as (_ & _ & _ & _ & _ & Hv).
       destruct (Allow _ _).1.1; [done|]. destruct Hv as (Hv & _).
       injection Hv as ->. reflexivity. }
  apply seq_inv in Hs as [(r2 & _ & Hs)|(x & [= <-] & Hs)];
    [|unfold runRouteMatchHooks in Hs; rewrite Hls in Hs; cbn in Hs; congruence].
  apply seq_inv in Hs as [(r3 & _ & Hs)|(x & [= <-] & Hs)];
    [|unfold checkDrainStatus in Hs; destruct (drainer _); [|done]; case_if; by simplify_eq].
  apply seq_inv in Hs as [(r4 & _ & Hs)|(x & [= <-] & Hs)];
    [|unfold validateJWT, refuse in Hs; by repeat (case_match; simplify_eq)].
  apply seq_inv in Hs as [(r5 & _ & Hs)|(x & [= <-] & Hs)];
    [|unfold validateSchema, refuse in Hs; by repeat (case_match; simplify_eq)].
  unfold runPreDispatchHooks in Hs. revert Hs. generalize (route r5), (on_lc (lc_phase PhasePreDispatch) r5).
  induction (hooks d) as [|hk hs IH]; intros rt r6; cbn [preDispatch_loop]; [done|].
  destruct (OnBeforeDispatch _ _ _ _ _) as [[[[e|] rq] rt'] h]; [done|]. apply IH.
Qed.

Definition no_pool (id : string) w : Prop :=
  forall pm, poolMgr w = Some pm -> GetPool (extractPrefix id) pm = None.

Lemma track_no_pool f id w : no_pool id w -> track f id w = w.
Proof. intros Hp. unfold track. destruct (poolMgr w) as [pm|] eqn:E; [|done]. by rewrite (Hp _ E). Qed.

Lemma on_breaker_rest {A} key (f : Breaker -> A * Breaker) w :
  wire (on_breaker key f w).2 = wire w /\ poolMgr (on_breaker key f w).2 = poolMgr w.
Proof. unfold on_breaker. destruct (Circuit.Get _ _). by destruct (f _). Qed.

Lemma sendAndReceive_unknown d now key r res r' :
  no_pool (re_workerID (route r)) (wd r) -> unknown (re_workerID (route r)) (wire (wd r)).2 ->
  sendAndReceive enc d now key r = Ret (res, r') ->
  res = Failed None /\ wire (wd r') = wire (wd r).
Proof.
  intros Hp Hu. unfold sendAndReceive.
  set (r0 := on_wd (fun w => (on_breaker key (fun b => (tt, b)) w).2) r).
  destruct (on_breaker_rest key (fun b => (tt, b)) (wd r)) as [Hw0 Hp0].
  assert (route r0 = route r) as Hr0 by done. set (id := re_workerID (route r)) in *. rewrite Hr0. fold id.
  assert (no_pool id (wd r0)) as Hnp by (intros pm Hpm; apply Hp; by rewrite <-Hp0).
  assert (selectWorker id (wd r0) = Ret (id, wd r0)) as ->.
  { unfold selectWorker. destruct (poolMgr (wd r0)) as [pm|] eqn:E; [|done]. by rewrite (Hnp _ E). }
  replace (if String.eqb id "" then id else id) with id by by destruct (String.eqb id "").
  destruct (buildIPCPayload _ _ _ _) as [payload|]; [|intros [= <- <-]; done].
  destruct (acquire _ _) as [r2|] eqn:Ea; [|done].
  assert (wire (wd r2) = wire (wd r) /\ poolMgr (wd r2) = poolMgr (wd r0)) as [Hw2 Hp2].
  { unfold acquire in Ea. case_match; [case_match; [|done]|]; simplify_eq; done. }
  assert (no_pool id (wd r2)) as Hnp2 by (intros pm Hpm; apply Hnp; by rewrite <-Hp2).
  set (r3 := on_wd (track IncrementActiveReqs id) r2).
  assert (wd r3 = wd r2) as Hr3 by by apply track_no_pool.
  unfold exchange. cbn [Dispatcher.Send uds_wire]. rewrite Hr3, Hw2.
  rewrite Send_unknown by done. unfold handleSendError.
  match goal with |- context [worker_failed d now key id ?e ?rf] =>
    destruct (worker_failed_frame d now key id e rf) as ((_ & Hp4 & _) & Hw4 & _) end.
  intros [= <- <-]. split; [done|]. cbn [on_wd wd] in *. rewrite track_no_pool.
  - rewrite Hw4. simpl. by destruct (wire (wd r)).
  - intros pm Hpm. apply Hnp2. rewrite <-Hr3, <-Hpm. by rewrite Hp4.
Qed.

(** Nothing is sent and nobody answers for the worker. *)
Definition unserved w (reply : Dispatcher.Reply (T:=Wire) (H:=H)) : Prop :=
  wire (wd (final reply)) = wire w /\ forall resp, response reply = Some resp -> StatusCode resp = 503.

Lemma Dispatch_unknown clk uuid d rq w res reply :
  registry_ok (circuits w) -> Dispatcher.listeners d = [] ->
  Lookup (routes d) (Method rq) (Path rq) = Some res ->
  no_pool (re_workerID (lr_entry res)) w -> unknown (re_workerID (lr_entry res)) (wire w).2 ->
  Dispatch enc clk uuid d rq w = Ret reply -> unserved w reply.
Proof.
  intros Hok Hls EL Hnp Hu HD. pose proof (Dispatch_eq enc clk uuid d rq w) as HE. rewrite EL in HE.
  destruct HE as (r0 & [Hwd Hrt _ _ _ _ _] & HE). rewrite HE in HD. clear HE.
  set (key := routeKey _ _) in *. destruct (breaker_at_get key w Hok) as (_ & Hok0 & _).
  destruct (on_breaker_rest key (fun b => (tt, b)) w) as [Hw0 Hp0]. rewrite <-Hwd in Hok0, Hw0, Hp0.
  destruct (serve _ _ _ _ _ _) as [rep|] eqn:Es; [|done]. injection HD as <-. unfold unserved. cbn [response final].
  rewrite notified_wire, <-Hw0. unfold serve in Es.
  destruct (checks clk d key r0) as [[v r1]|] eqn:Ec; [|done].
  assert (Forall transparent (Dispatcher.listeners d)) as Htr by by rewrite Hls.
  destruct (checks_spec _ _ _ _ _ _ Hok0 Htr Ec) as (Ho & _ & _ & Hr1 & _).
  destruct (only_circuits_fields _ _ Ho) as (_ & Hp1 & _ & Hw1).
  destruct v as [|x].
  - destruct (sendAndReceive _ _ _ _ _) as [[res3 r3]|] eqn:Esr; [|done].
    assert (route r1 = lr_entry res) as Hrt1 by (unfold route; rewrite Hr1; exact Hrt).
    destruct (sendAndReceive_unknown _ _ _ _ _ _ ltac:(rewrite Hrt1; intros pm; rewrite Hp1, Hp0; apply Hnp)
      ltac:(by rewrite Hrt1, Hw1, Hw0) Esr) as [-> Hw3].
    destruct (releaseInFlight r3) as [r4|] eqn:Er; [|done]. injection Es as <-. cbn [response final].
    split; [|done]. rewrite <-Hw1, <-Hw3. unfold releaseInFlight in Er. by repeat (case_match; simplify_eq).
  - injection Es as <-. cbn [response final]. split; [done|]. intros resp ->. by eapply checks_answer.
Qed.
End Dispatching.

(** ** What the start touches *)

Section Start.
Context {M I O : Type} `{!WorkerManager M} `{!Installer I} `{!SocketOS O}.
Context (Getenv : string -> string) (Getwd : result string) (Stat : string -> bool).
Context (unmarshal : bytes -> result HandshakePayload).
Implicit Types s : Core (M:=M) (I:=I) (O:=O).

(** The transport and the pools, which the service's own operations on one
    process leave alone. *)
Definition outside s := (Lifecycle.transport s, Lifecycle.poolMgr s).

Lemma find_outside id p s s' : find id s = (p, s') -> outside s' = outside s.
Proof. unfold find. destruct (Repository.FindByID _ _) as [q hr]. by intros [= <- <-]. Qed.

Lemma SpawnWorker_outside clk cfg s res s' :
  SpawnWorker Getenv clk cfg s = Ret (res, s') -> outside s' = outside s.
Proof.
  unfold SpawnWorker, SpawnWorkerWithReplicas. destruct (String.eqb _ _); [by intros [= <- <-]|].
  destruct (provision Getenv cfg s) as [[cmd s1]|] eqn:Ep; [|done]. cbn.
  assert (outside s1 = outside s) as <-.
  { unfold provision in Ep. destruct (String.eqb _ _); [by simplify_eq|].
    destruct (NeedsProvisioning _ _) as [[]|]; cbn in Ep; [|by simplify_eq|done].
    destruct (Ensure _ _ _ _) as [[e|] i]; [by simplify_eq|]. by case_match; simplify_eq. }
  destruct cmd as [command|e]; [|by intros [= <- <-]].
  unfold start.
  assert (forall p (x : Core (M:=M) (I:=I) (O:=O)), outside (spawn_process p x).2 = outside x) as Hsp.
  { intros q x. unfold spawn_process. by destruct (Spawn _ _). }
  set (p := next _). set (s2 := save p _). specialize (Hsp p s2).
  destruct (spawn_process p s2) as [[e|] s3]; cbn [snd] in Hsp;
    (destruct (Lifecycle.poolMgr s2); [cbn|]; intros [= <- <-]; exact Hsp).
Qed.

Lemma StopWorker_outside clk dur id s res s' : StopWorker clk dur id s = Ret (res, s') -> outside s' = outside s.
Proof.
  unfold StopWorker. destruct (find id s) as [[p|] s1] eqn:Ef; apply find_outside in Ef;
    [|by intros [= <- <-]].
  destruct (drain id dur s1) as [[e s2]|] eqn:Ed; [|done]. cbn.
  assert (outside s2 = outside s) as Hs2.
  { rewrite <-Ef. unfold drain in Ed. destruct (Lifecycle.drainer s1); [|by simplify_eq].
    destruct (Drain _ _ _) as [[[er l] d']|]; [|done]. by simplify_eq. }
  set (s3 := if e is Some _ then _ else s2). assert (outside s3 = outside s) as Hs3 by (unfold s3; by destruct e).
  unfold stop_process. destruct (PoolManager.Stop id _) as [[er|] m]; intros [= <- <-]; [done|].
  unfold cleanup. by case_match.
Qed.

Lemma MarkRunning_outside clk id s : outside (Lifecycle.MarkRunning clk id s).2 = outside s.
Proof.
  unfold Lifecycle.MarkRunning. destruct (find id s) as [[p|] s1] eqn:Ef; apply find_outside in Ef; [|done].
  by case_if.
Qed.

Lemma Handle_outside routes x rcv ctx c s err cs :
  Handle unmarshal routes x rcv ctx (c, s) = Ret (err, cs) -> outside cs.2 = outside s.
Proof.
  unfold Handle. destruct rcv as [msg|e]; [|by intros [= <- <-]]. case_decide; [|by intros [= <- <-]].
  destruct (unmarshal _) as [payload|e]; [|by intros [= <- <-]].
  destruct (validateCapabilities _ _) as [u|e]; [|done]. cbn.
  pose proof (MarkRunning_outside (c 0%nat) x s) as Hm.
  destruct (Lifecycle.MarkRunning (c 0%nat) x s) as [e s1]. by intros [= <- <-].
Qed.

(** [id] is not known to the transport, and the pools are [pm]. *)
Definition left_out (id : string) (pm : option Manager) s : Prop :=
  Lifecycle.poolMgr s = pm /\ exists t, Lifecycle.transport s = Some t /\ unknown id t.1.

Lemma left_out_outside id pm s s' : outside s' = outside s -> left_out id pm s -> left_out id pm s'.
Proof. unfold outside, left_out. intros [= Ht Hp]. by rewrite Ht, Hp. Qed.

Lemma receive_on_left_out id pm x evs s got s' :
  left_out id pm s -> receive_on x evs s = Ret (got, s') -> left_out id pm s'.
Proof.
  intros (Hp & t & Ht & Hu). unfold receive_on. rewrite Ht.
  pose proof (receive_unknown id Heartbeats x evs t.1 Hu) as Hr. fold Receive in Hr.
  destruct (Receive x evs t.1) as [[g e] [rest tr]]. intros [= <- <-].
  split; [done|]. eexists. split; [reflexivity|]. by apply events_unknown.
Qed.

Lemma waitForHandshake_left_out id pm dl x ts s over s' :
  left_out id pm s -> waitForHandshake unmarshal dl x ts s = Ret (over, s') -> left_out id pm s'.
Proof.
  revert s. induction ts as [|t ts IH]; intros s Hl; cbn [waitForHandshake]; [by intros [= <- <-]|].
  destruct (receive_on x (agenda t) s) as [[[got ex] s1]|] eqn:Er; [|done]. cbn.
  pose proof (receive_on_left_out _ _ _ _ _ _ _ Hl Er) as Hl1.
  case_if; [by intros [= <- <-]|].
  destruct (Handle _ _ _ _ _ _) as [[err [c s2]]|] eqn:Eh; [|done]. cbn.
  pose proof (left_out_outside id pm _ _ (Handle_outside _ _ _ _ _ _ _ _ Eh) Hl1) as Hl2.
  destruct err as [e|]; [|by intros [= <- <-]].
  destruct (ctx_after _ _ _); [by intros [= <- <-]|]. destruct (ctx_err _ _ _); [by intros [= <- <-]|]. by apply IH.
Qed.

Lemma spawnWorkerInstance_left_out id pm dir wcfg x i s over s' :
  id <> x -> left_out id pm s ->
  spawnWorkerInstance Getenv Getwd Stat unmarshal dir wcfg x i s = Ret (over, s') -> left_out id pm s'.
Proof.
  intros Hne (Hp & t & Ht & Hu). unfold spawnWorkerInstance. rewrite Ht.
  pose proof (Register_unknown id x t Hne Hu) as Hr.
  destruct (Lifecycle.Register x t) as [[e|] t1].
  { intros [= <- <-]. split; [done|]. by exists t1. }
  assert (left_out id pm (with_transport (Some t1) s)) as Hl1 by (split; [done|by exists t1]).
  destruct (prepareWorkerCommand _ _ _ _ _) as [[cmd args]|]; [|done]. cbn [mbind outcome_mbind outcome_bind].
  destruct (SpawnWorker _ _ _ _) as [[w s2]|] eqn:Es; [|done]. cbn [mbind outcome_mbind outcome_bind].
  pose proof (left_out_outside id pm _ _ (SpawnWorker_outside _ _ _ _ _ Es) Hl1) as Hl2.
  destruct w as [p|e]; [|by intros [= <- <-]].
  unfold waitForWorkerHandshake.
  destruct (waitForHandshake _ _ _ _ _) as [[ov s3]|] eqn:Ew; [|done]. cbn.
  pose proof (waitForHandshake_left_out _ _ _ _ _ _ _ _ Hl2 Ew) as Hl3.
  destruct ov as [[e|]|]; cbn; [|by intros [= <- <-]..].
  destruct (StopWorker _ _ _ _) as [[er s4]|] eqn:Est; [|done]. cbn. intros [= <- <-].
  exact (left_out_outside id pm _ _ (StopWorker_outside _ _ _ _ _ _ Est) Hl3).
Qed.

Lemma spawn_each_left_out id pm dir insts k inputs s over s' :
  id ∉ insts.*2 -> left_out id pm s ->
  spawn_each Getenv Getwd Stat unmarshal dir insts k inputs s = Ret (over, s') -> left_out id pm s'.
Proof.
  revert k s. induction insts as [|[wcfg x] insts IH]; intros k s Hid Hl; cbn [spawn_each]; [by intros [= <- <-]|].
  rewrite fmap_cons, not_elem_of_cons in Hid. destruct Hid as [Hne Hid].
  destruct (spawnWorkerInstance _ _ _ _ _ _ _ _ _) as [[ov s1]|] eqn:E; [|done]. cbn.
  pose proof (spawnWorkerInstance_left_out _ _ _ _ _ _ _ _ _ Hne Hl E) as Hl1.
  destruct ov; [by apply IH|by intros [= <- <-]].
Qed.
(** ** Replicas *)

Lemma replica_differs (base : string) (i n : Z) : 1 < n -> buildWorkerID base i n <> base.
Proof.
  intros Hn. unfold buildWorkerID. rewrite (proj2 (Z.ltb_lt _ _) Hn). intros Heq%(f_equal String.length).
  rewrite !length_app_str in Heq. simpl in Heq. lia.
Qed.

Lemma instances_names (ws : list WorkerConfig) (id : string) :
  id ∈ (instances ws).*2 <-> exists w, w ∈ ws /\ id ∈ buildWorkerIDs (wc_ID w) (replicas_of w).
Proof.
  unfold instances. rewrite list_elem_of_fmap. split.
  - intros ([w x] & -> & (w' & Hx & Hw')%list_elem_of_bind). apply list_elem_of_fmap in Hx as (y & [= -> ->] & Hy).
    by exists w'.
  - intros (w & Hw & Hid). exists (w, id). split; [done|]. apply list_elem_of_bind. exists w. split; [|done].
    by apply list_elem_of_fmap_2.
Qed.

(** C13: Replicas make a worker unreachable.  The program starts the replicas of
    a worker under names of their own and never makes a pool of them, while
    the routes carry the worker's name: when a worker is configured with two
    replicas or more, then after the start, whatever happened to the
    connections, no request for its routes is ever sent to anybody, and none
    is answered otherwise than with 503. *)
Theorem replicated_worker_unreachable {H} (enc : Encoding) (cfg : Config.Config) (wcfg : WorkerConfig)
    (devMode withTUI : bool) (inputs : nat -> Startup) s0 gs s (dir : string) (o : O) (pm : Manager)
    (t : Uds.Transport * O) (later : list Uds.Event) (clk : nat -> Z) (uuid : string) (d : Dispatcher (H:=H))
    (rq : GatewayRequest) (w : Dispatcher.World (T:=Wire) (H:=H)) (res : LookupResult) reply :
  wcfg ∈ Workers cfg -> 1 < wc_Replicas wcfg ->
  (forall other, other ∈ Workers cfg -> other <> wcfg ->
     wc_ID wcfg ∉ buildWorkerIDs (wc_ID other) (replicas_of other)) ->
  Lifecycle.transport s0 = Some (Uds.New dir, o) -> Lifecycle.poolMgr s0 = Some pm -> pools pm = ∅ ->
  startServices Getenv Getwd Stat unmarshal devMode withTUI cfg inputs s0 = Ret (gs, s) ->
  Lifecycle.transport s = Some t -> (wire w).2 = foldl (fun t e => happen e t) t.1 later ->
  Dispatcher.poolMgr w = Lifecycle.poolMgr s ->
  registry_ok (circuits w) -> listeners d = [] ->
  Lookup (routes d) (Method rq) (Path rq) = Some res -> re_workerID (lr_entry res) = wc_ID wcfg ->
  Dispatch enc clk uuid d rq w = Ret reply -> unserved w reply.
Proof.
  intros Hin Hrep Hother Ht0 Hp0 Hpm Hstart Ht Hwire Hpw Hok Hls EL Hid.
  assert (left_out (wc_ID wcfg) (Some pm) s) as (Hps & t' & Ht' & Hu).
  { unfold startServices, spawnWorkers in Hstart.
    destruct (spawn_each _ _ _ _ _ _ _ _ s0) as [[over s1]|] eqn:E; [|done]. cbn in Hstart. injection Hstart as _ <-.
    eapply spawn_each_left_out; [| |exact E].
    - intros (x & Hx & Hxid)%instances_names. destruct (decide (x = wcfg)) as [->|Hne].
      + apply list_elem_of_fmap in Hxid as (i & Hi & _). revert Hi. unfold replicas_of.
        rewrite (proj2 (Z.leb_gt _ _)) by lia. intros Hi. symmetry in Hi. by apply replica_differs in Hi.
      + by apply (Hother x).
    - split; [done|]. exists (Uds.New dir, o). split; [done|]. split; [done|by constructor]. }
  rewrite Ht in Ht'. injection Ht' as <-.
  apply (Dispatch_unknown enc clk uuid d rq w res reply Hok Hls EL); rewrite Hid.
  - intros pm' Hpm'. rewrite Hpw, Hps in Hpm'. injection Hpm' as <-. unfold GetPool. by rewrite Hpm.
  - rewrite Hwire. by apply events_unknown.
Qed.
(** ** What the start waits for *)

(** The attempts follow each other at the pace of the pauses. *)
Fixpoint paced (from : Z) (ts : list Try) : Prop :=
  match ts with
  | [] => True
  | t :: ts' => from <= at_ t /\ paced (at_ t + retryInterval) ts'
  end.

Lemma wait_bounded (dl from : Z) (id : string) (ts : list Try) s r s' :
  from < dl -> paced from ts -> dl - from <= Z.of_nat (length ts) * retryInterval ->
  waitForHandshake unmarshal (Some dl) id ts s = Ret (r, s') -> r <> None.
Proof.
  unfold retryInterval. revert from s. induction ts as [|t ts IH]; intros from s Hlt Hp Hlen; cbn [waitForHandshake].
  - cbn [length] in Hlen. lia.
  - destruct Hp as [Hat Hp]. cbn [length] in Hlen.
    destruct (receive_on id (agenda t) s) as [[[got ex] s1]|]; [|done]. cbn.
    destruct (_ && _) eqn:Ex.
    + apply andb_true_iff in Ex as [[end_ ->]%bool_decide_eq_true Hnone%bool_decide_eq_true]. exfalso.
      revert Hnone. unfold ctx_after. by destruct (ctx_err _ _ _), end_.
    + destruct (Handle _ _ _ _ _ _) as [[err cs]|]; [|done]. cbn.
      destruct err as [e|]; [|by intros [= <- <-]].
      destruct (ctx_after _ _ _); [by intros [= <- <-]|].
      destruct (ctx_err _ _ _) eqn:Ec; [by intros [= <- <-]|].
      unfold ctx_err, retryInterval in Ec. destruct (signalled_in_pause t); [done|].
      destruct (_ <=? _) eqn:Hle; [done|]. bool_to_prop. apply (IH (at_ t + 500 * 10 ^ 6)); [lia|done|lia].
Qed.

(** C27: The wait for a handshake ends.  With a startup timeout the loop is over
    after [timeout / 500 ms] attempts, rounded up, whatever the worker does:
    it returns nil or gives up. *)
Theorem handshake_wait_bounded (timeout now : Z) (id : string) (ts : list Try) s r s' :
  0 < timeout -> paced now ts -> timeout <= Z.of_nat (length ts) * retryInterval ->
  waitForHandshake unmarshal (spawn_deadline timeout now) id ts s = Ret (r, s') -> exists err, r = Some err.
Proof.
  intros Ht Hp Hlen. unfold spawn_deadline. rewrite (proj2 (Z.ltb_lt _ _) Ht). intros Hw.
  destruct r as [err|]; [by exists err|]. by apply (wait_bounded _ now) in Hw; [|lia|done|lia].
Qed.

Definition no_signal (ts : list Try) : Prop :=
  Forall (fun t => signalled t = false /\ signalled_in_pause t = false /\ EDone ContextCanceled ∉ agenda t) ts.

Lemma receive_cancelled id evs s got s1 :
  receive_on id evs s = Ret (got, Some ContextCanceled, s1) -> EDone ContextCanceled ∈ evs.
Proof.
  unfold receive_on, Receive, receive. destruct (Lifecycle.transport s) as [[t o]|]; [|done].
  cbn [fst snd]. destruct (getConn id t) as [p|]; [|done].
  enough (forall t, (receiveFrom id Heartbeats p evs t).1.2 = Some ContextCanceled -> EDone ContextCanceled ∈ evs) as Hr.
  { specialize (Hr t). destruct (receiveFrom _ _ _ _ _) as [[g e] [rest tr]]. intros [= _ -> _]. by apply Hr. }
  clear t. induction evs as [|e evs IH]; intros t; cbn [receiveFrom].
  - destruct (conns t !! p); [|done]. by destruct (poll _ _ _) as [[]|].
  - destruct e as [| | | |[]]; try (destruct (conns t !! p); [|done]; destruct (poll _ _ _) as [[]|]; [done|]; right; by eapply IH).
    all: intros [=]; by left.
Qed.

Lemma no_timeout_waits id ts s e s' :
  no_signal ts -> waitForHandshake unmarshal None id ts s <> Ret (Some (Some e), s').
Proof.
  intros Hts. revert s. induction Hts as [|t ts (H1 & H2 & H3) Hts IH]; intros s; cbn [waitForHandshake]; [done|].
  destruct (receive_on id (agenda t) s) as [[[got ex] s1]|] eqn:Er; [|done]. cbn. case_if; [done|].
  destruct (Handle _ _ _ _ _ _) as [[err cs]|]; [|done]. cbn. destruct err as [e1|]; [|done].
  unfold ctx_after. rewrite H1, H2. cbn. destruct ex as [[]|]; [|apply IH..]. by apply receive_cancelled in Er.
Qed.

(** How the turn of an instance ends: its socket cannot be set up or its
    process not be started, its handshake comes, or the wait gives up. *)
Inductive Turn := Unstarted | Shaken | GaveUp.
Inductive turn_over (wcfg : WorkerConfig) (id : string) (i : Startup) : Turn -> Prop :=
  | no_socket (t : Uds.Transport * O) e t' : Lifecycle.Register id t = (Some e, t') -> turn_over wcfg id i Unstarted
  | no_process cfg (s : Core (M:=M) (I:=I) (O:=O)) e s' :
      SpawnWorker Getenv (spawn_clk i) cfg s = Ret (Err e, s') -> turn_over wcfg id i Unstarted
  | waited (s : Core (M:=M) (I:=I) (O:=O)) err s' :
      waitForHandshake unmarshal (spawn_deadline (wc_StartupTimeout wcfg) (begun i)) id (tries i) s = Ret (Some err, s') ->
      turn_over wcfg id i (if err is Some _ then GaveUp else Shaken).

Lemma instance_turn dir wcfg id i s s' :
  spawnWorkerInstance Getenv Getwd Stat unmarshal dir wcfg id i s = Ret (true, s') ->
  exists e, turn_over wcfg id i e.
Proof.
  unfold spawnWorkerInstance. destruct (Lifecycle.transport s) as [t|]; [|done].
  destruct (Lifecycle.Register id t) as [[e|] t1] eqn:Er; [intros _; eexists; by eapply no_socket|].
  destruct (prepareWorkerCommand _ _ _ _ _) as [[cmd args]|]; [|done]. cbn [mbind outcome_mbind outcome_bind].
  destruct (SpawnWorker _ _ _ _) as [[w s2]|] eqn:Es; [|done]. cbn [mbind outcome_mbind outcome_bind].
  destruct w as [p|e]; [|intros _; eexists; by eapply no_process].
  unfold waitForWorkerHandshake.
  destruct (waitForHandshake _ _ _ _ _) as [[ov s3]|] eqn:Ew; [|done]. cbn.
  destruct ov as [err|]; [|done]. intros _. eexists. by eapply waited.
Qed.

Lemma each_turn dir insts k inputs s s' j wcfg id :
  spawn_each Getenv Getwd Stat unmarshal dir insts k inputs s = Ret (true, s') ->
  insts !! j = Some (wcfg, id) -> exists e, turn_over wcfg id (inputs (k + j)%nat) e.
Proof.
  revert k s j. induction insts as [|[wcfg0 x] insts IH]; intros k s j; cbn [spawn_each]; [done|].
  destruct (spawnWorkerInstance _ _ _ _ _ _ _ _ _) as [[[] s1]|] eqn:E; [|done..]. cbn.
  intros Hrun Hj. destruct j as [|j]; simpl in Hj.
  - injection Hj as -> ->. rewrite Nat.add_0_r. by eapply instance_turn.
  - rewrite Nat.add_succ_r, <-Nat.add_succ_l. by eapply IH.
Qed.

(** The gateway starts after its workers.  The HTTP server is started - with
    the monitor, the heartbeats and the watch for configuration changes - only
    when the turn of every configured worker instance is over; and the turn of
    one that has no startup timeout does not end with the wait given up: until
    a signal comes it is waited for as long as it takes, and one such worker
    that starts and sends no handshake keeps the whole gateway from starting. *)
Theorem http_server_waits_for_workers (cfg : Config.Config) (devMode withTUI : bool) (inputs : nat -> Startup)
    s0 gs s (k : nat) (wcfg : WorkerConfig) (id : string) :
  startServices Getenv Getwd Stat unmarshal devMode withTUI cfg inputs s0 = Ret (gs, s) ->
  HttpServer ∈ gs -> instances (Workers cfg) !! k = Some (wcfg, id) ->
  exists e, turn_over wcfg id (inputs k) e /\
    (wc_StartupTimeout wcfg <= 0 -> no_signal (tries (inputs k)) -> e <> GaveUp).
Proof.
  unfold startServices, spawnWorkers.
  destruct (spawn_each _ _ _ _ _ _ _ _ s0) as [[[] s1]|] eqn:E; [| |done]; cbn.
  - intros _ _ Hk. destruct (each_turn _ _ _ _ _ _ _ _ _ E Hk) as [e He]. exists e. split; [exact He|].
    intros Ht Hns ->. inversion He as [| |s2 err s3 Hw]. destruct err as [err|]; [|done].
    unfold spawn_deadline in Hw. rewrite (proj2 (Z.ltb_ge _ _) Ht) in Hw. by apply no_timeout_waits in Hw.
  - intros [= <- <-]. destruct withTUI, devMode; cbn; set_solver.
Qed.

(** ** Shutdown *)

Lemma close_conn_idemp c : close_conn (close_conn c) = close_conn c.
Proof. done. Qed.

Lemma drop_conns_closed ids (t : Uds.Transport) p c :
  Uds.conns t !! p = Some c \/ Uds.conns t !! p = Some (close_conn c) ->
  (exists id, id ∈ ids /\ connections t !! id = Some p) \/ Uds.conns t !! p = Some (close_conn c) ->
  Uds.conns (foldl (fun t id => drop_conn id t) t ids) !! p = Some (close_conn c).
Proof.
  revert t. induction ids as [|x ids IH]; intros t Hc Hor; simpl.
  - destruct Hor as [(id & Hin & _)|?]; [|done]. by apply not_elem_of_nil in Hin.
  - assert (Uds.conns (drop_conn x t) !! p = if decide (connections t !! x = Some p) then close_conn <$> Uds.conns t !! p
            else Uds.conns t !! p) as Hd.
    { unfold drop_conn. destruct (connections t !! x) as [q|]; cbn; [|done].
      case_decide as E; [injection E as ->; by rewrite list_lookup_alter_eq|].
      rewrite list_lookup_alter_ne; [done|]. congruence. }
    apply IH; rewrite Hd; case_decide as E.
    + right. by destruct Hc as [->| ->].
    + done.
    + right. by destruct Hc as [->| ->].
    + destruct Hor as [(id & [->|Hin]%elem_of_cons & Hid)|?]; [done|left|by right].
      exists id. split; [done|]. unfold drop_conn. destruct (connections t !! x) as [q|] eqn:Eq; cbn; [|done].
      rewrite lookup_delete_ne; [done|]. congruence.
Qed.

Lemma drop_listeners_conns ids (t : Uds.Transport) :
  Uds.conns (foldl (fun t id => drop_listener id t) t ids) = Uds.conns t.
Proof.
  revert t. induction ids as [|x ids IH]; intros t; simpl; [done|]. rewrite IH. unfold drop_listener. by case_match.
Qed.

Lemma each_alive_outside act i ws lastErr s r s' :
  (forall i id s r s', act i id s = Ret (r, s') -> outside s' = outside s) ->
  each_alive act i ws lastErr s = Ret (r, s') -> outside s' = outside s.
Proof.
  intros Hact. revert i lastErr s. induction ws as [|x ws IH]; intros i lastErr s; cbn [each_alive]; [by intros [= <- <-]|].
  case_if; [|apply IH]. destruct (act _ _ _) as [[e s1]|] eqn:E; [|done]. cbn. intros Hr.
  rewrite <-(Hact _ _ _ _ _ E). by eapply IH.
Qed.

(** C26: A signal cuts the requests off.  The context of the shutdown is made from
    the one that the signal has cancelled: with requests under way the HTTP
    server gives up waiting for them at once, the connections to the workers
    are closed, and whoever waits for an answer that has not arrived gets an
    error in its place; the exit code still says that all went well if the
    processes could be stopped. *)
Theorem shutdown_cuts_requests (i : ShutdownInputs) s st (t : Uds.Transport * O) (id : string) (p : nat) (c : conn) :
  waitForShutdown i s = Ret st -> (0 < active i)%nat -> Lifecycle.transport s = Some t ->
  connections t.1 !! id = Some p -> Uds.conns t.1 !! p = Some c -> id ∈ o1 i -> responseCh c = [] ->
  http_err st = Some (Some Canceled) /\ (exit_code st = 0 <-> stop_err st = None) /\
  exists t', Lifecycle.transport (core st) = Some t' /\
    forall rest, exists e, (receiveFrom id Responses p (EPump p :: rest) t'.1).1.1 = Err e.
Proof.
  intros Hw Ha Ht Hid Hp Ho Hq. unfold waitForShutdown in Hw. rewrite Ht in Hw.
  destruct (Uds.Close (o1 i) (o2 i) t.1 t.2) as [[e tr] o] eqn:Ec.
  destruct (StopAll _ _ _ _) as [[r s1]|] eqn:Es; [|done]. cbn in Hw. injection Hw as <-. cbn [http_err stop_err exit_code core].
  split_and!.
  - by rewrite (proj2 (Nat.eqb_neq (active i) 0)) by lia.
  - by destruct r.
  - unfold StopAll, all_alive in Es. destruct (Repository.FindAll _ _) as [ws hr].
    apply each_alive_outside in Es; [|intros ? ? ? ? ?; apply StopWorker_outside].
    assert (Lifecycle.transport s1 = Some (tr, o)) as -> by by injection Es.
    eexists. split; [reflexivity|]. intros rest.
    assert (Uds.conns tr !! p = Some (close_conn c)) as Hc.
    { unfold Uds.Close in Ec. injection Ec as _ <- _. rewrite drop_listeners_conns.
      apply drop_conns_closed; [by left|]. left. by exists id. }
    assert (Uds.conns (happen (EPump p) tr) !! p = Some (pump (close_conn c))) as Hc'.
    { cbn. by rewrite list_lookup_alter_eq, Hc. }
    assert (chan Responses (pump (close_conn c)) = [] /\ chClosed (pump (close_conn c)) = true) as [Hch Hcl].
    { unfold pump. cbn [close_conn chClosed closed chan responseCh]. destruct (chClosed c) eqn:E; by rewrite ?E, ?Hq. }
    cbn [receiveFrom fst]. rewrite Hc. destruct (poll id Responses (close_conn c)) as [[x c']|] eqn:Epoll.
    + unfold poll in Epoll. cbn [chan close_conn responseCh] in Epoll. rewrite Hq in Epoll.
      revert Epoll. case_match; [intros [= <- <-]; by eexists|done].
    + assert (exists e, poll id Responses (pump (close_conn c)) = Some (Err e, pump (close_conn c))) as [er Hpoll].
      { unfold poll. rewrite Hch, Hcl. by eexists. }
      destruct rest as [|ev rest]; cbn [receiveFrom]; rewrite Hc', ?Hpoll; [by eexists|].
      destruct ev; rewrite ?Hc', ?Hpoll; by eexists.
Qed.
End Start.

(** ** A small configuration

    [n] replicas of the worker behind the demo routes; every instance connects
    and shakes hands between its first and its second attempt. *)
#[export] Instance willing_os : SocketOS unit := {
  MkdirAll _ o := (None, o);
  Remove _ o := o;
  Listen _ o := (None, o);
  Chmod _ o := (None, o);
}.
Definition admin_worker (replicas startupTimeout : Z) : WorkerConfig :=
  Config.mkWorkerConfig "node:admin" "node server.js" "" "" replicas "round-robin" 0 startupTimeout 0.
Definition one_worker (w : WorkerConfig) : Config.Config :=
  Config.mkConfig (mkProject "demo" "1") [w] (Security Defaults) (IPC Defaults) (Build Defaults).

Definition late_try (t : Z) (evs : list Uds.Event) : Try := mkTry evs t false false (fun i => tick (t + Z.of_nat i)).
Definition hello : reader := [frame (mkMessage TypeHandshake [])].
Definition shakes_hands (k : nat) : Startup :=
  mkStartup 0 (tick 10) [late_try 20 [EAccept 0 hello]; late_try (20 + retryInterval) [EPump k]] (tick 30) [].
Definition never_connects (k : nat) : Startup :=
  mkStartup 0 (tick 10) [late_try 20 []; late_try (20 + retryInterval) []] (tick 30) [].

Definition new_core : Core (M:=Log) (I:=unit) (O:=unit) :=
  Lifecycle.mkService (mkHeap (fun _ => blank) 0%nat) Repository.NewMemoryWorkerRepository [] []
    (Some (Uds.New "/tmp/vyx", tt)) (Some NewReceiver) (Some NewWorkerDrainer) (Some NewManager) tt.
Definition demo_hello (_ : bytes) : result HandshakePayload := Ok (mkHandshake "node:admin" []).
Definition demo_start (w : WorkerConfig) (inputs : nat -> Startup) : outcome (list Goroutine * Core) :=
  startServices skip_runtime (Ok "/srv/app") (fun _ => false) demo_hello false false (one_worker w) inputs new_core.
Definition started (w : WorkerConfig) (inputs : nat -> Startup) : list Goroutine * Core :=
  match demo_start w inputs with Ret x => x | Panic _ => ([], new_core) end.

Definition returns {A} (o : outcome A) : bool := match o with Ret _ => true | Panic _ => false end.
Definition present {A} (o : option A) : bool := match o with Some _ => true | None => false end.
Lemma demo_started w inputs :
  returns (demo_start w inputs) = true ->
  startServices skip_runtime (Ok "/srv/app") (fun _ => false) demo_hello false false (one_worker w) inputs new_core
  = Ret (started w inputs).
Proof. unfold started. change (startServices _ _ _ _ _ _ _ _ _) with (demo_start w inputs). by destruct (demo_start w inputs). Qed.

(** The dispatcher over the transport as the start left it. *)
Definition behind_start (s : Core (M:=Log) (I:=unit) (O:=unit)) : Dispatcher.World (T:=Wire) (H:=AccessLog) :=
  mkWorld (NewRegistry demo_config false) (Lifecycle.drainer s) (Lifecycle.poolMgr s) (Lifecycle.hp s)
    ([], match Lifecycle.transport s with Some t => t.1 | None => Uds.New "" end) (mkAccessLog ∅ []).
Definition sent_to (w : WorkerConfig) : list (string * nat) :=
  match Dispatch demo_enc (clock 5) "uuid" demo_dispatcher (ask "/health" "") (behind_start (started w shakes_hands).2) with
  | Ret r => (fun ip => (ip.1, length (sent (default (new_conn []) (Uds.conns (wire (wd (final r))).2 !! ip.2)))))
             <$> map_to_list (connections (wire (wd (final r))).2)
  | Panic _ => []
  end.

(** The bytes sent on each connection: one replica is asked, two are not. *)
Example one_replica_is_asked :
  (sent_to (admin_worker 1 0), sent_to (admin_worker 2 0)) =
  ([("node:admin", 12%nat)], [("node:admin-1", 0%nat); ("node:admin-0", 0%nat)]).
Proof. vm_compute. reflexivity. Qed.

Example http_server_started :
  (started (admin_worker 2 0) shakes_hands).1 =
    [SigUsr1; HealthMonitor; ConfigWatcher; HeartbeatSender; HeartbeatReceiver; HttpServer] /\
  (started (admin_worker 2 0) never_connects).1 = [SigUsr1].
Proof. vm_compute. done. Qed.

Lemma replicated_worker_unreachable_witness :
  match Dispatch demo_enc (clock 5) "uuid" demo_dispatcher (ask "/health" "")
          (behind_start (started (admin_worker 2 0) shakes_hands).2) with
  | Ret reply => unserved (behind_start (started (admin_worker 2 0) shakes_hands).2) reply
  | Panic _ => False
  end.
Proof.
  assert (returns (Dispatch demo_enc (clock 5) "uuid" demo_dispatcher (ask "/health" "")
                     (behind_start (started (admin_worker 2 0) shakes_hands).2)) = true) as HD
    by (vm_compute; reflexivity).
  assert ((fun r => re_workerID (lr_entry r)) <$> Lookup (routes demo_dispatcher) "GET" "/health" = Some "node:admin") as HL
    by (vm_compute; reflexivity).
  assert (returns (demo_start (admin_worker 2 0) shakes_hands) = true) as Hst by (vm_compute; reflexivity).
  assert (present (Lifecycle.transport (started (admin_worker 2 0) shakes_hands).2) = true) as Ht by (vm_compute; reflexivity).
  assert (listeners demo_dispatcher = []) as Hls by (vm_compute; reflexivity).
  apply demo_started in Hst. destruct (started (admin_worker 2 0) shakes_hands) as [gs s]. cbn [fst snd] in *.
  destruct (Lifecycle.transport s) as [t|] eqn:Et; [|discriminate Ht].
  destruct (Dispatch demo_enc _ _ _ _ _) as [reply|e] eqn:ED; [|discriminate HD].
  destruct (Lookup (routes demo_dispatcher) "GET" "/health") as [res|] eqn:EL; [|discriminate HL].
  injection HL as Hid.
  refine (replicated_worker_unreachable skip_runtime (Ok "/srv/app") (fun _ => false) demo_hello demo_enc
    (one_worker (admin_worker 2 0)) (admin_worker 2 0) false false shakes_hands new_core gs s "/tmp/vyx" tt NewManager t []
    (clock 5) "uuid" demo_dispatcher (ask "/health" "") _ res reply _ eq_refl _ eq_refl eq_refl eq_refl Hst Et _ _
    _ Hls EL Hid ED); [by left| |by cbn; rewrite Et|reflexivity|apply NewRegistry_ok].
  intros other Hin Hne. simpl in Hin. apply list_elem_of_singleton in Hin. destruct (Hne Hin).
Defined.

Lemma handshake_wait_bounded_witness :
  exists err s', waitForHandshake demo_hello (spawn_deadline (10 ^ 9) 0) "node:admin" (tries (never_connects 0)) new_core
    = Ret (Some err, s').
Proof.
  assert (returns (waitForHandshake demo_hello (spawn_deadline (10 ^ 9) 0) "node:admin" (tries (never_connects 0)) new_core)
    = true) as HR by (vm_compute; reflexivity).
  destruct (waitForHandshake demo_hello (spawn_deadline (10 ^ 9) 0) "node:admin" (tries (never_connects 0)) new_core)
    as [[r s']|] eqn:E; [|discriminate HR].
  destruct (handshake_wait_bounded demo_hello (10 ^ 9) 0 "node:admin" (tries (never_connects 0)) new_core r s')
    as [err ->]; [done| |done|exact E|by exists err, s'].
  cbn. unfold retryInterval. lia.
Defined.

Lemma http_server_waits_for_workers_witness :
  exists e, turn_over skip_runtime demo_hello (O:=unit) (M:=Log) (I:=unit) (admin_worker 2 0) "node:admin-1" (shakes_hands 1) e /\
    e <> GaveUp.
Proof.
  assert (returns (demo_start (admin_worker 2 0) shakes_hands) = true) as Hst by (vm_compute; reflexivity).
  apply demo_started in Hst. pose proof (proj1 http_server_started) as Hgs.
  destruct (started (admin_worker 2 0) shakes_hands) as [gs s]. cbn [fst] in Hgs.
  destruct (http_server_waits_for_workers skip_runtime (Ok "/srv/app") (fun _ => false) demo_hello
    (one_worker (admin_worker 2 0)) false false shakes_hands new_core gs s 1 (admin_worker 2 0) "node:admin-1" Hst)
    as (e & He & Hne); [rewrite Hgs; do 5 right; left|vm_compute; reflexivity|].
  exists e. split; [exact He|]. apply Hne; [done|].
  repeat (apply Forall_cons; split_and!); try apply Forall_nil; try reflexivity;
    by intros [=]%list_elem_of_singleton.
Defined.

(** One request under way at the signal. *)
Definition at_signal : ShutdownInputs := mkShutdown 1 ["node:admin"] ["node:admin"] ["node:admin"] (fun i => tick 100) (fun i => []).
Definition first_conn (o : option (Uds.Transport * unit)) : option (nat * conn) :=
  t ← o; p ← connections t.1 !! "node:admin"; c ← Uds.conns t.1 !! p; Some (p, c).
Lemma shutdown_cuts_requests_witness :
  match waitForShutdown at_signal (started (admin_worker 1 0) shakes_hands).2 with
  | Ret st => http_err st = Some (Some Canceled) /\ exit_code st = 0
  | Panic _ => False
  end.
Proof.
  set (s := (started (admin_worker 1 0) shakes_hands).2).
  assert (match waitForShutdown at_signal s with Ret st => present (stop_err st) | Panic _ => true end = false) as HR
    by (vm_compute; reflexivity).
  assert ((fun pc => length (responseCh pc.2)) <$> first_conn (Lifecycle.transport s) = Some 0%nat) as HC
    by (vm_compute; reflexivity).
  clearbody s. destruct (waitForShutdown at_signal s) as [st|] eqn:E; [|discriminate HR].
  destruct (Lifecycle.transport s) as [t|] eqn:Et; [|discriminate HC]. cbn in HC.
  destruct (connections t.1 !! "node:admin") as [p|] eqn:Ep; [|discriminate HC]. cbn in HC.
  destruct (Uds.conns t.1 !! p) as [c|] eqn:Ec; [|discriminate HC]. cbn in HC.
  destruct (shutdown_cuts_requests at_signal s st t "node:admin" p c E) as (H1 & H2 & _); try done.
  - simpl. lia.
  - by left.
  - destruct (responseCh c); [done|discriminate HC].
  - split; [done|]. apply H2. by destruct (stop_err st).
Defined.
