(* ===== verification/Watcher.v ===== *)
(** * Hot reload of the development mode ([core/cmd/vyx/main.go],
      [hotReloadWatcher] and what it calls)

    Which workers a change in a file restarts, and when: the entries made from
    the configuration, the choice of the entry for an event of the file
    watcher, and the timers that gather a burst of events into one restart.
    [fsnotify] is a library: an event is given.  A timer that has run down
    takes itself off the map and calls [RestartWorker] in one step. *)
From S2P Require Import Prelude GoStrings Worker Pool PoolManager Drainer Runtime Lifecycle Uds Heartbeat Config.
From S2P Require Import FilePath Main.
Local Open Scope string_scope.
Local Open Scope list_scope.
Local Open Scope Z_scope.

(** ** Entries *)

Record workerWatchEntry := mkEntry { workerIDs : list string; absDir : string }.

Section Entries.
Context (Getwd : result string).

(** The directory is empty when it cannot be resolved. *)
Definition processWorkerForWatch (wcfg : WorkerConfig) (cfgPath : string) : string * list string :=
  let watchDir := if String.eqb (wc_WorkingDir wcfg) "" then "." else wc_WorkingDir wcfg in
  let watchDir := if IsAbs watchDir then watchDir else FilePath.Join [Dir cfgPath; watchDir] in
  match Abs Getwd watchDir with
  | Err _ => ("", [])
  | Ok abs => (abs, buildWorkerIDs (wc_ID wcfg) (replicas_of wcfg))
  end.

Definition add_ids (ids : list string) (e : workerWatchEntry) : workerWatchEntry := mkEntry (workerIDs e ++ ids) (absDir e).

(** The loop of [initWatcherEntries]; [seenDirs] gives the index of the entry
    of a directory. *)
Fixpoint init_entries (cfgPath : string) (ws : list WorkerConfig) (entries : list workerWatchEntry)
    (seenDirs : gmap string nat) : list workerWatchEntry :=
  match ws with
  | [] => entries
  | wcfg :: ws' =>
      let '(abs, ids) := processWorkerForWatch wcfg cfgPath in
      if String.eqb abs "" then init_entries cfgPath ws' entries seenDirs
      else match seenDirs !! abs with
           | Some idx => init_entries cfgPath ws' (alter (add_ids ids) idx entries) seenDirs
           | None => init_entries cfgPath ws' (entries ++ [mkEntry ids abs]) (<[abs := length entries]> seenDirs)
           end
  end.

(** [filepath.Abs] gives the empty string with its error. *)
Definition abs_or_empty (path : string) : string := match Abs Getwd path with Ok abs => abs | Err _ => "" end.
Definition resolveConfigPath (cfgPath : string) : string := abs_or_empty cfgPath.

(** The entries, and the configuration file to watch. *)
Definition initWatcherEntries (cfgPath : string) (ws : list WorkerConfig) : list workerWatchEntry * string :=
  (init_entries cfgPath ws [] ∅, resolveConfigPath cfgPath).

(** ** Events *)

Inductive FsOp := Create | Write | Remove | Rename | Chmod.
Record FsEvent := mkFsEvent { Name : string; Op : list FsOp }.

Definition isSourceFile (path : string) : bool :=
  let ext := to_lower (Ext path) in
  String.eqb ext ".go" || String.eqb ext ".ts" || String.eqb ext ".tsx" || String.eqb ext ".js".

(** What an event asks for: nothing, a SIGHUP to the process itself, or the
    restart of workers, in that order. *)
Inductive Action := Ignore | SIGHUP | Restart (ids : list string).

Definition under (absEvt : string) (e : workerWatchEntry) : bool :=
  has_prefix absEvt (absDir e +:+ "/") || String.eqb absEvt (absDir e).
Fixpoint first_entry (absEvt : string) (entries : list workerWatchEntry) : list string :=
  match entries with
  | [] => []
  | e :: entries' => if under absEvt e then workerIDs e else first_entry absEvt entries'
  end.

Definition changes (op : FsOp) : bool := match op with Create | Write | Rename => true | Remove | Chmod => false end.
Definition handleWatcherEvent (event : FsEvent) (absCfgPath : string) (entries : list workerWatchEntry) : Action :=
  if negb (existsb changes (Op event)) then Ignore
  else
    let absEvt := abs_or_empty (Name event) in
    if String.eqb absEvt absCfgPath then SIGHUP
    else if negb (isSourceFile (Name event)) then Ignore
    else Restart (first_entry absEvt entries).
End Entries.

(** ** Timers *)

Definition debounce : Z := 300 * 10 ^ 6.

(** When the timer of each waiting worker runs down; the restarts that have
    been made, and how many SIGHUPs were sent. *)
Record Watch := mkWatch {
  timers : gmap string Z;
  restarts : list string;
  sighups : nat;
}.

(** [scheduleRestart]: a new timer, or [Reset] of the one there is. *)
Definition scheduleRestart (now : Z) (w : Watch) (workerID : string) : Watch :=
  mkWatch (<[workerID := now + debounce]> (timers w)) (restarts w) (sighups w).

(** What happens to the loop: an event, and a timer that has run down.  A timer
    runs its function only after its time; [None] before. *)
Inductive Happening := Changed (now : Z) (event : FsEvent) | Fires (now : Z) (workerID : string).

Section Loop.
Context (Getwd : result string) (absCfgPath : string) (entries : list workerWatchEntry).

Definition watch_step (w : Watch) (h : Happening) : option Watch :=
  match h with
  | Changed now event =>
      match handleWatcherEvent Getwd event absCfgPath entries with
      | Ignore => Some w
      | SIGHUP => Some (mkWatch (timers w) (restarts w) (S (sighups w)))
      | Restart ids => Some (foldl (scheduleRestart now) w ids)
      end
  | Fires now id =>
      match timers w !! id with
      | Some due => if due <=? now then Some (mkWatch (delete id (timers w)) (restarts w ++ [id]) (sighups w)) else None
      | None => None
      end
  end.
Fixpoint watch_run (hs : list Happening) (w : Watch) : option Watch :=
  match hs with
  | [] => Some w
  | h :: hs' => w' ← watch_step w h; watch_run hs' w'
  end.

(** [cancelAllTimers]: a stopped timer does not run its function, and the
    loop has ended. *)
Definition cancelAllTimers (w : Watch) : Watch := mkWatch ∅ (restarts w) (sighups w).
End Loop.

(** ** A burst is one restart *)

Section Burst.
Context (Getwd : result string) (absCfgPath : string) (entries : list workerWatchEntry).
Notation step := (watch_step Getwd absCfgPath entries).
Notation run := (watch_run Getwd absCfgPath entries).

(** The workers an event restarts. *)
Definition asked (ev : FsEvent) : list string :=
  match handleWatcherEvent Getwd ev absCfgPath entries with Restart ids => ids | _ => [] end.

(** [burst id t hs last]: after a change for [id] at [t], things happen the
    last of which that changes something for [id] is at [last], each within
    the debounce time of the one before; other workers' events and timers
    come in between, and timers are looked at before [id]'s is due. *)
Inductive burst (id : string) : Z -> list Happening -> Z -> Prop :=
  | burst_end t : burst id t [] t
  | burst_change t t' ev hs last :
      id ∈ asked ev -> t <= t' < t + debounce -> burst id t' hs last -> burst id t (Changed t' ev :: hs) last
  | burst_other t t' ev hs last : id ∉ asked ev -> burst id t hs last -> burst id t (Changed t' ev :: hs) last
  | burst_timer t now x hs last :
      x <> id \/ now < t + debounce -> burst id t hs last -> burst id t (Fires now x :: hs) last.

Lemma schedule_all now ids w id :
  let w' := foldl (scheduleRestart now) w ids in
  timers w' !! id = (if decide (id ∈ ids) then Some (now + debounce) else timers w !! id) /\ restarts w' = restarts w.
Proof.
  cbv zeta. revert w. induction ids as [|x ids IH]; intros w; simpl; [done|].
  destruct (IH (scheduleRestart now w x)) as [-> ->]. split; [|done]. simpl.
  destruct (decide (id = x)) as [->|Hne].
  - rewrite lookup_insert_eq. rewrite (decide_True (P := x ∈ x :: ids)) by left. by case_decide.
  - rewrite lookup_insert_ne by done. case_decide as H1; case_decide as H2; try done; set_solver.
Qed.

Lemma changed_step now ev w w' id :
  step w (Changed now ev) = Some w' ->
  timers w' !! id = (if decide (id ∈ asked ev) then Some (now + debounce) else timers w !! id) /\
  restarts w' = restarts w.
Proof.
  unfold watch_step, asked. destruct (handleWatcherEvent _ _ _ _) as [| |ids]; intros [= <-];
    [by rewrite decide_False by set_solver..|]. apply schedule_all.
Qed.

Lemma burst_run id t hs last w w' :
  burst id t hs last -> timers w !! id = Some (t + debounce) -> run hs w = Some w' ->
  timers w' !! id = Some (last + debounce) /\ filter (.= id) (restarts w') = filter (.= id) (restarts w).
Proof.
  intros Hb. revert w. induction Hb as [t|t t' ev hs last Hin Ht Hb IH|t t' ev hs last Hin Hb IH|t now x hs last Hx Hb IH];
    intros w Hw; cbn [watch_run].
  - by intros [= <-].
  - destruct (step w (Changed t' ev)) as [w1|] eqn:E; [|done]. apply changed_step with (id:=id) in E as [E1 E2].
    rewrite decide_True in E1 by done. cbn. rewrite <-E2. by apply IH.
  - destruct (step w (Changed t' ev)) as [w1|] eqn:E; [|done]. apply changed_step with (id:=id) in E as [E1 E2].
    rewrite decide_False in E1 by done. cbn. rewrite <-E2. apply IH. congruence.
  - cbn [watch_step]. destruct (timers w !! x) as [due|] eqn:Ex; [|done].
    destruct (due <=? now) eqn:E; [|done]. bool_to_prop. destruct (decide (x = id)) as [->|Hne].
    { rewrite Hw in Ex. injection Ex as <-. destruct Hx; [done|lia]. }
    cbn. intros Hr. destruct (IH (mkWatch (delete x (timers w)) (restarts w ++ [x]) (sighups w))) as [H1 H2]; [|done|].
    + cbn. by rewrite lookup_delete_ne.
    + split; [done|]. rewrite H2. cbn. rewrite filter_app. cbn. rewrite decide_False by done. by rewrite app_nil_r.
Qed.

(** C28: A burst restarts a worker once, after its end.  After a change in a
    worker's files and any number of further ones, each within 300 ms of the
    one before, the worker has not been restarted and exactly one timer waits
    for it, due 300 ms after the last change; when it runs down the worker is
    restarted and nothing more waits. *)
Theorem burst_restarts_once (id : string) (t0 : Z) (ev : FsEvent) (hs : list Happening) (last : Z) (w w1 : Watch) (now : Z) :
  id ∈ asked ev -> burst id t0 hs last -> run (Changed t0 ev :: hs) w = Some w1 ->
  filter (.= id) (restarts w1) = filter (.= id) (restarts w) /\
  (now < last + debounce -> step w1 (Fires now id) = None) /\
  (last + debounce <= now -> exists w2, step w1 (Fires now id) = Some w2 /\
     restarts w2 = restarts w1 ++ [id] /\ timers w2 !! id = None).
Proof.
  intros Hin Hb. cbn [watch_run]. destruct (step w (Changed t0 ev)) as [w0|] eqn:E; [|done].
  apply changed_step with (id:=id) in E as [E1 E2]. rewrite decide_True in E1 by done. cbn. intros Hr.
  destruct (burst_run id t0 hs last w0 w1 Hb E1 Hr) as [H1 H2]. rewrite <-E2. split; [done|].
  rewrite H1. split; intros Hn; destruct (Z.leb_spec (last + debounce) now); try lia; [done|].
  eexists. split; [reflexivity|]. cbn. by rewrite lookup_delete_eq.
Qed.
End Burst.

(** ** The first entry takes all *)

Lemma prefix_spec s t : String.prefix s t = true <-> exists r, t = s +:+ r.
Proof.
  revert t. induction s as [|a s IH]; intros t.
  - split; [intros _; by exists t|intros _; by destruct t].
  - destruct t as [|b t]; simpl.
    + split; [done|]. intros [r Hr]. by rewrite string_app_cons in Hr.
    + destruct (ascii_dec a b) as [->|Hne].
      * rewrite IH. split; intros [r Hr]; exists r; rewrite string_app_cons in *; congruence.
      * split; [done|]. intros [r Hr]. rewrite string_app_cons in Hr. congruence.
Qed.

(** [inner] is a directory below [outer]. *)
Definition below (inner outer : string) : Prop := exists rest, inner = outer +:+ "/" +:+ rest.

Lemma under_below x e1 e2 : below (absDir e2) (absDir e1) -> under x e2 = true -> under x e1 = true.
Proof.
  intros [rest Hr]. unfold under, has_prefix. rewrite !orb_true_iff, !prefix_spec, !String.eqb_eq, Hr.
  intros [[r ->]| ->]; left; [exists (rest +:+ "/" +:+ r)|exists rest]; by rewrite <-!string_app_assoc || by rewrite !string_app_assoc.
Qed.

Lemma first_entry_shadowed x entries i j e1 e2 id :
  entries !! i = Some e1 -> entries !! j = Some e2 -> (i < j)%nat -> below (absDir e2) (absDir e1) ->
  (forall k e, entries !! k = Some e -> id ∈ workerIDs e -> k = j) ->
  id ∉ first_entry x entries.
Proof.
  revert i j. induction entries as [|e entries IH]; intros i j H1 H2 Hij Hb Hid; [done|]. cbn [first_entry].
  destruct (under x e) eqn:Eu.
  - intros Hin. pose proof (Hid 0%nat e eq_refl Hin). lia.
  - destruct j as [|j]; [lia|]. destruct i as [|i].
    + injection H1 as ->. clear IH. assert (forall l, (forall e', e' ∈ l -> id ∈ workerIDs e' -> under x e' = false) -> id ∉ first_entry x l) as Hg.
      { induction l as [|e' l IHl]; intros Hl; cbn [first_entry]; [set_solver|].
        destruct (under x e') eqn:E; [|apply IHl; intros; apply Hl; [by right|done]].
        intros Hin. rewrite (Hl e') in E; [done|left|done]. }
      apply Hg. intros e' (k & Hk)%list_elem_of_lookup Hin. pose proof (Hid (S k) e' Hk Hin) as [= ->].
      simpl in H2. rewrite H2 in Hk. injection Hk as ->. apply not_true_iff_false. intros Hu.
      apply (under_below _ e1) in Hu; [congruence|done].
    + apply (IH i j); [done|done|lia|done|]. intros k e' Hk Hin. pose proof (Hid (S k) e' Hk Hin). lia.
Qed.

(** A worker in a subdirectory is not reloaded.  When a worker's directory
    lies below that of an earlier entry - as every directory of the project
    does when the first worker has no working directory - all changes are
    taken for the earlier one's: whatever happens, the later worker is never
    restarted. *)
Theorem nested_worker_never_reloads (Getwd : result string) (absCfgPath : string) (entries : list workerWatchEntry)
    (i j : nat) (e1 e2 : workerWatchEntry) (id : string) (hs : list Happening) (w : Watch) :
  entries !! i = Some e1 -> entries !! j = Some e2 -> (i < j)%nat -> below (absDir e2) (absDir e1) ->
  (forall k e, entries !! k = Some e -> id ∈ workerIDs e -> k = j) ->
  watch_run Getwd absCfgPath entries hs (mkWatch ∅ [] 0) = Some w ->
  id ∉ restarts w /\ timers w !! id = None.
Proof.
  intros H1 H2 Hij Hb Hid. assert (forall ev, id ∉ asked Getwd absCfgPath entries ev) as Hask.
  { intros ev. unfold asked, handleWatcherEvent. repeat case_if; try set_solver.
    exact (first_entry_shadowed _ entries i j e1 e2 id H1 H2 Hij Hb Hid). }
  assert (forall w0, id ∉ restarts w0 /\ timers w0 !! id = None ->
    watch_run Getwd absCfgPath entries hs w0 = Some w -> id ∉ restarts w /\ timers w !! id = None) as Hgen.
  { induction hs as [|h hs IH]; intros w0 Hw0; cbn [watch_run]; [by intros [= <-]|].
    destruct (watch_step Getwd absCfgPath entries w0 h) as [w1|] eqn:E; [|done]. cbn. apply IH.
    destruct h as [now ev|now x].
    - apply changed_step with (id:=id) in E as [E1 E2]. rewrite decide_False in E1 by done. by rewrite E1, E2.
    - cbn [watch_step] in E. destruct Hw0 as [Hr0 Ht0]. destruct (timers w0 !! x) as [due|] eqn:Ex; [|done].
      case_if; [|done]. injection E as <-. cbn. assert (x <> id) by congruence.
      rewrite lookup_delete_ne by done. split; [set_solver|done]. }
  apply Hgen. split; [set_solver|done].
Qed.

(** A change of [vyx.yaml] goes unnoticed.  Without the environment variable
    that names the configuration file the watcher is given the empty path,
    which becomes the working directory itself: an event for [vyx.yaml] in it
    is neither the configuration's nor a source file's, and is ignored. *)
Theorem default_config_not_watched (wd : string) (ws : list WorkerConfig) (op : list FsOp) :
  IsAbs wd = true -> wd <> "/" -> Clean wd = wd ->
  let '(entries, absCfgPath) := initWatcherEntries (Ok wd) "" ws in
  handleWatcherEvent (Ok wd) (mkFsEvent (wd +:+ "/vyx.yaml") op) absCfgPath entries = Ignore.
Proof.
  intros Ha Hr Hc. cbn [initWatcherEntries]. unfold handleWatcherEvent. case_if; [done|].
  assert (wd <> "") as Hne by (intros ->; done).
  assert (forall s x, ext_of x <> "" -> ext_of (s +:+ x) = ext_of x) as Hext.
  { intros s x Hx. induction s as [|a s IH]; [done|]. rewrite string_app_cons. cbn [ext_of]. rewrite IH.
    by rewrite (proj2 (String.eqb_neq _ _) Hx). }
  assert (abs_or_empty (Ok wd) (wd +:+ "/vyx.yaml") = wd +:+ "/vyx.yaml") as Habs.
  { unfold abs_or_empty, Abs. replace (IsAbs (wd +:+ "/vyx.yaml")) with true.
    - apply (Clean_child wd "vyx.yaml"); done.
    - symmetry. unfold IsAbs, has_prefix in *. apply prefix_app_first. by left. }
  cbn [Name Op]. rewrite Habs. unfold resolveConfigPath, abs_or_empty, Abs. cbn [IsAbs has_prefix String.prefix].
  unfold isSourceFile, Ext. rewrite Hext by done.
  destruct (String.eqb_spec (wd +:+ "/vyx.yaml") (FilePath.Join [wd; ""])) as [Heq|]; [|done].
  exfalso. revert Heq. cbn [FilePath.Join]. rewrite (proj2 (String.eqb_neq _ _) Hne).
  replace (Clean (join "/" [wd; ""])) with wd.
  - intros Heq%(f_equal String.length). rewrite length_app_str in Heq. simpl in Heq. lia.
  - symmetry. rewrite <-Hc at 2. unfold Clean. cbn [join].
    assert (IsAbs (wd +:+ "/" +:+ "") = true) as -> by (unfold IsAbs, has_prefix in *; apply prefix_app_first; by left).
    rewrite Ha. unfold clean_elems. change ("/" +:+ "") with (String "/" ""). rewrite split_on_app_sep, foldl_app. done.
Qed.

(** ** Two workers, the second in a subdirectory *)

Definition watched_worker (id dir : string) (replicas : Z) : WorkerConfig :=
  Config.mkWorkerConfig id "node server.js" dir "" replicas "" 0 0 0.
Definition two_dirs (first second : string) : list workerWatchEntry * string :=
  initWatcherEntries (Ok "/srv/app") "" [watched_worker "node:web" first 2; watched_worker "go:api" second 1].
Definition touched (file : string) : FsEvent := mkFsEvent file [Chmod; Write].

(** Side by side each is restarted for its own files; Python files and the
    configuration restart nobody. *)
Example side_by_side :
  let '(entries, cfg) := two_dirs "web" "api" in
  (fun f => handleWatcherEvent (Ok "/srv/app") (touched f) cfg entries) <$>
    ["/srv/app/web/a.ts"; "/srv/app/api/b.go"; "/srv/app/api/c.py"; "/srv/app/vyx.yaml"; "/srv/app"]
  = [Restart ["node:web-0"; "node:web-1"]; Restart ["go:api"]; Ignore; Ignore; SIGHUP].
Proof. vm_compute. reflexivity. Qed.

Definition side_entries : list workerWatchEntry :=
  [mkEntry ["node:web-0"; "node:web-1"] "/srv/app/web"; mkEntry ["go:api"] "/srv/app/api"].
Definition api_change : FsEvent := touched "/srv/app/api/b.go".
Definition api_burst : list Happening :=
  [Changed (100 * 10 ^ 6) (touched "/srv/app/web/a.ts"); Changed (200 * 10 ^ 6) api_change;
   Changed (400 * 10 ^ 6) api_change; Fires (450 * 10 ^ 6) "node:web-0"].

Lemma web_not_api : "go:api" ∉ ["node:web-0"; "node:web-1"].
Proof. by_compute. Qed.

Lemma burst_restarts_once_witness :
  exists w1 w2,
    watch_run (Ok "/srv/app") "/srv/app" side_entries (Changed 0 api_change :: api_burst) (mkWatch ∅ [] 0) = Some w1 /\
    restarts w1 = ["node:web-0"] /\
    watch_step (Ok "/srv/app") "/srv/app" side_entries w1 (Fires (700 * 10 ^ 6) "go:api") = Some w2 /\
    restarts w2 = ["node:web-0"; "go:api"].
Proof.
  assert (restarts <$> watch_run (Ok "/srv/app") "/srv/app" side_entries (Changed 0 api_change :: api_burst) (mkWatch ∅ [] 0)
    = Some ["node:web-0"]) as HR by (vm_compute; reflexivity).
  destruct (watch_run _ _ _ _ _) as [w1|] eqn:E; [|discriminate HR]. injection HR as HR.
  assert (asked (Ok "/srv/app") "/srv/app" side_entries api_change = ["go:api"]) as Hapi by (vm_compute; reflexivity).
  assert (asked (Ok "/srv/app") "/srv/app" side_entries (touched "/srv/app/web/a.ts") = ["node:web-0"; "node:web-1"]) as Hweb
    by (vm_compute; reflexivity).
  assert ("go:api" ∈ asked (Ok "/srv/app") "/srv/app" side_entries api_change) as Hin by (rewrite Hapi; left).
  destruct (burst_restarts_once (Ok "/srv/app") "/srv/app" side_entries "go:api" 0 api_change api_burst (400 * 10 ^ 6)
    (mkWatch ∅ [] 0) w1 (700 * 10 ^ 6)) as (_ & _ & H); [exact Hin| |exact E|].
  - apply burst_other; [rewrite Hweb; exact web_not_api|]. apply burst_change; [exact Hin|clear; unfold debounce; lia|].
    apply burst_change; [exact Hin|clear; unfold debounce; lia|]. apply burst_timer; [by left|]. apply burst_end.
  - destruct H as (w2 & Hs & Hr & _); [clear; unfold debounce; lia|]. exists w1, w2.
    split; [reflexivity|]. split; [exact HR|]. split; [exact Hs|]. rewrite Hr, HR. reflexivity.
Defined.

Definition nested_entries : list workerWatchEntry :=
  [mkEntry ["node:web-0"; "node:web-1"] "/srv/app"; mkEntry ["go:api"] "/srv/app/api"].
Example nested_entries_eq : (two_dirs "" "api").1 = nested_entries.
Proof. vm_compute. reflexivity. Qed.
Definition api_only : list Happening :=
  [Changed 0 api_change; Fires debounce "node:web-0"; Fires debounce "node:web-1"].

Lemma nested_worker_never_reloads_witness :
  exists w, watch_run (Ok "/srv/app") "/srv/app" nested_entries api_only (mkWatch ∅ [] 0) = Some w /\
    restarts w = ["node:web-0"; "node:web-1"] /\ "go:api" ∉ restarts w.
Proof.
  assert (restarts <$> watch_run (Ok "/srv/app") "/srv/app" nested_entries api_only (mkWatch ∅ [] 0)
    = Some ["node:web-0"; "node:web-1"]) as HR by (vm_compute; reflexivity).
  destruct (watch_run _ _ _ _ _) as [w|] eqn:E; [|discriminate HR]. injection HR as HR.
  exists w. split; [done|]. split; [done|].
  apply (nested_worker_never_reloads (Ok "/srv/app") "/srv/app" nested_entries 0 1
    (mkEntry ["node:web-0"; "node:web-1"] "/srv/app") (mkEntry ["go:api"] "/srv/app/api") "go:api" api_only w);
    [done|done|lia|by exists "api"| |exact E].
  intros [|[|k]] e Hk Hin; [|done|done]. injection Hk as <-. destruct (web_not_api Hin).
Defined.

Lemma default_config_not_watched_witness :
  handleWatcherEvent (Ok "/srv/app") (touched "/srv/app/vyx.yaml") (two_dirs "web" "api").2 (two_dirs "web" "api").1 = Ignore.
Proof.
  exact (default_config_not_watched "/srv/app" [watched_worker "node:web" "web" 2; watched_worker "go:api" "api" 1]
    [Chmod; Write] eq_refl ltac:(done) ltac:(vm_compute; reflexivity)).
Defined.
