(* ===== verification/Output.v ===== *)
(** * From a worker's output to the log viewer

    The process manager cuts a worker's output into lines ([Process]), the
    program's log writer parses each and pushes it ([Logs]), and the viewer
    reads the buffer. *)
From S2P Require Import Prelude GoStrings Ipc Process Logs.
Local Open Scope string_scope.
Local Open Scope list_scope.

Section Output.
Context (unmarshal : string -> option Entry).

Definition as_string : bytes -> string := String.string_of_list_ascii.

(** [pipeLog] with [muxLogWriter] as its writer; [clk i] is the time of the
    [i]-th line. *)
Definition log_output (clk : nat -> Z) (workerID : string) (reads : list bytes) (m : Multiplexer) : Multiplexer :=
  foldl (fun m il => muxLogWriter unmarshal (clk il.1) workerID (as_string il.2) m) m (imap pair (pipeLog reads)).

Definition line_entry (clk : nat -> Z) (workerID : string) (i : nat) (line : bytes) : Entry :=
  with_source workerID (ParseEntry unmarshal (clk i) workerID (as_string line)).

(** The viewer shows the last lines a worker wrote.  However its output was
    cut into reads, the buffer then holds the entries of its last non-empty
    lines in the order it wrote them, as many as fit, after what was there. *)
Theorem viewer_shows_last_lines (clk : nat -> Z) (workerID : string) (reads : list bytes) (capacity : option Z)
    (before : list Entry) :
  let m := log_output clk workerID reads (run Push before (New capacity)) in
  let all := before ++ imap (line_entry clk workerID) (lines (concat reads)) in
  Entries m = drop (length all - size (New capacity)) all.
Proof.
  intros m all. assert (m = run Push all (New capacity)) as ->.
  { unfold m, all, log_output, pipeLog. rewrite run_app, (pipe_loop_spec [] reads), app_nil_l by constructor.
    generalize (run Push before (New capacity)) as m0. generalize (lines (concat reads)) as ls. clear m all.
    intros ls. unfold run. assert (forall f m0, foldl (fun m il => muxLogWriter unmarshal (clk il.1) workerID (as_string il.2) m)
      m0 (imap (fun i l => (f i, l)) ls) = foldl Push m0 (imap (fun i l => line_entry clk workerID (f i) l) ls)) as Hg.
    { induction ls as [|l ls IH]; intros f m0; [done|]. cbn. apply (IH (fun i => f (S i))). }
    intros m0. apply (Hg (fun i => i)). }
  pose proof (pushes_hold all _ [] (New_holds capacity)) as Hh. cbn in Hh. rewrite (Entries_holds all _ Hh).
  f_equal. f_equal. clear. generalize (New capacity) as m0. induction all as [|e all IH]; intros m0; [done|].
  change (run Push (e :: all) m0) with (run Push all (Push m0 e)). by rewrite IH.
Qed.
End Output.

(** Two lines in three pieces into a buffer of two, which had one entry. *)
Example last_two_lines :
  Raw <$> Entries (log_output (fun _ => None) (fun _ => 5%Z) "go:api"
    (of_string <$> ["one"; String "010" "tw"; "o"]) (run Push [empty_entry] (New (Some 2%Z))))
  = ["one"; "two"].
Proof. reflexivity. Qed.
