(* ===== verification/Schema.v ===== *)
(** * The schema validator ([infrastructure/gateway/schema.go])

    Schemas are compiled when they are first asked for, or all together by
    [WarmUp], and kept by name.  The file system, the compiler and the
    validator of the JSON-schema library and [json.Unmarshal] are the class
    [SchemaLib]; each operation of the validator is one step. *)
From S2P Require Import Prelude GoStrings Ipc FilePath.
Local Open Scope string_scope.
Local Open Scope list_scope.

(** What [schema.Validate] of the library returns: a [*ValidationError] with
    its location, message and causes, or another error. *)
Inductive jsonschemaError :=
  | JsValidationError (InstanceLocation Message : string) (Causes : list (string * string))
  | JsOther (text : string).

(** [F]: the file system, [S]: a compiled schema, [J]: a JSON object.
    [ReadDir] gives the entries, or an error with whether the directory does
    not exist. *)
Class SchemaLib (F S J : Type) := {
  Stat : F -> string -> option error;
  ReadDir : F -> string -> (error * bool) + list (string * bool);
  Compile : F -> string -> result S;
  schema_Validate : S -> J -> option jsonschemaError;
  json_object : bytes -> result J;
}.

Section Validator.
Context {F S J : Type} `{!SchemaLib F S J}.

Record SchemaValidator := mkValidator {
  schemasDir : string;
  cached : gmap string S;
}.
Definition NewSchemaValidator (dir : string) : SchemaValidator := mkValidator dir ∅.

Definition schema_path (dir name : string) : string := Join [dir; name +:+ ".json"].

(** [%q] of a name without quotes, backslashes and control characters. *)
Definition quoted (name : string) : string := String "034" (name +:+ String "034" "").

Definition compile (fs : F) (name : string) (v : SchemaValidator) : result S * SchemaValidator :=
  let path := schema_path (schemasDir v) name in
  match Stat fs path with
  | Some err => (Err (WrapErr ("schema: file not found for " +:+ quoted name +:+ ": ") err ""), v)
  | None =>
      match Compile fs path with
      | Err err => (Err (WrapErr ("schema: compile " +:+ path +:+ ": ") err ""), v)
      | Ok s => (Ok s, mkValidator (schemasDir v) (<[name := s]> (cached v)))
      end
  end.

Definition has_suffix (s suf : string) : bool :=
  (String.length suf <=? String.length s)%nat && String.eqb (drop_str (String.length s - String.length suf) s) suf.

(** The loop over the directory: the texts of the errors. *)
Fixpoint warm (fs : F) (entries : list (string * bool)) (errs : list string) (v : SchemaValidator)
    : list string * SchemaValidator :=
  match entries with
  | [] => (errs, v)
  | (file, isDir) :: entries' =>
      if isDir || negb (has_suffix file ".json") then warm fs entries' errs v
      else
        let name := take_str (String.length file - String.length ".json") file in
        match compile fs name v with
        | (Err err, v) => warm fs entries' (errs ++ [err_text err]) v
        | (Ok _, v) => warm fs entries' errs v
        end
  end.

Definition newline : string := String "010" "".
Definition WarmUp (fs : F) (v : SchemaValidator) : option error * SchemaValidator :=
  if String.eqb (schemasDir v) "" then (None, v)
  else match ReadDir fs (schemasDir v) with
       | inl (err, notExist) =>
           if notExist : bool then (None, v)
           else (Some (WrapErr ("schema warm-up: read dir " +:+ schemasDir v +:+ ": ") err ""), v)
       | inr entries =>
           let '(errs, v) := warm fs entries [] v in
           (match errs with
            | [] => None
            | _ => Some (NewErr ("schema warm-up errors:" +:+ newline +:+ join newline errs))
            end, v)
       end.

Definition InvalidateCache (v : SchemaValidator) : SchemaValidator := mkValidator (schemasDir v) ∅.

Definition getSchema (fs : F) (name : string) (v : SchemaValidator) : result S * SchemaValidator :=
  match cached v !! name with
  | Some s => (Ok s, v)
  | None => compile fs name v
  end.

Definition toValidationError (err : jsonschemaError) : error :=
  match err with
  | JsValidationError loc msg [] => Validation [(loc, msg)]
  | JsValidationError _ _ causes => Validation causes
  | JsOther text => Validation [("", text)]
  end.

(** The part of [Validate] after the schema. *)
Definition check_body (s : S) (body : bytes) : option error :=
  match json_object body with
  | Err err => Some (WrapErr "schema: unmarshal body: " err "")
  | Ok inst => toValidationError <$> schema_Validate s inst
  end.
Definition Validate (fs : F) (schemaName : string) (body : bytes) (v : SchemaValidator) : option error * SchemaValidator :=
  match getSchema fs schemaName v with
  | (Err err, v) => (Some err, v)
  | (Ok s, v) => (check_body s body, v)
  end.

(** ** The cache is not seen *)

Inductive SchemaOp := OWarmUp | OInvalidate | OValidate (name : string) (body : bytes).
Definition schema_step (fs : F) (v : SchemaValidator) (op : SchemaOp) : SchemaValidator :=
  match op with
  | OWarmUp => (WarmUp fs v).2
  | OInvalidate => InvalidateCache v
  | OValidate name body => (Validate fs name body v).2
  end.

(** Validation without a cache: what the dispatcher takes its validator for. *)
Definition uncached (fs : F) (dir schemaName : string) (body : bytes) : option error :=
  (Validate fs schemaName body (NewSchemaValidator dir)).1.

(** The names in the cache have the schema that the files give. *)
Record coherent (fs : F) (dir : string) (v : SchemaValidator) : Prop := {
  co_dir : schemasDir v = dir;
  co_cached : forall name s, cached v !! name = Some s ->
    Stat fs (schema_path dir name) = None /\ Compile fs (schema_path dir name) = Ok s;
}.

Lemma compile_coherent fs dir name v :
  coherent fs dir v ->
  coherent fs dir (compile fs name v).2 /\ (compile fs name v).1 = (compile fs name (NewSchemaValidator dir)).1.
Proof.
  intros [Hd Hc]. unfold compile. rewrite Hd. cbn [schemasDir NewSchemaValidator].
  destruct (Stat fs _) eqn:Es; [by split|]. destruct (Compile fs _) as [s|] eqn:Ec; [|by split].
  split; [|done]. split; [done|]. intros name' s'. cbn.
  destruct (decide (name = name')) as [->|Hne]; [rewrite lookup_insert_eq; by intros [= <-]|].
  rewrite lookup_insert_ne by done. apply Hc.
Qed.

Lemma getSchema_coherent fs dir name v :
  coherent fs dir v ->
  coherent fs dir (getSchema fs name v).2 /\ (getSchema fs name v).1 = (getSchema fs name (NewSchemaValidator dir)).1.
Proof.
  intros Hv. unfold getSchema at 1 2. destruct (cached v !! name) as [s|] eqn:E; [|by apply compile_coherent].
  split; [done|]. destruct (co_cached _ _ _ Hv _ _ E) as [Hs Hc]. unfold getSchema, compile.
  cbn [cached schemasDir NewSchemaValidator]. by rewrite lookup_empty, Hs, Hc.
Qed.

Lemma warm_coherent fs dir entries errs v : coherent fs dir v -> coherent fs dir (warm fs entries errs v).2.
Proof.
  revert errs v. induction entries as [|[file isDir] entries IH]; intros errs v Hv; cbn [warm]; [done|].
  case_if; [by apply IH|]. set (name := take_str _ _).
  destruct (compile_coherent fs dir name v Hv) as [Hc _]. destruct (compile fs name v) as [[s|e] v1]; by apply IH.
Qed.

Lemma step_coherent fs dir v op : coherent fs dir v -> coherent fs dir (schema_step fs v op).
Proof.
  intros Hv. destruct op as [| |name body]; cbn [schema_step].
  - unfold WarmUp. case_if; [done|]. destruct (ReadDir fs _) as [[e []]|entries]; [done..|].
    pose proof (warm_coherent fs dir entries [] v Hv). by destruct (warm fs entries [] v).
  - split; [by destruct Hv|]. done.
  - unfold Validate. destruct (getSchema_coherent fs dir name v Hv) as [Hc _]. by destruct (getSchema fs name v) as [[]].
Qed.

(** C29: The cache changes no answer.  While the schema files stay as they are, a
    validator answers every request as one that compiles the schema afresh
    each time, whatever it has validated, warmed up or dropped before: the
    dispatcher may take it for a function. *)
Theorem cache_transparent (fs : F) (dir name : string) (body : bytes) (ops : list SchemaOp) :
  (Validate fs name body (run (schema_step fs) ops (NewSchemaValidator dir))).1 = uncached fs dir name body.
Proof.
  assert (coherent fs dir (run (schema_step fs) ops (NewSchemaValidator dir))) as Hv.
  { induction ops as [|op ops IH] using rev_ind; [by split|]. rewrite run_app. by apply step_coherent. }
  unfold uncached, Validate. destruct (getSchema_coherent fs dir name _ Hv) as [_ Hg].
  destruct (getSchema fs name (run _ _ _)) as [r v1]. cbn [fst] in Hg. subst r.
  by destruct (getSchema fs name (NewSchemaValidator dir)) as [[s|e] v2].
Qed.

Definition keeps_cache (op : SchemaOp) : Prop := match op with OValidate _ _ => True | _ => False end.

(** A schema that was compiled stays.  After a successful look at a schema,
    its file may change or disappear: requests are judged by the compiled one
    for as long as nobody calls [InvalidateCache] or [WarmUp] - and the program
    calls the one never and the other only at its start. *)
Theorem compiled_schema_stays (fs : F) (name : string) (s : S) (v : SchemaValidator) (later : list (F * SchemaOp)) (fs' : F)
    (body : bytes) :
  (getSchema fs name v).1 = Ok s -> Forall (fun fo => keeps_cache fo.2) later ->
  (Validate fs' name body (run (fun v fo => schema_step fo.1 v fo.2) later (getSchema fs name v).2)).1 = check_body s body.
Proof.
  intros Hg Hl. assert (cached (getSchema fs name v).2 !! name = Some s) as Hc.
  { unfold getSchema, compile in *. destruct (cached v !! name) as [s'|] eqn:E; [cbn in Hg; by injection Hg as ->|].
    destruct (Stat fs _); [done|]. destruct (Compile fs _); [|done]. cbn in *. injection Hg as ->. apply lookup_insert_eq. }
  clear Hg. revert Hc. generalize (getSchema fs name v).2 as v0. induction Hl as [|[fs1 op] later Hop Hl IH]; intros v0 Hc.
  - cbn. unfold Validate, getSchema. by rewrite Hc.
  - cbn [run foldl] in *. apply IH. destruct op as [| |name1 body1]; [done..|]. cbn [schema_step fst snd].
    unfold Validate, getSchema, compile. destruct (cached v0 !! name1) as [s1|] eqn:E1; [done|].
    destruct (Stat fs1 _); [done|]. destruct (Compile fs1 _); [|done]. cbn.
    rewrite lookup_insert_ne; [done|]. congruence.
Qed.

(** Every refusal of a body by its schema names at least one detail. *)
Lemma details_not_empty err : exists d ds, toValidationError err = Validation (d :: ds).
Proof. destruct err as [loc msg [|c cs]|text]; simpl; eauto. Qed.
End Validator.
Arguments SchemaValidator S : clear implicits.

(** ** A file system of named schemas: each lists the fields a body must have *)

#[export] Instance listed_schemas : SchemaLib (gmap string (list string)) (list string) (list string) := {
  Stat fs p := match fs !! p with Some _ => None | None => Some (NewErr "no such file") end;
  ReadDir fs p := inr ((fun x => (x.1, false)) <$> map_to_list fs);
  Compile fs p := match fs !! p with Some s => Ok s | None => Err (NewErr "no such file") end;
  schema_Validate s j := match filter (.∉ j) s with
                         | [] => None
                         | missing => Some (JsValidationError "" "missing" ((fun f => (f, "required")) <$> missing))
                         end;
  json_object b := if decide (b = []) then Err (NewErr "unexpected end of JSON input") else Ok [String.string_of_list_ascii b];
}.

Lemma compiled_schema_stays_witness :
  let fs := {["schemas/user.json" := ["name"]]} : gmap string (list string) in
  let v := NewSchemaValidator "schemas" in
  (Validate (∅ : gmap string (list string)) "user" (of_string "age") (getSchema fs "user" v).2).1
    = Some (Validation [("name", "required")]) /\
  (Validate (∅ : gmap string (list string)) "user" (of_string "age") v).1 <> Some (Validation [("name", "required")]).
Proof.
  split; [|vm_compute; discriminate].
  exact (compiled_schema_stays ({["schemas/user.json" := ["name"]]} : gmap string (list string)) "user" ["name"]
    (NewSchemaValidator "schemas") [] ∅ (of_string "age") eq_refl (List.Forall_nil _)).
Defined.
