(* ===== verification/Tui.v ===== *)
(** * The log viewer ([core/cmd/tui])

    The model of the terminal interface: its keys, the filters, the window of
    lines it shows.  Rendering with styles is a library's and left out: a view
    is the list of the entries shown, and [None] when slicing them would
    panic.  Numbers of lines are [int]s far from overflow and written as [Z];
    the search buffer is made of ASCII. *)
From stdpp Require Import sorting.
From S2P Require Import Prelude GoStrings Logs.
Local Open Scope string_scope.
Local Open Scope list_scope.
Local Open Scope Z_scope.

(** ** Levels *)

Definition levelStrings : list string := ["ALL"; "ERROR"; "WARN"; "INFO"].
(** A [Level] is its number; indexing [levelStrings] outside panics. *)
Definition Level_String (l : nat) : option string := levelStrings !! l.
Definition Level_Next (l : nat) : nat := ((l + 1) mod length levelStrings)%nat.
Definition LevelALL : nat := 0.

(** ** The model ([model.go]) *)

Record Model := mkModel {
  mux : Multiplexer;
  workers : list string;
  filter_ : string;
  activeKey : string;
  level : nat;
  scrollTop : Z;
  maxLines : Z;
  width : Z;
  height : Z;
  searchMode : bool;
  searchBuf : string;
}.

Definition NewModel (mx : Multiplexer) : Model := mkModel mx [] "" "ALL" LevelALL 0 0 0 0 false "".

(** The multiplexer is shared: others push entries between the messages. *)
Definition with_mux (mx : Multiplexer) (m : Model) : Model :=
  mkModel mx (workers m) (filter_ m) (activeKey m) (level m) (scrollTop m) (maxLines m) (width m) (height m)
    (searchMode m) (searchBuf m).
Definition with_workers (ws : list string) (m : Model) : Model :=
  mkModel (mux m) ws (filter_ m) (activeKey m) (level m) (scrollTop m) (maxLines m) (width m) (height m)
    (searchMode m) (searchBuf m).
Definition with_size (w h : Z) (m : Model) : Model :=
  mkModel (mux m) (workers m) (filter_ m) (activeKey m) (level m) (scrollTop m) (maxLines m) w h
    (searchMode m) (searchBuf m).
Definition with_scroll (top : Z) (m : Model) : Model :=
  mkModel (mux m) (workers m) (filter_ m) (activeKey m) (level m) top (maxLines m) (width m) (height m)
    (searchMode m) (searchBuf m).
Definition with_level (l : nat) (m : Model) : Model :=
  mkModel (mux m) (workers m) (filter_ m) (activeKey m) l (scrollTop m) (maxLines m) (width m) (height m)
    (searchMode m) (searchBuf m).
Definition with_key (k : string) (m : Model) : Model :=
  mkModel (mux m) (workers m) (filter_ m) k (level m) (scrollTop m) (maxLines m) (width m) (height m)
    (searchMode m) (searchBuf m).
Definition with_search (flt : string) (mode : bool) (buf : string) (m : Model) : Model :=
  mkModel (mux m) (workers m) flt (activeKey m) (level m) (scrollTop m) (maxLines m) (width m) (height m) mode buf.

(** [None]: the level has no name. *)
Definition fetchEntries (m : Model) : option (list Entry) :=
  let all := Entries (mux m) in
  let all := if negb (String.eqb (activeKey m) "ALL") then FilterBySource all (activeKey m) else all in
  all ← (if negb (level m =? LevelALL)%nat then FilterByLevel all <$> Level_String (level m) else Some all);
  Some (if negb (String.eqb (filter_ m) "") then FilterByCorrelationID all (filter_ m) else all).

Definition string_le (a b : string) : Prop := String.leb a b = true.
#[export] Instance string_le_dec : RelDecision string_le.
Proof. intros a b. unfold string_le. apply _. Defined.

(** The sources seen, a set, in [sort.Strings]'s order. *)
Definition sources (es : list Entry) : list string :=
  merge_sort string_le (remove_dups (filter (fun s => s <> "CORE" /\ s <> "") (Source <$> es))).
Definition refreshWorkers (m : Model) : Model := with_workers (sources (Entries (mux m))) m.

Definition visibleLines (m : Model) : Z := if height m - 3 <? 1 then 10 else height m - 3.

(** ** Keys ([update.go]) *)

(** The place of the active source among the workers, from [i] on. *)
Fixpoint index_of_key (key : string) (ws : list string) (i : Z) : Z :=
  match ws with
  | [] => -1
  | w :: ws' => if String.eqb w key then i else index_of_key key ws' (i + 1)
  end.

Definition cycleSource (m : Model) : Model :=
  with_scroll 0
    (if String.eqb (activeKey m) "ALL" then
       match workers m with [] => m | w :: _ => with_key w m end
     else
       let idx := index_of_key (activeKey m) (workers m) 0 in
       if (0 <=? idx) && (idx <? Z.of_nat (length (workers m)) - 1)
       then with_key (default "" (workers m !! Z.to_nat (idx + 1))) m
       else with_key "ALL" m).

(** Whether the program quits, and the model. *)
Definition handleKey (key : string) (m : Model) : bool * Model :=
  let on k := String.eqb key k in
  if on "ctrl+c" || on "q" then (true, m)
  else (false,
    if on "/" then with_search (filter_ m) true "" m
    else if on "up" || on "k" then if 0 <? scrollTop m then with_scroll (scrollTop m - 1) m else m
    else if on "down" || on "j" then
      if scrollTop m <? maxLines m - visibleLines m - 1 then with_scroll (scrollTop m + 1) m else m
    else if on "pgup" || on "ctrl+b" then
      with_scroll (if scrollTop m - visibleLines m <? 0 then 0 else scrollTop m - visibleLines m) m
    else if on "pgdown" || on "ctrl+f" then with_scroll (scrollTop m + visibleLines m) m
    else if on "g" then with_scroll 0 m
    else if on "G" then with_scroll (if maxLines m - visibleLines m <? 0 then 0 else maxLines m - visibleLines m) m
    else if on "tab" then cycleSource m
    else if on "l" then with_level (Level_Next (level m)) m
    else m).

Definition handleSearchKey (key : string) (m : Model) : bool * Model :=
  let on k := String.eqb key k in
  if on "enter" then (false, with_search (searchBuf m) false (searchBuf m) m)
  else if on "esc" then (false, with_search (filter_ m) false "" m)
  else if on "backspace" then
    (false, if (0 <? String.length (searchBuf m))%nat
            then with_search (filter_ m) true (take_str (String.length (searchBuf m) - 1) (searchBuf m)) m else m)
  else if on "ctrl+c" then (true, m)
  else (false, if (String.length key =? 1)%nat then with_search (filter_ m) true (searchBuf m +:+ key) m else m).

Inductive Msg := KeyMsg (key : string) | WindowSizeMsg (w h : Z) | EntryMsg (e : Entry) | TickMsg.
Definition Update (msg : Msg) (m : Model) : bool * Model :=
  match msg with
  | KeyMsg key => if searchMode m then handleSearchKey key m else handleKey key m
  | WindowSizeMsg w h => (false, refreshWorkers (with_size w h m))
  | EntryMsg _ => (false, refreshWorkers m)
  | TickMsg => (false, m)
  end.

(** ** The view ([view.go])

    [View] has a value receiver: what it writes to the model is lost, so only
    its result is here. *)
Definition clamped (m : Model) (n : Z) : Z :=
  let top := if n - visibleLines m <? scrollTop m then n - visibleLines m else scrollTop m in
  if top <? 0 then 0 else top.

(** [visible[start:end]]. *)
Definition slice {A} (lo hi : Z) (l : list A) : option (list A) :=
  if (0 <=? lo) && (lo <=? hi) && (hi <=? Z.of_nat (length l))
  then Some (take (Z.to_nat (hi - lo)) (drop (Z.to_nat lo) l)) else None.

Definition View (m : Model) : option (list Entry) :=
  entries ← fetchEntries m;
  let n := Z.of_nat (length entries) in
  let start := clamped m n in
  let stop := if n <? start + visibleLines m then n else start + visibleLines m in
  slice start stop entries.

(** ** What the window can show *)

Lemma visibleLines_pos m : 1 <= visibleLines m.
Proof. unfold visibleLines. destruct (Z.ltb_spec (height m - 3) 1); lia. Qed.

(** The start of the window and its size for [n] entries. *)
Lemma clamped_range m n : 0 <= n -> 0 <= clamped m n /\ (clamped m n <= n - visibleLines m \/ clamped m n = 0).
Proof. intros Hn. unfold clamped. repeat case_if; bool_to_prop; lia. Qed.

(** The view never panics and shows a window.  For any state of the model
    with one of the four levels - whatever [scrollTop] the keys have left -
    the slice bounds are in range: the lines shown are as many consecutive
    filtered entries as fit, or all of them. *)
Theorem View_shows_a_window (m : Model) :
  (level m < length levelStrings)%nat ->
  exists es shown, fetchEntries m = Some es /\ View m = Some shown /\
    shown = take (Z.to_nat (visibleLines m)) (drop (Z.to_nat (clamped m (Z.of_nat (length es)))) es) /\
    Z.of_nat (length shown) = Z.min (visibleLines m) (Z.of_nat (length es)).
Proof.
  intros Hl. assert (exists es, fetchEntries m = Some es) as [es He].
  { unfold fetchEntries. destruct (negb (level m =? LevelALL)%nat); [|by eexists]. unfold Level_String.
    destruct (lookup_lt_is_Some_2 levelStrings (level m) Hl) as [x ->]. by eexists. }
  pose proof (visibleLines_pos m) as Hv. set (n := Z.of_nat (length es)).
  destruct (clamped_range m n ltac:(lia)) as [H0 H1].
  exists es, (take (Z.to_nat (visibleLines m)) (drop (Z.to_nat (clamped m n)) es)).
  split; [done|]. unfold View. rewrite He. cbn [mbind option_bind]. fold n.
  assert (forall lo hi, 0 <= lo <= hi /\ hi <= n -> slice lo hi es = Some (take (Z.to_nat (hi - lo)) (drop (Z.to_nat lo) es))) as Hslice.
  { intros lo hi Hb. unfold slice. fold n. replace ((0 <=? lo) && (lo <=? hi) && (hi <=? n)) with true; [done|].
    symmetry. rewrite !andb_true_iff, !Z.leb_le. lia. }
  destruct (Z.ltb_spec n (clamped m n + visibleLines m)) as [Hlt|Hge].
  - rewrite Hslice by lia. assert (clamped m n = 0) as -> by lia. rewrite Z.sub_0_r. cbn [Z.to_nat]. rewrite drop_0.
    split_and!; [|done|rewrite length_take; lia]. f_equal. by rewrite !take_ge by lia.
  - rewrite Hslice by lia. replace (clamped m n + visibleLines m - clamped m n) with (visibleLines m) by lia.
    split_and!; [done|done|]. rewrite length_take, length_drop. lia.
Qed.

(** ** What the keys reach *)

(** Messages with what the multiplexer has become by then; the program ends at
    the first that quits. *)
Fixpoint session (msgs : list (Multiplexer * Msg)) (m : Model) : bool * Model :=
  match msgs with
  | [] => (false, m)
  | (mx, msg) :: msgs' =>
      let '(quit, m) := Update msg (with_mux mx m) in
      if quit : bool then (true, m) else session msgs' m
  end.

Record sound (m : Model) : Prop := {
  so_level : (level m < length levelStrings)%nat;
  so_lines : maxLines m = 0;
  so_scroll : 0 <= scrollTop m;
}.

Lemma cycleSource_sound m : sound m -> sound (cycleSource m).
Proof. intros [H1 H2 H3]. unfold cycleSource. repeat case_match; by split. Qed.

Lemma Update_sound msg m : sound m -> sound (Update msg m).2.
Proof.
  intros Hm. pose proof (visibleLines_pos m) as Hv. destruct msg as [key|w h|e|]; cbn [Update]; try by destruct Hm.
  destruct (searchMode m).
  - destruct Hm as [Hlv Hml Hsc]. unfold handleSearchKey. repeat case_if; by split.
  - unfold handleKey. case_if; [done|]. cbn [snd]. repeat (case_if; bool_to_prop); try done; try (by apply cycleSource_sound);
      destruct Hm as [Hlv Hml Hsc]; split; cbn; try done; try lia.
Qed.

Lemma session_sound msgs m : sound m -> sound (session msgs m).2.
Proof.
  revert m. induction msgs as [|[mx msg] msgs IH]; intros m Hm; cbn [session]; [done|].
  assert (sound (with_mux mx m)) as Hx by by destruct Hm.
  pose proof (Update_sound msg _ Hx) as Hu. destruct (Update msg (with_mux mx m)) as [[] m1]; [done|]. by apply IH.
Qed.

(** Two keys do nothing of what they say.  The number of lines is only
    written by the view, to a copy: in every state that the viewer can get
    into, however many entries there are, [down] leaves the window where it
    is, and [G], "bottom", moves it to the top. *)
Theorem scrolling_down_never_works (mx : Multiplexer) (msgs : list (Multiplexer * Msg)) (m : Model) :
  session msgs (NewModel mx) = (false, m) -> searchMode m = false ->
  Update (KeyMsg "down") m = (false, m) /\ Update (KeyMsg "j") m = (false, m) /\
  Update (KeyMsg "G") m = (false, with_scroll 0 m).
Proof.
  intros Hs Hmode. assert (sound m) as [Hl Hml Hsc].
  { change m with ((false, m).2). rewrite <-Hs. apply session_sound. split; cbn; unfold LevelALL; lia. }
  pose proof (visibleLines_pos m) as Hv. cbn [Update]. rewrite Hmode.
  assert (scrollTop m <? maxLines m - visibleLines m - 1 = false) as Hd by (apply Z.ltb_ge; lia).
  assert (maxLines m - visibleLines m <? 0 = true) as Hg by (apply Z.ltb_lt; lia).
  unfold handleKey. cbn [String.eqb orb].
  split_and!; simpl; rewrite ?Hd, ?Hg; reflexivity.
Qed.

(** ** The tab key goes round the sources *)

Lemma index_of_key_spec key ws i k :
  NoDup ws -> ws !! k = Some key -> index_of_key key ws i = i + Z.of_nat k.
Proof.
  revert i k. induction ws as [|w ws IH]; intros i k Hnd Hk; [done|]. apply NoDup_cons in Hnd as [Hni Hnd].
  cbn [index_of_key]. destruct k as [|k]; simpl in Hk.
  - injection Hk as ->. rewrite String.eqb_refl. lia.
  - destruct (String.eqb_spec w key) as [->|]; [by apply list_elem_of_lookup_2 in Hk|].
    rewrite (IH (i + 1) k Hnd Hk). lia.
Qed.

Lemma cycle_next m k w :
  NoDup (workers m) -> "ALL" ∉ workers m -> workers m !! k = Some w ->
  (if decide (k = 0%nat) then activeKey m = "ALL" else workers m !! pred k = Some (activeKey m)) ->
  cycleSource m = with_scroll 0 (with_key w m).
Proof.
  intros Hnd Hall Hk Hact. unfold cycleSource. destruct k as [|k].
  - rewrite decide_True in Hact by done. rewrite Hact, String.eqb_refl. destruct (workers m) as [|x ws]; [done|].
    by injection Hk as ->.
  - rewrite decide_False in Hact by done. cbn [pred] in Hact.
    destruct (String.eqb_spec (activeKey m) "ALL") as [E|_].
    { rewrite E in Hact. by apply list_elem_of_lookup_2 in Hact. }
    rewrite (index_of_key_spec _ _ 0 k Hnd Hact). pose proof (lookup_lt_Some _ _ _ Hk).
    rewrite (proj2 (Z.leb_le 0 _)), (proj2 (Z.ltb_lt _ _)) by lia. cbn [andb].
    replace (Z.to_nat (0 + Z.of_nat k + 1)) with (S k) by lia. by rewrite Hk.
Qed.

Lemma cycle_last m w :
  NoDup (workers m) -> "ALL" ∉ workers m -> last (workers m) = Some w -> activeKey m = w ->
  cycleSource m = with_scroll 0 (with_key "ALL" m).
Proof.
  intros Hnd Hall Hlast <-. rewrite last_lookup in Hlast. unfold cycleSource.
  destruct (String.eqb_spec (activeKey m) "ALL") as [E|_].
  { rewrite E in Hlast. by apply list_elem_of_lookup_2 in Hlast. }
  rewrite (index_of_key_spec _ _ 0 _ Hnd Hlast). pose proof (lookup_lt_Some _ _ _ Hlast).
  by rewrite (proj2 (Z.ltb_ge _ _)), andb_false_r by lia.
Qed.

(** The sources selected by [n] presses of the key. *)
Fixpoint tabs (n : nat) (m : Model) : list string :=
  match n with O => [] | S n' => let m := cycleSource m in activeKey m :: tabs n' m end.

Lemma sources_NoDup es : NoDup (sources es).
Proof. unfold sources. rewrite (merge_sort_Permutation string_le). apply NoDup_remove_dups. Qed.
Lemma sources_elem es s : s ∈ sources es <-> s <> "CORE" /\ s <> "" /\ exists e, e ∈ es /\ Source e = s.
Proof.
  unfold sources. rewrite (merge_sort_Permutation string_le), elem_of_remove_dups, list_elem_of_filter, list_elem_of_fmap.
  naive_solver.
Qed.

Lemma tabs_from m k :
  NoDup (workers m) -> "ALL" ∉ workers m ->
  (if decide (k = 0%nat) then activeKey m = "ALL" else workers m !! pred k = Some (activeKey m)) ->
  (k <= length (workers m))%nat ->
  tabs (S (length (workers m) - k)) m = drop k (workers m) ++ ["ALL"].
Proof.
  intros Hnd Hall. remember (length (workers m) - k)%nat as n eqn:Hn. revert m k Hnd Hall Hn.
  induction n as [|n IH]; intros m k Hnd Hall Hn Hact Hk.
  - assert (k = length (workers m)) as -> by lia. rewrite drop_all. cbn [tabs]. f_equal. rewrite app_nil_l.
    destruct (workers m) as [|w ws] eqn:E.
    + rewrite decide_True in Hact by done. unfold cycleSource. rewrite Hact, E, String.eqb_refl. cbn. by rewrite Hact.
    + rewrite decide_False in Hact by done. rewrite <-E, <-last_lookup in Hact.
      erewrite cycle_last; [done|by rewrite E|by rewrite E|exact Hact|done].
  - destruct (lookup_lt_is_Some_2 (workers m) k) as [w Hw]; [lia|].
    cbn [tabs]. rewrite (cycle_next m k w Hnd Hall Hw Hact). rewrite (drop_S _ w) by done. cbn [app activeKey with_scroll with_key].
    f_equal. apply (IH (with_scroll 0 (with_key w m)) (S k)); cbn; [done|done|lia|exact Hw|].
    apply lookup_lt_Some in Hw. lia.
Qed.

(** The tab key goes round.  From "ALL", after a refresh, pressing it shows
    every worker source of the buffer once, in their order, and then "ALL"
    again - provided no source is called "ALL". *)
Theorem tab_goes_round (m : Model) :
  activeKey m = "ALL" -> (forall e, e ∈ Entries (mux m) -> Source e <> "ALL") ->
  let m := refreshWorkers m in
  tabs (S (length (workers m))) m = workers m ++ ["ALL"] /\ NoDup (workers m) /\
  forall s, s ∈ workers m <-> s <> "CORE" /\ s <> "" /\ exists e, e ∈ Entries (mux m) /\ Source e = s.
Proof.
  intros Hkey Hall m'. pose proof (sources_NoDup (Entries (mux m))) as Hnd. split; [|split; [done|apply sources_elem]].
  pose proof (tabs_from m' 0) as Ht. rewrite drop_0, Nat.sub_0_r in Ht. apply Ht; [done| |done|lia].
  cbn. rewrite sources_elem. intros (_ & _ & e & He & Hs). by apply (Hall e).
Qed.

(** ** A viewer of thirty entries *)

Definition entry_of (src : string) (n : Z) : Entry := mkEntry n src "INFO" "m" "" ∅ "".
Definition busy : Multiplexer :=
  run Push ((fun i => entry_of (if (i mod 2 =? 0)%nat then "node:api" else "go:db") (Z.of_nat i)) <$> seq 0 30) (New None).
Definition watching : list (Multiplexer * Msg) := [(busy, WindowSizeMsg 80 13); (busy, KeyMsg "pgdown"); (busy, KeyMsg "/");
  (busy, KeyMsg "x"); (busy, KeyMsg "esc")].

(** Page down shows the entries from the tenth on; [down] moves nothing, and
    [G] goes back to the first. *)
Lemma scrolling_down_never_works_witness :
  exists m, session watching (NewModel busy) = (false, m) /\ scrollTop m = 10 /\
    Update (KeyMsg "down") m = (false, m) /\ scrollTop (Update (KeyMsg "G") m).2 = 0.
Proof.
  assert (scrollTop (session watching (NewModel busy)).2 = 10) as Ht by (vm_compute; reflexivity).
  assert (searchMode (session watching (NewModel busy)).2 = false) as Hm by (vm_compute; reflexivity).
  assert ((session watching (NewModel busy)).1 = false) as Hq by (vm_compute; reflexivity).
  destruct (session watching (NewModel busy)) as [q m] eqn:E. cbn [fst snd] in *. subst q.
  destruct (scrolling_down_never_works busy watching m E Hm) as (Hd & _ & Hg).
  exists m. split; [reflexivity|]. split; [exact Ht|]. split; [exact Hd|]. rewrite Hg. reflexivity.
Defined.

Lemma View_shows_a_window_witness :
  exists shown, View (NewModel busy) = Some shown /\ length shown = 10%nat.
Proof.
  destruct (View_shows_a_window (NewModel busy)) as (es & shown & He & Hv & _ & Hlen); [cbn; unfold LevelALL; lia|].
  exists shown. split; [exact Hv|].
  assert (length <$> fetchEntries (NewModel busy) = Some 30%nat) as Hn by (vm_compute; reflexivity).
  rewrite He in Hn. injection Hn as Hn. rewrite Hn in Hlen. change (visibleLines (NewModel busy)) with 10 in Hlen. lia.
Defined.

Lemma tab_goes_round_witness :
  tabs 3 (refreshWorkers (NewModel busy)) = ["go:db"; "node:api"; "ALL"].
Proof.
  assert (workers (refreshWorkers (NewModel busy)) = ["go:db"; "node:api"]) as Hw by (vm_compute; reflexivity).
  destruct (tab_goes_round (NewModel busy)) as [Ht _]; [reflexivity| |].
  - intros e He. assert (Forall (fun e => Source e <> "ALL") (Entries busy)) as Hall by by_compute.
    exact (proj1 (Forall_forall _ _) Hall e He).
  - cbv zeta in Ht. rewrite Hw in Ht. exact Ht.
Defined.
