(* ===== verification/Wiring.v ===== *)
(** * The server put together ([runServer] and the setup functions of
      [core/cmd/vyx/main.go]; [Config] and [New] of
      [infrastructure/gateway/server.go])

    What the program builds from the configuration and the environment before
    it starts anything: the loader, the route map, the transport, the core
    services, the validators, the dispatcher, the rate limiter and the HTTP
    server, all of them the modelled ones; then the start and the shutdown of
    [Main].  [log.Fatal] ends the program: a result that is an error.

    The loader of the configuration could hold the route map that the
    dispatcher serves, a shared pointer: [sighup] writes a reload through to
    the dispatcher when it does. *)
From S2P Require Import Prelude GoStrings FilePath Ipc RouteMap Circuit Worker Pool PoolManager Drainer RateLimiter Gateway Dispatcher DispatchFacts ClientIP Server Runtime Lifecycle Uds Jwt WebSocket Heartbeat Monitor Config Process Logs Main Schema.
Local Open Scope string_scope.
Local Open Scope list_scope.
Local Open Scope Z_scope.

(** ** The logger ([newLogger], [setupLogger]) *)

Inductive Encoder := JSONEncoder | ConsoleEncoder.
Inductive LogLevel := DebugLevel | InfoLevel.
Inductive Sink := StderrSink | MuxSink.
Record LogCore := mkLogCore { encoder : Encoder; level : LogLevel; sink : Sink }.

Definition newLogger (devMode : bool) (mux : option Multiplexer) : list LogCore :=
  let base := if devMode then mkLogCore ConsoleEncoder DebugLevel StderrSink else mkLogCore JSONEncoder InfoLevel StderrSink in
  match mux with
  | None => [base]
  | Some _ => [base; mkLogCore JSONEncoder DebugLevel MuxSink]
  end.
Definition setupLogger (withTUI : bool) : option Multiplexer * list LogCore :=
  let mux := if withTUI then Some (Logs.New None) else None in
  (mux, newLogger false mux).

(** ** The HTTP server *)

Record HttpConfig := mkHttpConfig {
  Addr : string;
  ReadTimeout : Z;
  WriteTimeout : Z;
  IdleTimeout : Z;
  MaxBodyBytes : Z;
  TLSCertFile : string;
  TLSKeyFile : string;
  H2CEnabled : bool;
}.
Definition defaultMaxBodyBytes : Z := 2 ^ 20.
Definition DefaultConfig : HttpConfig :=
  mkHttpConfig ":8080" (15 * second) (30 * second) (60 * second) defaultMaxBodyBytes "" "" false.
Definition DevConfig : HttpConfig :=
  mkHttpConfig (Addr DefaultConfig) (ReadTimeout DefaultConfig) (WriteTimeout DefaultConfig) (IdleTimeout DefaultConfig)
    (MaxBodyBytes DefaultConfig) (TLSCertFile DefaultConfig) (TLSKeyFile DefaultConfig) true.
Definition setupHTTPServerConfig (devMode : bool) : HttpConfig := if devMode then DevConfig else DefaultConfig.

(** What is given to [http.Server]: no write deadline, for WebSockets. *)
Record HttpServer := mkHttpServer {
  hs_Addr : string;
  hs_ReadTimeout : Z;
  hs_WriteTimeout : Z;
  hs_IdleTimeout : Z;
  hs_h2c : bool;
  hs_tls : bool;
  hs_metrics : bool;
  hs_cors : CORSConfig;
}.

(** The routes of the mux: the longest of the patterns "/ws/", "/metrics" and
    "/" that matches.  [http.ServeMux] redirects a path that is not clean -
    unless the method is CONNECT - and "/ws" to "/ws/".  It looks at the path
    as it stands in the request line; this is the path of a request that has
    no percent escapes in it. *)
Inductive Target := ToWebSocket | ToMetrics | ToHandle | Redirect (path : string).
Definition clean_path (path : string) : string :=
  let p := Clean (if has_prefix path "/" then path else "/" +:+ path) in
  if has_suffix path "/" && negb (String.eqb p "/") then p +:+ "/" else p.
Definition mux_target (metrics : bool) (method path : string) : Target :=
  if negb (String.eqb method "CONNECT") && negb (String.eqb (clean_path path) path) then Redirect (clean_path path)
  else if has_prefix path "/ws/" then ToWebSocket
  else if String.eqb path "/ws" then Redirect "/ws/"
  else if metrics && String.eqb path "/metrics" then ToMetrics
  else ToHandle.

Section Wiring.
Context {M I O F S J H : Type} `{!WorkerManager M} `{!Installer I} `{!SocketOS O} `{!SchemaLib F S J}.
(** The environment, files, YAML and JSON, the clock's two readings during
    the check of a token, and the JWT library. *)
Context (Getenv : string -> string) (Quote : string -> string) (ReadFile : string -> result bytes).
Context (yaml : bytes -> Config.Config -> result Config.Config) (json_routes : bytes -> result (list RouteEntry)).
Context (ParseWithClaims : Z -> string -> (SigningMethod -> result bytes) -> result Token).
Context (accessLog : RequestLifecycle H).

Definition defaultConfigPath := "vyx.yaml".
Definition defaultRouteMapPath := "./route_map.json".

Definition loadConfig : result (Loader * Config.Config) :=
  let configPath := if String.eqb (Getenv "VYX_CONFIG") "" then defaultConfigPath else Getenv "VYX_CONFIG" in
  let cfgLoader := NewLoader configPath in
  match LoadConfig Quote ReadFile yaml cfgLoader with
  | Err err => Err (WrapErr "failed to load vyx.yaml: " err "")
  | Ok cfg => Ok (SetCurrent (Some cfg) cfgLoader, cfg)
  end.

Definition LoadRouteMap (path : string) : result RouteMap :=
  match ReadFile path with
  | Err err => Err (WrapErr ("gateway: read route map " +:+ path +:+ ": ") err "")
  | Ok data =>
      match json_routes data with
      | Err err => Err (WrapErr "gateway: parse route map: " err "")
      | Ok routes => Ok (NewRouteMap routes)
      end
  end.
Definition route_map_path (cfg : Config.Config) : string :=
  let p := if String.eqb (RouteMapOutput (Build cfg)) "" then defaultRouteMapPath else RouteMapOutput (Build cfg) in
  if IsAbs p then p else FilePath.Join [FilePath.Dir (Getenv "VYX_CONFIG"); p].
Definition loadRouteMap (cfg : Config.Config) : RouteMap :=
  match LoadRouteMap (route_map_path cfg) with Ok rm => rm | Err _ => NewRouteMap [] end.

Definition platformTransport (socketDir : string) : Uds.Transport := Uds.New socketDir.
Definition setupTransport (cfg : Config.Config) : Uds.Transport := platformTransport (socket_dir cfg).

(** [setupCoreServices] and [setupLifecycleServices]: nothing is registered,
    no loop runs.  [m], [o] and [i] are the process manager, the operating
    system and the installer as they are. *)
Definition setupCore (cfg : Config.Config) (m : M) (o : O) (i : I) (h : heap) : Core (M:=M) (I:=I) (O:=O) :=
  Lifecycle.mkService h Repository.NewMemoryWorkerRepository m [] (Some (setupTransport cfg, o))
    (Some NewReceiver) (Some NewWorkerDrainer) (Some NewManager) i.
Definition setupMonitor : Monitor := NewMonitor.

(** Schemas that cannot be compiled are a warning. *)
Definition setupValidators (cfg : Config.Config) (fs : F) : result (JWTValidator * SchemaValidator S) :=
  let jwtSecret := of_string (Getenv (JWTSecretEnv (Security cfg))) in
  if Z.of_nat (length jwtSecret) <? 32 then Err (NewErr "JWT_SECRET must be set and at least 32 bytes long")
  else
    let schemaValidator := NewSchemaValidator (SchemasDir (Build cfg)) in
    let '(_, schemaValidator) := WarmUp fs schemaValidator in
    Ok (NewJWTValidatorWithClaims jwtSecret "" "", schemaValidator).

(** [now] and [now'] are the clock's readings for the request at hand. *)
Definition setupDispatcher (rm : RouteMap) (jwtValidator : JWTValidator) (schemaValidator : SchemaValidator S)
    (cfg : Config.Config) (fs : F) (now now' : Z) : Dispatcher (H:=H) * Registry :=
  NewDispatcher accessLog
    (mkDispatcherConfig rm
       (Some (Jwt.Validate ParseWithClaims jwtValidator now now'))
       (Some (fun name body => (Schema.Validate fs name body schemaValidator).1))
       (GlobalTimeout (Security cfg)))
    [ACircuit (Circuit.mkConfig (cb_Failures (CircuitBreaker (Security cfg))) (cb_Cooldown (CircuitBreaker (Security cfg)))
       (cb_HalfOpenMax (CircuitBreaker (Security cfg))))].

Definition setupRateLimiter (cfg : Config.Config) : RateLimiter :=
  NewRateLimiter (PerIP (Config.RateLimit (Security cfg))) (PerToken (Config.RateLimit (Security cfg))) (60 * second).

(** [New] of the server; [metrics]: the metrics provider has a handler. *)
Definition New (cfg : HttpConfig) (d : Dispatcher (H:=H)) (ipResolver : option ClientIPResolver) (metrics : bool)
    : Server * wsProxy * HttpServer :=
  (mkServer (MaxBodyBytes cfg) (default RemoteAddrResolver ipResolver),
   mkWSProxy (Dispatcher.routes d) (Dispatcher.jwt d),
   mkHttpServer (Addr cfg) (ReadTimeout cfg) 0 (IdleTimeout cfg) (H2CEnabled cfg && String.eqb (TLSCertFile cfg) "")
     (negb (String.eqb (TLSCertFile cfg) "")) metrics DefaultCORSConfig).
(** The no-op provider has no handler. *)
Definition setupHTTPServer (cfg : HttpConfig) (d : Dispatcher (H:=H)) : Server * wsProxy * HttpServer := New cfg d None false.

(** ** Running *)

Record Gateway := mkGateway {
  g_loader : Loader;
  g_config : Config.Config;
  g_routes : RouteMap;
  g_jwt : JWTValidator;
  g_schema : SchemaValidator S;
  g_circuits : Registry;
  g_limiter : RateLimiter;
  g_http : HttpConfig;
  g_core : Core (M:=M) (I:=I) (O:=O);
  g_monitor : Monitor;
}.

(** Everything of [runServer] up to the first thing that is started. *)
Definition setup (devMode : bool) (fs : F) (m : M) (o : O) (i : I) (h : heap) : result Gateway :=
  match loadConfig with
  | Err err => Err err
  | Ok (cfgLoader, cfg) =>
      let rm := loadRouteMap cfg in
      let core := setupCore cfg m o i h in
      match setupValidators cfg fs with
      | Err err => Err err
      | Ok (jwtValidator, schemaValidator) =>
          Ok (mkGateway cfgLoader cfg rm jwtValidator schemaValidator
                (setupDispatcher rm jwtValidator schemaValidator cfg fs 0 0).2
                (setupRateLimiter cfg) (setupHTTPServerConfig devMode) core setupMonitor)
      end
  end.

(** The dispatcher as it takes a request, and the server in front of it. *)
Definition dispatcher_at (g : Gateway) (fs : F) (now now' : Z) : Dispatcher (H:=H) :=
  (setupDispatcher (g_routes g) (g_jwt g) (g_schema g) (g_config g) fs now now').1.
Definition server_at (g : Gateway) (fs : F) (now now' : Z) : Server * wsProxy * HttpServer :=
  setupHTTPServer (g_http g) (dispatcher_at g fs now now').

(** [runServer]: the setup, the start and, at a signal, the shutdown. *)
Definition runServer (Getwd : result string) (StatFile : string -> bool) (unmarshal : bytes -> result HandshakePayload)
    (devMode withTUI : bool) (fs : F) (m : M) (o : O) (i : I) (h : heap)
    (inputs : nat -> Startup) (down : ShutdownInputs) : result (outcome (Gateway * list Goroutine * Stopped (M:=M) (I:=I) (O:=O))) :=
  match setup devMode fs m o i h with
  | Err err => Err err
  | Ok g =>
      Ok ('(started, core) ← startServices Getenv Getwd StatFile unmarshal devMode withTUI (g_config g) inputs (g_core g);
          stopped ← waitForShutdown down core;
          Ret (g, started, stopped))
  end.

(** A SIGHUP: the loader reloads; if it holds the route map of the
    dispatcher, the dispatcher has the new routes. *)
Definition sighup (files : string -> result bytes) (g : Gateway) : Gateway :=
  let l := reloadAll Quote files yaml json_routes (g_loader g) in
  mkGateway l (g_config g) (match routeMap l with Some rm => rm | None => g_routes g end)
    (g_jwt g) (g_schema g) (g_circuits g) (g_limiter g) (g_http g) (g_core g) (g_monitor g).
End Wiring.

(** ** What the setup gives *)

Section Facts.
Context {M I O F S J H T : Type} `{!WorkerManager M} `{!Installer I} `{!SocketOS O} `{!SchemaLib F S J}.
Context `{TR : !Dispatcher.Transport T} (enc : Encoding).
Context (Getenv : string -> string) (Quote : string -> string) (ReadFile : string -> result bytes).
Context (yaml : bytes -> Config.Config -> result Config.Config) (json_routes : bytes -> result (list RouteEntry)).
Context (ParseWithClaims : Z -> string -> (SigningMethod -> result bytes) -> result Token).
Context (accessLog : RequestLifecycle H).
Context (signed_by : string -> bytes -> string -> Token -> Prop).
Context (fs : F) (m : M) (o : O) (i : I) (h : heap).

Notation setup_of devMode := (setup (M:=M) (I:=I) (O:=O) Getenv Quote ReadFile yaml json_routes ParseWithClaims accessLog devMode fs m o i h).
Notation dispatcher_of g := (dispatcher_at (M:=M) (I:=I) (O:=O) ParseWithClaims accessLog g).

(** The parts of a gateway, as far as properties need them. *)
Record well_wired (g : Gateway (M:=M) (I:=I) (O:=O) (S:=S)) : Prop := {
  ww_config : config_ok (g_config g);
  ww_secret : secret (g_jwt g) = of_string (Getenv (JWTSecretEnv (Security (g_config g))));
  ww_strong : (32 <= length (secret (g_jwt g)))%nat;
  ww_claims : issuer (g_jwt g) = "" /\ audience (g_jwt g) = "";
  ww_no_route_map : routeMap (g_loader g) = None;
  ww_routes : g_routes g = loadRouteMap Getenv ReadFile json_routes (g_config g);
  ww_body : MaxBodyBytes (g_http g) = defaultMaxBodyBytes;
}.

Lemma LoadConfig_ok l cfg : LoadConfig Quote ReadFile yaml l = Ok cfg -> config_ok cfg.
Proof.
  unfold LoadConfig. destruct (ReadFile _) as [data|]; [|done]. destruct (yaml data Defaults) as [c|]; [|done].
  destruct (Config.Validate Quote c) as [|] eqn:E; [done|]. intros [= <-]. by apply Validate_config_ok in E.
Qed.

Lemma setup_well_wired devMode g : setup_of devMode = Ok g -> well_wired g.
Proof.
  unfold setup, loadConfig. destruct (LoadConfig _ _ _ _) as [cfg|] eqn:EL; [|done]. apply LoadConfig_ok in EL.
  unfold setupValidators. destruct (Z.ltb_spec (Z.of_nat (length (of_string (Getenv (JWTSecretEnv (Security cfg)))))) 32); [done|].
  destruct (WarmUp fs _) as [warnings sv]. intros [= <-]. split; simpl; [done..|lia|done|done|done|by destruct devMode].
Qed.

(** C7: A gateway that has started protects its routes with a secret worth the
    name.  When [runServer] gets past its setup, the secret of the token
    validator is the value of the configured environment variable and has at
    least 32 bytes; and for every request to a route that asks for roles,
    whatever the state of breakers, drainer, pools and transport, a worker
    hears of it only if its Authorization header is a token signed by an HMAC
    algorithm under that secret, acceptable in its claims and with one of the
    roles of the route.  Nothing else stands between: the dispatcher of the
    program has no listeners, and neither issuer nor audience is asked for. *)
Theorem started_gateway_protects_routes devMode (g : Gateway (M:=M) (I:=I) (O:=O) (S:=S))
    (now now' : Z) clk uuid rq (w : World (T:=T) (H:=H)) reply res :
  parse_verifies ParseWithClaims signed_by ->
  setup_of devMode = Ok g ->
  registry_ok (circuits w) ->
  Dispatch enc clk uuid (dispatcher_of g fs now now') rq w = Ret reply ->
  Lookup (g_routes g) (Method rq) (Path rq) = Some res -> re_authRoles (lr_entry res) <> [] ->
  secret (g_jwt g) = of_string (Getenv (JWTSecretEnv (Security (g_config g)))) /\
  (32 <= length (secret (g_jwt g)))%nat /\
  (wire (wd (final reply)) = wire w \/
   exists alg t role, tk_Method t = SigningMethodHMAC alg /\
     signed_by alg (secret (g_jwt g)) (stripBearerPrefix (header (Headers rq) "Authorization")) t /\
     (forall nbf, NotBefore (tk_Claims t) = Some nbf -> nbf <= now') /\
     role ∈ v_Roles (tk_Claims t) /\ role ∈ re_authRoles (lr_entry res)).
Proof.
  intros Hpv [_ Hs Hlen _ _ _ _]%setup_well_wired Hok HD EL Hroles. split_and!; [done|done|].
  destruct (protected_routes_need_signed_tokens _ enc signed_by (g_jwt g) now now' (dispatcher_of g fs now now')
    clk uuid rq w reply res Hpv eq_refl Hok (Forall_nil_2 _) HD EL Hroles) as [?|(alg & t & role & H1 & H2 & [_ _ H3] & H4 & H5)].
  - by left.
  - right. by exists alg, t, role.
Qed.

Definition with_loader (l : Loader) (g : Gateway (M:=M) (I:=I) (O:=O) (S:=S)) : Gateway :=
  mkGateway l (g_config g) (g_routes g) (g_jwt g) (g_schema g) (g_circuits g) (g_limiter g) (g_http g) (g_core g) (g_monitor g).

Lemma reloadAll_no_map files l : routeMap l = None -> routeMap (reloadAll Quote files yaml json_routes l) = None.
Proof. intros Hl. unfold reloadAll. destruct (LoadConfig _ _ _ _); simpl; by rewrite ?Hl. Qed.

Lemma sighups_touch_loader (reloads : list (string -> result bytes)) g :
  routeMap (g_loader g) = None ->
  exists l, foldl (fun g files => sighup Quote yaml json_routes files g) g reloads = with_loader l g.
Proof.
  revert g. induction reloads as [|files reloads IH]; intros g Hl; simpl.
  - exists (g_loader g). by destruct g.
  - pose proof (reloadAll_no_map files _ Hl) as Hl'. destruct (IH (sighup Quote yaml json_routes files g)) as [l ->]; [done|].
    exists l. unfold sighup, with_loader. simpl. by rewrite Hl'.
Qed.

Lemma reload_route_map files path rm data routes l :
  path <> "" -> files path = Ok data -> json_routes data = Ok routes ->
  routeMap (reloadAll Quote files yaml json_routes (WithRouteMap path rm l)) = Some (NewRouteMap routes).
Proof.
  intros Hp Hf Hj. unfold reloadAll.
  assert (forall c, routeMap (reloadRouteMap files json_routes (mkLoader (configPath l) path c (Some rm))) = Some (NewRouteMap routes)) as HR.
  { intros c. unfold reloadRouteMap. cbn [routeMapPath]. by rewrite Hf, Hj. }
  apply String.eqb_neq in Hp. destruct (LoadConfig _ _ _ _); simpl; rewrite Hp; apply HR.
Qed.

(** SIGHUP reloads nothing that runs.  The program gives its loader no
    route map and reads the configuration once, so after any number of SIGHUPs,
    whatever the files hold by then, the dispatcher, the server, the rate
    limiter, the breakers and the workers' service are those of the start.
    Had the loader been given the map with [WithRouteMap], a reload of a
    readable file would replace the routes of the dispatcher. *)
Theorem sighup_changes_nothing devMode (g : Gateway (M:=M) (I:=I) (O:=O) (S:=S))
    (reloads : list (string -> result bytes)) (now now' : Z) :
  setup_of devMode = Ok g ->
  let g' := foldl (fun g files => sighup Quote yaml json_routes files g) g reloads in
  (forall fs', dispatcher_of g' fs' now now' = dispatcher_of g fs' now now') /\
  server_at ParseWithClaims accessLog g' fs now now' = server_at ParseWithClaims accessLog g fs now now' /\
  g_limiter g' = g_limiter g /\ g_circuits g' = g_circuits g /\ g_core g' = g_core g /\
  (forall path files data routes, path <> "" -> files path = Ok data -> json_routes data = Ok routes ->
    let l := WithRouteMap path (g_routes g) (g_loader g) in
    let g1 := with_loader l g in
    Dispatcher.routes (dispatcher_of (sighup Quote yaml json_routes files g1) fs now now') = NewRouteMap routes).
Proof.
  intros [_ _ _ _ Hl _ _]%setup_well_wired. destruct (sighups_touch_loader reloads g Hl) as [l Hg]. cbv zeta. rewrite Hg.
  split_and!; try done. intros path files data routes Hp Hf Hj.
  pose proof (reload_route_map files path (g_routes g) data routes (g_loader g) Hp Hf Hj) as HR.
  unfold dispatcher_at, setupDispatcher, sighup, with_loader. simpl. by rewrite HR.
Qed.
End Facts.

(** ** A started gateway *)

Definition long_secret : string := "0123456789abcdef0123456789abcdef".
Definition demo_env (k : string) : string := if String.eqb k "JWT_SECRET" then long_secret else "".
Definition demo_yaml (_ : bytes) (c : Config.Config) : result Config.Config :=
  Ok (Config.mkConfig (mkProject "demo" "1") [] (Security c) (IPC c) (Build c)).
Definition demo_json (b : bytes) : result (list RouteEntry) :=
  if decide (b = []) then Ok demo_routes else Ok [].
Definition demo_setup : result (Gateway (M:=Log) (I:=unit) (O:=unit) (S:=list string)) :=
  setup (M:=Log) (I:=unit) (O:=unit) demo_env (fun s => s) (fun _ => Ok []) demo_yaml demo_json demo_parse
    NewAccessLogLifecycle false (∅ : gmap string (list string)) [] tt tt (mkHeap (fun _ => blank) 0%nat).

Lemma started_gateway_protects_routes_witness :
  exists g reply res, demo_setup = Ok g /\
    Dispatch demo_enc (clock 5) "uuid"
      (dispatcher_at demo_parse NewAccessLogLifecycle g (∅ : gmap string (list string)) 5 5)
      (ask "/admin/7" ("Bearer admin." +:+ long_secret)) demo_world = Ret reply /\
    wire (wd (final reply)) <> [] /\
    (32 <= length (secret (g_jwt g)))%nat /\
    (wire (wd (final reply)) = [] \/
     exists alg t role, tk_Method t = SigningMethodHMAC alg /\
       demo_signed alg (secret (g_jwt g)) ("admin." +:+ long_secret) t /\
       role ∈ v_Roles (tk_Claims t) /\ role ∈ re_authRoles (lr_entry res)).
Proof.
  destruct demo_setup as [g|] eqn:Eg; [|vm_compute in Eg; discriminate Eg].
  destruct (Dispatch demo_enc (clock 5) "uuid" (dispatcher_at demo_parse NewAccessLogLifecycle g ∅ 5 5)
    (ask "/admin/7" ("Bearer admin." +:+ long_secret)) demo_world) as [reply|] eqn:ED.
  2: { vm_compute in Eg. injection Eg as <-. vm_compute in ED. discriminate ED. }
  destruct (Lookup (g_routes g) "GET" "/admin/7") as [res|] eqn:EL.
  2: { vm_compute in Eg. injection Eg as <-. vm_compute in EL. discriminate EL. }
  exists g, reply, res.
  destruct (started_gateway_protects_routes demo_enc demo_env (fun s => s) (fun _ => Ok []) demo_yaml demo_json demo_parse
    NewAccessLogLifecycle demo_signed (∅ : gmap string (list string)) [] tt tt (mkHeap (fun _ => blank) 0%nat) false g 5 5
    (clock 5) "uuid" (ask "/admin/7" ("Bearer admin." +:+ long_secret)) demo_world reply res)
    as (_ & Hl & Hw); [exact demo_parse_verifies|exact Eg|apply NewRegistry_ok|exact ED|exact EL| |].
  { vm_compute in Eg. injection Eg as <-. vm_compute in EL. injection EL as <-. discriminate. }
  split_and!; [reflexivity|exact ED| |exact Hl|].
  - vm_compute in Eg. injection Eg as <-. vm_compute in ED. injection ED as <-. discriminate.
  - destruct Hw as [Hw|(alg & t & role & H1 & H2 & _ & H4)]; [left; exact Hw|right]. exists alg, t, role. exact (conj H1 (conj H2 H4)).
Defined.

Lemma sighup_changes_nothing_witness :
  exists g, demo_setup = Ok g /\
    let g' := foldl (fun g files => sighup (fun s => s) demo_yaml demo_json files g) g [(fun _ => Ok ["x"%char])] in
    g_limiter g' = g_limiter g /\ current (g_loader g') = current (g_loader g) /\
    Dispatcher.routes (dispatcher_at demo_parse NewAccessLogLifecycle g' (∅ : gmap string (list string)) 5 5) = NewRouteMap demo_routes.
Proof.
  destruct demo_setup as [g|] eqn:Eg; [|vm_compute in Eg; discriminate Eg]. exists g. split; [reflexivity|].
  destruct (sighup_changes_nothing demo_env (fun s => s) (fun _ => Ok []) demo_yaml demo_json demo_parse
    NewAccessLogLifecycle (∅ : gmap string (list string)) [] tt tt (mkHeap (fun _ => blank) 0%nat) false g
    [(fun _ => Ok ["x"%char])] 5 5 Eg) as (Hd & _ & Hl & _).
  cbv zeta. split; [exact Hl|]. rewrite Hd. vm_compute in Eg. injection Eg as <-. split; vm_compute; reflexivity.
Defined.
