(* ===== verification/Stack.v ===== *)
(** * The whole HTTP stack

    [Wiring] builds a gateway; here it takes requests: CORS around the mux,
    the mux in front of the WebSocket proxy and the request handler, the
    handler in front of the dispatcher, as [New] of
    [infrastructure/gateway/server.go] nests them.  The theorem says
    what a client gets; [scanned_routes_protected] is what [Project] needs to
    go from the annotations in a project's sources to what its workers hear. *)
From S2P Require Import Prelude GoStrings FilePath Ipc RouteMap Circuit Worker Pool PoolManager Drainer RateLimiter Gateway Dispatcher DispatchFacts ClientIP Server Outcome Runtime Lifecycle Uds Jwt WebSocket Heartbeat Monitor Config Regexp Scanner Generated Process Logs Main Schema Wiring.
Local Open Scope string_scope.
Local Open Scope list_scope.
Local Open Scope Z_scope.

(** The clocks, jitters and identifiers that a request meets. *)
Record Inputs := mkInputs {
  now1 : Z; rnd1 : Z; now2 : Z; rnd2 : Z;
  jwt_now : Z; jwt_now' : Z;
  in_clk : nat -> Z;
  uuid : string;
}.

(** [htmlReplacer] of net/http. *)
Definition html_char (c : ascii) : string :=
  if Ascii.eqb c "&" then "&amp;" else if Ascii.eqb c "<" then "&lt;" else if Ascii.eqb c ">" then "&gt;"
  else if Ascii.eqb c "034" then "&#34;" else if Ascii.eqb c "'" then "&#39;" else String c "".
Fixpoint html_escape (s : string) : string :=
  match s with "" => "" | String c s' => html_char c +:+ html_escape s' end%string.
Definition quoted (s : string) : string := String "034" (s +:+ String "034" "").
Definition newline : string := String "010" "".

Section Stack.
Context {M I O F S J H T C : Type} `{!WorkerManager M} `{!Installer I} `{!SocketOS O} `{!SchemaLib F S J}.
Context `{TR : !Dispatcher.Transport T} (enc : Encoding) (wenc : WSEncoding).
Context (ParseMediaType : string -> result string) (upgrade : HttpRequest -> HttpResponse * option C).
Context (ParseWithClaims : Z -> string -> (SigningMethod -> result bytes) -> result Token).
Context (accessLog : RequestLifecycle H).
(** The URL of a redirect, which is the path with the query of the request,
    and the handler of a metrics provider that has one. *)
Context (redirect_url : string -> HttpRequest -> string) (metrics_handler : HttpRequest -> HttpResponse).
Notation World := (World (T:=T) (H:=H)).
Notation Gateway := (Gateway (M:=M) (I:=I) (O:=O) (S:=S)).

(** The proxy up to the start of a session, whose life is in [WebSocket]. *)
Definition serve_ws (p : wsProxy) (id : string) (r : HttpRequest) (w : World) : outcome (HttpResponse * World) :=
  '(resp, _, t) ← WebSocket.ServeHTTP wenc upgrade p id r (wire w);
  Ret (resp, mkWorld (circuits w) (Dispatcher.drainer w) (Dispatcher.poolMgr w) (Dispatcher.workers w) t (ext w)).

(** [http.RedirectHandler] with status 301: a short page goes with the answer
    to a GET. *)
Definition redirect (path : string) (r : HttpRequest) : HttpResponse :=
  let url := redirect_url path r in
  let location : headers := {["Location" := url]} in
  if String.eqb (h_Method r) "GET" then
    mkHttpResponse 301 (<["Content-Type" := "text/html; charset=utf-8"]> location)
      (BText ("<a href=" +:+ quoted (html_escape url) +:+ ">Moved Permanently</a>." +:+ newline +:+ newline))
  else if String.eqb (h_Method r) "HEAD" then
    mkHttpResponse 301 (<["Content-Type" := "text/html; charset=utf-8"]> location) (BText "")
  else mkHttpResponse 301 location (BText "").

Definition mux (i : Inputs) (g : Gateway) (fs : F) (r : HttpRequest) (st : Server.State (W:=World))
    : outcome (HttpResponse * Server.State (W:=World)) :=
  let '(s, p, hs) := server_at ParseWithClaims accessLog g fs (jwt_now i) (jwt_now' i) in
  let ws r w := serve_ws p (uuid i) r w in
  match mux_target (hs_metrics hs) (h_Method r) (h_Path r) with
  | Redirect path => Ret (redirect path r, st)
  | ToWebSocket => '(resp, w) ← ws r (Server.core st); Ret (resp, Server.mkState (Server.rateLimiter st) w)
  | ToMetrics => Ret (metrics_handler r, st)
  | ToHandle =>
      handle ParseMediaType (plug enc (in_clk i) (uuid i) (dispatcher_at ParseWithClaims accessLog g fs (jwt_now i) (jwt_now' i))) ws
        s (now1 i) (rnd1 i) (now2 i) (rnd2 i) r st
  end.

(** The response as net/http sends it. *)
Definition serve (i : Inputs) (g : Gateway) (fs : F) (r : HttpRequest) (st : Server.State (W:=World))
    : outcome (HttpResponse * Server.State (W:=World)) :=
  '(resp, st) ← CORSMiddleware (hs_cors (server_at ParseWithClaims accessLog g fs (jwt_now i) (jwt_now' i)).2)
                  (mux i g fs) r st;
  Ret (on_the_wire (h_Method r) resp, st).

(** ** What gets through *)

(** The default configuration allows no origin, so the middleware passes
    every request on. *)
Lemma serve_mux i g fs r st :
  serve i g fs r st = ('(resp, st) ← mux i g fs r st; Ret (on_the_wire (h_Method r) resp, st)).
Proof. unfold serve, CORSMiddleware. cbn [hs_cors server_at]. simpl isOriginAllowed. by case_if. Qed.

Lemma built_header resolve r body k :
  header (Headers (buildGatewayRequest resolve r body)) k = sanitizeHeaderValue (Header_Get r k).
Proof.
  unfold header, buildGatewayRequest, Header_Get. cbn [Headers]. rewrite lookup_omap.
  by destruct (h_Header r !! k) as [[|v vs]|].
Qed.

Lemma handle_wire dispatch ws s i r (st : Server.State (W:=World)) resp st' :
  isWebSocketUpgrade r = false ->
  handle ParseMediaType dispatch ws s (now1 i) (rnd1 i) (now2 i) (rnd2 i) r st = Ret (resp, st') ->
  wire (Server.core st') = wire (Server.core st) \/
  (admitted_http ParseMediaType s (now1 i) (rnd1 i) (now2 i) (rnd2 i) r (Server.rateLimiter st) /\
   exists x, dispatch (buildGatewayRequest (ipResolver s) r (h_Body r)) (Server.core st) = Ret (x, Server.core st')).
Proof.
  intros Hws HH. destruct (handle_gates_aux ParseMediaType dispatch ws s (now1 i) (rnd1 i) (now2 i) (rnd2 i) r st Hws)
    as [[Ha [l E]]|[_ (resp' & l & E & _)]]; rewrite E in HH.
  - right. split; [done|]. destruct (dispatch _ (Server.core st)) as [[[o e] c]|]; [|done]. exists (o, e).
    destruct o as [g|], e; try (by injection HH as _ <-); [|done].
    cbn in HH. destruct (writeResponse g); [by injection HH as _ <-|done].
  - injection HH as _ <-. by left.
Qed.

(** No upgrade gets past the proxy over a map the scanner wrote. *)
Lemma serve_ws_generated write goDir tsDir pyDir frontendDir rs p id r w :
  Generate write goDir tsDir pyDir frontendDir = Ret (Written rs) -> ws_routes p = served rs ->
  exists resp, serve_ws p id r w = Ret (resp, w).
Proof.
  intros HG Hp. unfold serve_ws. rewrite (generated_maps_have_no_websockets _ _ _ _ _ _ _ _ _ _ _ _ HG Hp). cbn.
  eexists. by destruct w.
Qed.

Context (Getenv : string -> string) (Quote : string -> string) (ReadFile : string -> result bytes).
Context (yaml : bytes -> Config.Config -> result Config.Config) (json_routes : bytes -> result (list RouteEntry)).
Context (signed_by : string -> bytes -> string -> Token -> Prop).

(** What a dispatch over a generated map sends. *)
Lemma dispatch_generated write goDir tsDir pyDir frontendDir rs (d : Dispatcher (H:=H)) v now now' clk id rq w reply :
  Generate write goDir tsDir pyDir frontendDir = Ret (Written rs) -> Dispatcher.routes d = served rs ->
  Dispatcher.jwt d = Some (Jwt.Validate ParseWithClaims v now now') -> Forall transparent (Dispatcher.listeners d) ->
  parse_verifies ParseWithClaims signed_by -> registry_ok (circuits w) ->
  Dispatch enc clk id d rq w = Ret reply ->
  wire (wd (final reply)) = wire w \/
  exists rt, rt ∈ rs /\ to_upper (r_Method rt) = to_upper (Method rq) /\ route_matches (to_entry rt) (Path rq) /\
    (r_Type rt = "page" \/
     exists alg t role, tk_Method t = SigningMethodHMAC alg /\
       signed_by alg (secret v) (stripBearerPrefix (header (Headers rq) "Authorization")) t /\
       role ∈ v_Roles (tk_Claims t) /\ role ∈ r_AuthRoles rt).
Proof.
  intros HG Hd Hj Hls Hpv Hok HD.
  destruct (Lookup (Dispatcher.routes d) (Method rq) (Path rq)) as [res|] eqn:EL; [|left; by eapply unrouted_unsent].
  pose proof EL as EL'. rewrite Hd in EL'. destruct (served_lookup _ _ _ _ _ _ _ _ _ HG EL') as (rt & Hin & Hr & [_ _ _ Hauth] & Hm).
  apply Lookup_sound in EL' as (_ & _ & Hmatch). rewrite Hr in Hmatch.
  destruct (decide (r_Type rt = "page")) as [Hpage|Hne]; [right; exists rt; split_and!; by try left|].
  destruct (protected_routes_need_signed_tokens _ enc signed_by v now now' d clk id rq w reply res Hpv Hj Hok Hls HD EL)
    as [?|(alg & t & role & H1 & H2 & _ & H3 & H4)]; [rewrite Hr; by apply Hauth|by left|].
  rewrite Hr in H4. right. exists rt. split_and!; [done..|]. right. by exists alg, t, role.
Qed.

(** What a request to the gateway [g] over the routes [rs] has shown before a
    worker hears of it. *)
Definition vetted (g : Gateway) (rs : list Route) (i : Inputs) (r : HttpRequest) (st : Server.State (W:=World)) : Prop :=
  h_Method r ∈ allowedMethods /\
  (AllowIP (RemoteAddrResolver r) (now1 i) (rnd1 i) (Server.rateLimiter st)).1.1 = true /\
  (AllowToken (Header_Get r "Authorization") (now2 i) (rnd2 i)
     (AllowIP (RemoteAddrResolver r) (now1 i) (rnd1 i) (Server.rateLimiter st)).2).1.1 = true /\
  (h_Method r ∈ ["POST"; "PUT"; "PATCH"] -> ParseMediaType (Header_Get r "Content-Type") = Ok "application/json") /\
  Z.of_nat (length (h_Body r)) <= 2 ^ 20 /\
  exists rt, rt ∈ rs /\ to_upper (r_Method rt) = to_upper (h_Method r) /\ route_matches (to_entry rt) (h_Path r) /\
    (r_Type rt = "page" \/
     (32 <= length (of_string (Getenv (JWTSecretEnv (Security (g_config g))))))%nat /\
     exists alg t role, tk_Method t = SigningMethodHMAC alg /\
       signed_by alg (of_string (Getenv (JWTSecretEnv (Security (g_config g)))))
         (stripBearerPrefix (sanitizeHeaderValue (Header_Get r "Authorization"))) t /\
       role ∈ v_Roles (tk_Claims t) /\ role ∈ r_AuthRoles rt).

(** A gateway whose route map file holds scanned routes lets nothing but
    vetted requests through to its workers. *)
Lemma scanned_routes_protected write goDir tsDir pyDir frontendDir rs devMode fs m o ins h
    (g : Gateway) data (i : Inputs) r (st st' : Server.State (W:=World)) resp :
  Generate write goDir tsDir pyDir frontendDir = Ret (Written rs) ->
  setup Getenv Quote ReadFile yaml json_routes ParseWithClaims accessLog devMode fs m o ins h = Ok g ->
  ReadFile (route_map_path Getenv (g_config g)) = Ok data -> json_routes data = Ok (to_entry <$> rs) ->
  parse_verifies ParseWithClaims signed_by ->
  registry_ok (circuits (Server.core st)) ->
  serve i g fs r st = Ret (resp, st') ->
  wire (Server.core st') = wire (Server.core st) \/ vetted g rs i r st.
Proof.
  intros HG Hsetup Hfile Hjson Hpv Hok HS. apply setup_well_wired in Hsetup as [_ Hsec Hlen _ _ Hrm Hbody].
  assert (g_routes g = served rs) as Hroutes.
  { rewrite Hrm. unfold loadRouteMap, LoadRouteMap. by rewrite Hfile, Hjson. }
  rewrite serve_mux in HS. destruct (mux i g fs r st) as [[resp0 st0]|] eqn:HM; [|done]. injection HS as _ ->.
  rename HM into HS. unfold mux in HS.
  set (d := dispatcher_at ParseWithClaims accessLog g fs (jwt_now i) (jwt_now' i)) in *.
  assert (Dispatcher.routes d = served rs) as Hd by done.
  change (server_at ParseWithClaims accessLog g fs (jwt_now i) (jwt_now' i)) with (setupHTTPServer (g_http g) d) in HS.
  cbn [setupHTTPServer New] in HS.
  assert (forall r w, exists resp, serve_ws (mkWSProxy (Dispatcher.routes d) (Dispatcher.jwt d)) (uuid i) r w = Ret (resp, w)) as HWS.
  { intros r0 w. by eapply serve_ws_generated. }
  destruct (mux_target _ _) as [| | |path].
  - destruct (HWS r (Server.core st)) as [resp' HW]. rewrite HW in HS. injection HS as _ <-. by left.
  - injection HS as _ <-. by left.
  - destruct (isWebSocketUpgrade r) eqn:Ews.
    { unfold handle in HS. rewrite Ews in HS. destruct (HWS r (Server.core st)) as [resp' HW]. rewrite HW in HS.
      injection HS as _ <-. by left. }
    destruct (handle_wire _ _ _ _ _ _ _ _ Ews HS) as [?|[(A1 & A2 & A3 & A4 & A5) [x HD]]]; [by left|].
    unfold plug in HD. destruct (Dispatch _ _ _ _ _ _) as [reply|] eqn:ED; [|done]. injection HD as _ HD.
    destruct (dispatch_generated _ _ _ _ _ rs d (g_jwt g) (jwt_now i) (jwt_now' i) _ _ _ _ _ HG Hd eq_refl (Forall_nil_2 _) Hpv Hok ED)
      as [?|(rt & Hin & Hm & Hmatch & Hau)]; [left; congruence|].
    rewrite built_header in Hau. right. unfold vetted. rewrite <-Hsec. rewrite Hbody in A5. split_and!; try done. exists rt. split_and!; try done.
    destruct Hau as [?|?]; [by left|right; by split].
  - injection HS as _ <-. by left.
Qed.
End Stack.

(** ** What a client gets *)

Section Answers.
Context {M I O F S J T C : Type} `{!WorkerManager M} `{!Installer I} `{!SocketOS O} `{!SchemaLib F S J}.
Context `{TR : !Dispatcher.Transport T} (enc : Encoding) (wenc : WSEncoding).
Context (ParseMediaType : string -> result string) (upgrade : HttpRequest -> HttpResponse * option C).
Context (ParseWithClaims : Z -> string -> (SigningMethod -> result bytes) -> result Token).
Context (redirect_url : string -> HttpRequest -> string) (metrics_handler : HttpRequest -> HttpResponse).
Notation Gateway := (Gateway (M:=M) (I:=I) (O:=O) (S:=S)).
Notation serve := (serve enc wenc ParseMediaType upgrade ParseWithClaims NewAccessLogLifecycle redirect_url metrics_handler).
Notation server i g fs := (server_at ParseWithClaims NewAccessLogLifecycle g fs (jwt_now i) (jwt_now' i)).
Notation dispatcher i g fs := (dispatcher_at ParseWithClaims NewAccessLogLifecycle g fs (jwt_now i) (jwt_now' i)).

(** Status and body of the answer to a request that does not go to the
    WebSocket proxy. *)
Definition gateway_answer (i : Inputs) (g : Gateway) (fs : F) (r : HttpRequest)
    (st : Server.State (W:=World (T:=T) (H:=AccessLog))) : outcome Answer :=
  let s := (server i g fs).1.1 in
  match mux_target (hs_metrics (server i g fs).2) (h_Method r) (h_Path r) with
  | Redirect path => Ret (seen (redirect redirect_url path r))
  | ToMetrics => Ret (seen (metrics_handler r))
  | _ =>
      match http_gate ParseMediaType s (now1 i) (rnd1 i) (now2 i) (rnd2 i) r (Server.rateLimiter st) with
      | Some a => Ret a
      | None => client_answer enc (in_clk i 1%nat) (uuid i) (dispatcher i g fs)
                  (buildGatewayRequest (ipResolver s) r (h_Body r)) (Server.core st)
      end
  end.

(** The dispatcher is not asked. *)
Definition stopped_before_dispatch (i : Inputs) (g : Gateway) (fs : F) (r : HttpRequest)
    (st : Server.State (W:=World (T:=T) (H:=AccessLog))) : Prop :=
  mux_target (hs_metrics (server i g fs).2) (h_Method r) (h_Path r) <> ToHandle \/
  is_Some (http_gate ParseMediaType (server i g fs).1.1 (now1 i) (rnd1 i) (now2 i) (rnd2 i) r (Server.rateLimiter st)).

End Answers.

(** ** A project, its gateway and a request *)

Definition scanned_json (_ : bytes) : result (list RouteEntry) := Ok (to_entry <$> scanned).
Definition scanned_setup : result (Gateway (M:=Log) (I:=unit) (O:=unit) (S:=list string)) :=
  setup (M:=Log) (I:=unit) (O:=unit) demo_env (fun s => s) (fun _ => Ok []) demo_yaml scanned_json demo_parse
    NewAccessLogLifecycle true (∅ : gmap string (list string)) [] tt tt (mkHeap (fun _ => blank) 0%nat).
Definition admin_request : HttpRequest :=
  mkHttpRequest "GET" "/admin/7" {["Authorization" := ["Bearer admin." +:+ long_secret]]} ∅ [] "10.0.0.1:99".
Definition demo_inputs : Inputs := mkInputs 0 0 0 0 5 5 (clock 5) "uuid".

Definition no_metrics (_ : HttpRequest) : HttpResponse := http_Error 404 "404 page not found".

