(* ===== verification/Cli.v ===== *)
(** * The command-line tools ([cmd/vyx], [cmd/annotate], the subcommands of
      [core/cmd/vyx/main.go])

    Three programs: the scanner's front end [Annotate], the developer's tool
    [Vyx] and the subcommands of the core [Core].  A program runs in [Prog]:
    it changes the machine, prints, and may end early with an exit status.
    The machine is the class [CliOS]: files, processes, the environment, the
    console, YAML and JSON libraries; the language runtimes are those of
    [Runtime.Installer].  Parsing of flags is written out as the flag package
    does it, without the usage text that package prints. *)
From S2P Require Import Prelude GoStrings FilePath Ipc RouteMap Config Runtime Regexp Scanner.
Local Open Scope string_scope.
Local Open Scope list_scope.
Local Open Scope Z_scope.

(** ** Programs *)

Definition Prog (W A : Type) : Type := W -> (A + Z) * W.
#[export] Instance prog_ret W : MRet (Prog W) := fun A a w => (inl a, w).
#[export] Instance prog_bind W : MBind (Prog W) := fun A B f m w =>
  match m w with (inl a, w') => f a w' | (inr code, w') => (inr code, w') end.

Definition exit {W A} (code : Z) : Prog W A := fun w => (inr code, w).
Definition gets {W A} (f : W -> A) : Prog W A := fun w => (inl (f w), w).
Definition act {W A} (f : W -> A * W) : Prog W A := fun w => let '(a, w') := f w in (inl a, w').
Definition skip {W} : Prog W unit := mret tt.
Definition when {W} (b : bool) (c : Prog W unit) : Prog W unit := if b then c else skip.

(** What is printed on a terminal: text, or an annotation error, whose
    wording is left out. *)
Inductive Line := Out (text : string) | Problem (text : string) | Annotation (e : AnnotationError).

Record workerConfig := mkWorker { ID : string; Command : string; RuntimeVersion : string }.
Record projectConfig := mkProjectConfig { project : string; workers : list workerConfig }.

Class CliOS (W : Type) := {
  Getenv : string -> string;
  Stat : string -> W -> option error;
  IsNotExist : error -> bool;
  ReadFile : string -> W -> result bytes;
  WriteFile : string -> bytes -> W -> option error * W;
  MkdirAll : string -> W -> option error * W;
  Walk : string -> W -> list WalkEntry;
  Print : Line -> W -> W;
  (** A process run to its end with its output on the same console. *)
  Run : string -> list string -> W -> option error * W;
  ExitCode : error -> option Z;
  (** A process started with an environment that has these entries added,
      its number, and waiting for it. *)
  Start : string -> list string -> list string -> W -> result Z * W;
  Wait : Z -> W -> W;
  Quote : string -> string;
  MarshalRoutes : list Route -> result bytes;
  IndentJSON : bytes -> result string;
  MarshalConfig : Config.Config -> result bytes;
  UnmarshalConfig : bytes -> Config.Config -> result Config.Config;
  UnmarshalProject : bytes -> result projectConfig;
  UnmarshalAny : bytes -> option error;
}.

(** ** Flags ([flag.FlagSet.Parse], flags of type string)

    A flag set maps the names it knows to their values, at first the
    defaults. *)
Notation FlagSet := (gmap string string).
Inductive FlagWord := NotAFlag | Terminator | BadSyntax | Flag (name : string) (value : option string).
Inductive FlagError := ErrHelp | FlagErr (text : string).

Definition flag_word (s : string) : FlagWord :=
  if (String.length s <? 2)%nat || negb (has_prefix s "-") then NotAFlag
  else if String.eqb s "--" then Terminator
  else
    let name := drop_str (if has_prefix s "--" then 2 else 1)%nat s in
    if String.eqb name "" || has_prefix name "-" || has_prefix name "=" then BadSyntax
    else match index_of "=" name with
         | Some i => Flag (take_str i name) (Some (drop_str (S i) name))
         | None => Flag name None
         end.

Fixpoint ParseFlags (args : list string) (fs : FlagSet) : FlagError + FlagSet * list string :=
  match args with
  | [] => inr (fs, [])
  | s :: rest =>
      match flag_word s with
      | NotAFlag => inr (fs, args)
      | Terminator => inr (fs, rest)
      | BadSyntax => inl (FlagErr ("bad flag syntax: " +:+ s))
      | Flag name value =>
          match fs !! name with
          | None =>
              inl (if bool_decide (name ∈ ["help"; "h"]) then ErrHelp
                   else FlagErr ("flag provided but not defined: -" +:+ name))
          | Some _ =>
              match value, rest with
              | Some v, _ => ParseFlags rest (<[name := v]> fs)
              | None, v :: rest' => ParseFlags rest' (<[name := v]> fs)
              | None, [] => inl (FlagErr ("flag needs an argument: -" +:+ name))
              end
          end
      end
  end.

Definition flag_of (fs : FlagSet) (name : string) : string := default "" (fs !! name).

Fixpoint concat_str (l : list string) : string :=
  match l with [] => "" | s :: l' => s +:+ concat_str l' end.

Section Programs.
Context {W : Type} `{OS : !CliOS W} `{INST : !Installer W}.

Definition say (text : string) : Prog W unit := act (fun w => (tt, Print (Out text) w)).
Definition complain (text : string) : Prog W unit := act (fun w => (tt, Print (Problem text) w)).

(** [flag.ExitOnError] *)
Definition parse_or_exit (args : list string) (fs : FlagSet) : Prog W FlagSet :=
  match ParseFlags args fs with
  | inr (fs', _) => mret fs'
  | inl ErrHelp => exit 0
  | inl (FlagErr text) => complain text ;; exit 2
  end.

(** A Go program that panics ends with status 2. *)
Definition or_panic {A} (o : outcome A) : Prog W A :=
  match o with Ret a => mret a | Panic r => complain ("panic: " +:+ r) ;; exit 2 end.

(** ** cmd/annotate *)

(** The end of [scanner.Generate]: the file. *)
Definition write_route_map (outputPath : string) (rs : list Route) (w : W) : option error * W :=
  match MarshalRoutes rs with
  | Err err => (Some err, w)
  | Ok data =>
      match MkdirAll (FilePath.Dir outputPath) w with
      | (Some err, w) => (Some err, w)
      | (None, w) => WriteFile outputPath data w
      end
  end.

(** [scanner.Generate] on the machine: it scans, and writes when nothing is
    wrong. *)
Definition generate (goDir tsDir pyDir frontendDir output : string) (w : W)
    : outcome (list AnnotationError * option error) * W :=
  let dir d : Scanner.Dir := (d, Walk d w) in
  match Scanner.Generate (fun _ => None) (dir goDir) (dir tsDir) (dir pyDir) (dir frontendDir) with
  | Panic r => (Panic r, w)
  | Ret (Rejected errs) => (Ret (errs, None), w)
  | Ret (WriteFailed err) => (Ret ([], Some err), w)
  | Ret (Written rs) => let '(err, w) := write_route_map output rs w in (Ret ([], err), w)
  end.

Definition print_problems (errs : list AnnotationError) : Prog W unit :=
  act (fun w => (tt, foldl (fun w e => Print (Annotation e) w) w errs)).

Definition runAnnotateWithFlags (goDir tsDir pyDir frontendDir output : string) : Prog W (option error) :=
  o ← act (generate goDir tsDir pyDir frontendDir output);
  found ← or_panic o;
  match found with
  | (_, Some err) => mret (Some err)
  | (_ :: _ as annotationErrs, None) =>
      print_problems annotationErrs ;; mret (Some (NewErr "annotation errors found"))
  | ([], None) => say ("route_map.json written to " +:+ output) ;; mret None
  end.

Definition Annotate_runAnnotate : Prog W (option error) :=
  let goDir := "backend/go" in
  let tsDir := "backend/node" in
  let pyDir := "backend/python" in
  let frontendDir := "frontend/src" in
  let output := "route_map.json" in
  runAnnotateWithFlags goDir tsDir pyDir frontendDir output.

Definition runMain (goDir tsDir pyDir frontendDir output : string) : Prog W (option error) :=
  runAnnotateWithFlags goDir tsDir pyDir frontendDir output.
Definition TestMain : Prog W (option error) :=
  runMain "backend/go" "backend/node" "backend/python" "frontend/src" "route_map.json".
Definition runMainWithExit (goDir tsDir pyDir frontendDir output : string) : Prog W Z :=
  err ← runMain goDir tsDir pyDir frontendDir output;
  match err with
  | Some err => complain ("fatal: " +:+ err_text err) ;; mret 1
  | None => mret 0
  end.
(** [args] is [os.Args]. *)
Definition Annotate_main (args : list string) : Prog W unit :=
  code ← runMainWithExit "backend/go" "backend/node" "backend/python" "frontend/src" "route_map.json";
  exit code.

(** ** cmd/vyx: annotate and build *)

Definition findAnnotatePkg : Prog W string :=
  found ← gets (Stat "cmd/annotate/main.go");
  mret (match found with None => "./cmd/annotate" | Some _ => "github.com/ElioNeto/vyx/cmd/annotate" end).

Definition runAnnotateCmd (goDir tsDir frontendDir output : string) : Prog W (option error) :=
  found ← gets (LookPath "vyx-annotate");
  let path := match found with Ok path => path | Err _ => "" end in
  let flags := ["-go"; goDir; "-ts"; tsDir; "-frontend"; frontendDir; "-output"; output] in
  if negb (String.eqb path "") then act (Run path flags)
  else
    annotatePkg ← findAnnotatePkg;
    act (Run "go" (["run"; annotatePkg] ++ flags)).

Definition runBuildAnnotate (goDir tsDir frontendDir output : string) : Prog W (option error) :=
  runAnnotateCmd goDir tsDir frontendDir output.

Definition annotate_flags : FlagSet :=
  {["go" := "backend/go"; "ts" := "backend/node"; "frontend" := "frontend/src"; "output" := "route_map.json"]}.

Definition runAnnotate (args : list string) : Prog W unit :=
  fs ← parse_or_exit args annotate_flags;
  say "🔍 vyx annotate: scanning for route annotations..." ;;
  err ← runAnnotateCmd (flag_of fs "go") (flag_of fs "ts") (flag_of fs "frontend") (flag_of fs "output");
  match err with
  | Some err => complain ("error: " +:+ err_text err) ;; exit 1
  | None => skip
  end.

Definition runCommand (name : string) (args : list string) : Prog W (option error) := act (Run name args).

Definition core_build_args : list string :=
  ["build"; "-buildvcs=false"; "-o"; ".vyx/core"; "github.com/ElioNeto/vyx/core/cmd/vyx"].

Definition runBuild (args : list string) : Prog W unit :=
  fs ← parse_or_exit args annotate_flags;
  say "🔍 vyx build: scanning annotations..." ;;
  err ← runBuildAnnotate (flag_of fs "go") (flag_of fs "ts") (flag_of fs "frontend") (flag_of fs "output");
  match err with
  | Some err => complain ("error: annotation scan failed: " +:+ err_text err) ;; exit 1
  | None =>
      say ("✅ route_map.json written to " +:+ flag_of fs "output") ;;
      say "🔧 Building core binary..." ;;
      err ← runCommand "go" core_build_args;
      match err with
      | Some err => complain ("error: go build failed: " +:+ err_text err) ;; exit 1
      | None => say "✅ Build complete."
      end
  end.

(** ** cmd/vyx: new *)

Definition newline : string := String "010" "".
Definition lines (l : list string) : string := concat_str ((fun s => s +:+ newline) <$> l).

Definition newUsage : string := lines [
  "Usage: vyx new project <name>"; "";
  "Scaffolds a new vyx project directory at ./<name>/ with the following structure:"; "";
  "  <name>/"; "  ├── core/"; "  ├── backend/"; "  │   ├── go/"; "  │   ├── node/"; "  │   └── python/";
  "  ├── frontend/"; "  │   └── src/"; "  ├── schemas/"; "  └── vyx.yaml"; "";
  "Flags:"; "  -h, --help   Show this help message"].

Definition defaultVyxYAML (projectName : string) : string := lines [
  "project:"; "  name: " +:+ projectName; "  version: 0.1.0"; "";
  "workers:"; "  - id: node:api"; "    command: node backend/node/index.js"; "    replicas: 1";
  "    strategy: round-robin"; "    startup_timeout: 10s"; "    shutdown_timeout: 5s"; "";
  "security:"; "  jwt_secret_env: JWT_SECRET"; "  rate_limit:"; "    per_ip: 100"; "    per_token: 500";
  "  payload_max_size: 1mb"; "  global_timeout: 30s"; "";
  "ipc:"; "  socket_dir: /tmp/vyx"; "  arrow_threshold: 512kb"; "";
  "build:"; "  schemas_dir: ./schemas"; "  route_map_output: ./route_map.json"].

Fixpoint mkdirs (root : string) (dirs : list string) (w : W) : option error * W :=
  match dirs with
  | [] => (None, w)
  | d :: dirs' =>
      match MkdirAll (FilePath.Join [root; d]) w with
      | (Some err, w) => (Some (WrapErr ("create directory " +:+ d +:+ ": ") err ""), w)
      | (None, w) => mkdirs root dirs' w
      end
  end.

(** Failures to write these files are ignored. *)
Definition gitkeeps (root : string) (w : W) : W :=
  foldl (fun w d => (WriteFile (FilePath.Join [root; d; ".gitkeep"]) [] w).2) w
    ["backend/go"; "backend/node"; "backend/python"; "frontend/src"; "schemas"].

Definition gitignore : string := lines ["# vyx managed runtimes and binaries"; ".vyx/"].

Definition write_gitignore (root : string) (w : W) : option error * W :=
  let gitignorePath := FilePath.Join [root; ".gitignore"] in
  let missing := match Stat gitignorePath w with Some err => IsNotExist err | None => false end in
  if missing then
    match WriteFile gitignorePath (of_string gitignore) w with
    | (Some err, w) => (Some (WrapErr "write .gitignore: " err ""), w)
    | (None, w) => (None, w)
    end
  else
    let existing := match ReadFile gitignorePath w with Ok b => b | Err _ => [] end in
    if contains (String.string_of_list_ascii existing) ".vyx/" then (None, w)
    else (None, (WriteFile gitignorePath (existing ++ of_string (newline +:+ gitignore)) w).2).

Definition scaffoldProject (name : string) (w : W) : option error * W :=
  let root := FilePath.Join ["."; name] in
  match Stat root w with
  | None => (Some (NewErr ("directory " +:+ Quote root +:+ " already exists")), w)
  | Some _ =>
      match mkdirs root ["core"; "backend/go"; "backend/node"; "backend/python"; "frontend/src"; "schemas"] w with
      | (Some err, w) => (Some err, w)
      | (None, w) =>
          let vyxYAML := of_string (defaultVyxYAML name) in
          match UnmarshalAny vyxYAML with
          | Some err => (Some (WrapErr "generated vyx.yaml is invalid: " err ""), w)
          | None =>
              match WriteFile (FilePath.Join [root; "vyx.yaml"]) vyxYAML w with
              | (Some err, w) => (Some (WrapErr "write vyx.yaml: " err ""), w)
              | (None, w) => write_gitignore root (gitkeeps root w)
              end
          end
      end
  end.

Definition runNew (args : list string) : Prog W unit :=
  match args with
  | [] => say newUsage ;; exit 1
  | a0 :: rest =>
      if bool_decide (a0 ∈ ["-h"; "--help"]) then say newUsage
      else if negb (String.eqb a0 "project") then
        complain ("error: unknown subcommand " +:+ Quote a0 +:+ " for 'vyx new'") ;;
        complain "Did you mean: vyx new project <name>" ;; exit 1
      else
        let missing : Prog W unit :=
          complain "error: project name is required" ;; complain "Usage: vyx new project <name>" ;; exit 1 in
        match rest with
        | [] => missing
        | a1 :: _ =>
            let name := trim_space a1 in
            if String.eqb name "" then missing
            else
              err ← act (scaffoldProject name);
              match err with
              | Some err => complain ("error: " +:+ err_text err) ;; exit 1
              | None =>
                  say ("✅ Project " +:+ Quote name +:+ " created at ./" +:+ name +:+ "/") ;;
                  say "   Next steps:" ;; say ("     cd " +:+ name) ;; say "     vyx dev"
              end
        end
  end.

(** ** cmd/vyx: dev *)

Definition loadConfig (path : string) (w : W) : result projectConfig :=
  match ReadFile path w with Err err => Err err | Ok data => UnmarshalProject data end.

(** One worker of the loop; [detected] is the map of that name.  What the
    provisioning prints is left out. *)
Definition ensure_runtime (vyxDir : string) (detected : gset Runtime) (wk : workerConfig) : Prog W (gset Runtime) :=
  let rt := Detect (Command wk) in
  if String.eqb rt RuntimeUnknown || bool_decide (rt ∈ detected) then mret detected
  else
    let version := if String.eqb (RuntimeVersion wk) "" then DefaultVersion rt else RuntimeVersion wk in
    err ← act (Ensure rt version vyxDir);
    match err with
    | Some err => complain ("warning: failed to ensure " +:+ rt +:+ ": " +:+ err_text err)
    | None => skip
    end ;; mret ({[rt]} ∪ detected).
Fixpoint ensure_each (vyxDir : string) (detected : gset Runtime) (wks : list workerConfig) : Prog W unit :=
  match wks with
  | [] => skip
  | wk :: wks' => detected ← ensure_runtime vyxDir detected wk; ensure_each vyxDir detected wks'
  end.

Definition detectAndEnsureRuntimes (vyxDir : string) : Prog W unit :=
  cfg ← gets (loadConfig "vyx.yaml");
  match cfg with
  | Err err => complain ("warning: could not load config: " +:+ err_text err)
  | Ok cfg => ensure_each vyxDir ∅ (workers cfg)
  end.

Definition dev_flags : FlagSet := {["config" := "vyx.yaml"; "addr" := ":8080"]}.

(** The goroutine that passes on SIGINT and SIGTERM works while [Wait]
    waits. *)
Definition runDev (args : list string) : Prog W unit :=
  fs ← parse_or_exit args dev_flags;
  let configPath := flag_of fs "config" in
  let addr := flag_of fs "addr" in
  found ← gets (Stat configPath);
  match found with
  | Some _ =>
      complain ("error: config file not found: " +:+ configPath) ;;
      complain "Run 'vyx new project <name>' to scaffold a project first." ;; exit 1
  | None =>
      say "🚀 vyx dev starting..." ;;
      say ("   config : " +:+ configPath) ;; say ("   addr   : " +:+ addr) ;;
      say "   mode   : development (SIGHUP reloads config)" ;; say "" ;;
      say "🔍 Detecting runtimes..." ;;
      let vyxDir := if String.eqb (Getenv "VYX_DIR") "" then ".vyx" else Getenv "VYX_DIR" in
      detectAndEnsureRuntimes vyxDir ;;
      say "" ;; say "🔧 Building core..." ;;
      err ← act (Run "go" core_build_args);
      match err with
      | Some err => complain ("error: build failed: " +:+ err_text err) ;; exit 1
      | None =>
          started ← act (Start ".vyx/core" []
            ["VYX_CONFIG=" +:+ configPath; "VYX_ADDR=" +:+ addr; "VYX_ENV=development"]);
          match started with
          | Err err => complain ("error: failed to start core: " +:+ err_text err) ;; exit 1
          | Ok pid =>
              say ("✅ vyx core running (pid " +:+ pretty pid +:+ ")") ;;
              say "   Press Ctrl+C to stop. Send SIGHUP to reload config." ;;
              act (fun w => (tt, Wait pid w)) ;; say "👋 vyx dev stopped"
          end
      end
  end.

Definition usage : string := lines [
  "vyx — the polyglot microframework CLI"; "";
  "Usage:"; "  vyx <command> [arguments]"; "";
  "Commands:";
  "  new project <name>   Scaffold a new vyx project in ./<name>/";
  "  dev                  Start the core in development mode (hot reload)";
  "  build                Run the annotation scanner and build all artefacts";
  "  annotate             Validate annotations and print the route map to stdout"; "";
  "Flags:"; "  -h, --help           Show this help message"; "";
  "Run 'vyx <command> -help' for command-specific flags."].

Definition Vyx_main (args : list string) : Prog W unit :=
  match args with
  | _ :: cmd :: rest =>
      if String.eqb cmd "new" then runNew rest
      else if String.eqb cmd "dev" then runDev rest
      else if String.eqb cmd "build" then runBuild rest
      else if String.eqb cmd "annotate" then runAnnotate rest
      else if bool_decide (cmd ∈ ["-h"; "--help"; "help"]) then say usage
      else complain ("error: unknown command " +:+ Quote cmd) ;; complain usage ;; exit 1
  | _ => complain usage ;; exit 1
  end.

(** ** The subcommands of the core *)

Definition fatalf {A} (text : string) : Prog W A := complain ("vyx: " +:+ text) ;; exit 1.

Definition defaultConfigPath := "vyx.yaml".
Definition defaultRouteMapPath := "./route_map.json".

Definition config_path : string :=
  if String.eqb (Getenv "VYX_CONFIG") "" then defaultConfigPath else Getenv "VYX_CONFIG".

Definition mustLoadConfig : Prog W Config.Config :=
  cfg ← gets (fun w => LoadConfig Quote (fun path => ReadFile path w) UnmarshalConfig (NewLoader config_path));
  match cfg with
  | Err err => fatalf ("failed to load " +:+ config_path +:+ ": " +:+ err_text err)
  | Ok cfg => mret cfg
  end.

(** [time.Second] and the like are in nanoseconds. *)
Definition new_config (name : string) : Config.Config :=
  mkConfig (mkProject name "0.1.0")
    [mkWorkerConfig "node:api" "node" "" "" 1 "round-robin" 0 (10 * second) (5 * second)]
    (Security Defaults) (IPC Defaults) (Build Defaults).

Definition readme (name : string) : string :=
  "# " +:+ name +:+ newline +:+ newline +:+ "Created with `vyx new " +:+ name +:+ "`." +:+ newline +:+ newline +:+
  "Run `cd " +:+ name +:+ " && vyx dev` to start in development mode." +:+ newline.

(** A step that ends the program when it fails. *)
Definition must (what : string) (step : W -> option error * W) : Prog W unit :=
  err ← act step;
  match err with Some err => fatalf (what +:+ ": " +:+ err_text err) | None => skip end.

Definition cmdNew (name : string) : Prog W unit :=
  must "vyx new: create directory" (MkdirAll name) ;;
  match MarshalConfig (new_config name) with
  | Err err => fatalf ("vyx new: marshal config: " +:+ err_text err)
  | Ok cfgData =>
      must "vyx new: write vyx.yaml" (WriteFile (FilePath.Join [name; "vyx.yaml"]) cfgData) ;;
      must "vyx new: create workers" (MkdirAll (FilePath.Join [name; "workers"])) ;;
      must "vyx new: create schemas" (MkdirAll (FilePath.Join [name; "schemas"])) ;;
      must "vyx new: write README" (WriteFile (FilePath.Join [name; "README.md"]) (of_string (readme name))) ;;
      say ("✓ Project " +:+ Quote name +:+ " created." +:+ newline +:+ "  Next: cd " +:+ name +:+ " && vyx dev")
  end.

Definition core_runAnnotateCmd (goDir tsDir output : string) : Prog W (option error) :=
  let args := ["run"; "github.com/ElioNeto/vyx/cmd/annotate"; "--output"; output]
    ++ (if String.eqb goDir "" then [] else ["--go-dir"; goDir])
    ++ (if String.eqb tsDir "" then [] else ["--ts-dir"; tsDir]) in
  err ← act (Run "go" args);
  mret (match err with
        | None => None
        | Some err =>
            let isNotFound := contains (err_text err) "no required module" || bool_decide (ExitCode err = Some 127) in
            if isNotFound
            then Some (WrapErr "scanner binary not found — run `go install github.com/ElioNeto/vyx/cmd/annotate@latest`: " err "")
            else Some err
        end).

Definition dir_if_there (dir : string) : Prog W string :=
  found ← gets (Stat dir); mret (match found with None => dir | Some _ => "" end).
Definition route_map_output (cfg : Config.Config) : string :=
  let output := RouteMapOutput (Build cfg) in
  if String.eqb output "" then defaultRouteMapPath else output.

Definition cmdBuild : Prog W unit :=
  cfg ← mustLoadConfig;
  tsDir ← dir_if_there "workers";
  goDir ← dir_if_there "backend/go";
  let output := route_map_output cfg in
  err ← core_runAnnotateCmd goDir tsDir output;
  match err with
  | Some err => fatalf ("vyx build: " +:+ err_text err)
  | None => say ("✓ route_map.json written to " +:+ output)
  end.

Definition cmdAnnotate : Prog W unit :=
  cfg ← mustLoadConfig;
  tsDir ← dir_if_there "workers";
  let output := route_map_output cfg in
  err ← core_runAnnotateCmd "" tsDir output;
  match err with
  | Some err => fatalf ("vyx annotate: " +:+ err_text err)
  | None =>
      data ← gets (ReadFile output);
      match data with
      | Err err => fatalf ("vyx annotate: read output: " +:+ err_text err)
      | Ok data =>
          match IndentJSON data with
          | Err err => fatalf ("vyx annotate: parse output: " +:+ err_text err)
          | Ok text => say text
          end
      end
  end.

Definition cmdLogs : Prog W unit :=
  say "vyx logs: launching log viewer (standalone mode requires a running core)" ;;
  say "Tip: use 'vyx dev --tui' to start core with the log viewer".

Definition core_usage : string := lines [
  "vyx — polyglot process core"; "";
  "Usage:";
  "  vyx new <name>    Scaffold a new vyx project";
  "  vyx dev           Start core in development mode (h2c, verbose logs)";
  "  vyx dev --tui     Start core with interactive log viewer";
  "  vyx logs          Launch the log viewer (TUI) for a running core";
  "  vyx start         Start core in production mode";
  "  vyx build         Scan annotations and generate route_map.json";
  "  vyx annotate      Dry-run: print discovered routes to stdout";
  "  vyx help          Show this help"].
Definition printUsage : Prog W unit := say core_usage.

(** The result is the call of [runServer] the program goes on with, if any:
    [devMode] and [withTUI]. *)
Definition Core_main (args : list string) : Prog W (option (bool * bool)) :=
  let done (c : Prog W unit) : Prog W (option (bool * bool)) := c ;; mret None in
  match args with
  | _ :: subcmd :: rest =>
      let withTUI := String.eqb subcmd "dev" && bool_decide ("--tui" ∈ rest) in
      if String.eqb subcmd "new" then
        match rest with [] => fatalf "usage: vyx new <project-name>" | name :: _ => done (cmdNew name) end
      else if String.eqb subcmd "dev" then mret (Some (true, withTUI))
      else if String.eqb subcmd "logs" then done cmdLogs
      else if String.eqb subcmd "start" then mret (Some (false, false))
      else if String.eqb subcmd "build" then done cmdBuild
      else if String.eqb subcmd "annotate" then done cmdAnnotate
      else if bool_decide (subcmd ∈ ["help"; "-h"; "--help"]) then done printUsage
      else complain ("vyx: unknown subcommand " +:+ Quote subcmd) ;; printUsage ;; exit 1
  | _ => mret (Some (false, false))
  end.
End Programs.

(** ** What the programs leave alone *)

Definition status (r : unit + Z) (err : error) : option error :=
  match r with inl _ | inr 0 => None | inr _ => Some err end.

(** The contents of a file, if it can be read. *)
Definition content {W} `{!CliOS W} (q : string) (w : W) : option bytes :=
  match ReadFile q w with Ok data => Some data | Err _ => None end.
(** A name under the working directory. *)
Definition inside (q : string) : bool := negb (IsAbs q) && negb (has_prefix (Clean q) "..").

(** What is known of files, the console and processes, in a working directory
    without links, where names that differ when they are clean are
    different files.  A run of the annotation tool - installed, or through
    [go run] - is a run of [Annotate_main]; before it starts it can fail, and
    around it other programs may print. *)
Class CliLaws (W : Type) `{!CliOS W} `{!Installer W} := {
  Console : W -> list Line;
  Print_file l w q : content q (Print l w) = content q w;
  Print_console l w : Console (Print l w) = Console w ++ [l];
  MkdirAll_file d w q : content q (MkdirAll d w).2 = content q w;
  MkdirAll_console d w : Console (MkdirAll d w).2 = Console w;
  WriteFile_file p data w q :
    inside p = true -> inside q = true -> Clean q <> Clean p -> content q (WriteFile p data w).2 = content q w;
  WriteFile_console p data w : Console (WriteFile p data w).2 = Console w;
  quiet w w' := (forall q, content q w' = content q w) /\ Console w `prefix_of` Console w';
  annotate_program prog args w :=
    (prog <> "" /\ LookPath "vyx-annotate" w = Ok prog) \/
    exists pkg flags, prog = "go" /\ args = "run" :: pkg :: flags /\
      pkg ∈ ["./cmd/annotate"; "github.com/ElioNeto/vyx/cmd/annotate"];
  Run_annotate prog args w :
    annotate_program prog args w ->
    exists w1 w2 err, quiet w w1 /\
      (Run prog args w = (Some err, w1) \/
       quiet (Annotate_main (prog :: args) w1).2 w2 /\
       Run prog args w = (status (Annotate_main (prog :: args) w1).1 err, w2));
  Run_go_build flag out pkg w q :
    inside out = true -> inside q = true -> Clean q <> Clean out -> content q (Run "go" ["build"; flag; "-o"; out; pkg] w).2 = content q w;
  Run_go_build_console args w : Console w `prefix_of` Console (Run "go" ("build" :: args) w).2;
}.

Section Facts.
Context {W : Type} `{OS : !CliOS W} `{INST : !Installer W} `{LAWS : !CliLaws W}.

(** [w'] comes from [w] by printing and by writing files at the clean paths
    [ps]. *)
Record changes (ps : gset string) (w w' : W) : Prop := {
  ch_files q : inside q = true -> Clean q ∉ ps -> content q w' = content q w;
  ch_console : Console w `prefix_of` Console w';
}.
#[export] Instance changes_pre ps : PreOrder (changes ps).
Proof.
  split; [by split|]. intros w1 w2 w3 [F1 C1] [F2 C2]. split; [intros q Hi Hq; by rewrite F2, F1|by trans (Console w2)].
Qed.
Lemma changes_mono ps ps' w w' : ps ⊆ ps' -> changes ps w w' -> changes ps' w w'.
Proof. intros Hp [F C]. split; [|done]. intros q Hi Hq. apply F; [done|set_solver]. Qed.
Lemma quiet_changes ps w w' : quiet w w' -> changes ps w w'.
Proof. intros [F C]. by split. Qed.

Definition within {A} (ps : gset string) (c : Prog W A) : Prop := forall w, changes ps w (c w).2.

Lemma within_ret {A} ps (a : A) : within ps (mret a).
Proof. intros w. apply (changes_pre ps). Qed.
Lemma within_exit {A} ps code : within ps (exit code : Prog W A).
Proof. intros w. apply (changes_pre ps). Qed.
Lemma within_gets {A} ps (f : W -> A) : within ps (gets f).
Proof. intros w. apply (changes_pre ps). Qed.
Lemma within_bind {A B} ps (m : Prog W A) (f : A -> Prog W B) :
  within ps m -> (forall a, within ps (f a)) -> within ps (m ≫= f).
Proof.
  intros Hm Hf w. cbv [mbind prog_bind]. specialize (Hm w). destruct (m w) as [[a|code] w1]; [|done].
  trans w1; [done|apply Hf].
Qed.
Lemma Print_changes ps l w : changes ps w (Print l w).
Proof. split; [intros q _ _; apply Print_file|rewrite Print_console; by exists [l]]. Qed.
Lemma within_say ps text : within ps (say text).
Proof. intros w. apply Print_changes. Qed.
Lemma within_complain ps text : within ps (complain text).
Proof. intros w. apply Print_changes. Qed.
Lemma within_act {A} ps (f : W -> A * W) : (forall w, changes ps w (f w).2) -> within ps (act f).
Proof. intros Hf w. specialize (Hf w). unfold act. by destruct (f w). Qed.
End Facts.

Create HintDb cli.
#[export] Hint Resolve within_ret within_exit within_gets within_say within_complain : cli.
(** Takes a program apart into its steps. *)
Ltac by_steps :=
  repeat match goal with
    | |- within _ (_ ≫= _) => apply within_bind; [|intros ?]
    | |- within _ (if ?b then _ else _) => destruct b
    | |- within _ (match ?x with _ => _ end) => destruct x
    | _ => solve [auto with cli]
    end.

Section Annotating.
Context {W : Type} `{OS : !CliOS W} `{INST : !Installer W} `{LAWS : !CliLaws W}.

Lemma write_route_map_changes output rs w :
  inside output = true -> changes {[Clean output]} w (write_route_map output rs w).2.
Proof.
  intros Ho. unfold write_route_map. destruct (MarshalRoutes rs); [|done].
  pose proof (MkdirAll_file (FilePath.Dir output) w) as HF. pose proof (MkdirAll_console (FilePath.Dir output) w) as HC.
  destruct (MkdirAll _ w) as [[err|] w1]; simpl in HF, HC |- *; (split; [intros q Hi Hq|]).
  - apply HF.
  - by rewrite HC.
  - rewrite WriteFile_file by (done || set_solver). apply HF.
  - by rewrite WriteFile_console, HC.
Qed.

Lemma print_problems_within ps errs : within ps (print_problems (W:=W) errs).
Proof.
  apply within_act. induction errs as [|e errs IH]; intros w; [done|]. simpl.
  trans (Print (Annotation e) w); [apply Print_changes|apply IH].
Qed.
#[local] Hint Resolve print_problems_within : cli.

Lemma runAnnotateWithFlags_within goDir tsDir pyDir frontendDir output :
  inside output = true -> within {[Clean output]} (runAnnotateWithFlags (W:=W) goDir tsDir pyDir frontendDir output).
Proof.
  intros Ho. unfold runAnnotateWithFlags, or_panic. apply within_bind; [apply within_act; intros w; unfold generate|intros o].
  - destruct (Generate _ _ _ _ _) as [[errs|err|rs]|]; try done.
    pose proof (write_route_map_changes output rs w Ho) as HW. by destruct (write_route_map output rs w).
  - by_steps.
Qed.

Lemma Annotate_main_within args : within {["route_map.json"]} (Annotate_main (W:=W) args).
Proof.
  unfold Annotate_main, runMainWithExit, runMain. change "route_map.json" with (Clean "route_map.json") at 1.
  apply within_bind; [|intros; by_steps]. apply within_bind; [by apply runAnnotateWithFlags_within|intros; by_steps].
Qed.

(** A run of the annotation tool writes the one file it always writes. *)
Lemma Run_annotate_changes prog args w :
  annotate_program prog args w -> changes {["route_map.json"]} w (Run prog args w).2.
Proof.
  intros (w1 & w2 & err & Hq & [->|[Hq2 ->]])%Run_annotate; simpl; [by apply quiet_changes|].
  trans w1; [by apply quiet_changes|]. trans (Annotate_main (prog :: args) w1).2; [apply Annotate_main_within|by apply quiet_changes].
Qed.

Lemma Run_annotate_step prog args w :
  annotate_program prog args w -> changes {["route_map.json"]} w (act (Run prog args) w).2.
Proof. intros Ha. pose proof (Run_annotate_changes prog args w Ha). unfold act. by destruct (Run prog args w). Qed.

Lemma runAnnotateCmd_within goDir tsDir frontendDir output :
  within {["route_map.json"]} (runAnnotateCmd (W:=W) goDir tsDir frontendDir output).
Proof.
  intros w. unfold runAnnotateCmd, findAnnotatePkg. cbv [mbind prog_bind gets mret prog_ret].
  destruct (LookPath "vyx-annotate" w) as [path|err] eqn:EL.
  - destruct (String.eqb_spec path "") as [->|Hne]; cbn [negb]; apply Run_annotate_step; [right|by left].
    do 2 eexists. split_and!; [done..|]. destruct (Stat _ w); set_solver.
  - apply Run_annotate_step. right. do 2 eexists. split_and!; [done..|]. destruct (Stat _ w); set_solver.
Qed.

Lemma core_runAnnotateCmd_within goDir tsDir output :
  within {["route_map.json"]} (core_runAnnotateCmd (W:=W) goDir tsDir output).
Proof.
  unfold core_runAnnotateCmd. apply within_bind; [|by_steps]. intros w. apply Run_annotate_step.
  right. do 2 eexists. split_and!; [done..|]. set_solver.
Qed.

Lemma go_build_within : within {[".vyx/core"]} (runCommand (W:=W) "go" core_build_args).
Proof.
  apply within_act. intros w. split; [|apply Run_go_build_console].
  intros q Hi Hq. apply Run_go_build; [done|done|]. change (Clean ".vyx/core") with ".vyx/core". set_solver.
Qed.

Lemma within_mono {A} ps ps' (c : Prog W A) : ps ⊆ ps' -> within ps c -> within ps' c.
Proof. intros Hp Hc w. by eapply changes_mono. Qed.

Lemma within_parse ps args fs : within ps (parse_or_exit (W:=W) args fs).
Proof. unfold parse_or_exit. by_steps. Qed.

Lemma say_then {A} ps text (c : Prog W A) w : within ps c -> Out text ∈ Console ((say text ;; c) w).2.
Proof.
  intros Hc. cbv [mbind prog_bind say act]. destruct (Hc (Print (Out text) w)) as [_ [l Hl]].
  rewrite Hl, Print_console. set_solver.
Qed.

Lemma parse_or_exit_inv args fs fs' w w' :
  parse_or_exit args fs w = (inl fs', w') -> w' = w /\ exists rest, ParseFlags args fs = inr (fs', rest).
Proof.
  unfold parse_or_exit. destruct (ParseFlags args fs) as [[|text]|[fs1 rest]]; [done|done|].
  intros [= <- <-]. split; [done|by eexists].
Qed.

Lemma bind_inv {A B} (m : Prog W A) (f : A -> Prog W B) w b w' :
  (m ≫= f) w = (inl b, w') -> exists a w1, m w = (inl a, w1) /\ f a w1 = (inl b, w').
Proof. cbv [mbind prog_bind]. destruct (m w) as [[a|code] w1]; [by eauto|done]. Qed.

Lemma annotating_within goDir tsDir frontendDir output :
  within {["route_map.json"; ".vyx/core"]} (runBuildAnnotate (W:=W) goDir tsDir frontendDir output).
Proof. eapply within_mono; [|apply runAnnotateCmd_within]. set_solver. Qed.
Lemma building_within : within {["route_map.json"; ".vyx/core"]} (runCommand (W:=W) "go" core_build_args).
Proof. eapply within_mono; [|apply go_build_within]. set_solver. Qed.
#[local] Hint Resolve within_parse annotating_within building_within core_runAnnotateCmd_within : cli.

(** [vyx build] announces a file it does not write.  Whatever the flags
    are - and whatever [build.route_map_output] of the configuration is, for
    the subcommand of the core - the only files in the working directory the build can change are
    route_map.json and the binary: the annotation
    tool reads no arguments.  When the build succeeds it has nevertheless
    printed that the route map was written to the path of [--output]. *)
Theorem build_output_flag_ignored (args : list string) (w : W) :
  changes {["route_map.json"; ".vyx/core"]} w (runBuild args w).2 /\
  ((runBuild args w).1 = inl tt ->
   exists fs rest, ParseFlags args annotate_flags = inr (fs, rest) /\
     Out ("✅ route_map.json written to " +:+ flag_of fs "output") ∈ Console (runBuild args w).2) /\
  changes {["route_map.json"]} w (cmdBuild w).2.
Proof.
  split_and!.
  - enough (within {["route_map.json"; ".vyx/core"]} (runBuild (W:=W) args)) as HW by apply HW.
    unfold runBuild. by_steps.
  - destruct (runBuild args w) as [r w'] eqn:E. simpl. intros ->. unfold runBuild in E.
    apply bind_inv in E as (fs & w1 & (-> & rest & Hp)%parse_or_exit_inv & E). exists fs, rest. split; [done|].
    apply bind_inv in E as (_ & w1 & _ & E). apply bind_inv in E as (err & w2 & _ & E).
    destruct err as [err|]; [by apply bind_inv in E as (? & ? & ? & ?)|].
    match type of E with ?c _ = _ => change w' with (inl () : unit + Z, w').2 end. rewrite <-E.
    apply (say_then {["route_map.json"; ".vyx/core"]}). by_steps.
  - enough (within {["route_map.json"]} (cmdBuild (W:=W))) as HW by apply HW.
    unfold cmdBuild, mustLoadConfig, dir_if_there, fatalf. by_steps.
Qed.
End Annotating.

(** ** [vyx dev] and the configuration *)

(** What the YAML library is known for: the name of the project can only
    come from a mapping under [project], and a mapping does not decode into
    a string. *)
Class YamlLaws (W : Type) `{!CliOS W} := {
  project_is_mapping : bytes -> Prop;
  UnmarshalConfig_named data dflt cfg :
    UnmarshalConfig data dflt = Ok cfg -> Name (Project cfg) <> Name (Project dflt) -> project_is_mapping data;
  UnmarshalProject_mapping data : project_is_mapping data -> exists err, UnmarshalProject data = Err err;
}.

Section Dev.
Context {W : Type} `{OS : !CliOS W} `{INST : !Installer W} `{YAML : !YamlLaws W}.

(** [vyx dev] never provisions a runtime.  It reads the configuration
    into a type of its own, in which [project] is a string; in every file
    that the core accepts it is a mapping with the name of the project.  So
    for every project that can be served, all that the step of the runtimes
    does is print a warning. *)
Theorem dev_never_provisions (vyxDir : string) (cfg : Config.Config) (w : W) :
  LoadConfig Quote (fun path => ReadFile path w) UnmarshalConfig (NewLoader "vyx.yaml") = Ok cfg ->
  exists err, detectAndEnsureRuntimes vyxDir w =
    (inl tt, Print (Problem ("warning: could not load config: " +:+ err_text err)) w).
Proof.
  unfold LoadConfig. cbn [configPath NewLoader]. intros HL.
  destruct (ReadFile "vyx.yaml" w) as [data|err] eqn:ER; [|done].
  destruct (UnmarshalConfig data Defaults) as [c|err] eqn:EU; [|done].
  destruct (Config.Validate Quote c) as [err|] eqn:EV; [done|]. apply Validate_config_ok in EV as [Hname _ _ _ _].
  destruct (UnmarshalProject_mapping data (UnmarshalConfig_named _ _ _ EU Hname)) as [err Herr].
  exists err. unfold detectAndEnsureRuntimes, loadConfig. cbv [mbind prog_bind gets]. by rewrite ER, Herr.
Qed.
End Dev.

(** ** A machine, and witnesses

    Files and the console; the annotation tool is installed and finds no
    sources, Go builds what it is told to. *)
Record Machine := mkMachine { files : gmap string bytes; console : list Line }.
Definition put (p : string) (data : bytes) (m : Machine) : Machine :=
  mkMachine (<[Clean p := data]> (files m)) (console m).
Definition prints (l : Line) (m : Machine) : Machine := mkMachine (files m) (console m ++ [l]).

Lemma put_other p data q m : Clean q <> Clean p -> files (put p data m) !! Clean q = files m !! Clean q.
Proof. intros Hq. unfold put. cbn [files]. by rewrite lookup_insert_ne by congruence. Qed.

Definition no_file : error := NewErr "no such file or directory".
Definition tool : string := "/usr/bin/vyx-annotate".
Definition run_tool (m : Machine) : Machine :=
  prints (Out "route_map.json written to route_map.json") (put "route_map.json" (of_string "[]") m).

#[export] Instance machine_installer : Installer Machine := {
  ensureNode _ _ m := (Some no_file, m);
  ensurePython _ _ m := (Some no_file, m);
  LookPath p _ := if String.eqb p "vyx-annotate" then Ok tool else Err no_file;
  Glob _ _ := [];
}.

(** Reads the name of the project off the template of [vyx new]. *)
Definition project_line : bytes := of_string (lines ["project:"; "  name: shop"]).
Definition has_mapping (data : bytes) : bool := bool_decide (take (length project_line) data = project_line).

#[export] Instance machine_os : CliOS Machine := {
  Getenv _ := "";
  Stat p m := match files m !! Clean p with Some _ => None | None => Some no_file end;
  IsNotExist _ := true;
  ReadFile p m := match files m !! Clean p with Some data => Ok data | None => Err no_file end;
  WriteFile p data m := (None, put p data m);
  MkdirAll _ m := (None, m);
  Walk _ _ := [];
  Print := prints;
  Run prog args m :=
    if String.eqb prog tool then (None, run_tool m)
    else match args with
         | a :: args' =>
             if String.eqb a "run" then (None, run_tool m)
             else match args' with
                  | [_; _; out; _] => (None, put out (of_string "ELF") m)
                  | _ => (Some (NewErr "exit status 2"), m)
                  end
         | [] => (Some (NewErr "exit status 2"), m)
         end;
  ExitCode _ := None;
  Start _ _ _ m := (Ok 1, m);
  Wait _ m := m;
  Quote s := s;
  MarshalRoutes _ := Ok (of_string "[]");
  IndentJSON _ := Ok "[]";
  MarshalConfig _ := Ok [];
  UnmarshalConfig data dflt :=
    if has_mapping data
    then Ok (mkConfig (mkProject "shop" "0.1.0") (Workers dflt) (Security dflt) (IPC dflt) (Build dflt)) else Ok dflt;
  UnmarshalProject data := if has_mapping data then Err (NewErr "cannot unmarshal !!map into string") else Ok (mkProjectConfig "" []);
  UnmarshalAny _ := None;
}.

#[export, refine] Instance machine_laws : CliLaws Machine := { Console := console }.
Proof.
  - done.
  - done.
  - done.
  - done.
  - intros p data w q _ _ Hq. unfold content. cbn [ReadFile WriteFile machine_os snd]. by rewrite put_other.
  - done.
  - intros prog args w Ha. exists w, (run_tool w), no_file. split; [by split|]. right. split; [by split|].
    cbn [Run machine_os]. destruct Ha as [[_ [= <-]]|(pkg & flags & -> & -> & _)]; done.
  - intros flag out pkg w q _ _ Hq. unfold content. cbn [ReadFile Run machine_os]. change (String.eqb "go" tool) with false.
    change (String.eqb "build" "run") with false. cbv iota. cbn [snd]. by rewrite put_other.
  - intros args w. cbn. destruct args as [|? [|? [|? [|? [|? ?]]]]]; done.
Defined.

#[export, refine] Instance machine_yaml : YamlLaws Machine := { project_is_mapping data := has_mapping data = true }.
Proof.
  - intros data dflt cfg. cbn. destruct (has_mapping data); [done|]. by intros [= <-].
  - intros data Hd. cbn. rewrite Hd. by eexists.
Defined.

Definition workdir : Machine := mkMachine {["vyx.yaml" := of_string (defaultVyxYAML "shop")]} [].

(** [vyx build --output dist/routes.json]: announced, not there. *)
Lemma build_output_flag_ignored_witness :
  let w' := (runBuild ["--output"; "dist/routes.json"] workdir).2 in
  Out "✅ route_map.json written to dist/routes.json" ∈ Console w' /\
  content "dist/routes.json" w' = content "dist/routes.json" workdir /\
  ReadFile "dist/routes.json" workdir = Err no_file /\ ReadFile "route_map.json" w' = Ok (of_string "[]").
Proof.
  destruct (build_output_flag_ignored ["--output"; "dist/routes.json"] workdir) as ([Hf _] & Hs & _). cbv zeta.
  split; [|split; [apply Hf; [vm_compute; reflexivity|apply (bool_decide_unpack _); vm_compute; exact I]|split; vm_compute; reflexivity]].
  destruct Hs as (fs & rest & Hp & Hin); [vm_compute; reflexivity|]. vm_compute in Hp. injection Hp as <- <-. exact Hin.
Defined.

Lemma dev_never_provisions_witness :
  exists err, detectAndEnsureRuntimes ".vyx" workdir =
    (inl tt, Print (Problem ("warning: could not load config: " +:+ err_text err)) workdir).
Proof.
  destruct (LoadConfig Quote (fun path => ReadFile path workdir) UnmarshalConfig (NewLoader "vyx.yaml")) as [cfg|err] eqn:E.
  - exact (dev_never_provisions ".vyx" cfg workdir E).
  - exfalso. vm_compute in E. discriminate.
Defined.
