(* ===== verification/Recovery.v ===== *)
(** * Recovered panics and published events ([infrastructure/recovery],
      [infrastructure/logger/event_publisher.go])

    What a background goroutine does when it panics: the panic is logged,
    with its stack, and the goroutine ends; a function to run in its place
    may be started.  Every loop of the program is guarded like that and none
    gives such a function.  A log is the list of its entries. *)
From S2P Require Import Prelude GoStrings Worker.
Local Open Scope string_scope.
Local Open Scope list_scope.

(** ** Fields of a log entry ([zap.go]) *)

(** A value of type [any], as far as it is looked at: a string or not. *)
Inductive value := VString (s : string) | VOther (text : string).
Record entry := mkEntry { e_level : string; e_message : string; e_fields : list (string * value) }.

(** Pairs whose key is not a string are left out. *)
Fixpoint pairs (kv : list value) : list (string * value) :=
  match kv with
  | k :: v :: kv' => match k with VString key => (key, v) :: pairs kv' | VOther _ => pairs kv' end
  | _ => []
  end.
Definition toZapFields (kv : list value) : list (string * value) :=
  pairs kv ++ (if Nat.odd (length kv) then match last kv with Some v => [("extra", v)] | None => [] end else []).

Definition Error (msg : string) (kv : list value) (log : list entry) : list entry :=
  log ++ [mkEntry "error" msg (toZapFields kv)].
Definition Warn (msg : string) (kv : list value) (log : list entry) : list entry :=
  log ++ [mkEntry "warn" msg (toZapFields kv)].

(** ** Goroutines ([recovery.go]) *)

(** A goroutine with [defer recovery.LogPanic(log, component, restartFn)]:
    the effect of its body on a state, and the functions started in its
    place.  What a body that panics did before is the state it panics with.
    [stack] and [now] are the runtime's stack trace and time. *)
Inductive ending (S : Type) := Finished (s : S) | Panicked (s : S) (r : string).
Arguments Finished {S} s.
Arguments Panicked {S} s r.

Definition LogPanic {S G} (component stack now : string) (log : option (list entry)) (restartFn : option G)
    (e : ending S) : S * option (list entry) * list G :=
  match e with
  | Finished s => (s, log, [])
  | Panicked s r =>
      (s,
       Error "panic recovered"
         [VString "component"; VString component; VString "panic"; VString r;
          VString "stack"; VString (take_str 4096 stack); VString "time"; VString now] <$> log,
       option_list restartFn)
  end.

(** ** Events ([event_publisher.go]) *)

Definition event_text (t : EventType) : string :=
  match t with
  | EventSpawned => "worker.spawned" | EventRunning => "worker.running" | EventUnhealthy => "worker.unhealthy"
  | EventRestarting => "worker.restarting" | EventStopped => "worker.stopped" | EventHeartbeat => "worker.heartbeat"
  end.

(** [time] is the encoding of a time stamp. *)
Definition Publish (time : Z -> string) (e : Event) (log : list entry) : list entry :=
  log ++ [mkEntry "info" "worker event"
    [("event", VString (event_text (ev_type e))); ("worker_id", VString (ev_workerID e));
     ("state", VString (ev_state e)); ("timestamp", VString (time (ev_timestamp e)));
     ("details", VString (ev_details e))]].

(** ** Facts *)

Lemma pairs_flat (kvs : list (string * value)) :
  pairs (kvs ≫= fun kv => [VString kv.1; kv.2]) = kvs.
Proof. induction kvs as [|[k v] kvs IH]; [done|]. cbn. by f_equal. Qed.

(** Fields given as keys and values come out as they went in. *)
Lemma toZapFields_flat (kvs : list (string * value)) :
  toZapFields (kvs ≫= fun kv => [VString kv.1; kv.2]) = kvs.
Proof.
  unfold toZapFields. rewrite pairs_flat.
  assert (Nat.odd (length (kvs ≫= fun kv => [VString kv.1; kv.2])) = false) as ->; [|by rewrite app_nil_r].
  induction kvs as [|[k v] kvs IH]; [done|]. exact IH.
Qed.

(** A panic is never passed on: the goroutine ends with what it had done, the
    log has one more entry, and with no function to restart nothing takes its
    place. *)
Lemma LogPanic_ends {S G} component stack now log s r :
  LogPanic component stack now (Some log) (None : option G) (Panicked (S:=S) s r) =
    (s, Some (log ++ [mkEntry "error" "panic recovered"
       [("component", VString component); ("panic", VString r); ("stack", VString (take_str 4096 stack)); ("time", VString now)]]), []).
Proof. reflexivity. Qed.

(** What is published tells events apart. *)
Lemma event_text_inj : Inj (=) (=) event_text.
Proof. by intros [] []. Qed.
Lemma Publish_inj time e e' log :
  Inj (=) (=) time -> Publish time e log = Publish time e' log -> e = e'.
Proof.
  intros Ht [= H1 H2 H3 H4 H5]%app_inv_head. apply event_text_inj in H1. apply Ht in H4.
  destruct e, e'; simpl in *. congruence.
Qed.
