(* ===== verification/Project.v ===== *)
(** * A project, from its sources to a request

    The annotation tool ([Cli]) scans the sources of a project and writes its
    route map; the gateway ([Wiring], [Stack]) is started in the same
    directory and reads it.  The theorem runs through all of it: scanner,
    generator, file, set-up, HTTP server, dispatcher, transport. *)
From S2P Require Import Prelude GoStrings FilePath Ipc RouteMap Circuit Worker Pool PoolManager Drainer RateLimiter Gateway Dispatcher DispatchFacts ClientIP Server Runtime Lifecycle Uds Jwt WebSocket Heartbeat Monitor Config Regexp Scanner Generated Process Logs Main Schema Wiring Cli Stack.
Local Open Scope string_scope.
Local Open Scope list_scope.
Local Open Scope Z_scope.

(** The one file the tool and the gateway share is a regular file, not a device
    or a pipe: what [os.WriteFile] has written to it without an error,
    [os.ReadFile] reads under the same name, and printing to the console does
    not change it. *)
Class PlainFile (W : Type) `{!CliOS W} (p : string) := {
  WriteFile_read data w w' : WriteFile p data w = (None, w') -> Cli.ReadFile p w' = Ok data;
  Print_read l w : Cli.ReadFile p (Print l w) = Cli.ReadFile p w;
}.

(** A scan is rejected for its errors only, and fails to write only when the
    writing does. *)
Lemma Generate_outcomes write goDir tsDir pyDir frontendDir o :
  Generate write goDir tsDir pyDir frontendDir = Ret o ->
  match o with
  | Written _ => True
  | Rejected errs => errs <> []
  | WriteFailed err => exists rs, write rs = Some err
  end.
Proof.
  unfold Generate. destruct (scan_dir ParseGoFiles _ _) as [go|]; cbn [mbind outcome_mbind outcome_bind]; [|done].
  destruct (scan_dir ParseTSFiles _ _) as [ts|]; cbn [mbind outcome_mbind outcome_bind]; [|done].
  destruct (scan_dir ParsePyFiles _ _) as [py|]; cbn [mbind outcome_mbind outcome_bind]; [|done].
  destruct (scan_dir ParseTSXFiles _ _) as [fe|]; cbn [mbind outcome_mbind outcome_bind]; [|done].
  destruct (_ ++ _ ++ _ ++ _ ++ (Scanner.Validate _).1); [|by intros [= <-]].
  destruct (write _) eqn:Ew; intros [= <-]; [by eexists|done].
Qed.

Section Annotated.
Context {W : Type} `{OS : !CliOS W}.

(** The routes of the four directories as [w] has them. *)
Definition scan (goDir tsDir pyDir frontendDir : string) (w : W) : outcome generated :=
  Generate (fun _ => None) (goDir, Walk goDir w) (tsDir, Walk tsDir w) (pyDir, Walk pyDir w) (frontendDir, Walk frontendDir w).

(** A tool that reports success has written the routes it scanned. *)
Lemma annotate_writes goDir tsDir pyDir frontendDir output w w' `{!PlainFile W output} :
  runAnnotateWithFlags goDir tsDir pyDir frontendDir output w = (inl None, w') ->
  exists rs data, scan goDir tsDir pyDir frontendDir w = Ret (Written rs) /\
    MarshalRoutes rs = Ok data /\ Cli.ReadFile output w' = Ok data.
Proof.
  unfold runAnnotateWithFlags, generate, scan. cbv [mbind prog_bind act].
  destruct (Generate _ _ _ _ _) as [[errs|err|rs]|reason] eqn:EG; cbn.
  - apply Generate_outcomes in EG. by destruct errs.
  - by apply Generate_outcomes in EG as [? ?].
  - unfold write_route_map. destruct (MarshalRoutes rs) as [data|e] eqn:EM; [|done].
    destruct (MkdirAll _ w) as [[e|] w1]; [done|]. destruct (WriteFile output data w1) as [[e|] w2] eqn:EW; [done|].
    cbn. intros [= <-]. exists rs, data. split_and!; [done|done|]. rewrite Print_read. by eapply WriteFile_read.
  - done.
Qed.

Lemma Annotate_main_writes args w w' `{!PlainFile W "route_map.json"} : Annotate_main args w = (inr 0, w') ->
  exists rs data, scan "backend/go" "backend/node" "backend/python" "frontend/src" w = Ret (Written rs) /\
    MarshalRoutes rs = Ok data /\ Cli.ReadFile "route_map.json" w' = Ok data.
Proof.
  unfold Annotate_main, runMainWithExit, runMain. cbv [mbind prog_bind].
  destruct (runAnnotateWithFlags _ _ _ _ _ w) as [[[e|]|c] w1] eqn:E; cbn.
  - done.
  - intros [= <-]. by apply annotate_writes in E.
  - intros [= -> <-]. revert E. unfold runAnnotateWithFlags. cbv [mbind prog_bind act].
    destruct (generate _ _ _ _ _ _) as [[[[|x l] [e|]]|] w2]; cbn; done.
Qed.
End Annotated.

(** ** From the sources to a request *)

Section Composed.
Context {W : Type} `{OS : !CliOS W} `{PF : !PlainFile W "route_map.json"}.
Context {M I O F S J H T C : Type} `{!WorkerManager M} `{!Installer I} `{!SocketOS O} `{!SchemaLib F S J}.
Context `{TR : !Dispatcher.Transport T} (enc : Encoding) (wenc : WSEncoding).
Context (ParseMediaType : string -> result string) (upgrade : HttpRequest -> HttpResponse * option C).
Context (ParseWithClaims : Z -> string -> (SigningMethod -> result bytes) -> result Token).
Context (accessLog : RequestLifecycle H).
Context (redirect_url : string -> HttpRequest -> string) (metrics_handler : HttpRequest -> HttpResponse).
Context (json_routes : bytes -> result (list RouteEntry)).
Context (signed_by : string -> bytes -> string -> Token -> Prop).
Notation World := (World (T:=T) (H:=H)).

(** The set-up of the gateway on the machine [w]: its environment, its files
    and its YAML. *)
Definition setup_on (w : W) :=
  setup (M:=M) (I:=I) (O:=O) (S:=S) (F:=F) (J:=J) (Cli.Getenv (W:=W)) (Cli.Quote (W:=W)) (fun p => Cli.ReadFile p w)
    (UnmarshalConfig (W:=W)) json_routes ParseWithClaims accessLog.

(** C1: From the sources of a project to a request, through the whole program.
    The annotation tool is run in a project, whose routes JSON can carry, and
    exits with 0; the gateway is started there over the files as the tool left
    them, its configuration naming the file that the tool writes,
    "route_map.json", which is a regular file, and gets through its setup.
    Then, whatever HTTP request arrives in whatever state of the gateway, no
    worker hears of anything unless the request's method is one
    the gateway takes, its address and its token are within their rates, its
    body is at most 1 MiB and said to be JSON where the method carries one -
    and its route was annotated in the sources as a page, or the Authorization
    header, cleaned and less its prefix, is a token that an HMAC algorithm
    signed under the configured secret, which has at least 32 bytes, with one
    of the roles of the annotation. *)
Theorem annotations_protect_end_to_end args w w' devMode fs m o ins h g (i : Inputs) r
    (st st' : Server.State (W:=World)) resp :
  Annotate_main args w = (inr 0, w') ->
  setup_on w' devMode fs m o ins h = Ok g ->
  route_map_path (Cli.Getenv (W:=W)) (g_config g) = "route_map.json" ->
  (forall rs data, scan "backend/go" "backend/node" "backend/python" "frontend/src" w = Ret (Written rs) ->
     MarshalRoutes rs = Ok data -> json_routes data = Ok (to_entry <$> rs)) ->
  parse_verifies ParseWithClaims signed_by ->
  registry_ok (circuits (Server.core st)) ->
  serve enc wenc ParseMediaType upgrade ParseWithClaims accessLog redirect_url metrics_handler i g fs r st = Ret (resp, st') ->
  exists rs, scan "backend/go" "backend/node" "backend/python" "frontend/src" w = Ret (Written rs) /\
    (wire (Server.core st') = wire (Server.core st) \/
     vetted ParseMediaType (Cli.Getenv (W:=W)) signed_by g rs i r st).
Proof.
  intros HA Hset Hpath Hjson Hpv Hok HS.
  destruct (Annotate_main_writes args w w' HA) as (rs & data & Hscan & HM & HR). exists rs. split; [exact Hscan|].
  specialize (Hjson rs data Hscan HM). unfold scan in Hscan.
  eapply scanned_routes_protected; [exact Hscan|exact Hset| |exact Hjson|done|done|exact HS].
  cbv beta. by rewrite Hpath.
Qed.
End Composed.

(** ** A project with one Go file and one page *)

Definition project_sources (dir : string) : list WalkEntry :=
  if String.eqb dir "backend/go" then go_walk else if String.eqb dir "frontend/src" then page_walk else [].
Definition project_routes : list Route :=
  [mkRoute "/admin/:id" "GET" "go:go" ["admin"] "" "api" "backend/admin.go" 2;
   mkRoute "/" "GET" "node:ssr" [] "" "page" "frontend/home.tsx" 1].

#[export] Instance Route_eq_dec : EqDecision Route.
Proof. solve_decision. Defined.

(** The machine of [Cli] with sources, a secret in its environment and a JSON
    library that knows these routes. *)
Definition project_os : CliOS Machine := {|
  Cli.Getenv := demo_env;
  Stat := Stat (W:=Machine);
  IsNotExist := IsNotExist (W:=Machine);
  Cli.ReadFile := Cli.ReadFile (W:=Machine);
  WriteFile := WriteFile (W:=Machine);
  MkdirAll := MkdirAll (W:=Machine);
  Walk dir _ := project_sources dir;
  Print := Print (W:=Machine);
  Run := Run (W:=Machine);
  ExitCode := ExitCode (W:=Machine);
  Start := Start (W:=Machine);
  Wait := Wait (W:=Machine);
  Cli.Quote s := s;
  MarshalRoutes rs := if decide (rs = project_routes) then Ok (of_string "[]") else Err no_file;
  IndentJSON := IndentJSON (W:=Machine);
  MarshalConfig := MarshalConfig (W:=Machine);
  UnmarshalConfig := demo_yaml;
  UnmarshalProject := UnmarshalProject (W:=Machine);
  UnmarshalAny := UnmarshalAny (W:=Machine);
|}.
#[refine] Instance project_files : PlainFile Machine (CliOS0 := project_os) "route_map.json" := {}.
Proof.
  - intros data w w' [= <-]. cbn. by rewrite lookup_insert_eq.
  - done.
Defined.

Definition project_json (_ : bytes) : result (list RouteEntry) := Ok (to_entry <$> project_routes).
Definition annotated : Machine := (Annotate_main (OS := project_os) [] workdir).2.
Definition project_setup : result (Gateway (M:=Log) (I:=unit) (O:=unit) (S:=list string)) :=
  setup_on (OS := project_os) (F := gmap string (list string)) demo_parse NewAccessLogLifecycle project_json annotated
    true ∅ [] tt tt (mkHeap (fun _ => blank) 0%nat).

Lemma annotations_protect_end_to_end_witness :
  exists g resp st', project_setup = Ok g /\
    serve (O:=unit) demo_enc demo_ws demo_media accepts demo_parse NewAccessLogLifecycle (fun p _ => p) no_metrics demo_inputs g
      (∅ : gmap string (list string)) admin_request (demo_state demo_world) = Ret (resp, st') /\
    wire (Server.core st') <> [] /\
    vetted demo_media demo_env demo_signed g project_routes demo_inputs admin_request (demo_state demo_world).
Proof.
  destruct project_setup as [g|] eqn:Eg; [|vm_compute in Eg; discriminate Eg].
  destruct (serve (O:=unit) demo_enc demo_ws demo_media accepts demo_parse NewAccessLogLifecycle (fun p _ => p) no_metrics demo_inputs g
    (∅ : gmap string (list string)) admin_request (demo_state demo_world)) as [[resp st']|] eqn:ES.
  2: { vm_compute in Eg. injection Eg as <-. vm_compute in ES. discriminate ES. }
  exists g, resp, st'. split; [reflexivity|]. split; [exact ES|].
  assert (wire (Server.core st') <> []) as Hw.
  { vm_compute in Eg. injection Eg as <-. vm_compute in ES. injection ES as _ <-. discriminate. }
  split; [exact Hw|].
  destruct (annotations_protect_end_to_end (OS := project_os) demo_enc demo_ws demo_media accepts demo_parse
    NewAccessLogLifecycle (fun p _ => p) no_metrics project_json demo_signed [] workdir annotated true
    (∅ : gmap string (list string)) [] tt tt (mkHeap (fun _ => blank) 0%nat) g demo_inputs admin_request
    (demo_state demo_world) st' resp) as (rs & Hscan & Hv).
  - vm_compute. reflexivity.
  - exact Eg.
  - vm_compute in Eg. injection Eg as <-. vm_compute. reflexivity.
  - intros rs data _. cbn. case_decide as Hrs; [|intros HM; discriminate HM]. intros _. rewrite Hrs. reflexivity.
  - exact demo_parse_verifies.
  - apply NewRegistry_ok.
  - exact ES.
  - assert (rs = project_routes) as ->.
    { vm_compute in Hscan. injection Hscan as <-. reflexivity. }
    destruct Hv as [Heq|Hv]; [destruct (Hw Heq)|exact Hv].
Defined.
